(* ===== verification/_CoqProject ===== *)
-Q . S2P
Prelude.v
Flash.v
Boot.v
BootSpec.v
BootCopy.v
BootState.v
BootSafety.v
BootCycle.v
FlashSim.v
BootTheorems.v
Base64.v
UrlCode.v
Md5.v
Dhcpd.v
DhcpdParse.v
DhcpdTable.v
DhcpdServer.v
DhcpdReply.v
DhcpdTheorems.v
DhcpdDaemon.v
CLib.v
NshParse.v
NshText.v
NshSteps.v
NshScript.v
NshInv.v
NshTotal.v
NshTest.v
NshTheorems.v
MbCrc.v
MbPort.v
MbLine.v
MbRtu.v
MbAscii.v
MbFunc.v
MbSpec.v
Mb.v
MbFrame.v
MbRtuFrame.v
MbAsciiFrame.v
MbReply.v
MbExchange.v
MbSafe.v
MbInv.v
MbBits.v
MbTheorems.v
MbFindings.v
NxBase.v
NxProto.v
NxScope.v
NxChan.v
NxPut.v
NxIntf.v
NxSpec.v
NxFrame.v
NxQueue.v
NxSession.v
NxServe.v
NxClient.v
NxSafe.v
NxPort.v
NxTheorems.v
NxFindings.v
Passwd.v
PasswdEnc.v
PasswdDb.v
PasswdMap.v
PasswdTheorems.v
IniFile.v
IniSpec.v
IniTheorems.v
Readline.v
ReadlineSpec.v
ReadlineSim.v
ReadlineTab.v
ReadlineTheorems.v
