(* ===== verification/Prelude.v ===== *)
(** * The NuttX application library: a verification development

    The repository collects the programs and libraries that run on top of the
    NuttX kernel.  This development models the parts with logic of their own,
    as executable functions over explicit state, and proves what makes them
    correct.  Kernel calls, drivers and what an executed program does are not
    in the repository: they are parameters (type classes, records of functions
    or arguments), with the documented behaviour that is relied on as laws.

    ** Parts, files and sources

    - Prelude.v: machine integers with their wrap-around, byte buffers, C
      strings, the result type [run] (a value, an access outside a buffer, or
      a loop cut by its fuel), list lemmas and the tactics and hints shared by
      all files.  CLib.v: [strtol].
    - The nxboot bootloader (boot/nxboot).  Flash.v models loader/flash.c over
      the class [MtdOps] of kernel calls, any of which may end in a power cut;
      [MtdLaws] says what the calls do to the flash: a cut write leaves
      anything in its slot, a cut erase has set bits and cleared none.  Boot.v models
      loader/boot.c and the decisions of nxboot_main.c.  BootSpec.v defines the
      answers of the queries as functions of the flash contents, BootState.v says
      of the bytes in the slots what [nxboot_get_state] is to report, BootCopy.v and
      BootSafety.v follow the flash through copies, updates and power cuts,
      BootCycle.v through confirmation and revert.  FlashSim.v is a simulator
      with a schedule of faults that satisfies [MtdLaws].  BootTheorems.v has
      the properties.
    - The codecs (netutils/codecs): Base64.v (base64.c), UrlCode.v
      (urldecode.c) and Md5.v (md5.c), each with its model and its properties.
    - The DHCP server (netutils/dhcpd/dhcpd.c).  Dhcpd.v models the lease table,
      the option parser, the replies and the handlers of every message; the
      sequence of datagrams, the times and the results of [sendto] are inputs.
      DhcpdParse.v, DhcpdTable.v, DhcpdServer.v and DhcpdReply.v have the lemmas
      on the parser, the table as a transition system, the handlers and the
      packets; DhcpdTheorems.v has the properties.  DhcpdDaemon.v models start,
      stop and the life of the daemon task as interleaved steps.
    - The shell (nshlib).  NshParse.v models the tokenizer, the expansion of
      variables, redirections, loops, if-then-else, [break], lines and scripts
      (nsh_parse.c, nsh_script.c), which it reads with a reader that has none of
      the options of system/readline; what an executed command does is the
      record [nsh_os].  NshText.v and NshSteps.v say how plain text is read and
      what one line does to the parser's two stacks; NshScript.v has the
      reference semantics of structured scripts and the simulation; NshInv.v
      the invariant of the parser state; NshTotal.v the totality of command
      lines.  NshTest.v models [test] and [[] (nsh_test.c).  NshTheorems.v has
      the properties.
    - The Modbus slave (modbus).  MbPort.v models the port layer (nuttx/portevent.c,
      porttimer.c, portserial.c) with the static variables of all layers in one
      record; what [select], [read] and [write] return is a list in the state and
      the clock a parameter.  MbCrc.v models rtu/mbcrc.c, MbRtu.v rtu/mbrtu.c,
      MbAscii.v ascii/mbascii.c on the frame buffer the two share; MbFunc.v the
      function handlers (functions/), which call the application through the class
      [App]; Mb.v the handler table, the start-up and eMBPoll (mb.c).  MbSpec.v is
      the abstract specification: requests, how the application serves them, and
      replies.  MbLine.v has lemmas on the loops of the serial port for any frame
      layer; MbFrame.v the interface [FrameLayer] of a frame layer, which
      MbRtuFrame.v and MbAsciiFrame.v implement and MbExchange.v uses; MbReply.v
      shows that the handlers implement the specification; MbSafe.v and MbInv.v have
      the invariant; MbBits.v the bit utilities.  MbTheorems.v has the properties,
      MbFindings.v the departures.
    - The oscilloscope library (logging/nxscope).  NxBase.v has the structures of
      the headers with the operations of a protocol and an interface as records of
      functions, as in the code, and the faults a call can end in.  NxProto.v models
      the serial protocol (nxscope_pser.c) over the class [Crc16] of the kernel's
      checksum, NxScope.v the instance (nxscope.c, nxscope_internals.c), NxChan.v and
      NxPut.v the channels and the functions that put samples (nxscope_chan.c),
      NxIntf.v the interfaces (nxscope_iser.c, nxscope_idummy.c).  NxSpec.v states
      the contracts of a protocol and of an interface (classes [ProtoLaws] and
      [PortLaws]) and the abstract scope: channels, a queue of samples and a log of
      messages.  NxFrame.v shows that the serial protocol keeps its contract, NxQueue.v
      what a put stores, NxSession.v and NxServe.v the simulation between instance and
      scope, NxClient.v how a client decodes the line and how an instance starts;
      NxSafe.v has the invariant over a device that does anything (class [DeviceLaws]),
      NxPort.v the contracts of the serial interface.  NxTheorems.v has the properties,
      NxFindings.v the departures.
    - The password file (fsutils/passwd).  Passwd.v models the encryption of
      passwords, the lock and the functions that find, add, remove, change and verify
      users; the outcomes of the calls of the C library and the kernel are scripts in
      the state, the kernel's cipher the class [Tea].  PasswdEnc.v has the encryption
      as a list of digits and the law of the cipher ([TeaLaws]) with the published
      algorithm that satisfies it, PasswdDb.v what each function does to the records of
      the file whatever call fails, PasswdMap.v the file as a map from users to
      passwords.  PasswdTheorems.v has the properties and the departures.
    - The reader of INI files (fsutils/inifile/inifile.c).  IniFile.v models it on the
      file's contents, a character read ahead and the line buffer; IniSpec.v has the
      reference, which works on the list of lines, and shows that each function
      computes its part; IniTheorems.v has the sessions, printed documents, the
      properties and the departures.
    - The interactive line editor (system/readline).  Readline.v models it with echo,
      history and tab completion as options, on the caller's buffer and a circular
      history, over scripts of what [read] and [write] do.  ReadlineSpec.v is the
      abstract editor: a line, a history that is a list, and completion; ReadlineSim.v
      and ReadlineTab.v have the simulation for the history and for completion,
      ReadlineTheorems.v the one for keys and lines, the property, that the shell's
      reader is this one without its options, and the departures.

    A structure of the source is a record with its field names, an enumeration
    an inductive type, and each function of the source a definition of the same
    name, with its guards and early returns; a loop that is not structural is a
    Fixpoint of its own with fuel.

    ** What the theorems show

    - Bootloader: from a safe flash, any number of boots that are cut anywhere
      leave a flash from which the next complete boot ends with a valid image in
      the primary slot; the reported state is the one specified on the bytes of
      the slots; copying preserves the image; an unconfirmed update is reverted
      and a confirmed one stays.
    - Codecs: encoding is the reference function, decoding inverts it, lengths
      and bounds hold, the in-place decoder ends; the MD5 of a message does not
      depend on how it is cut into updates and is the function of RFC 1321.
    - DHCP server: in every reachable state no client holds two addresses and
      no message touches another client's valid lease; the parser ends on every
      message and reads at most one byte behind it, and reads back well-formed
      options; an accepted request is recorded and acknowledged consistently; a
      client is offered an address when one is free; at most one daemon runs.
    - Shell: the text of every structured script of plain words, without a loop
      directly in the body of a loop, is executed as its reference semantics
      prescribes; the parser state stays well formed after every line of every
      script; every command line is processed to its end;
      [test] evaluates expressions to their meaning.
    - Modbus slave: an enabled slave answers every sequence of frames with complete
      data, in RTU and ASCII mode, as the specification says; from power-up two polls
      make it ready; in every reachable state, over a line that delivers any finite
      sequence of bytes and errors, a poll stays inside the buffers and ends; the handlers leave exactly the specified
      reply; what one station sends another receives; a damaged frame has no
      effect; the checksum is the bitwise CRC-16.
    - Oscilloscope: a session of valid puts, flushes, configuration and requests
      returns the statuses and sends the messages of the abstract scope; with the
      debug checks a client decodes the line to the accepted samples, in order and
      without loss; over a device that does anything no call faults, apart from the
      named exceptions; frames are found behind noise; a failed initialisation gives
      all memory back and says what failed.
    - Password file: a session of the interface returns what a map from users to
      passwords prescribes and leaves its contents in the file; a removal in which an
      allocation, an opening, a read or a write fails leaves the file as it was; the bounds of the encryption, with the lengths
      at which it leaves its buffer.
    - INI files: on every file the reader answers every sequence of requests as the
      reference does, inside its buffer and without losing memory; a printed document
      is read back.
    - Line editor: sessions yield the lines of the abstract editor, inside all buffers;
      without its options it is the reader the shell's scripts are read with.
    - Where the code departs from what it is meant to do, a theorem shows it on
      a concrete input (the properties of kind error, the section
      Departures of NshTheorems.v, the last lemmas of DhcpdTheorems.v and
      DhcpdDaemon.v, MbFindings.v, NxFindings.v and the last sections of
      PasswdTheorems.v, IniTheorems.v and ReadlineTheorems.v).

    ** Assumptions and bounds

    The target is 32-bit and little-endian, [char] is unsigned.  [Crc32Laws]
    states that [crc32part] can be continued over consecutive parts.  Fuel: the
    copy and checksum loops take the number of remaining bytes, the DHCP parser
    the size of its buffer, [alloc_loop] the number of addresses, the loops
    over a command line its length plus one, [expression] the number of words
    plus one, the receive loop of the serial port the number of results the device
    still delivers plus one, its transmit loop 515, more than its buffer holds, the
    receive loop and the search for a frame of nxscope the size of the receive buffer
    plus one, the loops over an INI file the bytes left in it plus two, the line
    editor the reads that are left plus one, the loops over the password file the bytes
    left in it plus the scripted outcomes plus one; the theorems show that this is enough, apart from loops that do
    not end in the code, which are named as departures.  [TeaLaws] states that the
    kernel's [tea_encrypt] is injective on pairs of 32-bit words.  [Crc16Laws] states the range of
    the kernel's [crc16xmodem] and that a message followed by its checksum has
    checksum 0; the bitwise definition satisfies it.  A script may loop for
    ever: the theorem on scripts says that when its semantics ends, every fuel
    from some number on gives the same result.

    ** Not modelled

    The code of NSH's other options (background commands, quoting by backslash,
    aliases, pipelines, command substitution, shell variables) and its command
    handlers, which call the kernel; the sockets and log messages of dhcpd;
    the other network, file-system and system utilities, most of which are front
    ends of the kernel (the MML parser, the CAN helpers and zmodem
    have logic of their own and are left out for size); the threads of the users of
    nxscope and of the password file, whose calls run one after another here; the
    option of a read-only password file; the line editor's external matching; the Modbus master, a second stack with the same layers
    on threads and semaphores, Modbus over TCP, whose port functions are not in
    the repository, the terminal settings of the serial port and the handlers an
    application registers, which are a parameter; vendored libraries, drivers' front ends,
    examples, tests and benchmarks. *)

From stdpp Require Export base numbers list gmap option.
From stdpp Require Import strings.
From Stdlib Require Export ZArith Lia Bool.

#[global] Open Scope Z_scope.

(** ** Machine integers

    C integers are kept as [Z]; a conversion to a fixed-width type is written
    out where the source performs one. *)

Definition u8 (z : Z) : Z := z mod 2 ^ 8.
Definition u16 (z : Z) : Z := z mod 2 ^ 16.
Definition u32 (z : Z) : Z := z mod 2 ^ 32.
Definition s32 (z : Z) : Z := (z + 2 ^ 31) mod 2 ^ 32 - 2 ^ 31.

Definition is_byte (b : Z) : Prop := 0 <= b < 256.

Definition OK : Z := 0.
Definition ERROR : Z := -1.

Lemma u32_range z : 0 <= u32 z < 2 ^ 32.
Proof. unfold u32. apply Z.mod_pos_bound. lia. Qed.

Lemma u32_small z : 0 <= z < 2 ^ 32 -> u32 z = z.
Proof. intros H. unfold u32. now apply Z.mod_small. Qed.

Lemma u32_idem z : u32 (u32 z) = u32 z.
Proof. unfold u32. apply Z.mod_mod. lia. Qed.

Lemma u8_range z : is_byte (u8 z).
Proof. unfold u8, is_byte. pose proof (Z.mod_pos_bound z (2 ^ 8)). lia. Qed.

Lemma u8_small z : is_byte z -> u8 z = z.
Proof. intros H. unfold u8. apply Z.mod_small. unfold is_byte in H. lia. Qed.

Lemma s32_small z : - 2 ^ 31 <= z < 2 ^ 31 -> s32 z = z.
Proof. intros H. unfold s32. rewrite Z.mod_small; lia. Qed.

Lemma s32_range z : - 2 ^ 31 <= s32 z < 2 ^ 31.
Proof. unfold s32. pose proof (Z.mod_pos_bound (z + 2 ^ 31) (2 ^ 32)). lia. Qed.

(** ** Byte buffers addressed with [Z] offsets *)

(** [zslice off n l]: the [n] bytes of [l] that start at offset [off]. *)
Definition zslice (off n : Z) (l : list Z) : list Z :=
  take (Z.to_nat n) (drop (Z.to_nat off) l).

(** [zwrite off d l]: [memcpy(l + off, d, length d)]; bytes past the end of
    [l] are not created. *)
Definition zwrite (off : Z) (d l : list Z) : list Z :=
  take (Z.to_nat off) l ++
  take (length l - Z.to_nat off) d ++
  drop (Z.to_nat off + length d) l.

Definition zlen (l : list Z) : Z := Z.of_nat (length l).

(** Little-endian load of the bytes of [l] (all of them). *)
Fixpoint le_val (l : list Z) : Z :=
  match l with
  | [] => 0
  | b :: t => b + 256 * le_val t
  end.

(** Little-endian store of [n] bytes of [z]. *)
Fixpoint le_bytes (n : nat) (z : Z) : list Z :=
  match n with
  | O => []
  | S k => z mod 256 :: le_bytes k (z / 256)
  end.

Lemma length_le_bytes n z : length (le_bytes n z) = n.
Proof. revert z. induction n as [|n IH]; intros z; simpl; [done|]. by rewrite IH. Qed.

Lemma le_bytes_byte n z : Forall is_byte (le_bytes n z).
Proof.
  revert z. induction n as [|n IH]; intros z; simpl; constructor; [|apply IH].
  unfold is_byte. apply Z.mod_pos_bound. lia.
Qed.

Lemma le_val_bytes n z : le_val (le_bytes n z) = z mod 256 ^ Z.of_nat n.
Proof.
  revert z. induction n as [|n IH]; intros z; [simpl; by rewrite Z.mod_1_r|].
  rewrite Nat2Z.inj_succ, Z.pow_succ_r by lia. simpl le_bytes. cbn [le_val].
  rewrite IH, Z.rem_mul_r by lia. lia.
Qed.

Lemma le_val_range l : Forall is_byte l -> 0 <= le_val l < 256 ^ zlen l.
Proof.
  unfold zlen. induction 1 as [|b t Hb _ IH]; [simpl; lia|].
  cbn [le_val length]. rewrite Nat2Z.inj_succ, Z.pow_succ_r by lia.
  unfold is_byte in Hb. nia.
Qed.

Lemma le_bytes_val l : Forall is_byte l -> le_bytes (length l) (le_val l) = l.
Proof.
  induction 1 as [|b t Hb _ IH]; [done|]. cbn [length le_bytes le_val]. unfold is_byte in Hb.
  rewrite (Z.mul_comm 256), Z.mod_add, Z.mod_small, Z.div_add, Z.div_small by lia.
  by rewrite Z.add_0_l, IH.
Qed.

Lemma le_bytes_mod n z : le_bytes n (z mod 256 ^ Z.of_nat n) = le_bytes n z.
Proof.
  rewrite <- le_val_bytes. pose proof (le_bytes_val (le_bytes n z) (le_bytes_byte n z)) as E.
  by rewrite length_le_bytes in E.
Qed.

Lemma le_bytes_app n k z :
  le_bytes (n + k) z = le_bytes n z ++ le_bytes k (z / 256 ^ Z.of_nat n).
Proof.
  revert z. induction n as [|n IH]; intros z; [simpl; by rewrite Z.div_1_r|].
  cbn [le_bytes Nat.add app]. rewrite IH, Nat2Z.inj_succ, Z.pow_succ_r by lia.
  by rewrite Z.div_div by lia.
Qed.

Lemma zlen_nonneg l : 0 <= zlen l.
Proof. unfold zlen. lia. Qed.

Lemma zlen_app l1 l2 : zlen (l1 ++ l2) = zlen l1 + zlen l2.
Proof. unfold zlen. rewrite length_app. lia. Qed.

Lemma zlen_cons x l : zlen (x :: l) = 1 + zlen l.
Proof. unfold zlen. simpl. lia. Qed.

Lemma length_zwrite off d l : length (zwrite off d l) = length l.
Proof.
  unfold zwrite. rewrite !length_app, !length_take, length_drop. lia.
Qed.

Lemma zlen_zslice off n l :
  0 <= off -> 0 <= n -> off + n <= zlen l -> zlen (zslice off n l) = n.
Proof. unfold zlen, zslice. intros. rewrite length_take, length_drop. lia. Qed.

Lemma zslice_zwrite_same off d l :
  0 <= off -> off + zlen d <= zlen l -> zslice off (zlen d) (zwrite off d l) = d.
Proof.
  unfold zlen, zslice, zwrite. intros Ho Hl.
  rewrite drop_app_length' by (rewrite length_take; lia).
  rewrite (take_ge d) by lia.
  by rewrite take_app_length' by lia.
Qed.

Lemma zwrite_nil off l : zwrite off [] l = l.
Proof. unfold zwrite. rewrite take_nil. simpl. rewrite Nat.add_0_r. apply take_drop. Qed.

(** Inside the buffer [zwrite] replaces exactly the bytes it covers. *)
Lemma zwrite_in off d l : 0 <= off -> off + zlen d <= zlen l ->
  zwrite off d l = take (Z.to_nat off) l ++ d ++ drop (Z.to_nat off + length d) l.
Proof. unfold zwrite, zlen. intros. by rewrite (take_ge d) by lia. Qed.

Lemma zwrite_app off d1 d2 l : 0 <= off -> off + zlen d1 + zlen d2 <= zlen l ->
  zwrite (off + zlen d1) d2 (zwrite off d1 l) = zwrite off (d1 ++ d2) l.
Proof.
  intros Ho Hl. pose proof (zlen_nonneg d1). pose proof (zlen_nonneg d2).
  rewrite (zwrite_in off d1), (zwrite_in off (d1 ++ d2)) by (rewrite ?zlen_app; lia).
  rewrite zwrite_in; [|lia|rewrite !zlen_app; unfold zlen in *;
    rewrite length_take, length_drop; lia].
  unfold zlen in *. rewrite Z2Nat.inj_add, Nat2Z.id by lia.
  rewrite (assoc_L (++) (take _ l) d1), take_app_length' by
    (rewrite length_app, length_take; lia).
  rewrite drop_app, (drop_ge (_ ++ _)) by (rewrite length_app, length_take; lia).
  rewrite length_app, length_take, drop_drop, length_app. simpl.
  rewrite <- !(assoc_L (++)). do 4 f_equal. lia.
Qed.

Lemma zwrite_app_l off d a b : 0 <= off -> off + zlen d <= zlen a ->
  zwrite off d (a ++ b) = zwrite off d a ++ b.
Proof.
  intros Ho Hd. pose proof (zlen_nonneg d). pose proof (zlen_nonneg b).
  rewrite !zwrite_in by (rewrite ?zlen_app; lia). unfold zlen in *.
  rewrite take_app_le, drop_app_le, <- !(assoc_L (++)) by lia. done.
Qed.

Lemma zslice_zslice k j n l : 0 <= k -> 0 <= j -> k + j <= n ->
  zslice k j (zslice 0 n l) = zslice k j l.
Proof.
  intros Hk Hj Hn. unfold zslice. change (drop (Z.to_nat 0) l) with l.
  rewrite skipn_firstn_comm, take_take. f_equal. lia.
Qed.

(** A slice that lies inside, before or after the bytes written. *)
Lemma zslice_zwrite_in k j off d l : 0 <= off <= k -> 0 <= j -> k + j <= off + zlen d ->
  off + zlen d <= zlen l -> zslice k j (zwrite off d l) = zslice (k - off) j d.
Proof.
  intros Ho Hj Hin Hl. rewrite zwrite_in by lia. unfold zslice, zlen in *.
  rewrite drop_app_ge by (rewrite length_take; lia).
  rewrite length_take, drop_app_le by lia.
  rewrite take_app_le by (rewrite length_drop; lia).
  do 2 f_equal. lia.
Qed.

Lemma zslice_zwrite_before k j off d l : 0 <= k -> 0 <= j -> k + j <= off ->
  off + zlen d <= zlen l -> zslice k j (zwrite off d l) = zslice k j l.
Proof.
  intros Hk Hj Hb Hl. pose proof (zlen_nonneg d). rewrite zwrite_in by lia.
  unfold zslice, zlen in *. rewrite drop_app_le, take_app_le
    by (rewrite ?length_drop, ?length_take; lia).
  rewrite skipn_firstn_comm, take_take. f_equal. lia.
Qed.

Lemma zslice_zwrite_after k j off d l : 0 <= off -> off + zlen d <= k -> 0 <= j ->
  off + zlen d <= zlen l -> zslice k j (zwrite off d l) = zslice k j l.
Proof.
  intros Ho Hk Hj Hl. rewrite zwrite_in by lia. unfold zslice, zlen in *.
  rewrite drop_app_ge by (rewrite length_take; lia).
  rewrite drop_app_ge, drop_drop by (rewrite length_take; lia).
  f_equal. f_equal. rewrite length_take. lia.
Qed.

(** A write that ends where the buffer ends, or that starts where it starts. *)
Lemma zwrite_to_end off d l : 0 <= off -> off + zlen d = zlen l ->
  zwrite off d l = take (Z.to_nat off) l ++ d.
Proof.
  intros Ho Hd. rewrite zwrite_in by lia. unfold zlen in Hd.
  by rewrite drop_ge, app_nil_r by lia.
Qed.

Lemma zwrite_at p d r : (length d <= length r)%nat ->
  zwrite (zlen p) d (p ++ r) = p ++ d ++ drop (length d) r.
Proof.
  intros Hd. pose proof (zlen_nonneg p). rewrite zwrite_in by (rewrite ?zlen_app; unfold zlen in *; lia).
  unfold zlen. rewrite Nat2Z.id, take_app_length, drop_app_ge by lia. do 3 f_equal. lia.
Qed.

Lemma zwrite_0 d l : (length d <= length l)%nat -> zwrite 0 d l = d ++ drop (length d) l.
Proof. intros Hl. by rewrite zwrite_in by (unfold zlen; lia). Qed.

Lemma zwrite_all d l : length d = length l -> zwrite 0 d l = d.
Proof. intros Hl. by rewrite zwrite_to_end by (unfold zlen; lia). Qed.

Lemma zlen_zwrite off d l : zlen (zwrite off d l) = zlen l.
Proof. unfold zlen. by rewrite length_zwrite. Qed.

Lemma zslice_app_l k j a b : 0 <= k -> 0 <= j -> k + j <= zlen a ->
  zslice k j (a ++ b) = zslice k j a.
Proof.
  unfold zslice, zlen. intros Hk Hj Ha. rewrite drop_app_le by lia.
  by rewrite take_app_le by (rewrite length_drop; lia).
Qed.

(** The slice a write has just filled. *)
Lemma zslice_zwrite_eq off n d l : zlen d = n -> 0 <= off -> off + n <= zlen l ->
  zslice off n (zwrite off d l) = d.
Proof. intros <-. apply zslice_zwrite_same. Qed.

Lemma Forall_zslice (P : Z -> Prop) off n l : Forall P l -> Forall P (zslice off n l).
Proof. intros H. unfold zslice. by apply Forall_take, Forall_drop. Qed.

Lemma Forall_zwrite (P : Z -> Prop) off d l :
  Forall P d -> Forall P l -> Forall P (zwrite off d l).
Proof.
  intros Hd Hl. unfold zwrite.
  apply Forall_app_2; [by apply Forall_take|].
  apply Forall_app_2; [by apply Forall_take|by apply Forall_drop].
Qed.

(** ** C strings *)

(** The characters of a string literal, without the terminating NUL. *)
Definition cstr (s : string) : list Z :=
  (fun a => Z.of_N (Ascii.N_of_ascii a)) <$> String.list_ascii_of_string s.

(** Position of the first [c] in [l]. *)
Fixpoint index_of (c : Z) (l : list Z) : option Z :=
  match l with
  | [] => None
  | x :: t => if x =? c then Some 0 else (fun i => i + 1) <$> index_of c t
  end.

(** [strchr(s, c) - s]: the terminating NUL counts as part of the string. *)
Definition strchr (s : list Z) (c : Z) : option Z := index_of c (s ++ [0]).

Lemma index_of_range c l i : index_of c l = Some i -> 0 <= i < zlen l.
Proof.
  revert i. unfold zlen. induction l as [|x t IH]; intros i; simpl; [done|].
  destruct (Z.eqb_spec x c) as [|_]; [intros; simplify_eq; lia|].
  destruct (index_of c t) as [j|]; [|done]. simpl. intros. simplify_eq.
  specialize (IH j eq_refl). lia.
Qed.

(** ** Code that reads a buffer through a pointer *)

(** A result, a read outside the buffer, or a loop cut by its fuel. *)
Inductive run (A : Type) :=
| Done (a : A)
| OutOfBounds
| OutOfFuel.
#[global] Arguments Done {A} a.
#[global] Arguments OutOfBounds {A}.
#[global] Arguments OutOfFuel {A}.

#[export] Instance run_ret : MRet run := fun A a => Done a.
#[export] Instance run_bind : MBind run := fun A B k m =>
  match m with Done a => k a | OutOfBounds => OutOfBounds | OutOfFuel => OutOfFuel end.

(** [buf[i]] *)
Definition load {A} (mem : list Z) (i : nat) (k : Z -> run A) : run A :=
  match mem !! i with Some c => k c | None => OutOfBounds end.

(** ** Statements about all values of a small range, by evaluation *)

Lemma range_sweep (P : Z -> bool) n :
  forallb P (seqZ 0 n) = true -> forall z, 0 <= z < n -> P z = true.
Proof.
  rewrite forallb_forall. intros Hall z Hz. apply Hall, list_elem_of_In, elem_of_seqZ. lia.
Qed.

(** ** Bit operations as arithmetic *)

Lemma lor_add x y n : 0 <= n -> 0 <= y < 2 ^ n -> Z.lor (Z.shiftl x n) y = x * 2 ^ n + y.
Proof.
  intros Hn Hy. rewrite <- Z.shiftl_mul_pow2 by done. symmetry. apply Z.add_nocarry_lor.
  apply Z.bits_inj'. intros k Hk. rewrite Z.land_spec, Z.bits_0.
  destruct (Z.lt_ge_cases k n).
  - by rewrite Z.shiftl_spec_low.
  - rewrite andb_comm. rewrite <- (Z.mod_small y (2 ^ n)) by done.
    by rewrite Z.mod_pow2_bits_high by lia.
Qed.

Lemma land_ones_mod x n : 0 <= n -> Z.land x (2 ^ n - 1) = x mod 2 ^ n.
Proof. intros. rewrite <- Z.land_ones, Z.ones_equiv by done. f_equal. Qed.

Lemma testbit_small x n k : 0 <= x < 2 ^ n -> n <= k -> 0 <= n -> Z.testbit x k = false.
Proof.
  intros Hx Hk Hn. rewrite <- (Z.mod_small x (2 ^ n)) by done.
  apply Z.mod_pow2_bits_high. lia.
Qed.

Lemma lxor_range n x y : 0 <= n -> 0 <= x < 2 ^ n -> 0 <= y < 2 ^ n ->
  0 <= Z.lxor x y < 2 ^ n.
Proof.
  intros Hn Hx Hy. assert (0 <= Z.lxor x y) by (apply Z.lxor_nonneg; lia).
  split; [done|]. assert (Z.lxor x y = Z.lxor x y mod 2 ^ n) as ->; [|apply Z.mod_pos_bound; lia].
  rewrite <- Z.land_ones by done. apply Z.bits_inj'. intros k Hk.
  rewrite Z.land_spec, Z.lxor_spec. destruct (Z.lt_ge_cases k n).
  - by rewrite Z.ones_spec_low, andb_true_r by lia.
  - by rewrite !(testbit_small _ n) by done.
Qed.

(** ** Induction on the length, and three elements at a time *)

Lemma list_len_ind {A} (P : list A -> Prop) :
  (forall l, (forall l', (length l' < length l)%nat -> P l') -> P l) -> forall l, P l.
Proof.
  intros step. assert (forall n l, (length l < n)%nat -> P l) as Hn.
  { induction n as [|n IH]; intros l Hl; [lia|]. apply step. intros l' Hl'. apply IH. lia. }
  intros l. apply (Hn (S (length l))). lia.
Qed.

Lemma list_ind3 {A} (P : list A -> Prop) :
  P [] -> (forall a, P [a]) -> (forall a b, P [a; b]) ->
  (forall a b c l, P l -> P (a :: b :: c :: l)) -> forall l, P l.
Proof.
  intros H0 H1 H2 H3. apply list_len_ind. intros l IH.
  destruct l as [|a [|b [|c l]]]; auto. apply H3, IH. simpl. lia.
Qed.

(** ** Proof automation *)

(** Reflect one boolean comparison of the goal or of a hypothesis. *)
Ltac case_zbool :=
  match goal with
  | |- context [ Z.eqb ?a ?b ] => destruct (Z.eqb_spec a b)
  | |- context [ Z.ltb ?a ?b ] => destruct (Z.ltb_spec a b)
  | |- context [ Z.leb ?a ?b ] => destruct (Z.leb_spec a b)
  | H : context [ Z.eqb ?a ?b ] |- _ => destruct (Z.eqb_spec a b)
  | H : context [ Z.ltb ?a ?b ] |- _ => destruct (Z.ltb_spec a b)
  | H : context [ Z.leb ?a ?b ] |- _ => destruct (Z.leb_spec a b)
  end; simpl in *; try done; try lia.

(** Turn boolean hypotheses into propositions. *)
Ltac breflect :=
  repeat match goal with
  | H : andb _ _ = true |- _ => apply andb_true_iff in H; destruct H
  | H : andb _ _ = false |- _ => apply andb_false_iff in H
  | H : orb _ _ = true |- _ => apply orb_true_iff in H
  | H : orb _ _ = false |- _ => apply orb_false_iff in H; destruct H
  | H : negb _ = true |- _ => apply negb_true_iff in H
  | H : negb _ = false |- _ => apply negb_false_iff in H
  | H : Z.eqb _ _ = true |- _ => apply Z.eqb_eq in H
  | H : Z.eqb _ _ = false |- _ => apply Z.eqb_neq in H
  | H : Z.ltb _ _ = true |- _ => apply Z.ltb_lt in H
  | H : Z.ltb _ _ = false |- _ => apply Z.ltb_ge in H
  | H : Z.leb _ _ = true |- _ => apply Z.leb_le in H
  | H : Z.leb _ _ = false |- _ => apply Z.leb_gt in H
  end.

(** Split the [Forall] hypotheses about a [cons]. *)
Ltac inv_Forall :=
  repeat match goal with
  | H : Forall _ (_ :: _) |- _ => apply Forall_cons_1 in H; destruct H
  end.

(** Show that the elements of a literal list are bytes. *)
Ltac solve_bytes :=
  repeat (apply Forall_cons_2; [first [done | assumption | unfold is_byte in *; lia]|]);
  apply Forall_nil_2.

(** Evaluate the powers of two with a literal exponent in the goal. *)
Ltac pow_lit :=
  repeat match goal with
  | |- context [ 2 ^ Zpos ?k ] =>
      let v := eval vm_compute in (2 ^ Zpos k) in change (2 ^ Zpos k) with v
  end.

Create HintDb nuttx.
#[export] Hint Resolve u32_range u8_range le_bytes_byte Forall_zslice Forall_zwrite : nuttx.
#[export] Hint Rewrite length_le_bytes length_zwrite : nuttx.
