(* ===== verification/Flash.v ===== *)
(** * Flash partition access of the nxboot bootloader

    Models src/boot/nxboot/loader/flash.c.  The kernel calls the file makes
    ([open], [close], [ioctl], [lseek], [read], [write]) and [malloc] are not
    part of the repository: they are the operations of the class [MtdOps], and
    what the bootloader relies on is the class [MtdLaws].  A call may also end
    because the power is cut ([Off]).  [Sim] is a flash simulator, driven by a
    schedule of faults, that implements both classes. *)

From S2P Require Import Prelude.

(** ** Slots, geometry and flash contents *)

(** The three image slots.  A descriptor obtained by opening a slot is
    represented by the slot itself. *)
Inductive slot := Primary | Secondary | Tertiary.

#[export] Instance slot_eq_dec : EqDecision slot.
Proof. solve_decision. Defined.

(** [struct mtd_geometry_s], as far as flash.c reads it. *)
Record geometry := {
  g_blocksize : Z;
  g_erasesize : Z;
  g_neraseblocks : Z;
}.

(** [struct flash_partition_info]. *)
Record flash_partition_info_t := {
  i_size : Z;
  i_blocksize : Z;
  i_neraseblocks : Z;
  i_erasesize : Z;
}.

(** What the three partitions hold, byte by byte. *)
Record flash := {
  f_primary : list Z;
  f_secondary : list Z;
  f_tertiary : list Z;
}.

Definition fget (f : flash) (s : slot) : list Z :=
  match s with
  | Primary => f_primary f
  | Secondary => f_secondary f
  | Tertiary => f_tertiary f
  end.

Definition fset (f : flash) (s : slot) (l : list Z) : flash :=
  match s with
  | Primary => {| f_primary := l; f_secondary := f_secondary f; f_tertiary := f_tertiary f |}
  | Secondary => {| f_primary := f_primary f; f_secondary := l; f_tertiary := f_tertiary f |}
  | Tertiary => {| f_primary := f_primary f; f_secondary := f_secondary f; f_tertiary := l |}
  end.

Lemma fget_fset f s l : fget (fset f s l) s = l.
Proof. by destruct s. Qed.

Lemma fget_fset_ne f s s' l : s <> s' -> fget (fset f s l) s' = fget f s'.
Proof. by destruct s, s'. Qed.

Lemma fset_fset f s l l' : fset (fset f s l) s l' = fset f s l'.
Proof. by destruct s. Qed.

Lemma fset_fget f s : fset f s (fget f s) = f.
Proof. by destruct s, f. Qed.

(** ** Computations on the device

    [Ret]: the call returned.  [Off]: the power was cut during the call; only
    the flash survives.  [Undef]: undefined behaviour of C.  [NoFuel]: a loop
    of the model ran out of fuel. *)
Inductive outcome (W A : Type) :=
  | Ret (a : A) (w : W)
  | Off (w : W)
  | Undef
  | NoFuel.
Arguments Ret {W A} a w.
Arguments Off {W A} w.
Arguments Undef {W A}.
Arguments NoFuel {W A}.

Definition M (W A : Type) : Type := W -> outcome W A.

#[export] Instance M_ret W : MRet (M W) := fun A a w => Ret a w.
#[export] Instance M_bind W : MBind (M W) := fun A B k m w =>
  match m w with
  | Ret a w' => k a w'
  | Off w' => Off w'
  | Undef => Undef
  | NoFuel => NoFuel
  end.

Definition undef {W A} : M W A := fun _ => Undef.
Definition nofuel {W A} : M W A := fun _ => NoFuel.

(** The kernel calls, on a machine state [W].  [None] and [-1] are failure. *)
Class MtdOps (W : Type) := {
  os_open : slot -> M W (option slot);
  os_close : slot -> M W Z;
  os_geometry : slot -> M W (option geometry);
  os_lseek : slot -> Z -> M W Z;
  os_read : slot -> Z -> M W (Z * list Z);
  os_write : slot -> list Z -> M W Z;
  os_bulkerase : slot -> M W Z;
  os_erasesectors : slot -> Z -> Z -> M W Z;
  os_malloc : Z -> M W bool;
}.

(** ** flash.c *)

Section FlashPartition.
Context {W : Type} `{!MtdOps W}.

Definition flash_partition_open (path : slot) : M W (option slot) :=
  fd ← os_open path;
  match fd with
  | None => mret None
  | Some fd => mret (Some fd)
  end.

Definition flash_partition_close (fd : slot) : M W Z := os_close fd.

Definition flash_partition_write (fd : slot) (buf : list Z) (count off : Z) : M W Z :=
  geo ← os_geometry fd;
  match geo with
  | None => mret ERROR
  | Some g =>
    let size := u32 (g_erasesize g * g_neraseblocks g) in
    if size <? u32 (count + off) then mret ERROR
    else
      pos ← os_lseek fd off;
      if negb (pos =? off) then mret ERROR
      else
        nbytes ← os_write fd (take (Z.to_nat count) buf);
        if negb (u32 nbytes =? count) then mret ERROR
        else mret OK
  end.

(** The data read, or [None] when the function returns [ERROR]. *)
Definition flash_partition_read (fd : slot) (count off : Z) : M W (option (list Z)) :=
  geo ← os_geometry fd;
  match geo with
  | None => mret None
  | Some g =>
    let size := u32 (g_erasesize g * g_neraseblocks g) in
    if size <? u32 (count + off) then mret None
    else
      pos ← os_lseek fd off;
      if negb (pos =? off) then mret None
      else
        res ← os_read fd count;
        if negb (u32 (fst res) =? count) then mret None
        else mret (Some (snd res))
  end.

Definition flash_partition_erase (fd : slot) : M W Z :=
  ret ← os_bulkerase fd;
  if ret <? 0 then mret ERROR else mret OK.

Definition flash_partition_erase_first_sector (fd : slot) : M W Z :=
  ret ← os_erasesectors fd 0 1;
  if ret <? 0 then mret ERROR else mret OK.

Definition flash_partition_info (fd : slot) : M W (option flash_partition_info_t) :=
  geo ← os_geometry fd;
  match geo with
  | None => mret None
  | Some g => mret (Some {|
      i_blocksize := s32 (g_blocksize g);
      i_size := s32 (g_erasesize g * g_neraseblocks g);
      i_neraseblocks := s32 (g_neraseblocks g);
      i_erasesize := s32 (g_erasesize g) |})
  end.

End FlashPartition.

(** ** What the bootloader relies on

    [steady w]: no kernel call reports an error from here on.  [live w]: the
    power is not cut from here on. *)
Class MtdView (W : Type) := {
  geom : slot -> geometry;
  contents : W -> flash;
  fpos : W -> slot -> Z;
  steady : W -> Prop;
  live : W -> Prop;
}.

(** Size of a partition in bytes. *)
Definition psize {W} `{!MtdView W} (s : slot) : Z :=
  g_erasesize (geom s) * g_neraseblocks (geom s).

(** [wpc m Q C w]: run from [w], [m] returns in a state that satisfies [Q], or
    the power is cut and the flash contents satisfy the crash condition [C];
    with [live w] it always returns. *)
Definition wpc {W A} `{!MtdView W} (m : M W A) (Q : A -> W -> Prop)
    (C : flash -> Prop) (w : W) : Prop :=
  match m w with
  | Ret a w' => Q a w' /\ steady w' /\ (live w -> live w')
  | Off w' => C (contents w') /\ ~ live w
  | Undef | NoFuel => False
  end.

(** [new] is [old] with some bits set, any of them. *)
Definition erased_bits (old new : list Z) : Prop :=
  Forall2 (fun a b => Z.land a b = a) old new /\ Forall is_byte new.

Class MtdLaws (W : Type) `{!MtdOps W, !MtdView W} : Prop := {
  (** The page holds the image header, an erase sector holds a page, and a
      partition is smaller than 2 GiB. *)
  geom_block s : 128 <= g_blocksize (geom s) <= g_erasesize (geom s);
  geom_erase s : 0 < g_neraseblocks (geom s);
  geom_size s : psize s < 2 ^ 31;

  contents_len w s : steady w -> zlen (fget (contents w) s) = psize s;
  contents_byte w s : steady w -> Forall is_byte (fget (contents w) s);

  open_law w s : steady w ->
    wpc (os_open s) (fun r w' => r = Some s /\ contents w' = contents w)
      (eq (contents w)) w;
  close_law w s : steady w ->
    wpc (os_close s) (fun r w' => r = 0 /\ contents w' = contents w) (eq (contents w)) w;
  geometry_law w s : steady w ->
    wpc (os_geometry s) (fun r w' => r = Some (geom s) /\ contents w' = contents w)
      (eq (contents w)) w;
  malloc_law w n : steady w ->
    wpc (os_malloc n) (fun r w' => r = true /\ contents w' = contents w)
      (eq (contents w)) w;
  lseek_law w s off : steady w -> 0 <= off ->
    wpc (os_lseek s off)
      (fun r w' => r = off /\ contents w' = contents w /\ fpos w' s = off)
      (eq (contents w)) w;
  read_law w s n : steady w -> 0 <= n -> 0 <= fpos w s -> fpos w s + n <= psize s ->
    wpc (os_read s n)
      (fun r w' => r = (n, zslice (fpos w s) n (fget (contents w) s)) /\
                   contents w' = contents w)
      (eq (contents w)) w;

  (** A completed write is exact; an interrupted one may leave anything in
      the partition it was writing to. *)
  write_law w s d : steady w -> Forall is_byte d -> 0 <= fpos w s ->
    fpos w s + zlen d <= psize s ->
    wpc (os_write s d)
      (fun r w' => r = zlen d /\
         contents w' = fset (contents w) s (zwrite (fpos w s) d (fget (contents w) s)))
      (fun f => exists l, f = fset (contents w) s l) w;

  (** A completed erase sets the first sector to 0xff.  Erasing sets bits and
      never clears one, which is what erasing means for such a memory; which
      bits an interrupted erase has set is left open. *)
  erase_law w s : steady w ->
    wpc (os_erasesectors s 0 1)
      (fun r w' => 0 <= r /\ contents w' = fset (contents w) s
         (zwrite 0 (replicate (Z.to_nat (g_erasesize (geom s))) 255) (fget (contents w) s)))
      (fun f => exists l, f = fset (contents w) s l /\
         erased_bits (fget (contents w) s) l) w;
}.

(** ** Rules of the crash logic *)

Section CrashLogic.
Context {W : Type} `{!MtdOps W, !MtdView W, !MtdLaws W}.

Lemma wpc_ret {A} (a : A) (Q : A -> W -> Prop) C w : steady w -> Q a w -> wpc (mret a) Q C w.
Proof. intros Hs HQ. unfold wpc, mret, M_ret. auto. Qed.

Lemma wpc_bind {A B} (m : M W A) (k : A -> M W B) (Q : B -> W -> Prop) C w :
  wpc m (fun a w' => steady w' -> wpc (k a) Q C w') C w -> wpc (m ≫= k) Q C w.
Proof.
  unfold wpc, mbind, M_bind. destruct (m w) as [a w'|w'| |]; try done.
  intros (Hk & Hs & Hl). specialize (Hk Hs).
  destruct (k a w') as [b w''|w''| |]; naive_solver.
Qed.

Lemma wpc_mono {A} (m : M W A) (Q Q' : A -> W -> Prop) (C C' : flash -> Prop) w :
  wpc m Q C w -> (forall a w', steady w' -> Q a w' -> Q' a w') ->
  (forall f, C f -> C' f) -> wpc m Q' C' w.
Proof. unfold wpc. destruct (m w); naive_solver. Qed.

(** Sequencing with the specification of the first step. *)
Lemma wpc_seq {A B} (m : M W A) (k : A -> M W B) (Q1 : A -> W -> Prop) C1
    (Q : B -> W -> Prop) C w :
  wpc m Q1 C1 w -> (forall f, C1 f -> C f) ->
  (forall a w', steady w' -> Q1 a w' -> wpc (k a) Q C w') -> wpc (m ≫= k) Q C w.
Proof.
  intros Hm HC Hk. apply wpc_bind. eapply wpc_mono; [exact Hm| |exact HC].
  intros a w' Hs HQ _. by apply Hk.
Qed.

(** Without power cuts a computation returns. *)
Lemma wpc_live {A} (m : M W A) (Q : A -> W -> Prop) C w : wpc m Q C w -> live w ->
  exists a w', m w = Ret a w' /\ Q a w' /\ steady w' /\ live w'.
Proof. unfold wpc. destruct (m w); naive_solver. Qed.

(** A call that only reads the flash and computes [g] of its contents. *)
Definition reads {A} (m : M W A) (g : flash -> A) : Prop := forall w, steady w ->
  wpc m (fun a w' => a = g (contents w) /\ contents w' = contents w) (eq (contents w)) w.

Lemma reads_if {A} (b : bool) (m1 m2 : M W A) g1 g2 :
  reads m1 g1 -> reads m2 g2 -> reads (if b then m1 else m2) (fun f => if b then g1 f else g2 f).
Proof. by destruct b. Qed.

Lemma reads_ret {A} (a : A) : reads (mret a) (fun _ => a).
Proof. intros w Hs. by apply wpc_ret. Qed.

Lemma reads_bind {A B} (m : M W A) (k : A -> M W B) g h :
  reads m g -> (forall a, reads (k a) (h a)) -> reads (m ≫= k) (fun f => h (g f) f).
Proof.
  intros Hm Hk w Hs. eapply wpc_seq; [by apply Hm|done|].
  intros a w' Hs' [-> Hc]. eapply wpc_mono; [by apply Hk| |].
  - intros b w'' _ [-> Hc']. by rewrite Hc', Hc.
  - intros f Hf. by rewrite <- Hf, Hc.
Qed.

Lemma reads_ext {A} (m : M W A) g h : reads m g -> (forall f, g f = h f) -> reads m h.
Proof. intros Hm He w Hs. rewrite <- He. by apply Hm. Qed.

(** Use a reading step inside a computation that also writes; [F] names the
    flash contents, which the step leaves alone. *)
Lemma wpc_reads {A B} (m : M W A) (k : A -> M W B) g (Q : B -> W -> Prop) (C : flash -> Prop) F w :
  reads m g -> steady w -> contents w = F -> C F ->
  (forall w', steady w' -> contents w' = F -> wpc (k (g F)) Q C w') ->
  wpc (m ≫= k) Q C w.
Proof.
  intros Hm Hs <- HC Hk. eapply wpc_seq; [by apply Hm|by intros f <-|].
  intros a w' Hs' [-> Hc]. by apply Hk.
Qed.

Lemma wpc_reads_last {A} (m : M W A) g (Q : A -> W -> Prop) (C : flash -> Prop) F w :
  reads m g -> steady w -> contents w = F -> C F ->
  (forall w', steady w' -> contents w' = F -> Q (g F) w') -> wpc m Q C w.
Proof.
  intros Hm Hs <- HC Hk. eapply wpc_mono; [by apply Hm| |by intros f <-].
  intros a w' Hs' [-> Hc]. by apply Hk.
Qed.

Lemma reads_intro {A} (m : M W A) g :
  (forall F w, steady w -> contents w = F ->
     wpc m (fun a w' => a = g F /\ contents w' = F) (eq F) w) -> reads m g.
Proof. intros H w Hs. by apply H. Qed.

(** ** Specifications of flash.c *)

Lemma open_reads s : reads (flash_partition_open s) (fun _ => Some s).
Proof.
  intros w Hs. eapply wpc_seq; [by apply open_law|done|].
  intros r w' Hs' [-> Hc]. by apply wpc_ret.
Qed.

Lemma close_reads s : reads (flash_partition_close s) (fun _ => 0).
Proof. intros w Hs. by apply close_law. Qed.

Lemma malloc_reads n : reads (os_malloc n) (fun _ => true).
Proof. intros w Hs. by apply malloc_law. Qed.

Lemma geometry_reads s : reads (os_geometry s) (fun _ => Some (geom s)).
Proof. intros w Hs. by apply geometry_law. Qed.

Lemma erase_psize s : g_erasesize (geom s) <= psize s.
Proof. pose proof (geom_block s). pose proof (geom_erase s). unfold psize. nia. Qed.

Lemma psize_range s : 128 <= psize s < 2 ^ 31.
Proof. pose proof (geom_block s). pose proof (geom_size s). pose proof (erase_psize s). lia. Qed.

Lemma geom_ranges s :
  128 <= g_erasesize (geom s) < 2 ^ 31 /\ 0 < g_neraseblocks (geom s) < 2 ^ 31 /\
  128 <= g_blocksize (geom s) <= psize s.
Proof.
  pose proof (geom_block s). pose proof (geom_erase s). pose proof (psize_range s).
  pose proof (erase_psize s). unfold psize in *. nia.
Qed.

(** [flash_partition_info] reports the geometry without truncation. *)
Definition info_of (s : slot) : flash_partition_info_t := {|
  i_blocksize := g_blocksize (geom s);
  i_size := psize s;
  i_neraseblocks := g_neraseblocks (geom s);
  i_erasesize := g_erasesize (geom s) |}.

Lemma info_reads s : reads (flash_partition_info s) (fun _ => Some (info_of s)).
Proof.
  pose proof (geom_ranges s). pose proof (psize_range s).
  intros w Hs. eapply wpc_seq; [by apply geometry_law|done|].
  intros r w' Hs' [-> Hc]. apply wpc_ret; [done|]. split; [|done].
  unfold info_of, psize in *. by rewrite !s32_small by lia.
Qed.

(** The data a read of [count] bytes at [off] gives. *)
Definition read_val (s : slot) (count off : Z) (f : flash) : option (list Z) :=
  if psize s <? count + off then None else Some (zslice off count (fget f s)).

Lemma read_reads s count off : 0 <= count < 2 ^ 31 -> 0 <= off < 2 ^ 31 ->
  reads (flash_partition_read s count off) (read_val s count off).
Proof.
  intros Hn Ho w Hs. pose proof (psize_range s) as Hp.
  eapply wpc_seq; [by apply geometry_law|done|]. intros r w1 Hs1 [-> Hc1]. simpl.
  fold (psize s). rewrite !u32_small by lia. unfold read_val.
  destruct (Z.ltb_spec (psize s) (count + off)); [by apply wpc_ret|].
  eapply wpc_seq; [apply lseek_law; [done|lia]|by rewrite Hc1|].
  intros pos w2 Hs2 (-> & Hc2 & Hp2). rewrite Z.eqb_refl. simpl.
  eapply wpc_seq; [apply read_law; [done|lia..]|by rewrite Hc2, Hc1|].
  intros r w3 Hs3 [-> Hc3]. simpl. rewrite u32_small, Z.eqb_refl by lia. simpl.
  apply wpc_ret; [done|]. by rewrite Hp2, Hc3, Hc2, Hc1.
Qed.

(** The effect of a write of the first [count] bytes of [buf] at [off]. *)
Lemma write_wpc s buf count off w :
  steady w -> Forall is_byte buf -> 0 <= count <= zlen buf -> count < 2 ^ 31 -> 0 <= off < 2 ^ 31 ->
  wpc (flash_partition_write s buf count off)
    (fun r w' =>
       if psize s <? count + off then r = ERROR /\ contents w' = contents w
       else r = OK /\ contents w' =
         fset (contents w) s (zwrite off (take (Z.to_nat count) buf) (fget (contents w) s)))
    (fun f => exists l, f = fset (contents w) s l) w.
Proof.
  intros Hs Hb Hn Hn' Ho. pose proof (psize_range s) as Hp.
  eapply wpc_seq; [by apply geometry_law| |].
  { intros f <-. exists (fget (contents w) s). by rewrite fset_fget. }
  intros r w1 Hs1 [-> Hc1]. simpl. fold (psize s). rewrite !u32_small by lia.
  destruct (Z.ltb_spec (psize s) (count + off)); [by apply wpc_ret|].
  eapply wpc_seq; [apply lseek_law; [done|lia]| |].
  { intros f <-. exists (fget (contents w) s). by rewrite Hc1, fset_fget. }
  intros pos w2 Hs2 (-> & Hc2 & Hp2). rewrite Z.eqb_refl. simpl.
  assert (Hlen : zlen (take (Z.to_nat count) buf) = count).
  { unfold zlen in *. rewrite length_take. lia. }
  eapply wpc_seq; [apply write_law; [done|by apply Forall_take|lia|rewrite Hlen; lia]| |].
  { intros f [l ->]. exists l. by rewrite Hc2, Hc1. }
  intros r w3 Hs3 [-> Hc3]. rewrite Hlen, u32_small, Z.eqb_refl by lia. simpl.
  apply wpc_ret; [done|]. by rewrite Hc3, Hp2, Hc2, Hc1.
Qed.

Lemma erase_first_wpc s w : steady w ->
  wpc (flash_partition_erase_first_sector s)
    (fun r w' => r = OK /\ contents w' = fset (contents w) s
       (zwrite 0 (replicate (Z.to_nat (g_erasesize (geom s))) 255) (fget (contents w) s)))
    (fun f => exists l, f = fset (contents w) s l /\
       erased_bits (fget (contents w) s) l) w.
Proof.
  intros Hs. eapply wpc_seq; [by apply erase_law|done|].
  intros r w' Hs' [Hr Hc]. destruct (Z.ltb_spec r 0); [lia|]. by apply wpc_ret.
Qed.

End CrashLogic.

(** Run one reading step of a program whose flash contents are named. *)
Ltac rd :=
  eapply wpc_reads;
    [ solve [eauto with nuttx] | eassumption | eassumption | try done | intros ? ? ?; simpl ].
Ltac rd_last :=
  eapply wpc_reads_last;
    [ solve [eauto with nuttx] | eassumption | eassumption | try done | intros ? ? ?; simpl ].

#[export] Hint Resolve open_reads close_reads malloc_reads info_reads read_reads reads_ret : nuttx.
