(* ===== verification/Boot.v ===== *)
(** * The nxboot bootloader

    Models src/boot/nxboot/loader/boot.c, src/boot/nxboot/include/nxboot.h and
    the decision logic of src/boot/nxboot/nxboot_main.c, on top of the flash
    partition access of [Flash].  The NuttX CRC routine [crc32part] is outside
    the repository and is a parameter (class [Crc32]). *)

From S2P Require Import Prelude.
From S2P Require Import Flash.

(** ** nxboot.h *)

Definition NXBOOT_PRIMARY_SLOT_NUM : Z := 0.
Definition NXBOOT_SECONDARY_SLOT_NUM : Z := 1.
Definition NXBOOT_TERTIARY_SLOT_NUM : Z := 2.
Definition NXBOOT_HEADER_MAGIC : Z := 0x534f584e.
Definition NXBOOT_HEADER_MAGIC_INT : Z := 0xaca0abb0.
Definition NXBOOT_HEADER_MAGIC_INT_MASK : Z := 0xfffffff0.
Definition NXBOOT_RECOVERY_PTR_MASK : Z := 0x3.
Definition NXBOOT_HEADER_PRERELEASE_MAXLEN : Z := 94.

Inductive nxboot_update_type :=
  | NXBOOT_UPDATE_TYPE_NONE
  | NXBOOT_UPDATE_TYPE_UPDATE
  | NXBOOT_UPDATE_TYPE_REVERT.

#[export] Instance nxboot_update_type_eq_dec : EqDecision nxboot_update_type.
Proof. solve_decision. Defined.

Record nxboot_img_version := {
  v_major : Z;
  v_minor : Z;
  v_patch : Z;
  v_pre_release : list Z;
}.

Record nxboot_img_header := {
  h_magic : Z;
  h_hdr_version : Z * Z;
  h_header_size : Z;
  h_crc : Z;
  h_size : Z;
  h_identifier : Z;
  h_extd_hdr_ptr : Z;
  h_img_version : nxboot_img_version;
}.

(** [sizeof(struct nxboot_img_header)] and the offsets of [magic] and [crc]. *)
Definition sizeof_header : Z := 128.
Definition offsetof_magic : Z := 0.
Definition offsetof_crc : Z := 8.

(** The header as the little-endian target lays the struct out in memory. *)
Definition decode_header (b : list Z) : nxboot_img_header := {|
  h_magic := le_val (zslice 0 4 b);
  h_hdr_version := (le_val (zslice 4 1 b), le_val (zslice 5 1 b));
  h_header_size := le_val (zslice 6 2 b);
  h_crc := le_val (zslice 8 4 b);
  h_size := le_val (zslice 12 4 b);
  h_identifier := le_val (zslice 16 8 b);
  h_extd_hdr_ptr := le_val (zslice 24 4 b);
  h_img_version := {|
    v_major := le_val (zslice 28 2 b);
    v_minor := le_val (zslice 30 2 b);
    v_patch := le_val (zslice 32 2 b);
    v_pre_release := zslice 34 NXBOOT_HEADER_PRERELEASE_MAXLEN b |} |}.

Record nxboot_state := {
  st_update : Z;
  st_recovery : Z;
  st_recovery_valid : bool;
  st_recovery_present : bool;
  st_primary_confirmed : bool;
  st_next_boot : nxboot_update_type;
}.

(** [memset(state, 0, sizeof *state)] *)
Definition zero_state : nxboot_state := {|
  st_update := 0; st_recovery := 0; st_recovery_valid := false;
  st_recovery_present := false; st_primary_confirmed := false;
  st_next_boot := NXBOOT_UPDATE_TYPE_NONE |}.

(** ** Parameters of the model *)

(** [crc32part(buf, len, crc)] of nuttx/crc32.h: continue a CRC over a part of
    a buffer. *)
Class Crc32 := { crc32part : list Z -> Z -> Z }.

Class NxbootConfig := {
  CONFIG_NXBOOT_PLATFORM_IDENTIFIER : Z;
  CONFIG_NXBOOT_PREVENT_DOWNGRADE : bool;
}.

(** ** boot.c *)

Definition IS_INTERNAL_MAGIC (magic : Z) : bool :=
  Z.land magic NXBOOT_HEADER_MAGIC_INT_MASK =? NXBOOT_HEADER_MAGIC_INT.

Section Boot.
Context `{!Crc32, !NxbootConfig}.

Definition validate_image_header (header : nxboot_img_header) : bool :=
  ((h_magic header =? NXBOOT_HEADER_MAGIC) || IS_INTERNAL_MAGIC (h_magic header)) &&
  (h_identifier header =? CONFIG_NXBOOT_PLATFORM_IDENTIFIER).

Fixpoint pre_release_eqb (a b : list Z) : bool :=
  match a, b with
  | [], [] => true
  | x :: a', y :: b' => if negb (x =? y) then false else pre_release_eqb a' b'
  | _, _ => false
  end.

Definition compare_versions (v1 v2 : nxboot_img_version) : bool :=
  if negb CONFIG_NXBOOT_PREVENT_DOWNGRADE then
    if negb (v_major v1 =? v_major v2) || negb (v_minor v1 =? v_minor v2)
       || negb (v_patch v1 =? v_patch v2)
    then false
    else pre_release_eqb (v_pre_release v1) (v_pre_release v2)
  else
    (v_major v2 <? v_major v1) || (v_minor v2 <? v_minor v1) ||
    (v_patch v2 <? v_patch v1).

Context {W : Type} `{!MtdOps W}.

Definition get_image_header (fd : slot) : M W nxboot_img_header :=
  ret ← flash_partition_read fd sizeof_header 0;
  match ret with
  | None => mret (decode_header (replicate (Z.to_nat sizeof_header) 0))
  | Some b => mret (decode_header b)
  end.

(** The reading loop of [calculate_crc]; one unit of fuel per block. *)
Fixpoint crc_loop (fuel : nat) (fd : slot) (blocksize off remain crc : Z) : M W Z :=
  if 0 <? remain then
    match fuel with
    | O => nofuel
    | S fuel' =>
      let readsiz := if blocksize <? remain then blocksize else remain in
      buf ← flash_partition_read fd readsiz off;
      match buf with
      | None => mret 0xffffffff
      | Some buf =>
        crc_loop fuel' fd blocksize (off + readsiz) (remain - readsiz) (crc32part buf crc)
      end
    end
  else mret (u32 (Z.lnot crc)).

Definition calculate_crc (fd : slot) (header : nxboot_img_header) : M W Z :=
  info ← flash_partition_info fd;
  match info with
  | None => mret 0
  | Some info =>
    buf ← os_malloc (i_blocksize info);
    if negb buf then mret 0
    else
      let off := offsetof_crc + 4 in
      let remain := s32 (h_size header + h_header_size header - off) in
      crc_loop (Z.to_nat remain) fd (i_blocksize info) off remain 0xffffffff
  end.

(** The copying loop of [copy_partition], after the first block. *)
Fixpoint copy_loop (fuel : nat) (from where_ : slot) (blocksize off remain : Z) : M W Z :=
  if 0 <? remain then
    match fuel with
    | O => nofuel
    | S fuel' =>
      let readsiz := if blocksize <? remain then blocksize else remain in
      buf ← flash_partition_read from readsiz off;
      match buf with
      | None => mret ERROR
      | Some buf =>
        r ← flash_partition_write where_ buf readsiz off;
        if r <? 0 then mret ERROR
        else copy_loop fuel' from where_ blocksize (off + readsiz) (remain - readsiz)
      end
    end
  else mret OK.

Definition copy_partition (from where_ : slot) (state : nxboot_state) (update : bool) : M W Z :=
  header ← get_image_header from;
  info_from ← flash_partition_info from;
  match info_from with
  | None => mret ERROR
  | Some info_from =>
    info_where ← flash_partition_info where_;
    match info_where with
    | None => mret ERROR
    | Some info_where =>
      let remain := s32 (h_size header + h_header_size header) in
      if i_size info_where <? remain then mret ERROR
      else
        let blocksize := Z.max (i_blocksize info_from) (i_blocksize info_where) in
        ok ← os_malloc blocksize;
        if negb ok then mret ERROR
        else
          let magic := if IS_INTERNAL_MAGIC (h_magic header)
                       then NXBOOT_HEADER_MAGIC else NXBOOT_HEADER_MAGIC_INT in
          let magic := if update then Z.lor magic (st_update state) else magic in
          buf ← flash_partition_read from blocksize 0;
          match buf with
          | None => mret ERROR
          | Some buf =>
            let buf := zwrite offsetof_magic (le_bytes 4 magic) buf in
            r ← flash_partition_write where_ buf blocksize 0;
            if r <? 0 then mret ERROR
            else copy_loop (Z.to_nat remain) from where_ blocksize blocksize (remain - blocksize)
          end
    end
  end.

Definition validate_image (fd : slot) : M W bool :=
  header ← get_image_header fd;
  if negb (validate_image_header header) then mret false
  else
    crc ← calculate_crc fd header;
    mret (crc =? h_crc header).

Definition get_update_type (state : nxboot_state) (primary update recovery : slot)
    (primary_header update_header recovery_header : nxboot_img_header)
    : M W nxboot_update_type :=
  primary_valid ← validate_image primary;
  update_valid ← (if h_magic update_header =? NXBOOT_HEADER_MAGIC
                  then validate_image update else mret false);
  if update_valid &&
     (negb (h_crc primary_header =? h_crc update_header)
      || negb (compare_versions (h_img_version primary_header) (h_img_version update_header))
      || negb primary_valid)
  then mret NXBOOT_UPDATE_TYPE_UPDATE
  else
    if IS_INTERNAL_MAGIC (h_magic recovery_header) && st_recovery_valid state &&
       ((IS_INTERNAL_MAGIC (h_magic primary_header) && negb (st_primary_confirmed state))
        || negb primary_valid)
    then mret NXBOOT_UPDATE_TYPE_REVERT
    else mret NXBOOT_UPDATE_TYPE_NONE.

(** Opening of the three slots at the start of [perform_update] and of
    [nxboot_get_state]; what was opened is closed again on failure. *)
Definition open_slots : M W (option (slot * slot * slot)) :=
  primary ← flash_partition_open Primary;
  match primary with
  | None => mret None
  | Some primary =>
    secondary ← flash_partition_open Secondary;
    match secondary with
    | None => _ ← flash_partition_close primary; mret None
    | Some secondary =>
      tertiary ← flash_partition_open Tertiary;
      match tertiary with
      | None =>
        _ ← flash_partition_close primary;
        _ ← flash_partition_close secondary;
        mret None
      | Some tertiary => mret (Some (primary, secondary, tertiary))
      end
    end
  end.

Definition close_slots (primary secondary tertiary : slot) : M W unit :=
  _ ← flash_partition_close primary;
  _ ← flash_partition_close secondary;
  _ ← flash_partition_close tertiary;
  mret tt.

(** The body of [perform_update] between opening and closing the slots; a
    [goto perform_update_done] is a [mret tt]. *)
Definition perform_update_body (state : nxboot_state) (check_only : bool)
    (primary update recovery : slot) : M W unit :=
  revert ← (if decide (st_next_boot state = NXBOOT_UPDATE_TYPE_REVERT)
            then if negb check_only then mret true
                 else v ← validate_image primary; mret (negb v)
            else mret false);
  if revert : bool then
    if st_recovery_valid state
    then _ ← copy_partition recovery primary state false; mret tt
    else mret tt
  else
    primary_valid ← validate_image primary;
    if primary_valid && check_only then mret tt
    else
      go ← (if (negb (st_recovery_present state) || negb (st_recovery_valid state))
               && st_primary_confirmed state && primary_valid
            then _ ← copy_partition primary recovery state false; validate_image recovery
            else mret true);
      if go : bool then
        v ← validate_image update;
        if v : bool then
          r ← copy_partition update primary state true;
          if 0 <=? r
          then _ ← flash_partition_erase_first_sector update; mret tt
          else mret tt
        else mret tt
      else mret tt.

Definition perform_update (state : nxboot_state) (check_only : bool) : M W Z :=
  slots ← open_slots;
  match slots with
  | None => mret ERROR
  | Some (primary, secondary, tertiary) =>
    let '(update, recovery) :=
      if st_update state =? NXBOOT_SECONDARY_SLOT_NUM
      then (secondary, tertiary) else (tertiary, secondary) in
    _ ← perform_update_body state check_only primary update recovery;
    _ ← close_slots primary secondary tertiary;
    mret OK
  end.

(** Which of the two spare slots is the update slot ([true]: the tertiary
    slot), from the three headers. *)
Definition update_is_tertiary (primary_header secondary_header tertiary_header
    : nxboot_img_header) : bool :=
  if h_magic tertiary_header =? NXBOOT_HEADER_MAGIC then true
  else if IS_INTERNAL_MAGIC (h_magic secondary_header) &&
          IS_INTERNAL_MAGIC (h_magic tertiary_header) then
    if IS_INTERNAL_MAGIC (h_magic primary_header) then
      let recovery_pointer := Z.land (h_magic primary_header) NXBOOT_RECOVERY_PTR_MASK in
      (recovery_pointer =? NXBOOT_SECONDARY_SLOT_NUM) &&
      (h_crc primary_header =? h_crc secondary_header)
    else h_crc primary_header =? h_crc secondary_header
  else IS_INTERNAL_MAGIC (h_magic secondary_header).

(** [state->primary_confirmed] of [nxboot_get_state]. *)
Definition primary_confirmed (primary_header secondary_header tertiary_header
    : nxboot_img_header) : bool :=
  if h_magic primary_header =? NXBOOT_HEADER_MAGIC then true
  else if IS_INTERNAL_MAGIC (h_magic primary_header) then
    let recovery_pointer := Z.land (h_magic primary_header) NXBOOT_RECOVERY_PTR_MASK in
    if recovery_pointer =? NXBOOT_SECONDARY_SLOT_NUM
    then h_crc primary_header =? h_crc secondary_header
    else if recovery_pointer =? NXBOOT_TERTIARY_SLOT_NUM
    then h_crc primary_header =? h_crc tertiary_header
    else false
  else false.

(** The return value and the state written through the pointer. *)
Definition nxboot_get_state : M W (Z * nxboot_state) :=
  slots ← open_slots;
  match slots with
  | None => mret (ERROR, zero_state)
  | Some (primary, secondary, tertiary) =>
    primary_header ← get_image_header primary;
    secondary_header ← get_image_header secondary;
    tertiary_header ← get_image_header tertiary;
    let swapped := update_is_tertiary primary_header secondary_header tertiary_header in
    let update := if swapped then tertiary else secondary in
    let recovery := if swapped then secondary else tertiary in
    let update_header := if swapped then tertiary_header else secondary_header in
    let recovery_header := if swapped then secondary_header else tertiary_header in
    recovery_valid ← validate_image recovery;
    let state := {|
      st_update := if swapped then NXBOOT_TERTIARY_SLOT_NUM else NXBOOT_SECONDARY_SLOT_NUM;
      st_recovery := if swapped then NXBOOT_SECONDARY_SLOT_NUM else NXBOOT_TERTIARY_SLOT_NUM;
      st_recovery_valid := recovery_valid;
      st_recovery_present := h_crc primary_header =? h_crc recovery_header;
      st_primary_confirmed := primary_confirmed primary_header secondary_header tertiary_header;
      st_next_boot := NXBOOT_UPDATE_TYPE_NONE |} in
    next_boot ← get_update_type state primary update recovery
                  primary_header update_header recovery_header;
    _ ← close_slots primary secondary tertiary;
    mret (OK, {|
      st_update := st_update state;
      st_recovery := st_recovery state;
      st_recovery_valid := st_recovery_valid state;
      st_recovery_present := st_recovery_present state;
      st_primary_confirmed := st_primary_confirmed state;
      st_next_boot := next_boot |})
  end.

(** The slot whose path [state.update] selects. *)
Definition update_path (state : nxboot_state) : slot :=
  if st_update state =? NXBOOT_SECONDARY_SLOT_NUM then Secondary else Tertiary.

Definition nxboot_open_update_partition : M W (option slot) :=
  r ← nxboot_get_state;
  flash_partition_open (update_path (snd r)).

Definition nxboot_get_confirm : M W Z :=
  primary ← flash_partition_open Primary;
  match primary with
  | None => mret ERROR
  | Some primary =>
    primary_header ← get_image_header primary;
    if h_magic primary_header =? NXBOOT_HEADER_MAGIC then
      _ ← os_close primary; mret 1
    else if IS_INTERNAL_MAGIC (h_magic primary_header) then
      let recovery_pointer := Z.land (h_magic primary_header) NXBOOT_RECOVERY_PTR_MASK in
      if negb (recovery_pointer =? 0) then
        let path := if recovery_pointer =? NXBOOT_SECONDARY_SLOT_NUM
                    then Secondary else Tertiary in
        recovery ← flash_partition_open path;
        match recovery with
        | None => _ ← os_close primary; mret ERROR
        | Some recovery =>
          recovery_header ← get_image_header recovery;
          _ ← os_close recovery;
          _ ← os_close primary;
          mret (if h_crc primary_header =? h_crc recovery_header then 1 else 0)
        end
      else _ ← os_close primary; mret 0
    else _ ← os_close primary; mret 0
  end.

(** The page-by-page copy of the first erase sector in [nxboot_confirm]. *)
Fixpoint confirm_loop (fuel : nat) (primary update : slot) (blocksize off remain : Z) : M W Z :=
  if 0 <? remain then
    match fuel with
    | O => nofuel
    | S fuel' =>
      let readsiz := if blocksize <? remain then blocksize else remain in
      buf ← flash_partition_read primary readsiz off;
      match buf with
      | None => mret ERROR
      | Some buf =>
        r ← flash_partition_write update buf readsiz off;
        if r <? 0 then mret ERROR
        else confirm_loop fuel' primary update blocksize (off + readsiz) (remain - readsiz)
      end
    end
  else mret OK.

Definition nxboot_confirm : M W Z :=
  r ← nxboot_get_state;
  let state := snd r in
  if st_primary_confirmed state then mret OK
  else
    let path := update_path state in
    primary ← flash_partition_open Primary;
    match primary with
    | None => mret ERROR
    | Some primary =>
      update ← flash_partition_open path;
      match update with
      | None => _ ← flash_partition_close primary; mret ERROR
      | Some update =>
        info_update ← flash_partition_info update;
        ret ← match info_update with
              | None => mret ERROR
              | Some info =>
                ok ← os_malloc (i_blocksize info);
                if negb ok then undef
                else confirm_loop (Z.to_nat (i_erasesize info)) primary update
                       (i_blocksize info) 0 (i_erasesize info)
              end;
        _ ← flash_partition_close primary;
        _ ← flash_partition_close update;
        mret ret
      end
    end.

Definition nxboot_perform_update (check_only : bool) : M W Z :=
  r ← nxboot_get_state;
  let '(ret, state) := r in
  if ret <? 0 then mret ERROR
  else
    ret ← (if decide (st_next_boot state = NXBOOT_UPDATE_TYPE_NONE) then mret ret
           else perform_update state check_only);
    primary ← flash_partition_open Primary;
    match primary with
    | None => mret ERROR
    | Some primary =>
      header ← get_image_header primary;
      let ret := if negb (validate_image_header header) then ERROR else ret in
      _ ← flash_partition_close primary;
      mret ret
    end.

(** [main] of nxboot_main.c: the reset cause selects [check_only] when
    [CONFIG_NXBOOT_SWRESET_ONLY] is set ([None]: the option is off); the
    result says whether the primary image is booted. *)
Inductive reset_cause := RESETCAUSE_CPU_SOFT | RESETCAUSE_CPU_RWDT | RESETCAUSE_PIN
  | RESETCAUSE_OTHER.

Definition nxboot_main (swreset_only : bool) (cause : option reset_cause) : M W bool :=
  let check_only :=
    if swreset_only then
      match cause with
      | Some RESETCAUSE_CPU_SOFT | Some RESETCAUSE_CPU_RWDT | Some RESETCAUSE_PIN => false
      | Some RESETCAUSE_OTHER | None => true
      end
    else false in
  r ← nxboot_perform_update check_only;
  if r <? 0 then mret false else mret true.

End Boot.
