(* ===== verification/BootSpec.v ===== *)
(** * Reference behaviour of the bootloader's queries

    On a device that reports no errors, every query of boot.c is a function of
    the flash contents.  This file defines these functions ([hdr], [crc_val],
    [image_ok], [boot_state]) and proves that the queries compute them, without
    writing, and that they can be interrupted by a power cut at any point. *)

From S2P Require Import Prelude.
From S2P Require Import Flash.
From S2P Require Import Boot.

(** [crc32part] run over consecutive parts is [crc32part] over the whole. *)
Class Crc32Laws `{!Crc32} : Prop := {
  crc32part_app a b c : crc32part (a ++ b) c = crc32part b (crc32part a c)
}.

Section BootSpec.
Context `{!Crc32, !Crc32Laws, !NxbootConfig}.
Context {W : Type} `{!MtdOps W, !MtdView W, !MtdLaws W}.

Definition hdr (f : flash) (s : slot) : nxboot_img_header :=
  decode_header (zslice 0 sizeof_header (fget f s)).

(** Total length of an image, as [int]. *)
Definition image_len (h : nxboot_img_header) : Z := s32 (h_size h + h_header_size h).

(** Length of the part the CRC covers, as [int]. *)
Definition crc_len (h : nxboot_img_header) : Z := s32 (h_size h + h_header_size h - 12).

(** What [crc_loop] computes over [remain] bytes at [off]. *)
Definition crc_spec (s : slot) (off remain crc : Z) (f : flash) : Z :=
  if 0 <? remain then
    if psize s <? off + remain then 0xffffffff
    else u32 (Z.lnot (crc32part (zslice off remain (fget f s)) crc))
  else u32 (Z.lnot crc).

Definition crc_val (f : flash) (s : slot) (h : nxboot_img_header) : Z :=
  crc_spec s 12 (crc_len h) 0xffffffff f.

(** The image in slot [s] is valid in the sense of [validate_image]. *)
Definition image_ok (f : flash) (s : slot) : bool :=
  validate_image_header (hdr f s) && (crc_val f s (hdr f s) =? h_crc (hdr f s)).

Lemma header_reads s : reads (get_image_header s) (fun f => hdr f s).
Proof.
  apply reads_intro. intros F w Hs Hc. pose proof (psize_range s).
  eapply wpc_reads; [apply (read_reads s sizeof_header 0); unfold sizeof_header; lia|done..|].
  intros w' Hs' Hc'. unfold read_val, sizeof_header.
  destruct (Z.ltb_spec (psize s) (128 + 0)); [lia|]. by apply wpc_ret.
Qed.

Lemma zslice_split off n m l : 0 <= off -> 0 <= n -> 0 <= m ->
  zslice off (n + m) l = zslice off n l ++ zslice (off + n) m l.
Proof.
  intros Ho Hn Hm. unfold zslice.
  rewrite !Z2Nat.inj_add, <- drop_drop by lia.
  generalize (drop (Z.to_nat off) l). intros t.
  rewrite <- (take_drop (Z.to_nat n) t) at 1.
  destruct (decide (Z.to_nat n <= length t)%nat).
  - rewrite take_app_ge by (rewrite length_take; lia).
    by rewrite length_take, Nat.min_l, Nat.add_comm, Nat.add_sub by lia.
  - rewrite (drop_ge t) by lia. rewrite take_nil, !app_nil_r.
    rewrite !take_ge; [done|lia|rewrite length_take; lia].
Qed.

Lemma crc_loop_reads fuel s bs off remain crc :
  0 < bs -> 0 <= off <= psize s -> remain < 2 ^ 31 -> remain <= Z.of_nat fuel ->
  reads (crc_loop fuel s bs off remain crc) (crc_spec s off remain crc).
Proof.
  revert off remain crc. induction fuel as [|fuel IH]; intros off remain crc Hbs Ho Hr Hf;
    unfold crc_spec; simpl; (destruct (Z.ltb_spec 0 remain); [|apply reads_ret]); [lia|].
  pose proof (psize_range s).
  set (n := if bs <? remain then bs else remain).
  assert (Hn : 0 < n <= remain) by (unfold n; case_zbool). clearbody n.
  apply reads_intro. intros F w Hs Hc.
  eapply wpc_reads; [apply (read_reads s n off); lia|done..|].
  intros w' Hs' Hc'. unfold read_val.
  destruct (Z.ltb_spec (psize s) (n + off)) as [Hlt|Hge].
  { destruct (Z.ltb_spec (psize s) (off + remain)); [|lia]. by apply wpc_ret. }
  eapply wpc_reads_last; [apply IH; lia|done..|].
  intros w'' Hs'' Hc''. split; [|done]. unfold crc_spec.
  replace (off + n + (remain - n)) with (off + remain) by lia.
  destruct (Z.ltb_spec 0 (remain - n)).
  - destruct (psize s <? off + remain); [done|].
    replace remain with (n + (remain - n)) at 2 by lia.
    by rewrite zslice_split, crc32part_app by lia.
  - assert (remain = n) as -> by lia. by destruct (Z.ltb_spec (psize s) (off + n)); [lia|].
Qed.

Lemma crc_reads s h : reads (calculate_crc s h) (fun f => crc_val f s h).
Proof.
  apply reads_intro. intros F w Hs Hc.
  pose proof (geom_ranges s). pose proof (psize_range s).
  eapply wpc_reads; [apply info_reads|done..|]. intros w1 Hs1 Hc1. simpl.
  eapply wpc_reads; [apply malloc_reads|done..|]. intros w2 Hs2 Hc2. simpl.
  eapply wpc_reads_last; [apply crc_loop_reads|done..|].
  - simpl. lia.
  - unfold offsetof_crc. lia.
  - apply s32_range.
  - pose proof (s32_range (h_size h + h_header_size h - (offsetof_crc + 4))). lia.
  - done.
Qed.

Lemma validate_reads s : reads (validate_image s) (fun f => image_ok f s).
Proof.
  apply reads_intro. intros F w Hs Hc. unfold image_ok.
  eapply wpc_reads; [apply header_reads|done..|]. intros w1 Hs1 Hc1.
  destruct (validate_image_header (hdr F s)); simpl; [|by apply wpc_ret].
  eapply wpc_reads; [apply crc_reads|done..|]. intros w2 Hs2 Hc2.
  by apply wpc_ret.
Qed.

(** ** The boot state as a function of the flash contents *)

Definition roles_swapped (f : flash) : bool :=
  update_is_tertiary (hdr f Primary) (hdr f Secondary) (hdr f Tertiary).

(** The update slot and the recovery slot. *)
Definition slot_u (f : flash) : slot := if roles_swapped f then Tertiary else Secondary.
Definition slot_r (f : flash) : slot := if roles_swapped f then Secondary else Tertiary.

Definition confirmed (f : flash) : bool :=
  primary_confirmed (hdr f Primary) (hdr f Secondary) (hdr f Tertiary).

(** The update slot holds a valid image with the standard magic. *)
Definition update_pending (f : flash) : bool :=
  (h_magic (hdr f (slot_u f)) =? NXBOOT_HEADER_MAGIC) && image_ok f (slot_u f).

(** The recovery slot holds a valid image with the internal magic. *)
Definition recovery_ready (f : flash) : bool :=
  IS_INTERNAL_MAGIC (h_magic (hdr f (slot_r f))) && image_ok f (slot_r f).

(** The pending update is not the image that is already running. *)
Definition update_differs (f : flash) : bool :=
  negb (h_crc (hdr f Primary) =? h_crc (hdr f (slot_u f))) ||
  negb (compare_versions (h_img_version (hdr f Primary)) (h_img_version (hdr f (slot_u f)))) ||
  negb (image_ok f Primary).

Definition next_boot (f : flash) : nxboot_update_type :=
  if update_pending f && update_differs f then NXBOOT_UPDATE_TYPE_UPDATE
  else if recovery_ready f &&
          ((IS_INTERNAL_MAGIC (h_magic (hdr f Primary)) && negb (confirmed f))
           || negb (image_ok f Primary))
  then NXBOOT_UPDATE_TYPE_REVERT
  else NXBOOT_UPDATE_TYPE_NONE.

Definition boot_state (f : flash) : nxboot_state := {|
  st_update := if roles_swapped f then NXBOOT_TERTIARY_SLOT_NUM else NXBOOT_SECONDARY_SLOT_NUM;
  st_recovery := if roles_swapped f then NXBOOT_SECONDARY_SLOT_NUM else NXBOOT_TERTIARY_SLOT_NUM;
  st_recovery_valid := image_ok f (slot_r f);
  st_recovery_present := h_crc (hdr f Primary) =? h_crc (hdr f (slot_r f));
  st_primary_confirmed := confirmed f;
  st_next_boot := next_boot f |}.

Lemma open_slots_reads : reads open_slots (fun _ => Some (Primary, Secondary, Tertiary)).
Proof.
  apply reads_intro. intros F w Hs Hc.
  do 3 (eapply wpc_reads; [apply open_reads|done..|]; intros ? ? ?; simpl).
  by apply wpc_ret.
Qed.

Lemma close_slots_reads p s t : reads (close_slots p s t) (fun _ => tt).
Proof.
  apply reads_intro. intros F w Hs Hc.
  do 3 (eapply wpc_reads; [apply close_reads|done..|]; intros ? ? ?; simpl).
  by apply wpc_ret.
Qed.

Lemma get_update_type_reads st p u r ph uh rh :
  reads (get_update_type st p u r ph uh rh) (fun f =>
    if ((h_magic uh =? NXBOOT_HEADER_MAGIC) && image_ok f u) &&
       (negb (h_crc ph =? h_crc uh)
        || negb (compare_versions (h_img_version ph) (h_img_version uh))
        || negb (image_ok f p)) then NXBOOT_UPDATE_TYPE_UPDATE
    else if IS_INTERNAL_MAGIC (h_magic rh) && st_recovery_valid st &&
       ((IS_INTERNAL_MAGIC (h_magic ph) && negb (st_primary_confirmed st)) || negb (image_ok f p))
    then NXBOOT_UPDATE_TYPE_REVERT else NXBOOT_UPDATE_TYPE_NONE).
Proof.
  apply reads_intro. intros F w Hs Hc.
  eapply wpc_reads; [apply validate_reads|done..|]. intros w1 Hs1 Hc1.
  eapply wpc_reads;
    [apply (reads_if _ _ _ _ _ (validate_reads u) (reads_ret false))|done..|].
  intros w2 Hs2 Hc2.
  destruct (h_magic uh =? NXBOOT_HEADER_MAGIC); simpl;
    repeat case_match; by apply wpc_ret.
Qed.

Lemma get_state_reads : reads nxboot_get_state (fun f => (OK, boot_state f)).
Proof.
  apply reads_intro. intros F w Hs Hc.
  eapply wpc_reads; [apply open_slots_reads|done..|]. intros w1 Hs1 Hc1. cbn beta iota.
  do 3 (eapply wpc_reads; [apply header_reads|done..|]; intros ? ? ?).
  eapply wpc_reads; [apply validate_reads|done..|]. intros w2 Hs2 Hc2.
  eapply wpc_reads; [apply get_update_type_reads|done..|]. intros w3 Hs3 Hc3.
  eapply wpc_reads; [apply close_slots_reads|done..|]. intros w4 Hs4 Hc4.
  apply wpc_ret; [done|]. split; [|done]. cbn [st_recovery_valid st_primary_confirmed].
  unfold boot_state, next_boot, update_pending, update_differs, recovery_ready,
    confirmed, slot_u, slot_r, roles_swapped.
  by destruct (update_is_tertiary _ _ _).
Qed.

End BootSpec.

#[export] Hint Resolve header_reads crc_reads validate_reads open_slots_reads
  close_slots_reads get_state_reads : nuttx.
