(* ===== verification/BootCopy.v ===== *)
(** * Copying an image between slots

    What [copy_partition] and [nxboot_confirm]'s copying loop do to the flash,
    when they complete and when the power is cut, and that a copied image is
    valid exactly when the original is. *)

From S2P Require Import Prelude.
From S2P Require Import Flash.
From S2P Require Import Boot.
From S2P Require Import BootSpec.

Section BootCopy.
Context `{!Crc32, !Crc32Laws, !NxbootConfig}.
Context {W : Type} `{!MtdOps W, !MtdView W, !MtdLaws W}.

(** The copying loop moves [remain] bytes at [off]; interrupted, it has only
    changed the destination. *)
Lemma copy_loop_wpc fuel from where_ bs off remain w :
  steady w -> from <> where_ -> 0 < bs -> 0 <= off -> remain <= Z.of_nat fuel ->
  off + remain <= psize from -> off + remain <= psize where_ ->
  wpc (copy_loop fuel from where_ bs off remain)
    (fun r w' => r = OK /\ contents w' = fset (contents w) where_
       (zwrite off (zslice off remain (fget (contents w) from)) (fget (contents w) where_)))
    (fun f => exists l, f = fset (contents w) where_ l) w.
Proof.
  revert off remain w. induction fuel as [|fuel IH];
    intros off remain w Hs Hne Hbs Ho Hf Hfrom Hwh; simpl;
    (destruct (Z.ltb_spec 0 remain) as [Hr|Hr];
      [|apply wpc_ret; [done|]; split; [done|]; unfold zslice;
        replace (Z.to_nat remain) with 0%nat by lia; by rewrite zwrite_nil, fset_fget]); [lia|].
  pose proof (psize_range from). pose proof (psize_range where_).
  set (n := if bs <? remain then bs else remain).
  assert (Hn : 0 < n <= remain) by (unfold n; case_zbool). clearbody n.
  eapply wpc_reads; [apply (read_reads from n off); lia|done..| |].
  { exists (fget (contents w) where_). by rewrite fset_fget. }
  intros w1 Hs1 Hc1. unfold read_val. destruct (Z.ltb_spec (psize from) (n + off)); [lia|].
  pose proof (contents_len w from Hs) as Hl.
  assert (Hd : zlen (zslice off n (fget (contents w) from)) = n) by (apply zlen_zslice; lia).
  eapply wpc_seq; [apply write_wpc; [done|by apply Forall_zslice, contents_byte|lia..]| |].
  { intros f [l ->]. exists l. by rewrite Hc1. }
  intros r w2 Hs2. simpl. destruct (Z.ltb_spec (psize where_) (n + off)); [lia|].
  intros [-> Hc2]. simpl. rewrite take_ge in Hc2 by (unfold zlen in Hd; lia).
  eapply wpc_mono; [apply IH; [done..|lia|lia|lia|lia]| |].
  - intros r w3 Hs3 [-> Hc3]. split; [done|].
    rewrite Hc3, Hc2, Hc1, fget_fset, fget_fset_ne, fset_fset by done.
    pose proof (contents_len w where_ Hs) as Hlw. pose proof (contents_len w from Hs) as Hlf.
    rewrite <- Hd at 1. rewrite zwrite_app; [|lia|].
    + rewrite <- zslice_split by lia. do 3 f_equal. lia.
    + rewrite Hd, zlen_zslice by lia. lia.
  - intros f [l ->]. exists l. by rewrite Hc2, Hc1, fset_fset.
Qed.

Lemma confirm_loop_eq fuel p u bs off remain :
  confirm_loop fuel p u bs off remain = copy_loop fuel p u bs off remain.
Proof. reflexivity. Qed.

(** The magic number [copy_partition] writes. *)
Definition copy_magic (h : nxboot_img_header) (st : nxboot_state) (update : bool) : Z :=
  let magic := if IS_INTERNAL_MAGIC (h_magic h)
               then NXBOOT_HEADER_MAGIC else NXBOOT_HEADER_MAGIC_INT in
  if update then Z.lor magic (st_update st) else magic.

(** Number of bytes copied: a page, or the image when it is longer. *)
Definition copy_span (from where_ : slot) (h : nxboot_img_header) : Z :=
  Z.max (Z.max (g_blocksize (geom from)) (g_blocksize (geom where_))) (image_len h).

(** Contents of the destination after a complete copy. *)
Definition copied (f : flash) (from where_ : slot) (magic : Z) : list Z :=
  zwrite 0 (zwrite 0 (le_bytes 4 magic) (zslice 0 (copy_span from where_ (hdr f from)) (fget f from)))
    (fget f where_).

(** The copied bytes, a block of either slot included, are inside both slots. *)
Definition copy_room (h : nxboot_img_header) (from where_ : slot) : Prop :=
  copy_span from where_ h <= psize from /\ copy_span from where_ h <= psize where_.

Lemma equal_room h from where_ : psize from = psize where_ -> image_len h <= psize where_ ->
  copy_room h from where_.
Proof.
  intros He Hl. unfold copy_room, copy_span. pose proof (geom_ranges from). pose proof (geom_ranges where_). lia.
Qed.

Lemma span_bounds f from where_ : psize from = psize where_ ->
  image_len (hdr f from) <= psize where_ ->
  128 <= copy_span from where_ (hdr f from) <= psize where_.
Proof.
  intros He Hl. unfold copy_span.
  pose proof (geom_ranges from). pose proof (geom_ranges where_). lia.
Qed.

(** [copy_partition] refuses an image that does not fit before it writes
    anything; otherwise it makes the copy, and interrupted it has changed the
    destination only. *)
Lemma copy_room_wpc from where_ st update w :
  steady w -> from <> where_ ->
  (image_len (hdr (contents w) from) <= psize where_ -> copy_room (hdr (contents w) from) from where_) ->
  wpc (copy_partition from where_ st update)
    (fun r w' =>
       if psize where_ <? image_len (hdr (contents w) from)
       then r = ERROR /\ contents w' = contents w
       else r = OK /\ contents w' = fset (contents w) where_
         (copied (contents w) from where_ (copy_magic (hdr (contents w) from) st update)))
    (fun f => f = contents w \/
       (image_len (hdr (contents w) from) <= psize where_ /\
        exists l, f = fset (contents w) where_ l)) w.
Proof.
  intros Hs Hne Hroom. pose proof (geom_ranges from) as Hgf. pose proof (geom_ranges where_) as Hgw.
  pose proof (psize_range where_) as Hpw.
  eapply wpc_reads; [apply header_reads|done|done|by left|]. intros w1 Hs1 Hc1.
  eapply wpc_reads; [apply info_reads|done|done|by left|]. intros w2 Hs2 Hc2.
  eapply wpc_reads; [apply info_reads|done|done|by left|]. intros w3 Hs3 Hc3.
  cbn [i_size i_blocksize info_of].
  fold (image_len (hdr (contents w) from)). set (h := hdr (contents w) from).
  destruct (Z.ltb_spec (psize where_) (image_len h)) as [Hbig|Hfit]; [by apply wpc_ret|].
  set (bs := Z.max (g_blocksize (geom from)) (g_blocksize (geom where_))).
  destruct (Hroom Hfit) as [Hrf Hrw]. unfold copy_span in Hrf, Hrw. fold h bs in Hrf, Hrw.
  assert (Hbs : 128 <= bs <= psize where_) by lia.
  eapply wpc_reads; [apply malloc_reads|done|done|by left|]. intros w4 Hs4 Hc4. cbn [negb].
  eapply wpc_reads; [apply (read_reads from bs 0); lia|done|done|by left|]. intros w5 Hs5 Hc5.
  unfold read_val. destruct (Z.ltb_spec (psize from) (bs + 0)); [lia|].
  fold (copy_magic h st update). set (m := copy_magic h st update).
  pose proof (contents_len w from Hs) as Hlf. pose proof (contents_byte w from Hs) as Hbyte.
  set (blk := zwrite offsetof_magic (le_bytes 4 m) (zslice 0 bs (fget (contents w) from))).
  assert (Hblk : zlen blk = bs) by (unfold blk; rewrite zlen_zwrite, zlen_zslice; lia).
  eapply wpc_seq; [apply write_wpc; [done| |lia..]| |].
  { apply Forall_zwrite; [apply le_bytes_byte|by apply Forall_zslice]. }
  { intros f [l ->]. right. split; [done|]. exists l. by rewrite Hc5. }
  intros r w6 Hs6. destruct (Z.ltb_spec (psize where_) (bs + 0)); [lia|]. intros [-> Hc6].
  rewrite take_ge in Hc6 by (unfold zlen in Hblk; lia). rewrite Hc5 in Hc6. cbn [Z.ltb].
  eapply wpc_mono; [apply copy_loop_wpc; [done..|lia|lia|lia|lia|lia]| |].
  - intros r w7 Hs7 [-> Hc7]. split; [done|]. rewrite Hc7, Hc6. clear Hc7 Hc6.
    rewrite fget_fset, fget_fset_ne, fset_fset by done. f_equal.
    unfold copied, copy_span. fold h bs.
    pose proof (contents_len w where_ Hs) as Hlw.
    destruct (Z_le_gt_dec (image_len h) bs).
    + rewrite (Z.max_l bs) by lia. fold blk. unfold zslice at 1.
      replace (Z.to_nat (image_len h - bs)) with 0%nat by lia. by rewrite zwrite_nil.
    + rewrite (Z.max_r bs) by lia.
      replace bs with (0 + zlen blk) at 1 by lia. rewrite zwrite_app;
        [|lia|rewrite Hblk, zlen_zslice; lia].
      f_equal. unfold blk, offsetof_magic. rewrite <- zwrite_app_l, <- zslice_split;
        [do 2 f_equal; lia|lia..|].
      unfold zlen at 1. rewrite length_le_bytes, zlen_zslice; lia.
  - intros f [l ->]. right. split; [done|]. exists l. by rewrite Hc6, fset_fset.
Qed.

Lemma copy_wpc from where_ st update w :
  steady w -> from <> where_ -> psize from = psize where_ ->
  wpc (copy_partition from where_ st update)
    (fun r w' =>
       if psize where_ <? image_len (hdr (contents w) from)
       then r = ERROR /\ contents w' = contents w
       else r = OK /\ contents w' = fset (contents w) where_
         (copied (contents w) from where_ (copy_magic (hdr (contents w) from) st update)))
    (fun f => f = contents w \/
       (image_len (hdr (contents w) from) <= psize where_ /\
        exists l, f = fset (contents w) where_ l)) w.
Proof. intros Hs Hne He. apply copy_room_wpc; [done..|]. by apply equal_room. Qed.

(** ** A copied image *)

Definition wf_flash (f : flash) : Prop := forall s,
  zlen (fget f s) = psize s /\ Forall is_byte (fget f s).

Lemma steady_wf w : steady w -> wf_flash (contents w).
Proof. intros Hs s. split; [by apply contents_len|by apply contents_byte]. Qed.

Definition with_magic (h : nxboot_img_header) (m : Z) : nxboot_img_header := {|
  h_magic := m;
  h_hdr_version := h_hdr_version h;
  h_header_size := h_header_size h;
  h_crc := h_crc h;
  h_size := h_size h;
  h_identifier := h_identifier h;
  h_extd_hdr_ptr := h_extd_hdr_ptr h;
  h_img_version := h_img_version h |}.

Lemma span_min h from where_ : 128 <= copy_span from where_ h.
Proof. unfold copy_span. pose proof (geom_ranges from). lia. Qed.

(** Everything but the magic is copied verbatim. *)
Lemma zslice_copy f from where_ m k j :
  wf_flash f -> copy_room (hdr f from) from where_ ->
  4 <= k -> 0 <= j -> k + j <= copy_span from where_ (hdr f from) ->
  zslice k j (copied f from where_ m) = zslice k j (fget f from).
Proof.
  intros Hwf Hsp Hk Hj Hin. pose proof (span_min (hdr f from) from where_) as Hs. destruct Hsp as [Hsf Hsw].
  destruct (Hwf from) as [Hlf _]. destruct (Hwf where_) as [Hlw _].
  unfold copied. rewrite zslice_zwrite_in; rewrite ?zlen_zwrite, ?zlen_zslice by lia; try lia.
  rewrite Z.sub_0_r, zslice_zwrite_after, zslice_zslice; rewrite ?zlen_zslice by lia; try done;
    unfold zlen; rewrite ?length_le_bytes; lia.
Qed.

Lemma zslice_copy_magic f from where_ m :
  wf_flash f -> copy_room (hdr f from) from where_ ->
  zslice 0 4 (copied f from where_ m) = le_bytes 4 m.
Proof.
  intros Hwf Hsp. pose proof (span_min (hdr f from) from where_) as Hs. destruct Hsp as [Hsf Hsw].
  destruct (Hwf from) as [Hlf _]. destruct (Hwf where_) as [Hlw _].
  unfold copied. rewrite zslice_zwrite_in; rewrite ?zlen_zwrite, ?zlen_zslice by lia; try lia.
  apply (zslice_zwrite_same 0 (le_bytes 4 m)); [lia|].
  rewrite zlen_zslice by lia. unfold zlen. rewrite length_le_bytes. lia.
Qed.

Lemma decode_zslice b : decode_header (zslice 0 sizeof_header b) = decode_header b.
Proof.
  unfold decode_header, sizeof_header, NXBOOT_HEADER_PRERELEASE_MAXLEN.
  by rewrite !zslice_zslice by lia.
Qed.

Lemma hdr_copy f from where_ m :
  wf_flash f -> copy_room (hdr f from) from where_ ->
  0 <= m < 2 ^ 32 ->
  hdr (fset f where_ (copied f from where_ m)) where_ = with_magic (hdr f from) m.
Proof.
  intros Hwf Hsp Hm. pose proof (span_min (hdr f from) from where_) as Hs.
  unfold hdr at 1. rewrite fget_fset, decode_zslice. unfold hdr at 1. rewrite decode_zslice.
  unfold decode_header, with_magic, NXBOOT_HEADER_PRERELEASE_MAXLEN. simpl.
  rewrite zslice_copy_magic, le_val_bytes, Z.mod_small by done.
  by rewrite !zslice_copy by (done || lia).
Qed.

(** A copy fits where the original did; its length and CRC range agree. *)
Lemma crc_len_image_len h : 0 < crc_len h -> 12 + crc_len h < 2 ^ 31 ->
  image_len h = 12 + crc_len h.
Proof.
  unfold crc_len, image_len, s32. intros Hpos Hlt.
  pose proof (Z.mod_pos_bound (h_size h + h_header_size h - 12 + 2 ^ 31) (2 ^ 32)).
  pose proof (Z.div_mod (h_size h + h_header_size h - 12 + 2 ^ 31) (2 ^ 32)).
  set (q := (h_size h + h_header_size h - 12 + 2 ^ 31) / 2 ^ 32) in *.
  set (r := (h_size h + h_header_size h - 12 + 2 ^ 31) mod 2 ^ 32) in *.
  replace (h_size h + h_header_size h + 2 ^ 31) with (r + 12 + q * 2 ^ 32) by lia.
  rewrite Z.mod_add, Z.mod_small by lia. lia.
Qed.

Definition good_magic (m : Z) : bool := (m =? NXBOOT_HEADER_MAGIC) || IS_INTERNAL_MAGIC m.

(** The CRC does not cover the magic, so a copy validates iff the original
    does (with a magic the bootloader knows). *)
Lemma image_ok_copy f from where_ m :
  wf_flash f -> copy_room (hdr f from) from where_ ->
  0 <= m < 2 ^ 32 -> good_magic m = true -> image_ok f from = true ->
  image_ok (fset f where_ (copied f from where_ m)) where_ = true.
Proof.
  intros Hwf Hroom Hm Hg Hok. unfold image_ok in *.
  rewrite hdr_copy by done. apply andb_true_iff in Hok as [Hh Hc].
  apply andb_true_iff. split.
  { unfold validate_image_header, good_magic in *. simpl. rewrite Hg.
    by apply andb_true_iff in Hh as [_ ?]. }
  cbn [h_crc with_magic]. rewrite <- Hc. f_equal. unfold crc_val.
  change (crc_len (with_magic (hdr f from) m)) with (crc_len (hdr f from)).
  unfold crc_spec. destruct (Z.ltb_spec 0 (crc_len (hdr f from))); [|done].
  pose proof (psize_range where_). pose proof (psize_range from). destruct Hroom as [Hrf Hrw].
  destruct (Z_lt_le_dec (12 + crc_len (hdr f from)) (2 ^ 31)) as [Hlt|Hge];
    [|destruct (Z.ltb_spec (psize where_) (12 + crc_len (hdr f from))); [|lia];
      by destruct (Z.ltb_spec (psize from) (12 + crc_len (hdr f from))); [|lia]].
  pose proof (crc_len_image_len (hdr f from) ltac:(lia) Hlt) as Hil. unfold copy_span in Hrf, Hrw.
  destruct (Z.ltb_spec (psize where_) (12 + crc_len (hdr f from))); [lia|].
  destruct (Z.ltb_spec (psize from) (12 + crc_len (hdr f from))); [lia|].
  rewrite fget_fset, zslice_copy; [done|done|done|lia|lia|]. unfold copy_span. lia.
Qed.

(** The same for slots of equal size, where it is enough that the image fits. *)
Section EqualSlots.
Context (f : flash) (from where_ : slot) (m : Z).
Context (Hwf : wf_flash f) (He : psize from = psize where_) (Hfit : image_len (hdr f from) <= psize where_).

Lemma zslice_copied k j : 4 <= k -> 0 <= j -> k + j <= copy_span from where_ (hdr f from) ->
  zslice k j (copied f from where_ m) = zslice k j (fget f from).
Proof. apply zslice_copy; [done|by apply equal_room]. Qed.

Lemma zslice_copied_magic : zslice 0 4 (copied f from where_ m) = le_bytes 4 m.
Proof. apply zslice_copy_magic; [done|by apply equal_room]. Qed.

Lemma hdr_copied : 0 <= m < 2 ^ 32 ->
  hdr (fset f where_ (copied f from where_ m)) where_ = with_magic (hdr f from) m.
Proof. apply hdr_copy; [done|by apply equal_room]. Qed.

Lemma image_ok_copied : 0 <= m < 2 ^ 32 -> good_magic m = true -> image_ok f from = true ->
  image_ok (fset f where_ (copied f from where_ m)) where_ = true.
Proof. apply image_ok_copy; [done|by apply equal_room]. Qed.

End EqualSlots.

Lemma wf_fset f s l : wf_flash f -> zlen l = psize s -> Forall is_byte l -> wf_flash (fset f s l).
Proof.
  intros Hwf Hl Hb s'. destruct (decide (s = s')) as [->|Hne].
  - by rewrite fget_fset.
  - rewrite fget_fset_ne by done. apply Hwf.
Qed.

(** Queries depend on the contents of the slot they look at. *)
Lemma hdr_fset_ne f s s' l : s <> s' -> hdr (fset f s l) s' = hdr f s'.
Proof. intros Hne. unfold hdr. by rewrite fget_fset_ne. Qed.

Lemma image_ok_fset_ne f s s' l : s <> s' -> image_ok (fset f s l) s' = image_ok f s'.
Proof.
  intros Hne. unfold image_ok, crc_val, crc_spec. by rewrite hdr_fset_ne, fget_fset_ne.
Qed.

End BootCopy.

#[export] Hint Rewrite @hdr_fset_ne @image_ok_fset_ne using congruence : nuttx.
