(* ===== verification/BootState.v ===== *)
(** * What [nxboot_get_state] reports

    A specification of the reported state on the bytes of the three slots, in
    the terms of the image layout of nxboot.h and independent of boot.c's
    functions: which slots carry the standard magic "NXOS" or an internal one,
    which hold valid images, and for every field of the state the condition
    under which it has which value.  The state computed by boot.c satisfies it
    on every flash. *)

From S2P Require Import Prelude.
From S2P Require Import Flash.
From S2P Require Import Boot.
From S2P Require Import BootSpec.
From S2P Require Import BootCopy.

Section StateSpec.
Context `{!Crc32, !Crc32Laws, !NxbootConfig}.
Context {W : Type} `{!MtdOps W, !MtdView W, !MtdLaws W}.

(** ** Images as bytes *)

(** The slot starts with "NXOS": an image loaded by the user. *)
Definition standard_image (f : flash) (s : slot) : Prop :=
  zslice 0 4 (fget f s) = [0x4e; 0x58; 0x4f; 0x53].

(** The slot starts with 0xaca0abb0 to 0xaca0abbf: an image the bootloader
    wrote; the low two bits of the first byte point to a slot. *)
Definition internal_image (f : flash) (s : slot) (pointer : Z) : Prop :=
  exists k, 0 <= k < 16 /\ k mod 4 = pointer /\
            zslice 0 4 (fget f s) = [0xb0 + k; 0xab; 0xa0; 0xac].

Definition is_internal (f : flash) (s : slot) : Prop := exists p, internal_image f s p.

(** The [n] bytes at [off], as a little-endian number. *)
Definition field (f : flash) (s : slot) (off n : Z) : Z := le_val (zslice off n (fget f s)).

Definition same_crc (f : flash) (s s' : slot) : Prop := field f s 8 4 = field f s' 8 4.

(** The checksum over the bytes from 12 to the end the header gives, which the
    code keeps in an [int] [k]; none of them when [k] is not positive, and a
    constant when they are not all in the slot. *)
Definition checksum_is (f : flash) (s : slot) (crc : Z) : Prop :=
  exists k, -2 ^ 31 <= k < 2 ^ 31 /\
    (field f s 12 4 + field f s 6 2 - 12 - k) mod 2 ^ 32 = 0 /\
    ((k <= 0 /\ crc = 0) \/
     (0 < k /\ psize s < 12 + k /\ crc = 0xffffffff) \/
     (0 < k /\ 12 + k <= psize s /\
      crc = 0xffffffff - crc32part (zslice 12 k (fget f s)) 0xffffffff mod 2 ^ 32)).

(** A known magic, the platform's identifier and the right checksum. *)
Definition valid_image (f : flash) (s : slot) : Prop :=
  (standard_image f s \/ is_internal f s) /\
  field f s 16 8 = CONFIG_NXBOOT_PLATFORM_IDENTIFIER /\
  checksum_is f s (field f s 8 4).

(** The image in [s] may be replaced by the one in [u] as far as the versions
    go: they differ somewhere, or, where downgrades are to be prevented, no
    component of the version in [s] is the greater one. *)
Definition version_passes (f : flash) (s u : slot) : Prop :=
  if CONFIG_NXBOOT_PREVENT_DOWNGRADE then
    forall i, In i [28; 30; 32] -> field f s i 2 <= field f u i 2
  else zslice 28 100 (fget f s) <> zslice 28 100 (fget f u).

(** ** The specification *)

(** The tertiary slot is the one for updates: it has one, or the recovery image
    is in the secondary slot; when both could be a recovery image, the one with
    the checksum of the primary image is it, if the primary image does not
    point to the other. *)
Definition tertiary_is_update (f : flash) : Prop :=
  standard_image f Tertiary \/
  (is_internal f Secondary /\ ~ is_internal f Tertiary) \/
  (is_internal f Secondary /\ is_internal f Tertiary /\ same_crc f Primary Secondary /\
   (is_internal f Primary -> internal_image f Primary NXBOOT_SECONDARY_SLOT_NUM)).

(** The primary image was loaded by the user, or the slot it was installed
    from has a copy of it. *)
Definition primary_is_confirmed (f : flash) : Prop :=
  standard_image f Primary \/
  (internal_image f Primary NXBOOT_SECONDARY_SLOT_NUM /\ same_crc f Primary Secondary) \/
  (internal_image f Primary NXBOOT_TERTIARY_SLOT_NUM /\ same_crc f Primary Tertiary).

(** There is a valid new image in [u] other than the one that runs. *)
Definition update_wanted (f : flash) (u : slot) : Prop :=
  standard_image f u /\ valid_image f u /\
  (valid_image f Primary -> ~ same_crc f Primary u \/ version_passes f Primary u).

(** There is a valid recovery image in [r], and the running one is not valid or
    is an update nobody confirmed. *)
Definition revert_wanted (f : flash) (r : slot) : Prop :=
  is_internal f r /\ valid_image f r /\
  (valid_image f Primary -> is_internal f Primary /\ ~ primary_is_confirmed f).

Record state_reported (f : flash) (u r : slot) (st : nxboot_state) : Prop := {
  rep_roles : (tertiary_is_update f /\ u = Tertiary /\ r = Secondary /\
               st_update st = NXBOOT_TERTIARY_SLOT_NUM /\ st_recovery st = NXBOOT_SECONDARY_SLOT_NUM) \/
              (~ tertiary_is_update f /\ u = Secondary /\ r = Tertiary /\
               st_update st = NXBOOT_SECONDARY_SLOT_NUM /\ st_recovery st = NXBOOT_TERTIARY_SLOT_NUM);
  rep_valid : st_recovery_valid st = true <-> valid_image f r;
  rep_present : st_recovery_present st = true <-> same_crc f Primary r;
  rep_confirmed : st_primary_confirmed st = true <-> primary_is_confirmed f;
  rep_update : st_next_boot st = NXBOOT_UPDATE_TYPE_UPDATE <-> update_wanted f u;
  rep_revert : st_next_boot st = NXBOOT_UPDATE_TYPE_REVERT <-> ~ update_wanted f u /\ revert_wanted f r
}.

(** ** boot.c's tests decide these predicates *)

Section Tests.
Context (f : flash) (Hwf : wf_flash f).

Lemma hdr_field s : hdr f s = decode_header (fget f s).
Proof. apply decode_zslice. Qed.

Lemma slot_bytes s : exists a b c d t, fget f s = a :: b :: c :: d :: t /\
  is_byte a /\ is_byte b /\ is_byte c /\ is_byte d.
Proof.
  destruct (Hwf s) as [Hl Hb]. pose proof (psize_range s). pose proof (geom_ranges s). unfold zlen in Hl.
  destruct (fget f s) as [|a [|b [|c [|d t]]]]; simpl in Hl; try lia.
  do 4 (apply Forall_cons_1 in Hb as [? Hb]). exists a, b, c, d, t. done.
Qed.

Lemma magic_bytes a b c d m : is_byte a -> is_byte b -> is_byte c -> is_byte d -> 0 <= m < 2 ^ 32 ->
  le_val [a; b; c; d] = m <-> [a; b; c; d] = le_bytes 4 m.
Proof.
  intros Ha Hb Hc Hd Hm. split.
  - intros <-. symmetry. apply (le_bytes_val [a; b; c; d]). by repeat apply Forall_cons_2.
  - intros ->. rewrite le_val_bytes. by rewrite Z.mod_small.
Qed.

Lemma standard_magic s : (h_magic (hdr f s) =? NXBOOT_HEADER_MAGIC) = true <-> standard_image f s.
Proof.
  rewrite hdr_field, Z.eqb_eq. unfold standard_image. cbn [h_magic decode_header].
  destruct (slot_bytes s) as (a & b & c & d & t & -> & Ha & Hb & Hc & Hd).
  change (zslice 0 4 (a :: b :: c :: d :: t)) with [a; b; c; d].
  by apply (magic_bytes a b c d NXBOOT_HEADER_MAGIC).
Qed.

(** A word with the high 28 bits of 0xaca0abb0. *)
Lemma internal_word m : 0 <= m < 2 ^ 32 ->
  IS_INTERNAL_MAGIC m = true <-> exists k, 0 <= k < 16 /\ m = NXBOOT_HEADER_MAGIC_INT + k.
Proof.
  intros Hm. unfold IS_INTERNAL_MAGIC. rewrite Z.eqb_eq.
  assert (E : Z.land m NXBOOT_HEADER_MAGIC_INT_MASK = m - m mod 16).
  { change NXBOOT_HEADER_MAGIC_INT_MASK with (Z.lxor (Z.ones 32) (Z.ones 4)).
    assert (Hx : Z.land m (Z.lxor (Z.ones 32) (Z.ones 4)) = Z.ldiff (Z.land m (Z.ones 32)) (Z.ones 4)).
    { apply Z.bits_inj'. intros n Hn. rewrite Z.land_spec, Z.lxor_spec, Z.ldiff_spec, Z.land_spec.
      destruct (Z.ltb_spec n 4); [rewrite !Z.ones_spec_low by lia; by destruct (Z.testbit m n)|].
      rewrite (Z.ones_spec_high 4) by lia. cbn [negb]. by rewrite xorb_false_r, andb_true_r. }
    rewrite Hx, (Z.land_ones m), (Z.mod_small m), Z.ldiff_ones_r, Z.shiftr_div_pow2, Z.shiftl_mul_pow2 by lia.
    pose proof (Z.div_mod m 16). change (2 ^ 4) with 16. lia. }
  rewrite E. unfold NXBOOT_HEADER_MAGIC_INT. split.
  - intros Hi. exists (m mod 16). pose proof (Z.mod_pos_bound m 16). lia.
  - intros (k & Hk & ->). replace (0xaca0abb0 + k) with (k + 0xaca0abb * 16) by lia.
    rewrite Z.mod_add, Z.mod_small by lia. lia.
Qed.

Lemma internal_bytes k : 0 <= k < 16 -> le_bytes 4 (NXBOOT_HEADER_MAGIC_INT + k) = [0xb0 + k; 0xab; 0xa0; 0xac].
Proof.
  intros Hk. assert (Hin : In k (map Z.of_nat (seq 0 16)))
    by (apply in_map_iff; exists (Z.to_nat k); split; [lia|apply in_seq; lia]).
  simpl in Hin. by repeat (destruct Hin as [<-|Hin]; [reflexivity|]).
Qed.

Lemma internal_pointer s p :
  IS_INTERNAL_MAGIC (h_magic (hdr f s)) = true /\ Z.land (h_magic (hdr f s)) NXBOOT_RECOVERY_PTR_MASK = p <->
  internal_image f s p.
Proof.
  rewrite hdr_field. unfold internal_image. cbn [h_magic decode_header].
  destruct (slot_bytes s) as (a & b & c & d & t & -> & Ha & Hb & Hc & Hd).
  change (zslice 0 4 (a :: b :: c :: d :: t)) with [a; b; c; d].
  assert (Hr : 0 <= le_val [a; b; c; d] < 2 ^ 32)
    by (apply (le_val_range [a; b; c; d]); by repeat apply Forall_cons_2).
  rewrite internal_word by done. change NXBOOT_RECOVERY_PTR_MASK with (Z.ones 2).
  rewrite Z.land_ones by lia. change (2 ^ 2) with 4.
  assert (Hmod : forall k, (NXBOOT_HEADER_MAGIC_INT + k) mod 4 = k mod 4)
    by (intros k; replace (NXBOOT_HEADER_MAGIC_INT + k) with (k + 0x2b282aec * 4)
        by (unfold NXBOOT_HEADER_MAGIC_INT; lia); apply Z.mod_add; lia).
  split.
  - intros ((k & Hk & Hm) & Hp). exists k. split; [done|]. rewrite <- internal_bytes, <- Hmod, <- Hm by done.
    split; [done|]. by apply magic_bytes.
  - intros (k & Hk & Hp & Hm). rewrite <- internal_bytes in Hm by done.
    apply magic_bytes in Hm; [|done..|unfold NXBOOT_HEADER_MAGIC_INT; lia].
    split; [by exists k|]. by rewrite Hm, Hmod.
Qed.

Lemma internal_magic s : IS_INTERNAL_MAGIC (h_magic (hdr f s)) = true <-> is_internal f s.
Proof.
  split.
  - intros Hi. eexists. apply internal_pointer. split; [exact Hi|reflexivity].
  - intros [p Hi]. apply internal_pointer in Hi. apply Hi.
Qed.

Lemma same_crc_test s s' : (h_crc (hdr f s) =? h_crc (hdr f s')) = true <-> same_crc f s s'.
Proof. rewrite Z.eqb_eq, !hdr_field. done. Qed.

(** The checksum [calculate_crc] computes. *)
Lemma checksum_test s : (crc_val f s (hdr f s) =? h_crc (hdr f s)) = true <-> checksum_is f s (field f s 8 4).
Proof.
  rewrite Z.eqb_eq. unfold crc_val, crc_spec, crc_len. rewrite !hdr_field. cbn [h_size h_header_size h_crc decode_header].
  fold (field f s 12 4) (field f s 6 2) (field f s 8 4). set (n := field f s 12 4 + field f s 6 2 - 12).
  assert (Hnot : forall c, u32 (Z.lnot c) = 0xffffffff - c mod 2 ^ 32).
  { intros c. unfold u32. replace (Z.lnot c) with (0xffffffff - c mod 2 ^ 32 + (- (c / 2 ^ 32) - 1) * 2 ^ 32)
      by (pose proof (Z.div_mod c (2 ^ 32)); unfold Z.lnot; lia).
    pose proof (Z.mod_pos_bound c (2 ^ 32)). rewrite Z.mod_add, Z.mod_small by lia. done. }
  assert (Hk : forall k, -2 ^ 31 <= k < 2 ^ 31 -> (n - k) mod 2 ^ 32 = 0 <-> k = s32 n).
  { intros k Hk. unfold s32. split.
    - intros Hz. apply Z.div_exact in Hz; [|lia].
      replace (n + 2 ^ 31) with (k + 2 ^ 31 + (n - k) / 2 ^ 32 * 2 ^ 32) by lia.
      rewrite Z.mod_add, Z.mod_small by lia. lia.
    - intros ->. pose proof (Z.div_mod (n + 2 ^ 31) (2 ^ 32)).
      replace (n - _) with ((n + 2 ^ 31) / 2 ^ 32 * 2 ^ 32) by lia. apply Z.mod_mul. lia. }
  rewrite !Hnot. unfold checksum_is. fold n. pose proof (s32_range n) as Hr. split.
  - intros He. exists (s32 n). split; [done|]. split; [by apply Hk|]. rewrite <- He.
    destruct (Z.ltb_spec 0 (s32 n)); [|by left].
    destruct (Z.ltb_spec (psize s) (12 + s32 n)); auto with lia.
  - intros (k & Hkr & Hkm & Hcase). apply Hk in Hkm; [|done]. subst k.
    destruct (Z.ltb_spec 0 (s32 n)); [|destruct Hcase as [[_ ->]|[(? & _)|(? & _)]]; [done|lia..]].
    destruct (Z.ltb_spec (psize s) (12 + s32 n)), Hcase as [[? _]|[(_ & ? & ->)|(_ & ? & ->)]]; (done || lia).
Qed.

Lemma valid_test s : image_ok f s = true <-> valid_image f s.
Proof.
  unfold image_ok, valid_image, validate_image_header.
  rewrite !andb_true_iff, orb_true_iff, standard_magic, internal_magic, checksum_test, Z.eqb_eq, (hdr_field s).
  cbn [h_identifier decode_header]. fold (field f s 16 8). tauto.
Qed.

Lemma pre_release_test a b : pre_release_eqb a b = true <-> a = b.
Proof.
  revert b. induction a as [|x a IH]; intros [|y b]; simpl; [done..|].
  destruct (Z.eqb_spec x y) as [->|Hne]; cbn [negb]; [rewrite IH|]; split; congruence.
Qed.

Lemma zslice_app_inj a b off n m : 0 <= off -> 0 <= n -> 0 <= m -> off + n <= zlen a -> off + n <= zlen b ->
  zslice off (n + m) a = zslice off (n + m) b <->
  zslice off n a = zslice off n b /\ zslice (off + n) m a = zslice (off + n) m b.
Proof.
  intros Ho Hn Hm Ha Hb. rewrite !zslice_split by done. split; [|by intros [-> ->]].
  intros He. apply app_inj_1 in He; [done|]. pose proof (zlen_zslice off n a). pose proof (zlen_zslice off n b).
  unfold zlen in *. lia.
Qed.

Lemma le_val_inj a b : Forall is_byte a -> Forall is_byte b -> length a = length b -> le_val a = le_val b -> a = b.
Proof. intros Ha Hb Hl Hv. rewrite <- (le_bytes_val a), <- (le_bytes_val b) by done. by rewrite Hl, Hv. Qed.

Lemma field_eq s s' off n : 0 <= off -> 0 <= n -> off + n <= 128 ->
  field f s off n = field f s' off n <-> zslice off n (fget f s) = zslice off n (fget f s').
Proof.
  intros Ho Hn Hi. split; [|unfold field; by intros ->]. destruct (Hwf s) as [Hl Hb], (Hwf s') as [Hl' Hb'].
  pose proof (psize_range s). pose proof (psize_range s'). intros He.
  apply le_val_inj; [by apply Forall_zslice..| |done].
  pose proof (zlen_zslice off n (fget f s)). pose proof (zlen_zslice off n (fget f s')). unfold zlen in *. lia.
Qed.

Lemma version_test s u :
  negb (compare_versions (h_img_version (hdr f s)) (h_img_version (hdr f u))) = true <-> version_passes f s u.
Proof.
  rewrite negb_true_iff, !hdr_field. unfold compare_versions, version_passes. cbn [h_img_version decode_header v_major v_minor v_patch v_pre_release].
  fold (field f s 28 2) (field f s 30 2) (field f s 32 2) (field f u 28 2) (field f u 30 2) (field f u 32 2).
  destruct CONFIG_NXBOOT_PREVENT_DOWNGRADE; cbn [negb].
  - rewrite !orb_false_iff, !Z.ltb_ge. split; [|intros Hi; repeat split; apply Hi; simpl; tauto].
    intros [[? ?] ?] i [<-|[<-|[<-|[]]]]; done.
  - destruct (Hwf s) as [Hl _], (Hwf u) as [Hl' _]. pose proof (psize_range s). pose proof (psize_range u).
    change 100 with (2 + (2 + (2 + 94))).
    rewrite !zslice_app_inj by lia. change (28 + 2) with 30. change (30 + 2) with 32. change (32 + 2) with 34.
    rewrite <- !field_eq by lia. unfold NXBOOT_HEADER_PRERELEASE_MAXLEN.
    destruct (Z.eqb_spec (field f s 28 2) (field f u 28 2)); [|cbn [negb orb]; split; [tauto|done]].
    destruct (Z.eqb_spec (field f s 30 2) (field f u 30 2)); [|cbn [negb orb]; split; [tauto|done]].
    destruct (Z.eqb_spec (field f s 32 2) (field f u 32 2)); [|cbn [negb orb]; split; [tauto|done]]. cbn [negb orb].
    rewrite <- not_true_iff_false, pre_release_test, <- field_eq by lia. tauto.
Qed.

Lemma standard_not_internal s : standard_image f s -> ~ is_internal f s.
Proof. intros Hs (p & k & Hk & _ & Hi). rewrite Hs in Hi. injection Hi. lia. Qed.

Lemma tertiary_test : roles_swapped f = true <-> tertiary_is_update f.
Proof.
  unfold roles_swapped, update_is_tertiary, tertiary_is_update.
  rewrite <- !standard_magic, <- !internal_pointer, <- !internal_magic, <- !same_crc_test.
  destruct (h_magic (hdr f Tertiary) =? NXBOOT_HEADER_MAGIC); [tauto|].
  destruct (IS_INTERNAL_MAGIC (h_magic (hdr f Secondary))), (IS_INTERNAL_MAGIC (h_magic (hdr f Tertiary))),
    (IS_INTERNAL_MAGIC (h_magic (hdr f Primary))); cbn [andb]; rewrite ?andb_true_iff, ?Z.eqb_eq; intuition congruence.
Qed.

Lemma confirmed_test : confirmed f = true <-> primary_is_confirmed f.
Proof.
  unfold confirmed, primary_confirmed, primary_is_confirmed.
  rewrite <- !standard_magic, <- !internal_pointer, <- !same_crc_test.
  destruct (h_magic (hdr f Primary) =? NXBOOT_HEADER_MAGIC); [tauto|].
  destruct (IS_INTERNAL_MAGIC (h_magic (hdr f Primary))); [|intuition congruence].
  unfold NXBOOT_SECONDARY_SLOT_NUM, NXBOOT_TERTIARY_SLOT_NUM.
  destruct (Z.eqb_spec (Z.land (h_magic (hdr f Primary)) NXBOOT_RECOVERY_PTR_MASK) 1) as [->|]; [intuition congruence|].
  destruct (Z.eqb_spec (Z.land (h_magic (hdr f Primary)) NXBOOT_RECOVERY_PTR_MASK) 2) as [->|]; intuition congruence.
Qed.

Lemma update_test : update_pending f && update_differs f = true <-> update_wanted f (slot_u f).
Proof.
  unfold update_pending, update_differs, update_wanted.
  rewrite <- version_test, <- !same_crc_test, <- !valid_test, <- standard_magic.
  rewrite !andb_true_iff, !orb_true_iff, !negb_true_iff, <- !not_true_iff_false.
  destruct (image_ok f Primary); intuition congruence.
Qed.

Lemma revert_test : recovery_ready f && ((IS_INTERNAL_MAGIC (h_magic (hdr f Primary)) && negb (confirmed f))
    || negb (image_ok f Primary)) = true <-> revert_wanted f (slot_r f).
Proof.
  unfold recovery_ready, revert_wanted.
  rewrite <- confirmed_test, <- !valid_test, <- !internal_magic.
  rewrite !andb_true_iff, !orb_true_iff, !andb_true_iff, !negb_true_iff, <- !not_true_iff_false.
  destruct (image_ok f Primary); intuition congruence.
Qed.

Lemma boot_state_reported : state_reported f (slot_u f) (slot_r f) (boot_state f).
Proof.
  unfold boot_state. split; cbn [st_update st_recovery st_recovery_valid st_recovery_present st_primary_confirmed st_next_boot].
  - rewrite <- tertiary_test. unfold slot_u, slot_r. destruct (roles_swapped f); [left|right]; repeat split; congruence.
  - apply valid_test.
  - apply same_crc_test.
  - apply confirmed_test.
  - unfold next_boot. rewrite <- update_test. destruct (_ && update_differs f); [done|].
    by destruct (recovery_ready f && _).
  - unfold next_boot. rewrite <- update_test, <- revert_test. destruct (_ && update_differs f); [split; [done|tauto]|].
    destruct (recovery_ready f && _); [|split; [done|intros [_ ?]; done]]. split; [|done]. split; [congruence|done].
Qed.

(** Whatever the versions and whether or not downgrades are to be prevented, a
    valid new image with another checksum is installed. *)
Lemma downgrade_not_prevented : standard_image f (slot_u f) -> valid_image f (slot_u f) ->
  ~ same_crc f Primary (slot_u f) -> st_next_boot (boot_state f) = NXBOOT_UPDATE_TYPE_UPDATE.
Proof. intros Hs Hv Hc. apply (rep_update _ _ _ _ boot_state_reported). split; [done|]. split; [done|]. by left. Qed.

End Tests.
End StateSpec.
