(* ===== verification/BootSafety.v ===== *)
(** * Crash safety of the bootloader

    From a [safe] flash, every run of [nxboot_perform_update] keeps the flash
    safe, wherever the power is cut, and every run that completes leaves a
    valid image in the primary slot.  The three slots have the same size. *)

From S2P Require Import Prelude.
From S2P Require Import Flash.
From S2P Require Import Boot.
From S2P Require Import BootSpec.
From S2P Require Import BootCopy.

Section BootSafety.
Context `{!Crc32, !Crc32Laws, !NxbootConfig}.
Context {W : Type} `{!MtdOps W, !MtdView W, !MtdLaws W}.
Context (same_size : forall s, psize s = psize Primary).

(** ** Safe flash contents *)

(** The image in [s] is not longer than a slot. *)
Definition fits (f : flash) (s : slot) : Prop := image_len (hdr f s) <= psize Primary.

(** The next boot can rebuild the primary slot from the two other slots. *)
Definition spare_ok (f : flash) : Prop :=
  (update_pending f = true /\ fits f (slot_u f)) \/
  (update_pending f = false /\ recovery_ready f = true /\ fits f (slot_r f)).

(** ... whatever is left in the primary slot. *)
Definition spare_safe (f : flash) : Prop := forall l, spare_ok (fset f Primary l).

(** The primary image is valid, and if the next boot is going to overwrite it
    with the recovery then it can be rebuilt; or it can be rebuilt anyway. *)
Definition safe (f : flash) : Prop :=
  (image_ok f Primary = true /\
   (next_boot f = NXBOOT_UPDATE_TYPE_REVERT -> fits f (slot_r f) -> spare_safe f)) \/
  spare_safe f.

(** ** Roles of the slots *)

Lemma slots_distinct f : slot_u f <> slot_r f /\ slot_u f <> Primary /\ slot_r f <> Primary.
Proof. unfold slot_u, slot_r. by destruct (roles_swapped f). Qed.

(** Unless both spare slots carry the internal magic the roles do not depend
    on the primary slot. *)
Lemma roles_simple f :
  IS_INTERNAL_MAGIC (h_magic (hdr f Secondary)) && IS_INTERNAL_MAGIC (h_magic (hdr f Tertiary)) = false ->
  roles_swapped f = (h_magic (hdr f Tertiary) =? NXBOOT_HEADER_MAGIC) ||
                    IS_INTERNAL_MAGIC (h_magic (hdr f Secondary)).
Proof.
  intros Hb. unfold roles_swapped, update_is_tertiary.
  destruct (h_magic (hdr f Tertiary) =? NXBOOT_HEADER_MAGIC); [done|]. by rewrite Hb.
Qed.

Lemma magic_not_internal : IS_INTERNAL_MAGIC NXBOOT_HEADER_MAGIC = false.
Proof. reflexivity. Qed.

(** [mixed f]: at most one spare slot has the internal magic. *)
Definition mixed (f : flash) : Prop := exists s, s <> Primary /\
  IS_INTERNAL_MAGIC (h_magic (hdr f s)) = false.

Lemma mixed_roles f : mixed f ->
  roles_swapped f = (h_magic (hdr f Tertiary) =? NXBOOT_HEADER_MAGIC) ||
                    IS_INTERNAL_MAGIC (h_magic (hdr f Secondary)).
Proof.
  intros (s & Hs & Hi). apply roles_simple. apply andb_false_iff.
  destruct s; [done|by left|by right].
Qed.

Lemma mixed_fset_primary f l : mixed f -> mixed (fset f Primary l).
Proof. intros (s & Hs & Hi). exists s. split; [done|]. by rewrite hdr_fset_ne. Qed.

Lemma mixed_roles_fset f l : mixed f -> roles_swapped (fset f Primary l) = roles_swapped f.
Proof.
  intros Hm. rewrite !mixed_roles by eauto using mixed_fset_primary.
  by rewrite !hdr_fset_ne.
Qed.

Lemma spare_ok_fset f l : mixed f -> spare_ok (fset f Primary l) <-> spare_ok f.
Proof.
  intros Hm. pose proof (slots_distinct f) as (_ & Hu & Hr).
  unfold spare_ok, update_pending, recovery_ready, fits.
  assert (Heu : slot_u (fset f Primary l) = slot_u f) by (unfold slot_u; by rewrite mixed_roles_fset).
  assert (Her : slot_r (fset f Primary l) = slot_r f) by (unfold slot_r; by rewrite mixed_roles_fset).
  rewrite Heu, Her, !hdr_fset_ne, !image_ok_fset_ne by done. done.
Qed.

Lemma mixed_spare_safe f : mixed f -> spare_ok f -> spare_safe f.
Proof. intros Hm Hok l. by apply spare_ok_fset. Qed.

Lemma spare_safe_fset f l : spare_safe f -> spare_safe (fset f Primary l).
Proof. intros Hf l'. rewrite fset_fset. apply Hf. Qed.

Lemma spare_safe_ok f : spare_safe f -> spare_ok f.
Proof. intros Hf. rewrite <- (fset_fget f Primary). apply Hf. Qed.

Lemma pending_magic f : update_pending f = true -> h_magic (hdr f (slot_u f)) = NXBOOT_HEADER_MAGIC.
Proof. unfold update_pending. intros Hp. breflect. done. Qed.

Lemma pending_mixed f : update_pending f = true -> mixed f.
Proof.
  intros Hp. exists (slot_u f). split; [apply slots_distinct|].
  by rewrite (pending_magic f Hp).
Qed.

(** ** Kinds of next boot *)

Lemma next_update f : next_boot f = NXBOOT_UPDATE_TYPE_UPDATE ->
  update_pending f = true /\ update_differs f = true.
Proof.
  unfold next_boot. destruct (update_pending f && update_differs f) eqn:Hu.
  - intros _. by apply andb_true_iff.
  - by destruct (recovery_ready f && _).
Qed.

Lemma next_revert f : next_boot f = NXBOOT_UPDATE_TYPE_REVERT ->
  recovery_ready f = true /\ update_pending f && update_differs f = false.
Proof.
  unfold next_boot. destruct (update_pending f && update_differs f); [done|].
  destruct (recovery_ready f); [done|]. by destruct (update_pending f).
Qed.

(** A flash that is safe but whose primary image is not valid can be rebuilt. *)
Lemma safe_invalid f : safe f -> image_ok f Primary = false -> spare_ok f.
Proof. intros [[Hv _]|Hs] Hi; [congruence|by apply spare_safe_ok]. Qed.

Lemma safe_no_revert f : image_ok f Primary = true ->
  next_boot f <> NXBOOT_UPDATE_TYPE_REVERT -> safe f.
Proof. intros Hv Hn. left. split; [done|]. by intros. Qed.

(** While an update is pending, nothing written to the recovery slot makes
    the bootloader revert. *)
Lemma pending_no_revert f l : update_pending f = true -> update_differs f = true ->
  next_boot (fset f (slot_r f) l) <> NXBOOT_UPDATE_TYPE_REVERT.
Proof.
  intros Hp Hd. pose proof (pending_magic f Hp) as Hm.
  pose proof (slots_distinct f) as (Hur & Hu & Hr).
  set (g := fset f (slot_r f) l).
  assert (Hgm : h_magic (hdr g (slot_u f)) = NXBOOT_HEADER_MAGIC)
    by (unfold g; by rewrite hdr_fset_ne by congruence).
  assert (Hmix : mixed g) by (exists (slot_u f); split; [done|by rewrite Hgm]).
  assert (Hsame : slot_u g = slot_u f -> next_boot g <> NXBOOT_UPDATE_TYPE_REVERT).
  { intros He Hn. apply next_revert in Hn as [_ Hn]. revert Hn.
    unfold update_pending, update_differs. rewrite He. unfold g.
    rewrite !hdr_fset_ne, !image_ok_fset_ne by congruence.
    unfold update_pending, update_differs in Hp, Hd. by rewrite Hp, Hd. }
  assert (Hswap : slot_r g = slot_u f -> next_boot g <> NXBOOT_UPDATE_TYPE_REVERT).
  { intros He Hn. apply next_revert in Hn as [Hn _]. revert Hn.
    unfold recovery_ready. by rewrite He, Hgm. }
  unfold slot_u, slot_r in *. destruct (roles_swapped g), (roles_swapped f); auto.
Qed.

(** ** The erased update slot *)

Definition slot_num (s : slot) : Z :=
  match s with
  | Primary => NXBOOT_PRIMARY_SLOT_NUM
  | Secondary => NXBOOT_SECONDARY_SLOT_NUM
  | Tertiary => NXBOOT_TERTIARY_SLOT_NUM
  end.

Lemma st_update_num f : st_update (boot_state f) = slot_num (slot_u f).
Proof. unfold slot_u. simpl. by destruct (roles_swapped f). Qed.

(** The magic of an image installed from slot [u]: internal, pointing to [u]. *)
Definition installed_magic (u : slot) : Z := Z.lor NXBOOT_HEADER_MAGIC_INT (slot_num u).

Lemma installed_magic_facts u : u <> Primary ->
  installed_magic u <> NXBOOT_HEADER_MAGIC /\ IS_INTERNAL_MAGIC (installed_magic u) = true /\
  Z.land (installed_magic u) NXBOOT_RECOVERY_PTR_MASK = slot_num u.
Proof. by destruct u. Qed.

Lemma installed_magic_range u : 0 <= installed_magic u < 2 ^ 32 /\ good_magic (installed_magic u) = true.
Proof. destruct u; split; try done; vm_compute; intuition congruence. Qed.

(** Setting bits of the standard magic never gives an internal one. *)
Lemma erased_magic old new : Forall is_byte old -> (4 <= length old)%nat ->
  erased_bits old new -> le_val (zslice 0 4 old) = NXBOOT_HEADER_MAGIC ->
  IS_INTERNAL_MAGIC (le_val (zslice 0 4 new)) = false.
Proof.
  intros Hbo Hlen (Hbits & Hbn) Hm. unfold zslice in *. simpl in *.
  change (Pos.to_nat 4) with 4%nat in *. rewrite !drop_0 in *.
  assert (Ho : take 4 old = le_bytes 4 NXBOOT_HEADER_MAGIC).
  { rewrite <- Hm, <- (le_bytes_val (take 4 old)) at 1 by (by apply Forall_take).
    by rewrite length_take, Nat.min_l by lia. }
  apply not_true_is_false. intros Hi. unfold IS_INTERNAL_MAGIC in Hi. apply Z.eqb_eq in Hi.
  destruct old as [|a old']; [done|]. destruct new as [|b new']; [by apply Forall2_length in Hbits|].
  injection Ho as Ha _. apply Forall2_cons_1 in Hbits as [Hab _].
  apply Forall_cons_1 in Hbn as [Hb _]. simpl in Hi.
  assert (H6 : Z.testbit b 6 = true).
  { assert (H6 : Z.testbit (Z.land a b) 6 = Z.testbit a 6) by by rewrite Hab.
    rewrite Z.land_spec, Ha in H6. exact H6. }
  apply (f_equal (fun z => Z.testbit z 6)) in Hi. revert Hi.
  rewrite Z.land_spec. rewrite <- (Z.mod_pow2_bits_low _ 8 6) by lia.
  rewrite (Z.mul_comm 256), Z.mod_add, Z.mod_small by (unfold is_byte in Hb; lia).
  by rewrite H6.
Qed.

(** Whatever the erase leaves in the update slot, short of an internal magic:
    the installed image is kept or reverted with a recovery image at hand. *)
Lemma erased_safe f u : u <> Primary -> h_magic (hdr f Primary) = installed_magic u ->
  IS_INTERNAL_MAGIC (h_magic (hdr f u)) = false -> image_ok f Primary = true -> safe f.
Proof.
  intros Hu Hm Hi Hok. left. split; [done|]. intros Hn Hfit.
  apply mixed_spare_safe; [by exists u|]. destruct (next_revert f Hn) as [Hr Hnu].
  destruct (update_pending f) eqn:Hp; [|by right]. exfalso.
  assert (Hsu : slot_u f = u).
  { unfold recovery_ready in Hr. apply andb_true_iff in Hr as [Hr _].
    pose proof (slots_distinct f) as (Hd1 & Hd2 & Hd3).
    unfold slot_u, slot_r in *. destruct (roles_swapped f), u; congruence. }
  cbn [andb] in Hnu. unfold update_differs in Hnu. rewrite !orb_false_iff, !negb_false_iff, Hsu in Hnu.
  destruct Hnu as [[Hcrc _] _]. destruct (installed_magic_facts u Hu) as (Hi1 & Hi2 & Hi3).
  assert (Hconf : confirmed f = true).
  { unfold confirmed, primary_confirmed. rewrite Hm, (proj2 (Z.eqb_neq _ _) Hi1), Hi2, Hi3. by destruct u. }
  revert Hn. unfold next_boot. rewrite Hconf, Hok. cbn [negb]. rewrite ?andb_false_r, ?orb_false_r. cbn [orb andb].
  rewrite ?andb_false_r. by destruct (_ && _).
Qed.

(** A completed erase sets bits. *)
Lemma ff_sets_bits t : Forall is_byte t -> Forall2 (fun a b => Z.land a b = a) t (replicate (length t) 255).
Proof.
  induction 1 as [|a t Ha _ IH]; [constructor|]. constructor; [|done]. unfold is_byte in Ha.
  change 255 with (Z.ones 8). rewrite Z.land_ones, Z.mod_small by lia. done.
Qed.

Lemma erase_sets_bits n l : Forall is_byte l -> erased_bits l (zwrite 0 (replicate n 255) l).
Proof.
  intros Hl. split; [|apply Forall_zwrite; [apply Forall_replicate; unfold is_byte; lia|done]].
  unfold zwrite. rewrite length_replicate. cbn [Z.to_nat take app Nat.add]. rewrite Nat.sub_0_r, take_replicate.
  set (k := Nat.min (length l) n). rewrite take_0. cbn [app].
  rewrite <- (take_drop k l) at 1. apply Forall2_app.
  - assert (Hk : k = length (take k l)) by (rewrite length_take; lia).
    rewrite Hk at 2. by apply ff_sets_bits, Forall_take.
  - destruct (decide (n <= length l)%nat).
    + replace k with n by lia. apply Forall_Forall2_diag. apply Forall_true. intros a. apply Z.land_diag.
    + rewrite !drop_ge by lia. constructor.
Qed.

(** ** The steps of an update *)

Lemma copy_magic_plain h st : copy_magic h st false = NXBOOT_HEADER_MAGIC \/
  copy_magic h st false = NXBOOT_HEADER_MAGIC_INT.
Proof. unfold copy_magic. destruct (IS_INTERNAL_MAGIC _); auto. Qed.

(** Copying the update over the primary image and marking it as used. *)
Lemma install_wpc u st w :
  steady w -> u <> Primary -> st_update st = slot_num u ->
  h_magic (hdr (contents w) u) = NXBOOT_HEADER_MAGIC -> image_ok (contents w) u = true ->
  safe (contents w) -> (fits (contents w) u -> spare_safe (contents w)) ->
  (image_ok (contents w) Primary = false -> fits (contents w) u) ->
  wpc (r ← copy_partition u Primary st true;
       if 0 <=? r then _ ← flash_partition_erase_first_sector u; mret tt else mret tt)
    (fun _ w' => safe (contents w') /\ image_ok (contents w') Primary = true) safe w.
Proof.
  intros Hs Hu Hst Hm Hok Hsafe Hspare Hinv.
  eapply wpc_seq; [by apply copy_wpc| |].
  { intros f [->|[Hfit [l ->]]]; [done|]. right. by apply spare_safe_fset, Hspare. }
  intros r w1 Hs1. cbv beta.
  destruct (Z.ltb_spec (psize Primary) (image_len (hdr (contents w) u))) as [Hbig|Hfit].
  { intros [-> Hc1]. change (0 <=? ERROR) with false. cbv iota.
    apply wpc_ret; [done|]. rewrite Hc1. split; [done|].
    apply not_false_is_true. intros Hf. specialize (Hinv Hf). unfold fits in Hinv. lia. }
  assert (Hcm : copy_magic (hdr (contents w) u) st true = installed_magic u)
    by (unfold copy_magic; by rewrite Hm, Hst).
  rewrite Hcm. destruct (installed_magic_range u) as [Hmr Hmg].
  intros [-> Hc1]. change (0 <=? OK) with true. cbv iota.
  assert (Hkept : forall l, erased_bits (fget (contents w1) u) l ->
    safe (fset (contents w1) u l) /\ image_ok (fset (contents w1) u l) Primary = true).
  { intros l He. assert (Hokp : image_ok (fset (contents w1) u l) Primary = true).
    { rewrite image_ok_fset_ne, Hc1 by done. apply image_ok_copied; [by apply steady_wf|apply same_size|done..]. }
    split; [|done]. apply (erased_safe _ u); [done| | |done].
    - rewrite hdr_fset_ne, Hc1, hdr_copied by (done || by apply steady_wf || apply same_size). done.
    - unfold hdr. rewrite fget_fset, decode_zslice. apply (erased_magic (fget (contents w1) u)); [by apply contents_byte| |done|].
      + pose proof (contents_len w1 u Hs1). pose proof (psize_range u). unfold zlen in *. lia.
      + rewrite Hc1, fget_fset_ne by done. rewrite <- Hm. unfold hdr. by rewrite decode_zslice. }
  eapply wpc_seq; [by apply erase_first_wpc| |].
  - intros f (l & -> & He). by apply Hkept.
  - intros r w2 Hs2 [-> Hc2]. apply wpc_ret; [done|]. rewrite Hc2. apply Hkept, erase_sets_bits. by apply contents_byte.
Qed.

(** Saving the running image to the recovery slot keeps the update installable. *)
Lemma recreated_spare_ok f m : wf_flash f -> update_pending f = true ->
  fits f (slot_u f) -> image_len (hdr f Primary) <= psize (slot_r f) ->
  m = NXBOOT_HEADER_MAGIC \/ m = NXBOOT_HEADER_MAGIC_INT ->
  let g := fset f (slot_r f) (copied f Primary (slot_r f) m) in
  image_ok g (slot_r f) = true -> spare_safe g.
Proof.
  intros Hwf Hp Hfit Hfp Hm g Hok.
  pose proof (slots_distinct f) as (Hur & Hu & Hr). pose proof (pending_magic f Hp) as Hmag.
  assert (Hgm : h_magic (hdr g (slot_u f)) = NXBOOT_HEADER_MAGIC)
    by (unfold g; by rewrite hdr_fset_ne by congruence).
  assert (Hmix : mixed g) by (exists (slot_u f); split; [done|by rewrite Hgm]).
  assert (Hhr : hdr g (slot_r f) = with_magic (hdr f Primary) m).
  { apply hdr_copied; [done|by symmetry; apply same_size|done|]. destruct Hm as [-> | ->]; done. }
  apply mixed_spare_safe; [done|]. left.
  assert (Hgu : image_ok g (slot_u f) = true).
  { unfold g. rewrite image_ok_fset_ne by congruence. unfold update_pending in Hp. by breflect. }
  assert (Hgf : fits g (slot_u f)) by (unfold fits, g; by rewrite hdr_fset_ne by congruence).
  assert (Hgr : fits g (slot_r f)).
  { unfold fits. rewrite Hhr, <- (same_size (slot_r f)). apply Hfp. }
  pose proof (mixed_roles g Hmix) as Hro. unfold update_pending.
  assert (slot_u g = slot_u f \/ (slot_u g = slot_r f /\
          h_magic (hdr g (slot_r f)) = NXBOOT_HEADER_MAGIC)) as [-> | [-> Hrm]].
  { unfold slot_u, slot_r in *. rewrite Hro.
    destruct (roles_swapped f).
    - left. by rewrite Hgm, Z.eqb_refl.
    - rewrite Hgm. destruct (Z.eqb_spec (h_magic (hdr g Tertiary)) NXBOOT_HEADER_MAGIC); auto. }
  - by rewrite Hgm, Z.eqb_refl, Hgu.
  - by rewrite Hrm, Z.eqb_refl, Hok.
Qed.

(** The two outcomes every path of an update guarantees. *)
Definition settled {A} (_ : A) (w : W) : Prop :=
  safe (contents w) /\ image_ok (contents w) Primary = true.

(** Restoring the recovery image. *)
Lemma revert_wpc F w : steady w -> contents w = F -> safe F ->
  next_boot F = NXBOOT_UPDATE_TYPE_REVERT ->
  wpc (_ ← copy_partition (slot_r F) Primary (boot_state F) false; mret tt) settled safe w.
Proof.
  intros Hs Hc Hsafe Hn. pose proof (slots_distinct F) as (_ & _ & Hr).
  destruct (next_revert F Hn) as [Hrdy Hnu].
  assert (Hrok : image_ok F (slot_r F) = true /\ IS_INTERNAL_MAGIC (h_magic (hdr F (slot_r F))) = true).
  { unfold recovery_ready in Hrdy. by breflect. }
  destruct Hrok as [Hrok Hrint].
  assert (Hsp : fits F (slot_r F) -> spare_safe F) by (destruct Hsafe as [[_ ?]|]; auto).
  eapply wpc_seq; [by apply copy_wpc| |].
  { rewrite Hc. intros f [->|[Hfit [l ->]]]; [done|]. right. by apply spare_safe_fset, Hsp. }
  intros r w1 Hs1. cbv beta. rewrite Hc.
  destruct (Z.ltb_spec (psize Primary) (image_len (hdr F (slot_r F)))) as [Hbig|Hfit].
  - intros [-> Hc1]. apply wpc_ret; [done|]. unfold settled. rewrite Hc1. split; [done|].
    apply not_false_is_true. intros Hf.
    destruct (safe_invalid F Hsafe Hf) as [[Hp _]|(_ & _ & Hfit)]; [|unfold fits in Hfit; lia].
    rewrite Hp in Hnu. unfold update_differs in Hnu. rewrite Hf in Hnu.
    by rewrite orb_true_r in Hnu.
  - intros [-> Hc1]. apply wpc_ret; [done|]. unfold settled. rewrite Hc1. split.
    + right. by apply spare_safe_fset, Hsp.
    + apply image_ok_copied; [rewrite <- Hc; by apply steady_wf|apply same_size|done| | |done].
      all: unfold copy_magic; by rewrite Hrint.
Qed.

(** Installing the pending update, with or without saving the running image. *)
Lemma update_wpc F check_only w : steady w -> contents w = F -> safe F ->
  next_boot F = NXBOOT_UPDATE_TYPE_UPDATE ->
  wpc (perform_update_body (boot_state F) check_only Primary (slot_u F) (slot_r F)) settled safe w.
Proof.
  intros Hs Hc Hsafe Hn. pose proof (slots_distinct F) as (Hur & Hu & Hr).
  destruct (next_update F Hn) as [Hp Hd]. pose proof (pending_magic F Hp) as Hm.
  pose proof (pending_mixed F Hp) as Hmix.
  assert (Hok : image_ok F (slot_u F) = true) by (unfold update_pending in Hp; by breflect).
  assert (Hfit : image_ok F Primary = false -> fits F (slot_u F)).
  { intros Hf. destruct (safe_invalid F Hsafe Hf) as [[_ ?]|[? _]]; [done|congruence]. }
  unfold perform_update_body. cbn [st_next_boot boot_state]. rewrite Hn.
  destruct (decide _) as [|_]; [done|].
  eapply wpc_reads; [apply reads_ret|done|done|done|]. intros w1 Hs1 Hc1. cbv beta iota.
  eapply wpc_reads; [apply validate_reads|done|done|done|]. intros w2 Hs2 Hc2. cbv beta.
  destruct (image_ok F Primary && check_only) eqn:Hdone.
  { apply wpc_ret; [done|]. unfold settled. rewrite Hc2. by apply andb_true_iff in Hdone as [-> _]. }
  clear Hdone. destruct (_ && st_primary_confirmed (boot_state F) && image_ok F Primary) eqn:Hsave.
  - apply andb_true_iff in Hsave as [_ Hpok].
    assert (Hjunk : forall l, safe (fset F (slot_r F) l)).
    { intros l. apply safe_no_revert; [by rewrite image_ok_fset_ne|by apply pending_no_revert]. }
    apply wpc_bind. eapply wpc_seq; [apply copy_wpc; [done|congruence|by symmetry; apply same_size]| |].
    { rewrite Hc2. intros f [->|[_ [l ->]]]; [done|apply Hjunk]. }
    intros r w3 Hs3. cbv beta. rewrite Hc2. intros Hcopy.
    assert (exists G, contents w3 = G /\ safe G /\ image_ok G Primary = true /\
      hdr G (slot_u F) = hdr F (slot_u F) /\ image_ok G (slot_u F) = true /\
      (fits F (slot_u F) -> image_ok G (slot_r F) = true -> spare_safe G))
      as (G & Hc3 & HsG & HpG & HhG & HokG & HspG).
    { destruct (Z.ltb_spec (psize (slot_r F)) (image_len (hdr F Primary))) as [_|Hfp];
        destruct Hcopy as [_ Hc3]; eexists; (split; [exact Hc3|]).
      - repeat split; [done..|]. intros Hf _. apply mixed_spare_safe; [done|]. by left.
      - rewrite !image_ok_fset_ne, hdr_fset_ne by congruence. repeat split; [apply Hjunk|done..|].
        intros Hf. apply recreated_spare_ok; [rewrite <- Hc; by apply steady_wf|done..|].
        apply copy_magic_plain. }
    eapply wpc_reads_last; [apply validate_reads|done|done|done|]. intros w4 Hs4 Hc4 _. cbv beta.
    destruct (image_ok G (slot_r F)); [|apply wpc_ret; [done|by unfold settled; rewrite Hc4]].
    eapply wpc_reads; [apply validate_reads|done|done|done|]. intros w5 Hs5 Hc5. cbv beta.
    rewrite HokG. apply install_wpc; rewrite ?Hc5; [done..| |congruence|done|done| |].
    + apply st_update_num.
    + unfold fits. rewrite HhG. auto.
    + congruence.
  - eapply wpc_reads; [apply reads_ret|done|done|done|]. intros w3 Hs3 Hc3. cbv beta iota.
    eapply wpc_reads; [apply validate_reads|done|done|done|]. intros w4 Hs4 Hc4. cbv beta.
    rewrite Hok. apply install_wpc; rewrite ?Hc4; [done..| |done|done|done| |done].
    + apply st_update_num.
    + intros Hf. apply mixed_spare_safe; [done|]. by left.
Qed.

Lemma body_wpc F check_only w : steady w -> contents w = F -> safe F ->
  next_boot F <> NXBOOT_UPDATE_TYPE_NONE ->
  wpc (perform_update_body (boot_state F) check_only Primary (slot_u F) (slot_r F)) settled safe w.
Proof.
  intros Hs Hc Hsafe Hn. destruct (next_boot F) eqn:He; [done|by apply update_wpc|].
  unfold perform_update_body. cbn [st_next_boot boot_state]. rewrite He, decide_True by done.
  assert (Hrv : st_recovery_valid (boot_state F) = true).
  { destruct (next_revert F He) as [Hr _]. unfold recovery_ready in Hr. by breflect. }
  destruct check_only; cbn [negb].
  - apply wpc_bind. eapply wpc_reads; [apply validate_reads|done|done|done|].
    intros w1 Hs1 Hc1. apply wpc_ret; [done|]. intros _. destruct (image_ok F Primary) eqn:Hv; cbn [negb].
    + eapply wpc_reads; [apply validate_reads|done|done|done|]. intros w2 Hs2 Hc2. cbv beta.
      rewrite Hv. apply wpc_ret; [done|]. unfold settled. by rewrite Hc2.
    + rewrite Hrv. by apply revert_wpc.
  - eapply wpc_reads; [apply reads_ret|done|done|done|]. intros w1 Hs1 Hc1. cbv beta iota.
    rewrite Hrv. by apply revert_wpc.
Qed.

Lemma perform_update_wpc F check_only w : steady w -> contents w = F -> safe F ->
  next_boot F <> NXBOOT_UPDATE_TYPE_NONE ->
  wpc (perform_update (boot_state F) check_only) (fun r w' => r = OK /\ settled r w') safe w.
Proof.
  intros Hs Hc Hsafe Hn. unfold perform_update.
  eapply wpc_reads; [apply open_slots_reads|done|done|done|]. intros w1 Hs1 Hc1. cbv beta iota.
  replace (if st_update (boot_state F) =? NXBOOT_SECONDARY_SLOT_NUM
           then (Secondary, Tertiary) else (Tertiary, Secondary)) with (slot_u F, slot_r F)
    by (unfold slot_u, slot_r; simpl; by destruct (roles_swapped F)).
  eapply wpc_seq; [by apply body_wpc|done|]. intros [] w2 Hs2 [Hs' Hok].
  eapply wpc_reads; [apply close_slots_reads|done|done|done|]. intros w3 Hs3 Hc3.
  apply wpc_ret; [done|]. unfold settled. by rewrite Hc3.
Qed.

(** A flash that is safe and needs no action has a valid primary image. *)
Lemma safe_none f : safe f -> next_boot f = NXBOOT_UPDATE_TYPE_NONE -> image_ok f Primary = true.
Proof.
  intros Hsafe Hn. apply not_false_is_true. intros Hf. revert Hn. unfold next_boot, update_differs.
  rewrite Hf. cbn [negb]. rewrite !orb_true_r.
  destruct (safe_invalid f Hsafe Hf) as [[-> _]|(-> & -> & _)]; done.
Qed.

Lemma nxboot_perform_update_wpc check_only w : steady w -> safe (contents w) ->
  wpc (nxboot_perform_update check_only) (fun r w' => r = OK /\ settled r w') safe w.
Proof.
  intros Hs Hsafe. remember (contents w) as F eqn:Hc. symmetry in Hc.
  eapply wpc_reads; [apply get_state_reads|done|done|done|]. intros w1 Hs1 Hc1. cbv beta iota.
  change (OK <? 0) with false. cbv iota. cbn [st_next_boot boot_state].
  apply wpc_bind. eapply (wpc_mono _ (fun r w' => r = OK /\ settled r w') _ safe); [| |done].
  { destruct (decide _) as [He|Hne].
    - apply wpc_ret; [done|]. unfold settled. rewrite Hc1. split; [done|]. split; [done|].
      by apply safe_none.
    - by apply perform_update_wpc. }
  intros r w2 Hs2 (-> & Hsafe2 & Hok2) _.
  eapply wpc_reads; [apply open_reads|done|done|done|]. intros w3 Hs3 Hc3. cbv beta iota.
  eapply wpc_reads; [apply header_reads|done|done|done|]. intros w4 Hs4 Hc4. cbv beta.
  eapply wpc_reads; [apply close_reads|done|done|done|]. intros w5 Hs5 Hc5. cbv beta.
  apply wpc_ret; [done|]. unfold settled. rewrite Hc5. split; [|done].
  unfold image_ok in Hok2. apply andb_true_iff in Hok2 as [-> _]. done.
Qed.

End BootSafety.
