(* ===== verification/BootCycle.v ===== *)
(** * The life cycle of an update

    What the flash holds after a completed update, and what the next boot does
    with it, depending on whether the application called [nxboot_confirm]. *)

From S2P Require Import Prelude.
From S2P Require Import Flash.
From S2P Require Import Boot.
From S2P Require Import BootSpec.
From S2P Require Import BootCopy.
From S2P Require Import BootSafety.

Section BootCycle.
Context `{!Crc32, !Crc32Laws, !NxbootConfig}.
Context {W : Type} `{!MtdOps W, !MtdView W, !MtdLaws W}.
Context (same_size : forall s, psize s = psize Primary).

(** ** Flash contents after an update *)

Definition erase_first (s : slot) (l : list Z) : list Z :=
  zwrite 0 (replicate (Z.to_nat (g_erasesize (geom s))) 255) l.

Definition installed (f : flash) : flash :=
  let u := slot_u f in
  fset (fset f Primary (copied f u Primary (installed_magic u))) u (erase_first u (fget f u)).

(** A pending update that will be installed without saving the running image
    first, because its recovery copy exists. *)
Record ready (f : flash) : Prop := {
  rdy_next : next_boot f = NXBOOT_UPDATE_TYPE_UPDATE;
  rdy_recovery : recovery_ready f = true;
  rdy_present : h_crc (hdr f Primary) = h_crc (hdr f (slot_r f));
  rdy_fits_u : fits f (slot_u f);
  rdy_fits_r : fits f (slot_r f);
  rdy_crc : h_crc (hdr f (slot_u f)) <> 0xffffffff;
}.

Lemma ready_facts f : ready f ->
  h_magic (hdr f (slot_u f)) = NXBOOT_HEADER_MAGIC /\ image_ok f (slot_u f) = true /\
  image_ok f (slot_r f) = true /\ IS_INTERNAL_MAGIC (h_magic (hdr f (slot_r f))) = true.
Proof.
  intros []. destruct (next_update f rdy_next0) as [Hp _].
  unfold update_pending, recovery_ready in *. by breflect.
Qed.

Lemma update_exact w : steady w -> ready (contents w) ->
  wpc (nxboot_perform_update false)
    (fun r w' => r = OK /\ contents w' = installed (contents w)) (fun _ => True) w.
Proof.
  intros Hs Hrdy. remember (contents w) as F eqn:Hc. symmetry in Hc.
  destruct (ready_facts F Hrdy) as (Hm & Hok & Hrok & Hri).
  pose proof (slots_distinct F) as (Hur & Hu & Hr). destruct Hrdy as [Hn _ Hpr Hfu _ _].
  destruct (installed_magic_range (slot_u F)) as [Hmr Hmg].
  assert (Hcm : copy_magic (hdr F (slot_u F)) (boot_state F) true = installed_magic (slot_u F)).
  { unfold copy_magic. by rewrite Hm, st_update_num. }
  eapply wpc_reads; [apply get_state_reads|done..|]. intros w1 Hs1 Hc1. cbv beta iota.
  change (OK <? 0) with false. cbv iota. cbn [st_next_boot boot_state]. rewrite Hn, decide_False by done.
  apply wpc_bind. eapply (wpc_mono _ (fun r w' => r = OK /\ contents w' = installed F) _ (fun _ => True));
    [| |done].
  - unfold perform_update.
    eapply wpc_reads; [apply open_slots_reads|done..|]. intros w2 Hs2 Hc2. cbv beta iota.
    replace (if st_update (boot_state F) =? NXBOOT_SECONDARY_SLOT_NUM
           then (Secondary, Tertiary) else (Tertiary, Secondary)) with (slot_u F, slot_r F)
      by (unfold slot_u, slot_r; simpl; by destruct (roles_swapped F)).
    apply wpc_bind. unfold perform_update_body.
    cbn [st_next_boot st_recovery_present st_recovery_valid st_primary_confirmed boot_state].
    rewrite Hn, decide_False, Hpr, Z.eqb_refl, Hrok by done. cbn [negb orb andb].
    eapply wpc_reads; [apply reads_ret|done..|]. intros w3 Hs3 Hc3. cbv beta iota.
    eapply wpc_reads; [apply validate_reads|done..|]. intros w4 Hs4 Hc4. cbv beta.
    rewrite andb_false_r. eapply wpc_reads; [apply reads_ret|done..|]. intros w5 Hs5 Hc5. cbv beta iota.
    eapply wpc_reads; [apply validate_reads|done..|]. intros w6 Hs6 Hc6. cbv beta. rewrite Hok.
    eapply wpc_seq; [apply copy_wpc; [done|done|apply same_size]|done|]. intros r w7 Hs7. cbv beta.
    rewrite Hc6. destruct (Z.ltb_spec (psize Primary) (image_len (hdr F (slot_u F))));
      [unfold fits in Hfu; lia|].
    intros [-> Hc7]. change (0 <=? OK) with true. cbv iota. fold (boot_state F) in Hc7.
    eapply wpc_seq; [by apply erase_first_wpc|done|]. intros r w8 Hs8 [-> Hc8].
    apply wpc_ret; [done|]. intros _.
    eapply wpc_reads; [apply close_slots_reads|done..|]. intros w9 Hs9 Hc9.
    apply wpc_ret; [done|]. split; [done|]. rewrite Hc9, Hc7.
    rewrite fget_fset_ne, Hcm by done. done.
  - intros r w2 Hs2 [-> Hc2] _.
    eapply wpc_reads; [apply open_reads|done..|]. intros w3 Hs3 Hc3. cbv beta iota.
    eapply wpc_reads; [apply header_reads|done..|]. intros w4 Hs4 Hc4. cbv beta.
    eapply wpc_reads; [apply close_reads|done..|]. intros w5 Hs5 Hc5. cbv beta.
    apply wpc_ret; [done|]. rewrite Hc5. split; [|done].
    assert (Hip : image_ok (installed F) Primary = true).
    { unfold installed. rewrite image_ok_fset_ne by done.
      apply image_ok_copied; [rewrite <- Hc; by apply steady_wf|apply same_size|done..]. }
    unfold image_ok in Hip. apply andb_true_iff in Hip as [-> _]. done.
Qed.

(** ** The state an update leaves behind *)

Lemma erase_first_magic f s : wf_flash f -> zslice 0 4 (erase_first s (fget f s)) = replicate 4 255 /\
  zslice 8 4 (erase_first s (fget f s)) = replicate 4 255.
Proof.
  intros Hwf. destruct (Hwf s) as [Hl _]. pose proof (geom_ranges s). pose proof (erase_psize s).
  unfold erase_first. split; rewrite zslice_zwrite_in
    by (unfold zlen in *; rewrite ?length_replicate; lia);
    unfold zslice; rewrite drop_replicate, take_replicate; f_equal; lia.
Qed.

Record after_install (f g : flash) : Prop := {
  ai_primary : hdr g Primary = with_magic (hdr f (slot_u f)) (installed_magic (slot_u f));
  ai_magic : h_magic (hdr g (slot_u f)) = 0xffffffff;
  ai_crc : h_crc (hdr g (slot_u f)) = 0xffffffff;
  ai_valid : image_ok g Primary = true;
  ai_rhdr : hdr g (slot_r f) = hdr f (slot_r f);
  ai_rok : image_ok g (slot_r f) = true;
  ai_roles : slot_u g = slot_u f /\ slot_r g = slot_r f;
}.

Lemma installed_state f : wf_flash f -> ready f -> after_install f (installed f).
Proof.
  intros Hwf Hrdy. destruct (ready_facts f Hrdy) as (Hm & Hok & Hrok & Hri).
  pose proof (slots_distinct f) as (Hur & Hu & Hr). destruct (erase_first_magic f (slot_u f) Hwf) as [Hz Hz'].
  assert (Hmag : 0 <= installed_magic (slot_u f) < 2 ^ 32 /\ good_magic (installed_magic (slot_u f)) = true).
  { unfold slot_u. destruct (roles_swapped f); split; try done; vm_compute; intuition congruence. }
  assert (Hfit : image_len (hdr f (slot_u f)) <= psize Primary) by apply Hrdy.
  assert (Hhm : h_magic (hdr (installed f) (slot_u f)) = 0xffffffff).
  { unfold hdr, installed. rewrite fget_fset, decode_zslice. cbn [h_magic decode_header]. by rewrite Hz. }
  assert (Hhr : hdr (installed f) (slot_r f) = hdr f (slot_r f)).
  { unfold installed. by rewrite !hdr_fset_ne by congruence. }
  assert (Hmix : mixed (installed f)).
  { exists (slot_u f). split; [done|]. by rewrite Hhm. }
  assert (Hsw : roles_swapped (installed f) = roles_swapped f).
  { rewrite mixed_roles by done. unfold slot_u, slot_r in *. destruct (roles_swapped f).
    - rewrite Hhm, Hhr, Hri. done.
    - rewrite Hhm, Hhr. destruct (Z.eqb_spec (h_magic (hdr f Tertiary)) NXBOOT_HEADER_MAGIC) as [He|];
        [by rewrite He in Hri|done]. }
  split; [| | | | | |by unfold slot_u, slot_r; rewrite Hsw]; try done.
  - unfold installed. rewrite hdr_fset_ne by done.
    apply hdr_copied; [done|apply same_size|done|apply Hmag].
  - unfold hdr, installed. rewrite fget_fset, decode_zslice. cbn [h_crc decode_header]. by rewrite Hz'.
  - unfold installed. rewrite image_ok_fset_ne by done.
    apply image_ok_copied; [done|apply same_size|done|apply Hmag|apply Hmag|done].
  - unfold installed. by rewrite !image_ok_fset_ne by congruence.
Qed.

Lemma installed_next f g : ready f -> after_install f g -> next_boot g = NXBOOT_UPDATE_TYPE_REVERT.
Proof.
  intros Hrdy [Hp Hm Hc Hv Hrh Hro [Hsu Hsr]]. destruct (ready_facts f Hrdy) as (_ & _ & _ & Hri).
  pose proof (slots_distinct f) as (_ & Hu & _).
  destruct (installed_magic_facts (slot_u f) Hu) as (Hi1 & Hi2 & Hi3).
  unfold next_boot, update_pending, recovery_ready. rewrite Hsu, Hsr, Hm, Hrh, Hri, Hro, Hp.
  cbn [h_magic with_magic]. rewrite Hi2. cbn [andb].
  assert (confirmed g = false) as ->; [|done].
  unfold confirmed, primary_confirmed. rewrite Hp. cbn [h_magic h_crc with_magic].
  destruct (Z.eqb_spec (installed_magic (slot_u f)) NXBOOT_HEADER_MAGIC); [done|].
  rewrite Hi2, Hi3. pose proof (rdy_crc f Hrdy) as Hcrc.
  unfold slot_u in *. destruct (roles_swapped f); apply Z.eqb_neq; rewrite Hc; exact Hcrc.
Qed.

(** ** Reverting *)

Lemma revert_exact w : steady w -> next_boot (contents w) = NXBOOT_UPDATE_TYPE_REVERT ->
  fits (contents w) (slot_r (contents w)) ->
  wpc (nxboot_perform_update false)
    (fun r w' => r = OK /\ contents w' = fset (contents w) Primary
       (copied (contents w) (slot_r (contents w)) Primary NXBOOT_HEADER_MAGIC))
    (fun _ => True) w.
Proof.
  intros Hs Hn Hfit. remember (contents w) as F eqn:Hc. symmetry in Hc.
  pose proof (slots_distinct F) as (Hur & Hu & Hr). destruct (next_revert F Hn) as [Hrdy _].
  assert (Hrok : image_ok F (slot_r F) = true /\ IS_INTERNAL_MAGIC (h_magic (hdr F (slot_r F))) = true)
    by (unfold recovery_ready in Hrdy; by breflect).
  destruct Hrok as [Hrok Hri].
  assert (Hcm : copy_magic (hdr F (slot_r F)) (boot_state F) false = NXBOOT_HEADER_MAGIC)
    by (unfold copy_magic; by rewrite Hri).
  eapply wpc_reads; [apply get_state_reads|done..|]. intros w1 Hs1 Hc1. cbv beta iota.
  change (OK <? 0) with false. cbv iota. cbn [st_next_boot boot_state]. rewrite Hn, decide_False by done.
  unfold perform_update. apply wpc_bind.
  eapply wpc_reads; [apply open_slots_reads|done..|]. intros w2 Hs2 Hc2. cbv beta iota.
  replace (if st_update (boot_state F) =? NXBOOT_SECONDARY_SLOT_NUM
           then (Secondary, Tertiary) else (Tertiary, Secondary)) with (slot_u F, slot_r F)
      by (unfold slot_u, slot_r; simpl; by destruct (roles_swapped F)).
  apply wpc_bind. unfold perform_update_body. cbn [st_next_boot st_recovery_valid boot_state].
  rewrite Hn, decide_True, Hrok by done. cbn [negb].
  eapply wpc_reads; [apply reads_ret|done..|]. intros w3 Hs3 Hc3. cbv beta iota.
  eapply wpc_seq; [apply copy_wpc; [done|done|apply same_size]|done|]. intros r w4 Hs4. cbv beta.
  rewrite Hc3. destruct (Z.ltb_spec (psize Primary) (image_len (hdr F (slot_r F))));
    [unfold fits in Hfit; lia|]. fold (boot_state F). rewrite Hcm.
  intros [-> Hc4]. apply wpc_ret; [done|]. intros _.
  eapply wpc_reads; [apply close_slots_reads|done..|]. intros w5 Hs5 Hc5.
  apply wpc_ret; [done|]. intros _.
  eapply wpc_reads; [apply open_reads|done..|]. intros w6 Hs6 Hc6. cbv beta iota.
  eapply wpc_reads; [apply header_reads|done..|]. intros w7 Hs7 Hc7. cbv beta.
  eapply wpc_reads; [apply close_reads|done..|]. intros w8 Hs8 Hc8. cbv beta.
  apply wpc_ret; [done|]. rewrite Hc8. split; [|done].
  assert (Hip : image_ok (fset F Primary (copied F (slot_r F) Primary NXBOOT_HEADER_MAGIC)) Primary = true)
    by (apply image_ok_copied; [rewrite <- Hc; by apply steady_wf|apply same_size|done..]).
  unfold image_ok in Hip. apply andb_true_iff in Hip as [-> _]. done.
Qed.

(** ** Confirming *)

(** What [nxboot_confirm] writes to the update slot [u]. *)
Definition confirmed_flash (g : flash) (u : slot) : flash :=
  fset g u (zwrite 0 (zslice 0 (g_erasesize (geom u)) (fget g Primary)) (fget g u)).

Lemma confirm_exact w : steady w -> confirmed (contents w) = false ->
  wpc nxboot_confirm
    (fun r w' => r = OK /\ contents w' = confirmed_flash (contents w) (slot_u (contents w)))
    (fun _ => True) w.
Proof.
  intros Hs Hn. remember (contents w) as F eqn:Hc. symmetry in Hc.
  pose proof (slots_distinct F) as (_ & Hu & _).
  pose proof (geom_ranges (slot_u F)). pose proof (erase_psize (slot_u F)).
  eapply wpc_reads; [apply get_state_reads|done..|]. intros w1 Hs1 Hc1. cbn [snd st_primary_confirmed boot_state].
  rewrite Hn.
  eapply wpc_reads; [apply open_reads|done..|]. intros w2 Hs2 Hc2. cbv beta iota.
  replace (update_path _) with (slot_u F)
    by (unfold update_path, slot_u; simpl; by destruct (roles_swapped F)).
  eapply wpc_reads; [apply open_reads|done..|]. intros w3 Hs3 Hc3. cbv beta iota.
  eapply wpc_reads; [apply info_reads|done..|]. intros w4 Hs4 Hc4. cbv beta iota.
  apply wpc_bind. eapply wpc_reads; [apply malloc_reads|done..|]. intros w5 Hs5 Hc5. cbn [negb].
  rewrite confirm_loop_eq. cbn [i_erasesize i_blocksize info_of].
  eapply wpc_mono; [apply copy_loop_wpc; [done|congruence|lia|lia|lia| |lia]| |done].
  { rewrite (same_size (slot_u F)) in *. lia. }
  intros r w6 Hs6 [-> Hc6] _.
  do 2 (eapply wpc_reads; [apply close_reads|done..|]; intros ? ? ?).
  apply wpc_ret; [done|]. split; [done|]. unfold confirmed_flash. rewrite <- Hc5. congruence.
Qed.

(** The confirmed slot holds the installed image again. *)
Lemma confirmed_slice f k j : wf_flash f -> ready f -> 4 <= k -> 0 <= j ->
  k + j <= copy_span (slot_u f) Primary (hdr f (slot_u f)) ->
  zslice k j (fget (confirmed_flash (installed f) (slot_u f)) (slot_u f)) = zslice k j (fget f (slot_u f)).
Proof.
  intros Hwf Hrdy Hk Hj Hin. pose proof (slots_distinct f) as (_ & Hu & _).
  pose proof (geom_ranges (slot_u f)) as Hg. pose proof (erase_psize (slot_u f)) as He.
  destruct (Hwf (slot_u f)) as [Hl _]. destruct (Hwf Primary) as [Hlp _].
  assert (Hfit : image_len (hdr f (slot_u f)) <= psize Primary) by apply Hrdy.
  pose proof (span_bounds f (slot_u f) Primary (same_size _) Hfit) as Hsp.
  pose proof (same_size (slot_u f)) as Hss.
  set (E := g_erasesize (geom (slot_u f))) in *.
  unfold confirmed_flash, installed. rewrite !fget_fset, fget_fset_ne, fget_fset by done.
  set (P := copied _ _ _ _).
  assert (HlP : zlen P = psize Primary) by (unfold P, copied; by rewrite zlen_zwrite).
  assert (HlE : zlen (zslice 0 E P) = E) by (rewrite zlen_zslice; lia).
  assert (Hff : zlen (replicate (Z.to_nat E) 255) = E) by (unfold zlen; rewrite length_replicate; lia).
  assert (Hlo : forall k j, 4 <= k -> 0 <= j -> k + j <= E ->
      k + j <= copy_span (slot_u f) Primary (hdr f (slot_u f)) ->
      zslice k j (zwrite 0 (zslice 0 E P) (erase_first (slot_u f) (fget f (slot_u f)))) =
      zslice k j (fget f (slot_u f))).
  { intros k' j' ? ? ? ?. rewrite zslice_zwrite_in; rewrite ?HlE; unfold erase_first;
      rewrite ?zlen_zwrite; try lia.
    rewrite Z.sub_0_r, zslice_zslice by lia. by apply zslice_copied. }
  assert (Hhi : forall k j, E <= k -> 0 <= j ->
      zslice k j (zwrite 0 (zslice 0 E P) (erase_first (slot_u f) (fget f (slot_u f)))) =
      zslice k j (fget f (slot_u f))).
  { intros k' j' ? ?. rewrite zslice_zwrite_after; rewrite ?HlE; unfold erase_first;
      rewrite ?zlen_zwrite; try lia.
    fold E. rewrite zslice_zwrite_after; rewrite ?Hff; try lia. done. }
  destruct (Z_le_gt_dec (k + j) E); [by apply Hlo|].
  destruct (Z_le_gt_dec E k); [by apply Hhi|].
  replace j with ((E - k) + (k + j - E)) by lia.
  rewrite !zslice_split, Hlo, Hhi by lia. done.
Qed.

Lemma confirmed_image f : wf_flash f -> ready f ->
  let g := confirmed_flash (installed f) (slot_u f) in
  hdr g (slot_u f) = with_magic (hdr f (slot_u f)) (installed_magic (slot_u f)) /\
  image_ok g (slot_u f) = true.
Proof.
  intros Hwf Hrdy g. pose proof (slots_distinct f) as (_ & Hu & _).
  destruct (ready_facts f Hrdy) as (Hm & Hok & _).
  assert (Hfit : image_len (hdr f (slot_u f)) <= psize Primary) by apply Hrdy.
  pose proof (span_bounds f (slot_u f) Primary (same_size _) Hfit) as Hsp.
  pose proof (geom_ranges (slot_u f)) as Hg. pose proof (erase_psize (slot_u f)) as He.
  destruct (Hwf (slot_u f)) as [Hl _]. destruct (Hwf Primary) as [Hlp _].
  pose proof (same_size (slot_u f)) as Hss.
  assert (Hh : hdr g (slot_u f) = with_magic (hdr f (slot_u f)) (installed_magic (slot_u f))).
  { unfold hdr. rewrite !decode_zslice. unfold decode_header, with_magic, NXBOOT_HEADER_PRERELEASE_MAXLEN.
    cbn [h_magic h_hdr_version h_header_size h_crc h_size h_identifier h_extd_hdr_ptr h_img_version].
    unfold g. f_equal; try (rewrite !confirmed_slice by (done || lia); done).
    unfold confirmed_flash, installed. rewrite fget_fset, fget_fset_ne, fget_fset by done.
    assert (HlE : zlen (zslice 0 (g_erasesize (geom (slot_u f)))
        (copied f (slot_u f) Primary (installed_magic (slot_u f)))) = g_erasesize (geom (slot_u f)))
      by (rewrite zlen_zslice; unfold copied; rewrite ?zlen_zwrite; lia).
    rewrite zslice_zwrite_in; rewrite ?HlE; unfold erase_first; rewrite ?fget_fset, ?zlen_zwrite; try lia.
    rewrite Z.sub_0_r, zslice_zslice, zslice_copied_magic by (done || lia || apply same_size).
    unfold slot_u. by destruct (roles_swapped f). }
  split; [done|]. unfold image_ok in *. rewrite Hh. apply andb_true_iff in Hok as [Hv Hcrc].
  apply andb_true_iff. split.
  { unfold validate_image_header in *. cbn [h_magic h_identifier with_magic].
    apply andb_true_iff in Hv as [_ ->]. destruct (installed_magic_facts (slot_u f) Hu) as (_ & -> & _).
    by rewrite orb_true_r. }
  cbn [h_crc with_magic]. rewrite <- Hcrc. f_equal. unfold crc_val.
  change (crc_len (with_magic (hdr f (slot_u f)) (installed_magic (slot_u f)))) with (crc_len (hdr f (slot_u f))).
  unfold crc_spec. destruct (Z.ltb_spec 0 (crc_len (hdr f (slot_u f)))); [|done].
  destruct (Z.ltb_spec (psize (slot_u f)) (12 + crc_len (hdr f (slot_u f)))); [done|].
  pose proof (psize_range (slot_u f)). unfold g. rewrite confirmed_slice; [done..|lia|lia|].
  unfold copy_span. rewrite (crc_len_image_len (hdr f (slot_u f))) by lia. lia.
Qed.

(** After confirmation nothing is left to do, and the slot the update came
    from has become the recovery slot. *)
Lemma confirmed_state f : wf_flash f -> ready f ->
  let g := confirmed_flash (installed f) (slot_u f) in
  hdr g Primary = with_magic (hdr f (slot_u f)) (installed_magic (slot_u f)) /\
  image_ok g Primary = true /\ confirmed g = true /\ slot_r g = slot_u f /\
  image_ok g (slot_r g) = true /\ next_boot g = NXBOOT_UPDATE_TYPE_NONE.
Proof.
  intros Hwf Hrdy g. pose proof (slots_distinct f) as (Hur & Hu & Hr).
  destruct (installed_state f Hwf Hrdy) as [Hp _ _ Hv Hrh Hro _].
  destruct (confirmed_image f Hwf Hrdy) as [Hh Hok]. fold g in Hh, Hok.
  destruct (ready_facts f Hrdy) as (_ & _ & _ & Hri).
  destruct (installed_magic_facts (slot_u f) Hu) as (Hi1 & Hi2 & Hi3).
  assert (Hgp : hdr g Primary = with_magic (hdr f (slot_u f)) (installed_magic (slot_u f)))
    by (unfold g, confirmed_flash; by rewrite hdr_fset_ne).
  assert (Hgv : image_ok g Primary = true)
    by (unfold g, confirmed_flash; by rewrite image_ok_fset_ne).
  assert (Hgr : hdr g (slot_r f) = hdr f (slot_r f))
    by (unfold g, confirmed_flash; by rewrite hdr_fset_ne).
  apply Z.eqb_neq in Hi1.
  assert (Hconf : confirmed g = true).
  { unfold confirmed, primary_confirmed. rewrite Hgp. cbn [h_magic h_crc with_magic].
    rewrite Hi1, Hi2, Hi3. unfold slot_u in *.
    destruct (roles_swapped f); cbn [slot_num]; rewrite Hh; apply Z.eqb_refl. }
  assert (Hne : (h_magic (hdr f (slot_r f)) =? NXBOOT_HEADER_MAGIC) = false).
  { apply Z.eqb_neq. intros He. by rewrite He in Hri. }
  assert (Hsw : roles_swapped g = negb (roles_swapped f)).
  { unfold roles_swapped at 1, update_is_tertiary. unfold slot_u, slot_r in *.
    destruct (roles_swapped f); cbn [negb];
      rewrite ?Hh, ?Hgr, ?Hgp; cbn [h_magic h_crc with_magic]; rewrite ?Hi1, ?Hi2, ?Hri, ?Hi3, ?Hne; [done|].
    apply Z.eqb_refl. }
  assert (Hrg : slot_r g = slot_u f) by (unfold slot_r, slot_u; rewrite Hsw; by destruct (roles_swapped f)).
  assert (Hug : slot_u g = slot_r f) by (unfold slot_r, slot_u; rewrite Hsw; by destruct (roles_swapped f)).
  rewrite Hrg. repeat split; [done..|].
  unfold next_boot, update_pending. rewrite Hug, Hgr, Hne, Hconf, Hgv. cbn [andb negb orb].
  by rewrite !andb_false_r.
Qed.

(** A boot with nothing to do only reads. *)
Lemma idle_boot check_only w : steady w -> next_boot (contents w) = NXBOOT_UPDATE_TYPE_NONE ->
  image_ok (contents w) Primary = true ->
  wpc (nxboot_perform_update check_only) (fun r w' => r = OK /\ contents w' = contents w)
    (fun f => f = contents w) w.
Proof.
  intros Hs Hn Hok. remember (contents w) as F eqn:Hc. symmetry in Hc.
  eapply wpc_reads; [apply get_state_reads|done..|]. intros w1 Hs1 Hc1. cbv beta iota.
  change (OK <? 0) with false. cbv iota. cbn [st_next_boot boot_state]. rewrite decide_True by done.
  eapply wpc_reads; [apply reads_ret|done..|]. intros w2 Hs2 Hc2. cbv beta iota.
  eapply wpc_reads; [apply open_reads|done..|]. intros w3 Hs3 Hc3. cbv beta iota.
  eapply wpc_reads; [apply header_reads|done..|]. intros w4 Hs4 Hc4. cbv beta.
  eapply wpc_reads; [apply close_reads|done..|]. intros w5 Hs5 Hc5. cbv beta.
  apply wpc_ret; [done|]. split; [|done].
  unfold image_ok in Hok. apply andb_true_iff in Hok as [-> _]. done.
Qed.

End BootCycle.
