(* ===== verification/FlashSim.v ===== *)
(** * A flash simulator

    A machine state that implements the kernel calls of [MtdOps]: three slots
    of 512 bytes (two erase sectors of two pages of 128 bytes each) and a
    schedule that says, call by call, whether the call succeeds, reports an
    error, or is cut short by a power failure.  It satisfies [MtdLaws], and the
    bootloader model runs on it. *)

From S2P Require Import Prelude.
From S2P Require Import Flash.
From S2P Require Import Boot.
From S2P Require Import BootSpec.

(** [EvCut junk]: the power fails; [junk] is what a write leaves behind. *)
Inductive event := EvOk | EvFail | EvCut (junk : list Z).

Record sim := {
  s_flash : flash;
  s_pos : slot -> Z;
  s_sched : list event;
}.

Definition sim_geom : geometry :=
  {| g_blocksize := 128; g_erasesize := 256; g_neraseblocks := 2 |}.
Definition sim_size : Z := 512.

Definition set_flash (w : sim) (f : flash) : sim :=
  {| s_flash := f; s_pos := s_pos w; s_sched := s_sched w |}.
Definition set_pos (w : sim) (s : slot) (p : Z) : sim :=
  {| s_flash := s_flash w; s_pos := fun s' => if decide (s = s') then p else s_pos w s';
     s_sched := s_sched w |}.
Definition set_sched (w : sim) (l : list event) : sim :=
  {| s_flash := s_flash w; s_pos := s_pos w; s_sched := l |}.

(** One kernel call: consult the schedule, then succeed, fail with [err], or
    stop with the flash changed by [cut]. *)
Definition sim_call {A} (ok : sim -> A * sim) (err : A) (cut : list Z -> flash -> flash)
    : M sim A := fun w =>
  match s_sched w with
  | EvFail :: l => Ret err (set_sched w l)
  | EvCut junk :: l => Off (set_flash (set_sched w l) (cut junk (s_flash w)))
  | EvOk :: l => let '(a, w') := ok (set_sched w l) in Ret a w'
  | [] => let '(a, w') := ok w in Ret a w'
  end.

Definition no_cut (_ : list Z) (f : flash) : flash := f.

(** Exactly [n] bytes of junk. *)
Definition fit_junk (n : nat) (junk : list Z) : list Z := take n ((u8 <$> junk) ++ replicate n 255).

Definition cut_write (s : slot) (junk : list Z) (f : flash) : flash :=
  fset f s (fit_junk (length (fget f s)) junk).

Definition cut_erase (s : slot) (junk : list Z) (f : flash) : flash :=
  fset f s (zip_with Z.lor (fget f s) (fit_junk (length (fget f s)) junk)).

#[export] Instance sim_ops : MtdOps sim := {
  os_open s := sim_call (fun w => (Some s, w)) None no_cut;
  os_close s := sim_call (fun w => (0, w)) (-1) no_cut;
  os_geometry s := sim_call (fun w => (Some sim_geom, w)) None no_cut;
  os_lseek s off := sim_call (fun w => (off, set_pos w s off)) (-1) no_cut;
  os_read s n := sim_call (fun w =>
    let d := zslice (s_pos w s) n (fget (s_flash w) s) in
    ((zlen d, d), set_pos w s (s_pos w s + zlen d))) (-1, []) no_cut;
  os_write s d := sim_call (fun w =>
    let d := take (Z.to_nat (sim_size - s_pos w s)) d in
    (zlen d, set_pos (set_flash w (fset (s_flash w) s (zwrite (s_pos w s) d (fget (s_flash w) s))))
               s (s_pos w s + zlen d))) (-1) (cut_write s);
  os_bulkerase s := sim_call (fun w =>
    (0, set_flash w (fset (s_flash w) s (replicate (length (fget (s_flash w) s)) 255))))
    (-1) (cut_erase s);
  os_erasesectors s start n := sim_call (fun w =>
    (n, set_flash w (fset (s_flash w) s
          (zwrite (start * 256) (replicate (Z.to_nat (n * 256)) 255) (fget (s_flash w) s)))))
    (-1) (cut_erase s);
  os_malloc n := sim_call (fun w => (true, w)) false no_cut;
}.

Definition wf_sim (w : sim) : Prop := forall s,
  length (fget (s_flash w) s) = 512%nat /\ Forall is_byte (fget (s_flash w) s).

Definition is_cut (e : event) : Prop := match e with EvCut _ => True | _ => False end.

#[export] Instance sim_view : MtdView sim := {
  geom _ := sim_geom;
  contents := s_flash;
  fpos := s_pos;
  steady w := Forall (fun e => e <> EvFail) (s_sched w) /\ wf_sim w;
  live w := Forall (fun e => ~ is_cut e) (s_sched w);
}.

(** A call that never fails in a steady state: what it does when it succeeds
    and what the cut leaves decide its specification. *)
Lemma sim_call_wpc {A} ok (err : A) cut (Q : A -> sim -> Prop) (C : flash -> Prop) w :
  steady w ->
  (forall w', s_flash w' = s_flash w -> s_pos w' = s_pos w -> wf_sim w' ->
     Q (fst (ok w')) (snd (ok w')) /\ wf_sim (snd (ok w')) /\
     s_sched (snd (ok w')) = s_sched w') ->
  (forall junk, C (cut junk (s_flash w))) ->
  wpc (sim_call ok err cut) Q C w.
Proof.
  intros [Hf Hwf] Hok HC. unfold wpc, sim_call, live, steady; simpl.
  destruct (s_sched w) as [|e l] eqn:Hsc.
  - destruct (Hok w) as (HQ & Hw & Hs); [done..|]. destruct (ok w) as [a w']; simpl in *.
    rewrite Hs, Hsc. auto.
  - apply Forall_cons_1 in Hf as [He Hf].
    assert (Hw' : wf_sim (set_sched w l)) by done.
    destruct e as [| |junk]; [|done|].
    + destruct (Hok (set_sched w l)) as (HQ & Hw & Hs); [done..|].
      destruct (ok (set_sched w l)) as [a w']; simpl in *. rewrite Hs.
      split; [done|]. split; [done|]. by intros [_ ?]%Forall_cons_1.
    + split; [apply HC|]. intros [Hc _]%Forall_cons_1. by apply Hc.
Qed.

Lemma wf_sim_fset w s l : wf_sim w -> length l = 512%nat -> Forall is_byte l ->
  wf_sim (set_flash w (fset (s_flash w) s l)).
Proof.
  intros Hw Hl Hb s'. simpl. destruct (decide (s = s')) as [->|Hne].
  - by rewrite fget_fset.
  - rewrite fget_fset_ne by done. apply Hw.
Qed.

Lemma lor_byte a b : is_byte a -> is_byte b -> is_byte (Z.lor a b).
Proof.
  unfold is_byte. intros Ha Hb. split; [apply Z.lor_nonneg; lia|].
  change 256 with (2 ^ 8).
  destruct (Z.eq_dec (Z.lor a b) 0) as [->|Hn]; [lia|].
  apply Z.log2_lt_pow2; [pose proof (proj2 (Z.lor_nonneg a b)); lia|].
  rewrite Z.log2_lor by lia.
  destruct (Z.eq_dec a 0) as [->|]; destruct (Z.eq_dec b 0) as [->|]; simpl; try lia;
    rewrite ?Z.max_lub_lt_iff; repeat split; try apply Z.log2_lt_pow2; lia.
Qed.

Lemma fit_junk_spec n junk : length (fit_junk n junk) = n /\ Forall is_byte (fit_junk n junk).
Proof.
  unfold fit_junk. split.
  - rewrite length_take, length_app, length_fmap, length_replicate. lia.
  - apply Forall_take, Forall_app_2.
    + apply Forall_fmap, Forall_true. intros x. apply u8_range.
    + apply Forall_replicate. unfold is_byte. lia.
Qed.

Lemma cut_erase_spec s junk f : Forall is_byte (fget f s) ->
  exists l, cut_erase s junk f = fset f s l /\ erased_bits (fget f s) l.
Proof.
  intros Hb. unfold cut_erase. eexists. split; [done|]. unfold erased_bits.
  destruct (fit_junk_spec (length (fget f s)) junk) as [Hl Hj].
  generalize dependent (fit_junk (length (fget f s)) junk). intros j Hl Hj.
  split.
  - revert j Hl Hj. induction (fget f s) as [|a l IH]; intros [|b j] Hl Hj; simpl in *; try done.
    apply Forall_cons_1 in Hb as [Ha Hb]. apply Forall_cons_1 in Hj as [Hb' Hj].
    constructor; [|apply IH; auto].
    apply Z.bits_inj'. intros n Hn. rewrite Z.land_spec, Z.lor_spec. by destruct (Z.testbit a n).
  - revert j Hl Hj. induction (fget f s) as [|a l IH]; intros [|b j] Hl Hj; simpl in *; try done.
    apply Forall_cons_1 in Hb as [Ha Hb]. apply Forall_cons_1 in Hj as [Hb' Hj].
    constructor; [by apply lor_byte|apply IH; auto].
Qed.

#[export] Instance sim_laws : MtdLaws sim.
Proof.
  constructor; simpl; try (unfold psize; simpl; lia).
  - intros w s [_ Hw]. unfold zlen, psize. simpl. destruct (Hw s) as [-> _]. done.
  - intros w s [_ Hw]. apply Hw.
  - intros w s Hs. apply sim_call_wpc; [done| |done]. intros w' Hf Hp Hw. by simpl.
  - intros w s Hs. apply sim_call_wpc; [done| |done]. intros w' Hf Hp Hw. by simpl.
  - intros w s Hs. apply sim_call_wpc; [done| |done]. intros w' Hf Hp Hw. by simpl.
  - intros w s Hs. apply sim_call_wpc; [done| |done]. intros w' Hf Hp Hw. by simpl.
  - intros w s off Hs Ho. apply sim_call_wpc; [done| |done]. intros w' Hf Hp Hw. simpl.
    by rewrite decide_True by done.
  - intros w s n Hs Hn Hp Hl. apply sim_call_wpc; [done| |done]. intros w' Hf Hp' Hw. simpl.
    rewrite Hf, Hp'. destruct Hs as [_ Hw0]. rewrite zlen_zslice; [done|lia..|].
    unfold zlen. destruct (Hw0 s) as [-> _]. exact Hl.
  - intros w s d Hs Hd Hp Hl. apply sim_call_wpc; [done| |].
    + intros w' Hf Hp' Hw. simpl. rewrite Hf, Hp'. change (psize s) with 512 in Hl.
      rewrite take_ge by (unfold zlen, sim_size in *; lia).
      repeat split; try done; simpl; destruct (decide (s = s0)) as [->|Hne];
        rewrite ?fget_fset, ?fget_fset_ne, <- ?Hf by done; try apply Hw.
      * rewrite length_zwrite. apply Hw.
      * apply Forall_zwrite; [done|apply Hw].
    + intros junk. by eexists.
  - intros w s Hs. apply sim_call_wpc; [done| |].
    + intros w' Hf Hp' Hw. simpl. rewrite Hf. split; [done|]. split; [|done].
      rewrite <- Hf. apply (wf_sim_fset w'); [done| |].
      * rewrite length_zwrite. apply Hw.
      * apply Forall_zwrite; [|apply Hw].
        apply (Forall_replicate _ 256). unfold is_byte. lia.
    + intros junk. apply cut_erase_spec. apply Hs.
Qed.

(** ** A concrete CRC-32 *)

Fixpoint crc32_bits (n : nat) (c : Z) : Z :=
  match n with
  | O => c
  | S k => crc32_bits k (if Z.odd c then Z.lxor (Z.shiftr c 1) 0xedb88320 else Z.shiftr c 1)
  end.

#[export] Instance sim_crc : Crc32 := {
  crc32part d c := fold_left (fun c b => crc32_bits 8 (Z.lxor c b)) d c
}.

#[export] Instance sim_crc_laws : Crc32Laws.
Proof. constructor. intros a b c. apply fold_left_app. Qed.

#[export] Instance sim_config : NxbootConfig := {
  CONFIG_NXBOOT_PLATFORM_IDENTIFIER := 7;
  CONFIG_NXBOOT_PREVENT_DOWNGRADE := false;
}.

(** A slot holding an image with the given magic and payload (CRC filled in). *)
Definition mk_image (magic : Z) (ver : Z) (payload : list Z) : list Z :=
  let body := le_bytes 4 (zlen payload) ++ le_bytes 8 7 ++ le_bytes 4 0 ++
              le_bytes 2 ver ++ le_bytes 2 0 ++ le_bytes 2 0 ++ replicate 94 0 ++ payload in
  let crc := u32 (Z.lnot (crc32part body 0xffffffff)) in
  let img := le_bytes 4 magic ++ [1; 0] ++ le_bytes 2 128 ++ le_bytes 4 crc ++ body in
  img ++ replicate (512 - length img) 255.

Definition blank : list Z := replicate 512 255.

Definition sim_boot (p s t : list Z) (sched : list event) : sim :=
  {| s_flash := {| f_primary := p; f_secondary := s; f_tertiary := t |};
     s_pos := fun _ => 0; s_sched := sched |}.
