(* ===== verification/BootTheorems.v ===== *)
(** * Properties of the bootloader

    The guarantees of boot.c stated on the modelled functions, each with an
    instance on the flash simulator. *)

From S2P Require Import Prelude.
From S2P Require Import Flash.
From S2P Require Import Boot.
From S2P Require Import BootSpec.
From S2P Require Import BootState.
From S2P Require Import BootCopy.
From S2P Require Import BootSafety.
From S2P Require Import BootCycle.
From S2P Require Import FlashSim.

Section Properties.
Context `{!Crc32, !Crc32Laws, !NxbootConfig}.
Context {W : Type} `{!MtdOps W, !MtdView W, !MtdLaws W}.

(** One boot that ends in a power cut, seen from the flash. *)
Inductive interrupted : flash -> flash -> Prop :=
  | interrupted_boot w w' check_only :
      steady w -> nxboot_perform_update check_only w = Off w' ->
      interrupted (contents w) (contents w').

(** Every run, complete or not, keeps a safe flash safe. *)
Lemma boot_keeps_safe (same_size : forall s, psize s = psize Primary) check_only w :
  steady w -> safe (contents w) ->
  match nxboot_perform_update check_only w with
  | Ret _ w' | Off w' => safe (contents w')
  | Undef | NoFuel => False
  end.
Proof.
  intros Hs Hsafe. pose proof (nxboot_perform_update_wpc same_size check_only w Hs Hsafe) as Hw.
  unfold wpc in Hw. destruct (nxboot_perform_update check_only w); [|tauto..].
  destruct Hw as ((_ & ? & _) & _). done.
Qed.

Lemma interrupted_safe (same_size : forall s, psize s = psize Primary) f f' :
  rtc interrupted f f' -> safe f -> safe f'.
Proof.
  induction 1 as [|f g h Hstep _ IH]; [done|]. intros Hsafe. apply IH.
  destruct Hstep as [w w' check Hs Hrun].
  pose proof (boot_keeps_safe same_size check w Hs Hsafe) as Hk. by rewrite Hrun in Hk.
Qed.

(** C1.  Crash safety, for slots of equal size on a device that reports no
    error: from a safe flash ([safe]: the primary image is valid and, should
    the next boot revert it, can be rebuilt from the other slots; or it can be
    rebuilt anyway), however many boots are cut by a power failure, at whatever
    call of the device, a boot that is not cut returns [OK], leaves a valid
    image in the primary slot, and the flash is safe again.  A cut write leaves
    anything in its slot, a cut erase has set any bits and cleared none
    ([MtdLaws]). *)
Theorem boot_survives_power_cuts (same_size : forall s, psize s = psize Primary)
    f f' w check_only :
  safe f -> rtc interrupted f f' -> steady w -> live w -> contents w = f' ->
  exists w', nxboot_perform_update check_only w = Ret OK w' /\
             image_ok (contents w') Primary = true /\ safe (contents w').
Proof.
  intros Hsafe Hcuts Hs Hl Hc. pose proof (interrupted_safe same_size f f' Hcuts Hsafe) as Hsafe'.
  rewrite <- Hc in Hsafe'.
  destruct (wpc_live _ _ _ w (nxboot_perform_update_wpc same_size check_only w Hs Hsafe') Hl)
    as (r & w' & Hrun & (-> & Hsf & Hok) & _). eauto.
Qed.


(**  The two ways to ask whether the primary image is confirmed agree,
    unless the recovery pointer of the primary magic is the unused value 3. *)
Theorem get_confirm_agrees w : steady w -> live w ->
  Z.land (h_magic (hdr (contents w) Primary)) NXBOOT_RECOVERY_PTR_MASK <> 3 ->
  exists w', nxboot_get_confirm w =
    Ret (if st_primary_confirmed (boot_state (contents w)) then 1 else 0) w'.
Proof.
  intros Hs Hl Hptr. set (F := contents w).
  assert (Hw : wpc nxboot_get_confirm (fun r _ => r = (if confirmed F then 1 else 0)) (fun _ => True) w).
  { assert (Hc : contents w = F) by done. clearbody F. subst F.
    eapply wpc_reads; [apply open_reads|done..|]. intros w1 Hs1 Hc1.
    eapply wpc_reads; [apply header_reads|done..|]. intros w2 Hs2 Hc2. cbv beta.
    unfold confirmed, primary_confirmed. set (h := hdr (contents w) Primary) in *.
    assert (Hr : 0 <= Z.land (h_magic h) NXBOOT_RECOVERY_PTR_MASK < 4).
    { change NXBOOT_RECOVERY_PTR_MASK with (Z.ones 2). rewrite Z.land_ones by lia.
      apply Z.mod_pos_bound. lia. }
    destruct (h_magic h =? NXBOOT_HEADER_MAGIC);
      [eapply wpc_reads; [apply close_reads|done..|]; intros w3 Hs3 Hc3; by apply wpc_ret|].
    destruct (IS_INTERNAL_MAGIC (h_magic h));
      [|eapply wpc_reads; [apply close_reads|done..|]; intros w3 Hs3 Hc3; by apply wpc_ret].
    destruct (Z.eqb_spec (Z.land (h_magic h) NXBOOT_RECOVERY_PTR_MASK) 0) as [->|Hne]; cbn [negb];
      [eapply wpc_reads; [apply close_reads|done..|]; intros w3 Hs3 Hc3; by apply wpc_ret|].
    eapply wpc_reads; [apply open_reads|done..|]. intros w3 Hs3 Hc3. cbv beta iota.
    eapply wpc_reads; [apply header_reads|done..|]. intros w4 Hs4 Hc4. cbv beta.
    do 2 (eapply wpc_reads; [apply close_reads|done..|]; intros ? ? ?).
    apply wpc_ret; [done|]. unfold NXBOOT_SECONDARY_SLOT_NUM, NXBOOT_TERTIARY_SLOT_NUM.
    destruct (Z.eqb_spec (Z.land (h_magic h) NXBOOT_RECOVERY_PTR_MASK) 1); [done|].
    destruct (Z.eqb_spec (Z.land (h_magic h) NXBOOT_RECOVERY_PTR_MASK) 2); [done|lia]. }
  destruct (wpc_live _ _ _ w Hw Hl) as (r & w' & Hrun & -> & _). eauto.
Qed.

(** The magic [copy_partition] writes is one the bootloader knows, except for
    an image with an internal magic installed from slot 1. *)
Lemma copy_magic_range h st update :
  st_update st = NXBOOT_SECONDARY_SLOT_NUM \/ st_update st = NXBOOT_TERTIARY_SLOT_NUM ->
  0 <= copy_magic h st update < 2 ^ 32.
Proof.
  intros Hst. unfold copy_magic.
  destruct update, (IS_INTERNAL_MAGIC (h_magic h)), Hst as [Hu|Hu]; rewrite ?Hu; vm_compute; intuition congruence.
Qed.

Lemma good_copy_magic h st update :
  st_update st = NXBOOT_SECONDARY_SLOT_NUM \/ st_update st = NXBOOT_TERTIARY_SLOT_NUM ->
  good_magic (copy_magic h st update) =
  negb (update && IS_INTERNAL_MAGIC (h_magic h) && (st_update st =? NXBOOT_SECONDARY_SLOT_NUM)).
Proof.
  intros Hst. unfold copy_magic. by destruct update, (IS_INTERNAL_MAGIC (h_magic h)), Hst as [Hu|Hu]; rewrite ?Hu.
Qed.

(** C24.  [copy_partition], between any two slots whose blocks fit into each
    other and for a source image inside its slot.  An image longer than the
    destination is refused and nothing changes.  Otherwise the call returns
    [OK], the destination has the source's image with the new magic in its
    first four bytes, every byte behind them up to the image's end is the
    source's, and no other slot changes.  A valid image stays valid, except
    that an image with an internal magic gets an unknown one when [update] is
    set and the state's update slot is number 1. *)
Theorem copy_partition_correct from where_ st update w : steady w -> live w -> from <> where_ ->
  image_len (hdr (contents w) from) <= psize from ->
  g_blocksize (geom where_) <= psize from -> g_blocksize (geom from) <= psize where_ ->
  st_update st = NXBOOT_SECONDARY_SLOT_NUM \/ st_update st = NXBOOT_TERTIARY_SLOT_NUM ->
  let h := hdr (contents w) from in
  let m := if IS_INTERNAL_MAGIC (h_magic h) then NXBOOT_HEADER_MAGIC else NXBOOT_HEADER_MAGIC_INT in
  exists ret w', copy_partition from where_ st update w = Ret ret w' /\
    (forall s, s <> where_ -> fget (contents w') s = fget (contents w) s) /\
    if psize where_ <? image_len h
    then ret = ERROR /\ contents w' = contents w
    else ret = OK /\
      hdr (contents w') where_ = with_magic h (if update then Z.lor m (st_update st) else m) /\
      (forall k n, 4 <= k -> 0 <= n -> k + n <= image_len h ->
         zslice k n (fget (contents w') where_) = zslice k n (fget (contents w) from)) /\
      (image_ok (contents w) from = true -> image_ok (contents w') where_ =
         negb (update && IS_INTERNAL_MAGIC (h_magic h) && (st_update st =? NXBOOT_SECONDARY_SLOT_NUM))).
Proof.
  intros Hs Hl Hne Hfrom Hbw Hbf Hst h m. pose proof (steady_wf w Hs) as Hwf.
  assert (Hroom : image_len h <= psize where_ -> copy_room h from where_).
  { intros Hfit. unfold copy_room, copy_span. fold h in Hfrom.
    pose proof (geom_ranges from). pose proof (geom_ranges where_). lia. }
  destruct (wpc_live _ _ _ w (copy_room_wpc from where_ st update w Hs Hne Hroom) Hl)
    as (r & w' & Hrun & Hq & _). fold h in Hq.
  exists r, w'. split; [done|]. destruct (Z.ltb_spec (psize where_) (image_len h)) as [Hbig|Hfit].
  { destruct Hq as [-> ->]. done. }
  destruct Hq as [-> ->]. specialize (Hroom Hfit). fold (copy_magic h st update).
  split; [intros s Hsw; by rewrite fget_fset_ne|]. split; [done|].
  pose proof (copy_magic_range h st update Hst) as Hm. split; [by apply hdr_copy|]. split.
  - intros k n Hk Hn Hin. rewrite fget_fset. apply zslice_copy; [done..|]. fold h. unfold copy_span. lia.
  - intros Hok. rewrite <- (good_copy_magic h st update Hst).
    destruct (good_magic (copy_magic h st update)) eqn:Hg; [by apply image_ok_copy|].
    apply not_true_is_false. intros Hc. apply andb_true_iff in Hc as [Hc _].
    rewrite hdr_copy in Hc by done. apply andb_true_iff in Hc as [Hc _].
    unfold good_magic in Hg. cbn [h_magic with_magic] in Hc. congruence.
Qed.

(** C40.  An image whose header makes the length computation wrap to a
    non-positive [int] is accepted without any check of its contents when its
    CRC field is zero. *)
Theorem wrapped_length_validates w s : steady w -> live w ->
  validate_image_header (hdr (contents w) s) = true ->
  crc_len (hdr (contents w) s) <= 0 -> h_crc (hdr (contents w) s) = 0 ->
  exists w', validate_image s w = Ret true w'.
Proof.
  intros Hs Hl Hh Hlen Hcrc.
  destruct (wpc_live _ _ _ w (validate_reads s w Hs) Hl) as (r & w' & Hrun & [-> Hc] & _).
  exists w'. rewrite Hrun. f_equal. unfold image_ok. rewrite Hh, Hcrc. unfold crc_val, crc_spec.
  destruct (Z.ltb_spec 0 (crc_len (hdr (contents w) s))); [lia|]. done.
Qed.



End Properties.

(** ** Instances on the simulator *)

Definition img_a (magic : Z) : list Z := mk_image magic 1 (replicate 200 17).
Definition img_b (magic : Z) : list Z := mk_image magic 2 (replicate 100 34).

Lemma sim_same_size (s : slot) : psize (W := sim) s = psize Primary.
Proof. reflexivity. Qed.

(** Decidable form of the well-formedness of a simulator state. *)
Definition wf_simb (w : sim) : bool :=
  forallb (fun s => (length (fget (s_flash w) s) =? 512)%nat &&
                    forallb (fun b => (0 <=? b) && (b <? 256)) (fget (s_flash w) s))
    [Primary; Secondary; Tertiary].

Lemma wf_simb_wf w : wf_simb w = true -> wf_sim w.
Proof.
  unfold wf_simb. rewrite forallb_forall. intros H s.
  assert (Hin : In s [Primary; Secondary; Tertiary]) by (destruct s; simpl; tauto).
  specialize (H s Hin). apply andb_true_iff in H as [Hl Hb].
  split; [by apply Nat.eqb_eq|]. apply Forall_forall. intros x Hx.
  rewrite forallb_forall in Hb. specialize (Hb x Hx).
  unfold is_byte. breflect. lia.
Qed.

Definition no_fail (e : event) : bool := match e with EvFail => false | _ => true end.

Lemma sim_steady w : forallb no_fail (s_sched w) = true -> wf_simb w = true -> steady w.
Proof.
  intros Hf Hw. split; [|by apply wf_simb_wf]. apply Forall_forall. intros e He ->.
  rewrite forallb_forall in Hf. specialize (Hf EvFail He). done.
Qed.

(** A board with image A, an update B in the secondary slot, and a first boot
    that loses power while it copies. *)
Definition board (sched : list event) : sim :=
  sim_boot (img_a NXBOOT_HEADER_MAGIC) (img_b NXBOOT_HEADER_MAGIC) blank sched.
Definition cut_board : sim := board (replicate 100 EvOk ++ [EvCut [1; 2; 3]]).
Definition cut_result : sim :=
  match nxboot_perform_update false cut_board with Off w => w | _ => cut_board end.
Definition after_cut : sim := set_sched cut_result [].

Lemma cut_run : nxboot_perform_update false cut_board = Off cut_result.
Proof. by vm_compute. Qed.

Lemma cut_board_steady : steady cut_board.
Proof. by apply sim_steady; vm_compute. Qed.

Lemma contents_set_sched w l : contents (set_sched w l) = contents w.
Proof. reflexivity. Qed.

Lemma after_cut_interrupted : interrupted (contents cut_board) (contents after_cut).
Proof.
  unfold after_cut. rewrite contents_set_sched.
  exact (interrupted_boot cut_board cut_result false cut_board_steady cut_run).
Qed.

Lemma after_cut_steady : steady after_cut.
Proof. by apply sim_steady; vm_compute. Qed.

Lemma board_safe l : safe (contents (board l)).
Proof. left. split; [by vm_compute|]. vm_compute. discriminate. Qed.

Lemma boot_survives_power_cuts_witness :
  exists w', nxboot_perform_update false after_cut = Ret OK w' /\
             image_ok (contents w') Primary = true /\ safe (contents w').
Proof.
  apply (boot_survives_power_cuts sim_same_size (contents cut_board) (contents after_cut) after_cut false).
  - apply board_safe.
  - eapply rtc_l; [apply after_cut_interrupted|apply rtc_refl].
  - apply after_cut_steady.
  - apply Forall_nil_2.
  - reflexivity.
Defined.


Lemma get_confirm_agrees_witness :
  exists w', nxboot_get_confirm (board []) =
    Ret (if st_primary_confirmed (boot_state (contents (board []))) then 1 else 0) w'.
Proof.
  apply (get_confirm_agrees (board [])); [by apply sim_steady; vm_compute|by vm_compute|by vm_compute].
Defined.

Lemma copy_partition_correct_witness :
  exists ret w', copy_partition Secondary Primary (boot_state (contents (board []))) true (board []) = Ret ret w' /\
    ret = OK /\ image_ok (contents w') Primary = true /\
    h_magic (hdr (contents w') Primary) = 0xaca0abb1.
Proof.
  assert (Hu : st_update (boot_state (contents (board []))) = NXBOOT_SECONDARY_SLOT_NUM) by by vm_compute.
  assert (Hlen : image_len (hdr (contents (board [])) Secondary) <= 512) by by vm_compute.
  destruct (copy_partition_correct Secondary Primary (boot_state (contents (board []))) true (board []))
    as (ret & w' & Hrun & _ & Hq);
    [by apply sim_steady; vm_compute|by vm_compute|done|done|by vm_compute|by vm_compute|by left|].
  exists ret, w'. split; [done|].
  destruct (Z.ltb_spec (psize (W := sim) Primary) (image_len (hdr (contents (board [])) Secondary)));
    [change (psize (W := sim) Primary) with 512 in *; lia|].
  destruct Hq as (-> & Hh & _ & Hok). split; [done|]. split.
  - rewrite Hok by by vm_compute. by vm_compute.
  - rewrite Hh. by vm_compute.
Defined.

(** A header that claims a length of 2 GiB and carries CRC 0. *)
Definition bogus : list Z :=
  le_bytes 4 NXBOOT_HEADER_MAGIC ++ [1; 0] ++ le_bytes 2 128 ++ le_bytes 4 0 ++
  le_bytes 4 0x90000000 ++ le_bytes 8 7 ++ replicate 488 90.

Lemma wrapped_length_validates_witness :
  exists w', validate_image Secondary (sim_boot blank bogus blank []) = Ret true w'.
Proof.
  apply wrapped_length_validates;
    [by apply sim_steady; vm_compute|by vm_compute|by vm_compute|by vm_compute|by vm_compute].
Defined.





(** ** A recovery image that undoes the update

    Image B runs and is confirmed, but its recovery copy in the secondary slot
    is damaged; update C is pending in the tertiary slot. *)
Definition img_c : list Z := mk_image NXBOOT_HEADER_MAGIC 3 (replicate 50 51).
Definition damaged_board : sim :=
  sim_boot (img_b 0xaca0abb1) (zwrite 200 [0] (img_b 0xaca0abb1)) img_c [].

Definition boot_once (w : sim) : sim :=
  match nxboot_perform_update false w with Ret _ w' | Off w' => w' | _ => w end.

Definition primary_version (w : sim) : Z := v_major (h_img_version (hdr (contents w) Primary)).

(** A recovery copy made from a primary image with the internal magic gets
    the standard magic, so the next boot takes it for an update: update C is
    installed over B by the first boot and replaced by the old image B by the
    second, without a revert having been requested. *)
Example recreated_recovery_undoes_update :
  st_next_boot (boot_state (contents damaged_board)) = NXBOOT_UPDATE_TYPE_UPDATE /\
  primary_version damaged_board = 2 /\
  primary_version (boot_once damaged_board) = 3 /\
  h_magic (hdr (contents (boot_once damaged_board)) Secondary) = NXBOOT_HEADER_MAGIC /\
  st_next_boot (boot_state (contents (boot_once damaged_board))) = NXBOOT_UPDATE_TYPE_UPDATE /\
  primary_version (boot_once (boot_once damaged_board)) = 2.
Proof. by vm_compute. Qed.
