(* ===== verification/Base64.v ===== *)
(** Base64 (netutils/codecs/base64.c): the standard and the "websafe" codec.

    The destination is a separate buffer, so an operation is modelled by the
    bytes it writes to it, in order, with the value left in [*out_len].  [dst]
    says that the caller gave a buffer, [heap] that [malloc] succeeds. *)

From stdpp Require Import strings.
From S2P Require Import Prelude.
#[local] Open Scope Z_scope.
#[local] Ltac Zify.zify_post_hook ::= Z.to_euclidean_division_equations.

Module Base64.

(** ** The code *)

Definition base64_tab (websafe : bool) : list Z :=
  let _tab := cstr "ABCDEFGHIJKLMNOPQRSTUVWXYZabcdefghijklmnopqrstuvwxyz0123456789+/" in
  let _tab_w := cstr "ABCDEFGHIJKLMNOPQRSTUVWXYZabcdefghijklmnopqrstuvwxyz0123456789__" in
  if websafe then _tab_w else _tab.

Definition pad_char (websafe : bool) : Z := if websafe then 46 else 61.

(** [base64_table[i]] *)
Definition tab_at (tab : list Z) (i : Z) : Z := default 0 (tab !! Z.to_nat i).

Fixpoint encode_loop (tab : list Z) (ch : Z) (inp : list Z) : list Z :=
  match inp with
  | a :: b :: c :: rest =>
      tab_at tab (Z.shiftr a 2) ::
      tab_at tab (Z.lor (Z.shiftl (Z.land a 3) 4) (Z.shiftr b 4)) ::
      tab_at tab (Z.lor (Z.shiftl (Z.land b 0x0f) 2) (Z.shiftr c 6)) ::
      tab_at tab (Z.land c 0x3f) :: encode_loop tab ch rest
  | [a; b] =>
      [tab_at tab (Z.shiftr a 2);
       tab_at tab (Z.lor (Z.shiftl (Z.land a 3) 4) (Z.shiftr b 4));
       tab_at tab (Z.shiftl (Z.land b 0x0f) 2); ch]
  | [a] => [tab_at tab (Z.shiftr a 2); tab_at tab (Z.shiftl (Z.land a 3) 4); ch; ch]
  | [] => []
  end.

(** Size requested from [malloc] (32-bit [size_t]). *)
Definition encode_alloc (len : Z) : Z := u32 (u32 (u32 (len + 2) / 3 * 4) + 1).

Definition _base64_encode (dst heap : bool) (src : list Z) (websafe : bool)
    : option (list Z * Z) :=
  if negb dst && negb heap then None
  else
    let out := encode_loop (base64_tab websafe) (pad_char websafe) src in
    Some (out ++ [0], zlen out).

(** The loop of [_base64_decode] from [src[i]] on: [prev] is [src[i - 1]],
    [block] the entries of the block filled so far. *)
Fixpoint decode_loop (tab : list Z) (ch prev : Z) (block src : list Z) : list Z :=
  match src with
  | [] => []
  | c :: rest =>
      match block ++ [u8 (default 0 (strchr tab c))] with
      | [b0; b1; b2; b3] =>
          u8 (Z.lor (Z.shiftl b0 2) (Z.shiftr b1 4)) ::
          if prev =? ch then []
          else
            u8 (Z.lor (Z.shiftl b1 4) (Z.shiftr b2 2)) ::
            if c =? ch then []
            else u8 (Z.lor (Z.shiftl b2 6) b3) :: decode_loop tab ch c [] rest
      | block' => decode_loop tab ch c block' rest
      end
  end.

Definition decode_alloc (len : Z) : Z := len / 4 * 3.

Definition _base64_decode (dst heap : bool) (src : list Z) (websafe : bool)
    : option (list Z * Z) :=
  if negb dst && negb heap then None
  else
    let out := decode_loop (base64_tab websafe) (pad_char websafe) 0 [] src in
    Some (out, zlen out).

Definition base64_encode_length (len : Z) : Z := u32 (u32 (len + 2) / 3 * 4).
Definition base64_encode dst heap src := _base64_encode dst heap src false.
Definition base64_decode_length (len : Z) : Z := u32 (len * 3) / 4.
Definition base64_decode dst heap src := _base64_decode dst heap src false.
Definition base64w_encode dst heap src := _base64_encode dst heap src true.
Definition base64w_decode dst heap src := _base64_decode dst heap src true.

(** ** Specification: a byte string as a sequence of six-bit groups *)

Fixpoint sextets (s : list Z) : list Z :=
  match s with
  | a :: b :: c :: rest =>
      a / 4 :: a mod 4 * 16 + b / 16 :: b mod 16 * 4 + c / 64 :: c mod 64 :: sextets rest
  | [a; b] => [a / 4; a mod 4 * 16 + b / 16; b mod 16 * 4]
  | [a] => [a / 4; a mod 4 * 16]
  | [] => []
  end.

(** The padding that completes the last group of four characters. *)
Definition padding (n : Z) : nat := Z.to_nat (- n mod 3).

(** What the decoder makes of the character that stands for [s]. *)
Definition seen (websafe : bool) (s : Z) : Z := if websafe && (s =? 63) then 62 else s.

Lemma tab_seen websafe s : 0 <= s < 64 ->
  u8 (default 0 (strchr (base64_tab websafe) (tab_at (base64_tab websafe) s))) = seen websafe s.
Proof.
  intros Hs. apply Z.eqb_eq. revert s Hs.
  apply (range_sweep (fun s => _ =? _) 64). by destruct websafe; vm_compute.
Qed.

Lemma tab_not_pad websafe s : 0 <= s < 64 ->
  (tab_at (base64_tab websafe) s =? pad_char websafe) = false.
Proof.
  intros Hs. apply negb_true_iff. revert s Hs.
  apply (range_sweep (fun s => negb (_ =? _)) 64). by destruct websafe; vm_compute.
Qed.

Lemma pad_value websafe : u8 (default 0 (strchr (base64_tab websafe) (pad_char websafe))) = 0.
Proof. by destruct websafe; vm_compute. Qed.

Lemma seen_range websafe s : 0 <= s < 64 -> 0 <= seen websafe s < 64.
Proof. unfold seen. destruct (websafe && (s =? 63)); lia. Qed.

(** *** The bit expressions of the code, as arithmetic *)

Lemma enc_bits a b c : is_byte a -> is_byte b -> is_byte c ->
  Z.shiftr a 2 = a / 4 /\
  Z.lor (Z.shiftl (Z.land a 3) 4) (Z.shiftr b 4) = a mod 4 * 16 + b / 16 /\
  Z.lor (Z.shiftl (Z.land b 0x0f) 2) (Z.shiftr c 6) = b mod 16 * 4 + c / 64 /\
  Z.land c 0x3f = c mod 64 /\
  Z.shiftl (Z.land a 3) 4 = a mod 4 * 16 /\ Z.shiftl (Z.land b 0x0f) 2 = b mod 16 * 4.
Proof.
  unfold is_byte. intros Ha Hb Hc.
  assert (Z.land a 3 = a mod 4) as -> by (apply (land_ones_mod a 2); lia).
  assert (Z.land b 0x0f = b mod 16) as -> by (apply (land_ones_mod b 4); lia).
  assert (Z.land c 0x3f = c mod 64) as -> by (apply (land_ones_mod c 6); lia).
  rewrite !Z.shiftr_div_pow2 by lia.
  rewrite !lor_add by (pow_lit; lia).
  rewrite !Z.shiftl_mul_pow2 by lia. done.
Qed.

Lemma dec_bits s0 s1 s2 s3 : 0 <= s0 < 64 -> 0 <= s1 < 64 -> 0 <= s2 < 64 -> 0 <= s3 < 64 ->
  u8 (Z.lor (Z.shiftl s0 2) (Z.shiftr s1 4)) = s0 * 4 + s1 / 16 /\
  u8 (Z.lor (Z.shiftl s1 4) (Z.shiftr s2 2)) = s1 mod 16 * 16 + s2 / 4 /\
  u8 (Z.lor (Z.shiftl s2 6) s3) = s2 mod 4 * 64 + s3.
Proof.
  intros. rewrite !Z.shiftr_div_pow2 by lia.
  rewrite !lor_add by (pow_lit; lia). unfold u8. pow_lit. lia.
Qed.

(** *** Encoding *)

Lemma sextets_range s : Forall is_byte s -> Forall (fun x => 0 <= x < 64) (sextets s).
Proof.
  induction s as [|a|a b|a b c s IH] using list_ind3; intros Hs; decompose_Forall_hyps;
    unfold is_byte in *; simpl; repeat constructor; try lia. apply IH. by unfold is_byte.
Qed.

Lemma padding_3 n : padding (3 + n) = padding n.
Proof. unfold padding. f_equal. lia. Qed.

(** The encoder writes one character per six-bit group, then the padding. *)
Lemma encode_loop_sextets tab ch s : Forall is_byte s ->
  encode_loop tab ch s = (tab_at tab <$> sextets s) ++ replicate (padding (zlen s)) ch.
Proof.
  unfold zlen. induction s as [|a|a b|a b c s IH] using list_ind3; intros Hs;
    decompose_Forall_hyps; [done| | |].
  - destruct (enc_bits a 0 0) as (E1 & _ & _ & _ & E2 & _); [done..|]. simpl. by rewrite E1, E2.
  - destruct (enc_bits a b 0) as (E1 & E2 & _ & _ & _ & E3); [done..|].
    simpl. by rewrite E1, E2, E3.
  - destruct (enc_bits a b c) as (E1 & E2 & E3 & E4 & _ & _); [done..|].
    cbn [encode_loop sextets fmap list_fmap app]. rewrite E1, E2, E3, E4, IH by done.
    do 6 f_equal. rewrite <- padding_3. cbn [length]. f_equal. lia.
Qed.

Lemma encode_loop_length tab ch s : zlen (encode_loop tab ch s) = (zlen s + 2) / 3 * 4.
Proof.
  unfold zlen. induction s as [|a|a b|a b c s IH] using list_ind3; [done..|].
  cbn [encode_loop length]. lia.
Qed.

(** *** Decoding *)

Lemma decode_quad websafe prev s0 s1 s2 s3 rest :
  0 <= s0 < 64 -> 0 <= s1 < 64 -> 0 <= s2 < 64 -> 0 <= s3 < 64 ->
  let tab := base64_tab websafe in let ch := pad_char websafe in let v := seen websafe in
  decode_loop tab ch prev [] (tab_at tab s0 :: tab_at tab s1 :: tab_at tab s2 :: tab_at tab s3 :: rest) =
  v s0 * 4 + v s1 / 16 :: v s1 mod 16 * 16 + v s2 / 4 :: v s2 mod 4 * 64 + v s3 ::
  decode_loop tab ch (tab_at tab s3) [] rest.
Proof.
  intros H0 H1 H2 H3 tab ch v. cbn [decode_loop app]. subst tab ch v.
  rewrite !tab_seen, !tab_not_pad by done.
  destruct (dec_bits (seen websafe s0) (seen websafe s1) (seen websafe s2) (seen websafe s3))
    as (-> & -> & ->); auto using seen_range.
Qed.

Lemma decode_pad1 websafe prev s0 s1 s2 :
  0 <= s0 < 64 -> 0 <= s1 < 64 -> 0 <= s2 < 64 ->
  let tab := base64_tab websafe in let ch := pad_char websafe in let v := seen websafe in
  decode_loop tab ch prev [] [tab_at tab s0; tab_at tab s1; tab_at tab s2; ch] =
  [v s0 * 4 + v s1 / 16; v s1 mod 16 * 16 + v s2 / 4].
Proof.
  intros H0 H1 H2 tab ch v. cbn [decode_loop app]. subst tab ch v.
  rewrite !tab_seen, !tab_not_pad, pad_value, Z.eqb_refl by done.
  destruct (dec_bits (seen websafe s0) (seen websafe s1) (seen websafe s2) 0)
    as (-> & -> & _); auto using seen_range. lia.
Qed.

Lemma decode_pad2 websafe prev s0 s1 : 0 <= s0 < 64 -> 0 <= s1 < 64 ->
  let tab := base64_tab websafe in let ch := pad_char websafe in let v := seen websafe in
  decode_loop tab ch prev [] [tab_at tab s0; tab_at tab s1; ch; ch] = [v s0 * 4 + v s1 / 16].
Proof.
  intros H0 H1 tab ch v. cbn [decode_loop app]. subst tab ch v.
  rewrite !tab_seen, Z.eqb_refl by done.
  destruct (dec_bits (seen websafe s0) (seen websafe s1) 0 0) as (-> & _ & _); auto using seen_range; lia.
Qed.

(** A group the decoder reads back unchanged. *)
Lemma seen_same websafe s : seen websafe s = s <-> (websafe = false \/ s <> 63).
Proof. unfold seen. destruct websafe; simpl; [|tauto]. destruct (Z.eqb_spec s 63); lia. Qed.

Lemma roundtrip_loop websafe prev s : Forall is_byte s ->
  let tab := base64_tab websafe in let ch := pad_char websafe in
  decode_loop tab ch prev [] (encode_loop tab ch s) = s <->
  Forall (fun x => seen websafe x = x) (sextets s).
Proof.
  intros Hs tab ch. pose proof (sextets_range s Hs) as Hx. rewrite encode_loop_sextets by done.
  unfold zlen. revert prev.
  induction s as [|a|a b|a b c s IH] using list_ind3; intros prev; [done| | |];
    cbn [sextets fmap list_fmap app] in *; inv_Forall; rewrite !Forall_cons_iff.
  - change (replicate (padding (Z.of_nat (length [a]))) ch) with [ch; ch].
    subst tab ch. rewrite decode_pad2 by done; rewrite Forall_nil_iff.
    unfold is_byte in *. split; [intros [= E]|intros (-> & -> & _); f_equal; lia].
    unfold seen in *. repeat case_match; breflect; lia.
  - change (replicate (padding (Z.of_nat (length [a; b]))) ch) with [ch].
    subst tab ch. rewrite decode_pad1 by done; rewrite Forall_nil_iff.
    unfold is_byte in *. split; [intros [= E E']|intros (-> & -> & -> & _); repeat f_equal; lia].
    unfold seen in *. repeat case_match; breflect; lia.
  - replace (padding (Z.of_nat (length (a :: b :: c :: s)))) with (padding (Z.of_nat (length s)))
      by (rewrite <- padding_3; f_equal; simpl; lia).
    subst tab ch. rewrite decode_quad by done. rewrite <- (IH ltac:(done) ltac:(done)).
    unfold is_byte in *. split.
    + intros [= E1 E2 E3 E4]. split_and!; [..|done]; clear E4; unfold seen in *;
      repeat case_match; breflect; lia.
    + intros (-> & -> & -> & -> & E). rewrite E. repeat f_equal; lia.
Qed.

(** The decoder writes at most three bytes per complete group of four
    characters, whatever the characters are. *)
Lemma decode_loop_bound tab ch prev block src : (length block < 4)%nat ->
  zlen (decode_loop tab ch prev block src) <= (zlen block + zlen src) / 4 * 3.
Proof.
  unfold zlen. revert prev block. induction src as [|c rest IH]; intros prev block Hb.
  { simpl. lia. }
  assert (forall p blk, (length blk < 4)%nat ->
    Z.of_nat (length (decode_loop tab ch p blk rest)) <=
    (Z.of_nat (length blk) + Z.of_nat (length rest)) / 4 * 3) as IH' by auto.
  destruct block as [|b0 [|b1 [|b2 [|]]]]; simpl in Hb; try lia;
    cbn [decode_loop app length]; try (etrans; [apply IH'; simpl; lia|simpl; lia]).
  destruct (prev =? ch), (c =? ch); cbn [length]; try lia.
  specialize (IH' c []). simpl in IH'. lia.
Qed.

Lemma out_of_encode d h s w out n : _base64_encode d h s w = Some (out, n) ->
  take (Z.to_nat n) out = encode_loop (base64_tab w) (pad_char w) s.
Proof.
  unfold _base64_encode. case_match; [done|]. intros [= <- <-]. unfold zlen.
  by rewrite Nat2Z.id, take_app_length.
Qed.

(** ** Theorems *)

(** When it has a buffer the encoder succeeds: it writes the character of
    each six-bit group of the input, the padding and a NUL, which is exactly
    the size it allocates, and reports the length [base64_encode_length]
    announces. *)
Theorem base64_encode_correct dst heap s websafe :
  Forall is_byte s -> (zlen s + 2) / 3 * 4 + 1 < 2 ^ 32 -> dst || heap = true ->
  exists out,
    _base64_encode dst heap s websafe = Some (out ++ [0], base64_encode_length (zlen s)) /\
    out = (tab_at (base64_tab websafe) <$> sextets s) ++
          replicate (padding (zlen s)) (pad_char websafe) /\
    zlen (out ++ [0]) = encode_alloc (zlen s).
Proof.
  intros Hs Hl Hd. exists (encode_loop (base64_tab websafe) (pad_char websafe) s).
  rewrite <- encode_loop_sextets by done.
  unfold _base64_encode, base64_encode_length, encode_alloc.
  replace (negb dst && negb heap) with false by (by destruct dst, heap).
  pose proof (zlen_nonneg s). rewrite zlen_app, encode_loop_length.
  rewrite (u32_small (zlen s + 2)), (u32_small (_ * 4)), u32_small by lia. done.
Qed.

Lemma base64_encode_correct_witness : exists out,
  _base64_encode true false [104; 105] false = Some (out ++ [0], base64_encode_length 2) /\
  out = (tab_at (base64_tab false) <$> sextets [104; 105]) ++
        replicate (padding 2) (pad_char false) /\
  zlen (out ++ [0]) = encode_alloc 2.
Proof. apply (base64_encode_correct true false [104; 105] false); [repeat constructor|..]; done. Defined.

(** C16.  Decoding what the encoder wrote gives the input back, always with the
    standard table, and with the websafe table exactly when no six-bit group
    of the input is 63: that table has the character '_' for 62 and for 63. *)
Theorem base64_roundtrip dst heap dst' heap' s websafe out n :
  Forall is_byte s -> dst' || heap' = true ->
  _base64_encode dst heap s websafe = Some (out, n) ->
  _base64_decode dst' heap' (take (Z.to_nat n) out) websafe = Some (s, zlen s) <->
  (websafe = false \/ ~ In 63 (sextets s)).
Proof.
  intros Hs Hd He. rewrite (out_of_encode _ _ _ _ _ _ He). unfold _base64_decode.
  replace (negb dst' && negb heap') with false by (by destruct dst', heap').
  transitivity (Forall (fun x => seen websafe x = x) (sextets s)).
  { rewrite <- (roundtrip_loop websafe 0) by done. split; [by intros [= -> _]|by intros ->]. }
  rewrite Forall_forall. setoid_rewrite seen_same. destruct websafe; [|naive_solver].
  split; [intros Ha; right; intros Hin; specialize (Ha _ Hin); naive_solver|].
  intros [|Hn] x Hx; [done|right; by intros ->].
Qed.

Lemma base64_roundtrip_witness :
  _base64_decode false true (take (Z.to_nat 4) (cstr "+/8=" ++ [0])) false = Some ([251; 255], 2).
Proof.
  apply (base64_roundtrip true true false true [251; 255] false);
    [repeat constructor|done|by vm_compute|by left]; done.
Defined.

(**  The decoder stays inside the buffer it allocates, and inside one of
    [base64_decode_length] bytes, on any input, well formed or not. *)
Theorem base64_decode_bounds dst heap src websafe :
  zlen src * 3 < 2 ^ 32 -> dst || heap = true ->
  exists out, _base64_decode dst heap src websafe = Some (out, zlen out) /\
    zlen out <= decode_alloc (zlen src) <= base64_decode_length (zlen src).
Proof.
  intros Hl Hd. eexists. split.
  { unfold _base64_decode. by replace (negb dst && negb heap) with false by (by destruct dst, heap). }
  unfold decode_alloc, base64_decode_length. pose proof (zlen_nonneg src).
  rewrite u32_small by lia. split; [|lia].
  etrans; [apply decode_loop_bound; simpl; lia|]. done.
Qed.

Lemma base64_decode_bounds_witness :
  exists out, _base64_decode true false (cstr "aGk=.") false = Some (out, zlen out) /\
    zlen out <= decode_alloc 5 <= base64_decode_length 5.
Proof. by apply (base64_decode_bounds true false (cstr "aGk=.") false). Defined.

End Base64.
