(* ===== verification/UrlCode.v ===== *)
(** URL encoding (netutils/codecs/urldecode.c): the three codec families of
    the file.

    [char] is an unsigned byte, as on the ARM targets.  A source string is the
    list of its characters without the terminating NUL; the functions that
    write to a separate buffer are modelled by the bytes they write, in order.
    [urlrawdecode] works in place and is modelled on the buffer itself. *)

From stdpp Require Import strings.
From S2P Require Import Prelude.
#[local] Open Scope Z_scope.

Module UrlCode.

(** ** Character classes of the C locale *)

Definition isdigit (c : Z) : bool := (48 <=? c) && (c <=? 57).
Definition islower (c : Z) : bool := (97 <=? c) && (c <=? 122).
Definition isupper (c : Z) : bool := (65 <=? c) && (c <=? 90).
Definition isalnum (c : Z) : bool := isdigit c || islower c || isupper c.
Definition tolower (c : Z) : Z := if isupper c then c + 32 else c.

(** '_', '-', '.' and '~' *)
Definition is_mark (c : Z) : bool := (c =? 95) || (c =? 45) || (c =? 46) || (c =? 126).

(** ** CONFIG_CODECS_URLCODE_NEWMEMORY: [url_encode] and [url_decode] *)

Definition from_hex (ch : Z) : Z := u8 (if isdigit ch then ch - 48 else tolower ch - 97 + 10).
Definition to_hex (code : Z) : Z :=
  default 0 (cstr "0123456789abcdef" !! Z.to_nat (Z.land code 15)).

Fixpoint url_encode_loop (pstr : list Z) : list Z :=
  match pstr with
  | [] => []
  | c :: t =>
      if isalnum c || is_mark c then c :: url_encode_loop t
      else if c =? 32 then 43 :: url_encode_loop t
      else 37 :: to_hex (Z.shiftr c 4) :: to_hex (Z.land c 15) :: url_encode_loop t
  end.

(** The bytes written to the buffer of [strlen(str) * 3 + 1]; [None]: the
    write through the null pointer an unchecked [malloc] returned. *)
Definition url_encode (heap : bool) (str : list Z) : option (list Z) :=
  if heap then Some (url_encode_loop str ++ [0]) else None.

Fixpoint url_decode_loop (pstr : list Z) : list Z :=
  match pstr with
  | [] => []
  | c :: t =>
      if c =? 37 then
        match t with
        | a :: b :: rest =>
            u8 (Z.lor (Z.shiftl (from_hex a) 4) (from_hex b)) :: url_decode_loop rest
        | _ => url_decode_loop t
        end
      else if c =? 43 then 32 :: url_decode_loop t
      else c :: url_decode_loop t
  end.

Definition url_decode (heap : bool) (str : list Z) : option (list Z) :=
  if heap then Some (url_decode_loop str ++ [0]) else None.

(** ** CONFIG_CODECS_URLCODE: [urlencode], [urldecode] and their lengths *)

Definition IS_HEX_CHAR (ch : Z) : bool :=
  ((48 <=? ch) && (ch <=? 57)) || ((97 <=? ch) && (ch <=? 102)) || ((65 <=? ch) && (ch <=? 70)).

Definition HEX_VALUE (ch : Z) : Z :=
  if (48 <=? ch) && (ch <=? 57) then ch - 48
  else if (97 <=? ch) && (ch <=? 102) then ch - 97 + 10
  else ch - 65 + 10.

Definition hex_chars (i : Z) : Z := default 0 (cstr "0123456789ABCDEF" !! Z.to_nat i).

Fixpoint urlencode_loop (pSrc : list Z) : list Z :=
  match pSrc with
  | [] => []
  | c :: t =>
      if isalnum c || is_mark c then c :: urlencode_loop t
      else if c =? 32 then 43 :: urlencode_loop t
      else 37 :: hex_chars (Z.shiftr c 4) :: hex_chars (Z.land c 0x0f) :: urlencode_loop t
  end.

(** The bytes written to [dest], and [*dest_len]. *)
Definition urlencode (src : list Z) : list Z * Z :=
  let out := urlencode_loop src in (out ++ [0], zlen out).

Fixpoint urldecode_loop (pSrc : list Z) : list Z :=
  match pSrc with
  | [] => []
  | c :: t =>
      match t with
      | cHigh :: cLow :: rest =>
          if c =? 37 then
            if IS_HEX_CHAR cHigh && IS_HEX_CHAR cLow then
              u8 (Z.lor (Z.shiftl (HEX_VALUE cHigh) 4) (HEX_VALUE cLow)) :: urldecode_loop rest
            else c :: urldecode_loop t
          else if c =? 43 then 32 :: urldecode_loop t
          else c :: urldecode_loop t
      | _ => if c =? 43 then 32 :: urldecode_loop t else c :: urldecode_loop t
      end
  end.

Definition urldecode (src : list Z) : list Z * Z :=
  let out := urldecode_loop src in (out ++ [0], zlen out).

Fixpoint urlencode_len (pSrc : list Z) : Z :=
  match pSrc with
  | [] => 0
  | c :: t =>
      (if isalnum c || (is_mark c || (c =? 32)) then 1 else 3) + urlencode_len t
  end.

Fixpoint urldecode_len (pSrc : list Z) : Z :=
  match pSrc with
  | [] => 0
  | c :: t =>
      match t with
      | cHigh :: cLow :: rest =>
          if (c =? 37) && (IS_HEX_CHAR cHigh && IS_HEX_CHAR cLow)
          then 1 + urldecode_len rest else 1 + urldecode_len t
      | _ => 1 + urldecode_len t
      end
  end.

(** ** CONFIG_CODECS_AVR_URLCODE: [urlrawencode] and [urlrawdecode] *)

(** [hstr[0]] and [hstr[1]]; the NUL in [hstr[2]] is overwritten by the caller. *)
Definition int2h (c : Z) : Z * Z :=
  let lo := if 9 <? Z.land c 0xf then Z.land c 0xf - 10 + 97 else Z.land c 0xf + 48 in
  let c := Z.land (Z.shiftr c 4) 0xf in
  let hi := if 9 <? c then c - 10 + 97 else c + 48 in
  (hi, lo).

Definition h2int (c : Z) : Z :=
  if (48 <=? c) && (c <=? 57) then u8 (c - 48)
  else if (97 <=? c) && (c <=? 102) then u8 (c - 97 + 10)
  else if (65 <=? c) && (c <=? 70) then u8 (c - 65 + 10)
  else 0.

Fixpoint urlrawencode_loop (str : list Z) : list Z :=
  match str with
  | [] => []
  | c :: t =>
      if (c =? 32) || isalnum c || is_mark c
      then (if c =? 32 then 43 else c) :: urlrawencode_loop t
      else 37 :: (int2h c).1 :: (int2h c).2 :: urlrawencode_loop t
  end.

Definition urlrawencode (str : list Z) : list Z := urlrawencode_loop str ++ [0].

Fixpoint urlrawdecode_loop (fuel : nat) (mem : list Z) (dst urlbuf : nat) : run (list Z) :=
  match fuel with
  | O => OutOfFuel
  | S fuel =>
      load mem urlbuf (fun c =>
      if c =? 0 then Done (<[dst := 0]> mem)
      else
        let c := if c =? 43 then 32 else c in
        if c =? 37 then
          load mem (urlbuf + 1) (fun c1 =>
          load mem (urlbuf + 2) (fun c2 =>
          urlrawdecode_loop fuel (<[dst := u8 (Z.lor (Z.shiftl (h2int c1) 4) (h2int c2))]> mem)
            (dst + 1) (urlbuf + 3)))
        else urlrawdecode_loop fuel (<[dst := c]> mem) (dst + 1) (urlbuf + 1))
  end.

(** Each iteration moves [urlbuf], so the size of the buffer bounds their number. *)
Definition urlrawdecode (mem : list Z) : run (list Z) :=
  urlrawdecode_loop (S (length mem)) mem 0 0.

(** ** The hexadecimal digits of a byte read back as the byte *)

Lemma url_hex c : is_byte c ->
  u8 (Z.lor (Z.shiftl (from_hex (to_hex (Z.shiftr c 4))) 4) (from_hex (to_hex (Z.land c 15)))) = c.
Proof.
  intros Hc. apply Z.eqb_eq. revert c Hc.
  apply (range_sweep (fun c => _ =? _) 256). by vm_compute.
Qed.

Lemma hex_chars_read c : is_byte c ->
  IS_HEX_CHAR (hex_chars (Z.shiftr c 4)) && IS_HEX_CHAR (hex_chars (Z.land c 0x0f)) = true /\
  u8 (Z.lor (Z.shiftl (HEX_VALUE (hex_chars (Z.shiftr c 4))) 4)
            (HEX_VALUE (hex_chars (Z.land c 0x0f)))) = c.
Proof.
  intros Hc. rewrite <- Z.eqb_eq, <- andb_true_iff. revert c Hc.
  apply (range_sweep (fun c => _ && (_ =? _)) 256). by vm_compute.
Qed.

Lemma int2h_read c : is_byte c ->
  u8 (Z.lor (Z.shiftl (h2int (int2h c).1) 4) (h2int (int2h c).2)) = c.
Proof.
  intros Hc. apply Z.eqb_eq. revert c Hc.
  apply (range_sweep (fun c => _ =? _) 256). by vm_compute.
Qed.

(** A character that is copied is neither '%' nor '+', and not NUL. *)
Lemma literal_char c : isalnum c || is_mark c = true ->
  (c =? 37) = false /\ (c =? 43) = false /\ (c =? 0) = false.
Proof.
  unfold isalnum, isdigit, islower, isupper, is_mark. intros H.
  rewrite !Z.eqb_neq. breflect. intuition (breflect; lia).
Qed.

(** ** Lemmas about the loops *)

Lemma urldecode_literal c t : (c =? 37) = false -> (c =? 43) = false ->
  urldecode_loop (c :: t) = c :: urldecode_loop t.
Proof. intros H1 H2. cbn [urldecode_loop]. rewrite H1, H2. by destruct t as [|? [|]]. Qed.

Lemma urldecode_plus t : urldecode_loop (43 :: t) = 32 :: urldecode_loop t.
Proof. by destruct t as [|? [|]]. Qed.

Lemma urldecode_hex c t : is_byte c ->
  urldecode_loop (37 :: hex_chars (Z.shiftr c 4) :: hex_chars (Z.land c 0x0f) :: t) =
  c :: urldecode_loop t.
Proof.
  intros Hc. destruct (hex_chars_read c Hc) as [E1 E2].
  cbn [urldecode_loop]. change (37 =? 37) with true. by rewrite E1, E2.
Qed.

Lemma urldecode_encode s : Forall is_byte s -> urldecode_loop (urlencode_loop s) = s.
Proof.
  induction 1 as [|c t Hc Ht IH]; [done|]. cbn [urlencode_loop].
  destruct (isalnum c || is_mark c) eqn:El.
  { destruct (literal_char c El) as (E1 & E2 & _). by rewrite urldecode_literal, IH. }
  destruct (Z.eqb_spec c 32) as [->|]; [by rewrite urldecode_plus, IH|].
  by rewrite urldecode_hex, IH.
Qed.

(** The body of the loops when at least two characters follow. *)
Lemma urldecode_loop_3 c a b r :
  urldecode_loop (c :: a :: b :: r) =
  if c =? 37 then
    if IS_HEX_CHAR a && IS_HEX_CHAR b
    then u8 (Z.lor (Z.shiftl (HEX_VALUE a) 4) (HEX_VALUE b)) :: urldecode_loop r
    else c :: urldecode_loop (a :: b :: r)
  else if c =? 43 then 32 :: urldecode_loop (a :: b :: r)
  else c :: urldecode_loop (a :: b :: r).
Proof. done. Qed.

Lemma urldecode_len_3 c a b r :
  urldecode_len (c :: a :: b :: r) =
  if (c =? 37) && (IS_HEX_CHAR a && IS_HEX_CHAR b)
  then 1 + urldecode_len r else 1 + urldecode_len (a :: b :: r).
Proof. done. Qed.

Lemma urlencode_len_loop s : urlencode_len s = zlen (urlencode_loop s).
Proof.
  unfold zlen. induction s as [|c t IH]; [done|]. cbn [urlencode_len urlencode_loop].
  rewrite IH, orb_assoc. destruct (isalnum c || is_mark c); simpl; [lia|].
  destruct (c =? 32); cbn [length]; lia.
Qed.

Lemma urldecode_len_loop s : urldecode_len s = zlen (urldecode_loop s).
Proof.
  unfold zlen. induction s as [s IH] using list_len_ind. destruct s as [|c t]; [done|].
  pose proof (IH t ltac:(simpl; lia)) as Ht.
  destruct t as [|a [|b r]]; [cbn; by destruct (c =? 43)| |].
  { cbn [urldecode_len urldecode_loop] in *. destruct (c =? 43); cbn [length]; lia. }
  specialize (IH r ltac:(simpl; lia)).
  rewrite urldecode_len_3, urldecode_loop_3, Ht. destruct (c =? 37); cbn [andb];
    [destruct (IS_HEX_CHAR a && IS_HEX_CHAR b)|destruct (c =? 43)]; cbn [length]; lia.
Qed.

Lemma url_decode_encode s : Forall is_byte s -> url_decode_loop (url_encode_loop s) = s.
Proof.
  induction 1 as [|c t Hc Ht IH]; [done|]. cbn [url_encode_loop].
  destruct (isalnum c || is_mark c) eqn:El.
  { destruct (literal_char c El) as (E1 & E2 & _).
    cbn [url_decode_loop]. by rewrite E1, E2, IH. }
  destruct (Z.eqb_spec c 32) as [->|]; cbn [url_decode_loop].
  - by rewrite IH.
  - change (37 =? 37) with true. cbn iota. by rewrite url_hex, IH.
Qed.

Lemma url_encode_bound s : zlen (url_encode_loop s) <= zlen s * 3.
Proof.
  unfold zlen. induction s as [|c t IH]; [done|]. cbn [url_encode_loop].
  repeat case_match; cbn [length]; lia.
Qed.

Lemma url_decode_bound s : zlen (url_decode_loop s) <= zlen s.
Proof.
  unfold zlen. induction s as [s IH] using list_len_ind. destruct s as [|c t]; [done|].
  pose proof (IH t ltac:(simpl; lia)).
  cbn [url_decode_loop]. destruct (c =? 37); [|destruct (c =? 43); cbn [length]; lia].
  destruct t as [|a [|b r]]; [simpl; lia|cbn [length] in *; lia|].
  specialize (IH r ltac:(simpl; lia)). cbn [length]. lia.
Qed.

(** *** Decoding in place

    The buffer is [D ++ G ++ l]: what was written, the bytes between the two
    pointers, what is left to read. *)

Lemma load_at {A} D G l i (k : Z -> run A) :
  load (D ++ G ++ l) (length D + length G + i) k =
  match l !! i with Some c => k c | None => OutOfBounds end.
Proof.
  unfold load. rewrite app_assoc, lookup_app_r by (rewrite length_app; lia).
  rewrite length_app. by replace (_ + _ + i - _)%nat with i by lia.
Qed.

Lemma store_at (D G ch R : list Z) (v : Z) : ch <> [] ->
  <[length D := v]> (D ++ G ++ ch ++ R) = (D ++ [v]) ++ tail (G ++ ch) ++ R.
Proof.
  intros Hc. rewrite <- (Nat.add_0_r (length D)), insert_app_r.
  destruct G as [|x G]; [destruct ch as [|x ch]; [done|]|]; simpl; by rewrite <- !app_assoc.
Qed.

(** One iteration: the chunk [ch] is read and [v] is written for it. *)
Lemma rawdecode_step fuel D G ch R v :
  (forall k : Z -> run (list Z),
     load (D ++ G ++ ch ++ R) (length D + length G)%nat k = k (hd 0 ch)) ->
  hd 0 ch <> 0 ->
  match ch with
  | [c] => c <> 37 /\ v = (if c =? 43 then 32 else c)
  | [c; a; b] => c = 37 /\ v = u8 (Z.lor (Z.shiftl (h2int a) 4) (h2int b))
  | _ => False
  end ->
  urlrawdecode_loop (S fuel) (D ++ G ++ ch ++ R) (length D) (length D + length G) =
  urlrawdecode_loop fuel ((D ++ [v]) ++ tail (G ++ ch) ++ R) (length (D ++ [v]))
    (length (D ++ [v]) + length (tail (G ++ ch))).
Proof.
  intros Hl H0 Hch. cbn [urlrawdecode_loop]. rewrite Hl.
  assert (ch <> []) as Hne by (by destruct ch). rewrite <- (store_at D G ch R v Hne).
  assert (length (tail (G ++ ch)) = length G + length ch - 1)%nat as Hlen
    by (destruct G, ch; simpl; rewrite ?length_app; simpl; lia).
  rewrite Hlen, length_app. destruct ch as [|c [|a [|b [|]]]]; try done; simpl in *.
  - destruct Hch as [Hc ->]. rewrite (proj2 (Z.eqb_neq c 0)) by done.
    replace ((if c =? 43 then 32 else c) =? 37) with false by (repeat case_zbool).
    f_equal; lia.
  - destruct Hch as [-> ->]. simpl.
    pose proof (load_at (A := list Z) D G (37 :: a :: b :: R)) as Hla. simpl in Hla.
    rewrite (Hla 1%nat). simpl. rewrite (Hla 2%nat). simpl. f_equal; lia.
Qed.

Lemma rawdecode_encoded s tl : Forall (fun c => is_byte c /\ c <> 0) s ->
  forall fuel D G, (length s < fuel)%nat -> exists stale,
  urlrawdecode_loop fuel (D ++ G ++ urlrawencode_loop s ++ 0 :: tl)
    (length D) (length D + length G) = Done (D ++ s ++ 0 :: stale) /\
  length (D ++ s ++ 0 :: stale) = length (D ++ G ++ urlrawencode_loop s ++ 0 :: tl).
Proof.
  induction 1 as [|c t [Hc Hz] Ht IH]; intros [|fuel] D G Hf; try (simpl in Hf; lia).
  - simpl. pose proof (load_at (A := list Z) D G (0 :: tl) 0%nat) as Hla.
    rewrite Nat.add_0_r in Hla. rewrite Hla. simpl.
    pose proof (store_at D G [0] tl 0 ltac:(done)) as Hst. simpl in Hst. rewrite Hst.
    exists (tail (G ++ [0]) ++ tl). rewrite <- !app_assoc. split; [done|].
    rewrite !length_app. destruct G; simpl; rewrite ?length_app; simpl; lia.
  - set (ch := if (c =? 32) || isalnum c || is_mark c then [if c =? 32 then 43 else c]
               else [37; (int2h c).1; (int2h c).2]).
    assert (urlrawencode_loop (c :: t) = ch ++ urlrawencode_loop t) as ->
      by (subst ch; cbn [urlrawencode_loop]; by case_match).
    rewrite <- app_assoc. rewrite (rawdecode_step fuel D G ch _ c).
    + destruct (IH fuel (D ++ [c]) (tail (G ++ ch)) ltac:(simpl in Hf; lia)) as (stale & -> & Hlen).
      exists stale. rewrite <- !app_assoc in *. simpl in Hlen |- *. split; [done|]. rewrite Hlen.
      rewrite !length_app. assert (ch <> []) by (subst ch; by case_match).
      clearbody ch; destruct G, ch; try done; simpl; rewrite ?length_app; simpl; lia.
    + intros k. pose proof (load_at (A := list Z) D G (ch ++ urlrawencode_loop t ++ 0 :: tl) 0%nat k)
        as Hla. rewrite Nat.add_0_r in Hla. rewrite Hla. subst ch. by case_match.
    + subst ch. repeat case_match; simpl; lia.
    + subst ch. destruct (Z.eqb_spec c 32) as [->|Hn]; [done|].
      cbn [orb]. destruct (isalnum c || is_mark c) eqn:El; cbv beta iota.
      * destruct (literal_char c El) as (E1 & E2 & _). rewrite E2. by apply Z.eqb_neq in E1.
      * by rewrite int2h_read.
Qed.

Lemma rawdecode_fuel fuel mem dst urlbuf :
  (urlbuf <= length mem < fuel + urlbuf)%nat -> urlrawdecode_loop fuel mem dst urlbuf <> OutOfFuel.
Proof.
  revert mem dst urlbuf. induction fuel as [|fuel IH]; intros mem dst urlbuf Hf; [lia|].
  cbn [urlrawdecode_loop]. unfold load.
  repeat match goal with
  | |- context [mem !! ?i] => destruct (mem !! i) eqn:?; [|done]
  | H : mem !! _ = Some _ |- _ => apply lookup_lt_Some in H
  | |- context [if ?b then _ else _] => destruct b
  end; try done; apply IH; rewrite length_insert; lia.
Qed.

(** ** Theorems *)

(** C34.  [urldecode] inverts [urlencode] on every byte string, NULs included,
    and both report the length of what they wrote before the NUL. *)
Theorem urlcode_roundtrip s out n : Forall is_byte s -> urlencode s = (out, n) ->
  urldecode (take (Z.to_nat n) out) = (s ++ [0], zlen s).
Proof.
  intros Hs. unfold urlencode, urldecode. intros [= <- <-]. unfold zlen.
  by rewrite Nat2Z.id, take_app_length, urldecode_encode.
Qed.

Lemma urlcode_roundtrip_witness :
  urldecode (take (Z.to_nat 9) (cstr "a+%00%FF-" ++ [0])) = ([97; 32; 0; 255; 45] ++ [0], 5).
Proof.
  apply (urlcode_roundtrip [97; 32; 0; 255; 45]);
    [repeat constructor; done|by vm_compute].
Defined.

(** [urlencode_len] and [urldecode_len] predict the length the codecs
    report, on every input, malformed escapes included. *)
Theorem urlcode_lengths s :
  urlencode_len s = (urlencode s).2 /\ urldecode_len s = (urldecode s).2.
Proof. split; [apply urlencode_len_loop|apply urldecode_len_loop]. Qed.

(**  [url_decode] inverts [url_encode] on every C string, and both stay
    inside the buffers they allocate. *)
Theorem url_newmemory_roundtrip s : Forall (fun c => is_byte c /\ c <> 0) s ->
  exists enc, url_encode true s = Some (enc ++ [0]) /\ zlen (enc ++ [0]) <= zlen s * 3 + 1 /\
    url_decode true enc = Some (s ++ [0]) /\ zlen (s ++ [0]) <= zlen enc + 1.
Proof.
  intros Hs. assert (Forall is_byte s) as Hb by (eapply Forall_impl; [|apply Hs]; naive_solver).
  exists (url_encode_loop s). unfold url_encode, url_decode.
  rewrite !zlen_app, url_decode_encode by done. change (zlen [0]) with 1.
  pose proof (url_encode_bound s). pose proof (url_decode_bound (url_encode_loop s)) as Hd.
  rewrite url_decode_encode in Hd by done. split_and!; try done; lia.
Qed.

Lemma url_newmemory_roundtrip_witness : exists enc,
  url_encode true (cstr "a b/c") = Some (enc ++ [0]) /\
  zlen (enc ++ [0]) <= zlen (cstr "a b/c") * 3 + 1 /\
  url_decode true enc = Some (cstr "a b/c" ++ [0]) /\ zlen (cstr "a b/c" ++ [0]) <= zlen enc + 1.
Proof. apply (url_newmemory_roundtrip (cstr "a b/c")). repeat constructor; done. Defined.

(** C35. [urlrawdecode], working in place, turns a buffer that holds what
    [urlrawencode] wrote for [s] into one that holds [s] and a NUL, without an
    access outside the buffer. *)
Theorem urlraw_roundtrip s tl : Forall (fun c => is_byte c /\ c <> 0) s ->
  exists stale, urlrawdecode (urlrawencode s ++ tl) = Done (s ++ 0 :: stale) /\
    length (s ++ 0 :: stale) = length (urlrawencode s ++ tl).
Proof.
  intros Hs. unfold urlrawencode, urlrawdecode. rewrite <- app_assoc. cbn [app].
  assert (length s <= length (urlrawencode_loop s))%nat as Hlen.
  { clear Hs. induction s as [|c t IH]; [done|]. cbn [urlrawencode_loop].
    case_match; cbn [length]; lia. }
  apply (rawdecode_encoded s tl Hs _ [] []). rewrite length_app. simpl. lia.
Qed.

Lemma urlraw_roundtrip_witness : exists stale,
  urlrawdecode (urlrawencode (cstr "50% x") ++ [7]) = Done (cstr "50% x" ++ 0 :: stale) /\
  length (cstr "50% x" ++ 0 :: stale) = length (urlrawencode (cstr "50% x") ++ [7]).
Proof. apply (urlraw_roundtrip (cstr "50% x") [7]). repeat constructor; done. Defined.

(**  [urlrawdecode] ends on every buffer: with a finished decode, or at an
    access outside the buffer. *)
Theorem urlrawdecode_terminates mem : urlrawdecode mem <> OutOfFuel.
Proof. apply rawdecode_fuel. lia. Qed.

(**  A string that ends in '%' makes [urlrawdecode] step over its NUL: the
    second digit is read past the end of a buffer that just holds the string. *)
Theorem urlrawdecode_overread s : Forall (fun c => c <> 0 /\ c <> 37) s ->
  urlrawdecode (s ++ [37; 0]) = OutOfBounds.
Proof.
  intros Hs. unfold urlrawdecode.
  assert (forall fuel D, (length s < fuel)%nat ->
    urlrawdecode_loop fuel (D ++ [] ++ s ++ [37; 0]) (length D)
      (length D + length (@nil Z)) = OutOfBounds) as Hl.
  { induction Hs as [|c t [H0 H37] Ht IH]; intros [|fuel] D Hf; try (simpl in Hf; lia).
    - pose proof (load_at (A := list Z) D [] [37; 0]) as Hla. simpl in *. rewrite Nat.add_0_r in *.
      pose proof (Hla 0%nat) as Hla0. rewrite Nat.add_0_r in Hla0. rewrite Hla0. simpl.
      rewrite Hla. simpl. by rewrite Hla.
    - change ((c :: t) ++ [37; 0]) with ([c] ++ t ++ [37; 0]).
      rewrite (rawdecode_step fuel D [] [c] _ (if c =? 43 then 32 else c)); [| |done..].
      + apply IH. simpl in Hf. lia.
      + intros k. pose proof (load_at (A := list Z) D [] (c :: t ++ [37; 0]) 0%nat k) as Hla.
        rewrite Nat.add_0_r in Hla. exact Hla. }
  apply (Hl _ []). rewrite length_app. simpl. lia.
Qed.

Lemma urlrawdecode_overread_witness : urlrawdecode (cstr "100" ++ [37; 0]) = OutOfBounds.
Proof. apply (urlrawdecode_overread (cstr "100")). repeat constructor; done. Defined.

End UrlCode.
