(* ===== verification/Md5.v ===== *)
(** MD5 (netutils/codecs/md5.c) on a little-endian target, where
    [byte_reverse] is empty.

    The context is the record of md5.h; [in] is the 64-byte buffer, read as
    sixteen 32-bit words by [md5_transform].  The reference is RFC 1321: the
    padded message, cut in 64-byte blocks, compressed by the table-driven
    rounds.  What a context stands for is the relation [absorbed]. *)

From stdpp Require Import strings.
From Stdlib Require Import ZifyNat.
From S2P Require Import Prelude.
#[local] Open Scope Z_scope.
#[local] Ltac Zify.zify_post_hook ::= Z.to_euclidean_division_equations.

Module Md5.

(** ** The code *)

Definition F1 (x y z : Z) : Z := Z.lxor z (Z.land x (Z.lxor y z)).
Definition F2 (x y z : Z) : Z := F1 z x y.
Definition F3 (x y z : Z) : Z := Z.lxor (Z.lxor x y) z.
Definition F4 (x y z : Z) : Z := Z.lxor y (Z.lor x (u32 (Z.lnot z))).

(** The register variables of [md5_transform], also the layout of [buf]. *)
Record regs := { ra : Z; rb : Z; rc : Z; rd : Z }.
Inductive reg := Ra | Rb | Rc | Rd.

Definition rget (r : reg) (s : regs) : Z :=
  match r with Ra => ra s | Rb => rb s | Rc => rc s | Rd => rd s end.

Definition rset (r : reg) (v : Z) (s : regs) : regs :=
  match r with
  | Ra => {| ra := v; rb := rb s; rc := rc s; rd := rd s |}
  | Rb => {| ra := ra s; rb := v; rc := rc s; rd := rd s |}
  | Rc => {| ra := ra s; rb := rb s; rc := v; rd := rd s |}
  | Rd => {| ra := ra s; rb := rb s; rc := rc s; rd := v |}
  end.

(** [w<<s | w>>(32-s)] on a [uint32_t] *)
Definition rotl (w s : Z) : Z := Z.lor (u32 (Z.shiftl w s)) (Z.shiftr w (32 - s)).

(** [MD5STEP(f, w, x, y, z, in[i] + k, s)] on the register variables *)
Definition MD5STEP (f : Z -> Z -> Z -> Z) (w x y z : reg) (i : nat) (k s : Z)
    (inp : list Z) (st : regs) : regs :=
  let t := u32 (rget w st + f (rget x st) (rget y st) (rget z st) +
                u32 (default 0 (inp !! i) + k)) in
  rset w (u32 (rotl t s + rget x st)) st.

(** The body of [md5_transform], one entry per line. *)
Definition md5_steps : list (list Z -> regs -> regs) :=
  [MD5STEP F1 Ra Rb Rc Rd 0 0xd76aa478 7;
   MD5STEP F1 Rd Ra Rb Rc 1 0xe8c7b756 12;
   MD5STEP F1 Rc Rd Ra Rb 2 0x242070db 17;
   MD5STEP F1 Rb Rc Rd Ra 3 0xc1bdceee 22;
   MD5STEP F1 Ra Rb Rc Rd 4 0xf57c0faf 7;
   MD5STEP F1 Rd Ra Rb Rc 5 0x4787c62a 12;
   MD5STEP F1 Rc Rd Ra Rb 6 0xa8304613 17;
   MD5STEP F1 Rb Rc Rd Ra 7 0xfd469501 22;
   MD5STEP F1 Ra Rb Rc Rd 8 0x698098d8 7;
   MD5STEP F1 Rd Ra Rb Rc 9 0x8b44f7af 12;
   MD5STEP F1 Rc Rd Ra Rb 10 0xffff5bb1 17;
   MD5STEP F1 Rb Rc Rd Ra 11 0x895cd7be 22;
   MD5STEP F1 Ra Rb Rc Rd 12 0x6b901122 7;
   MD5STEP F1 Rd Ra Rb Rc 13 0xfd987193 12;
   MD5STEP F1 Rc Rd Ra Rb 14 0xa679438e 17;
   MD5STEP F1 Rb Rc Rd Ra 15 0x49b40821 22;
   MD5STEP F2 Ra Rb Rc Rd 1 0xf61e2562 5;
   MD5STEP F2 Rd Ra Rb Rc 6 0xc040b340 9;
   MD5STEP F2 Rc Rd Ra Rb 11 0x265e5a51 14;
   MD5STEP F2 Rb Rc Rd Ra 0 0xe9b6c7aa 20;
   MD5STEP F2 Ra Rb Rc Rd 5 0xd62f105d 5;
   MD5STEP F2 Rd Ra Rb Rc 10 0x02441453 9;
   MD5STEP F2 Rc Rd Ra Rb 15 0xd8a1e681 14;
   MD5STEP F2 Rb Rc Rd Ra 4 0xe7d3fbc8 20;
   MD5STEP F2 Ra Rb Rc Rd 9 0x21e1cde6 5;
   MD5STEP F2 Rd Ra Rb Rc 14 0xc33707d6 9;
   MD5STEP F2 Rc Rd Ra Rb 3 0xf4d50d87 14;
   MD5STEP F2 Rb Rc Rd Ra 8 0x455a14ed 20;
   MD5STEP F2 Ra Rb Rc Rd 13 0xa9e3e905 5;
   MD5STEP F2 Rd Ra Rb Rc 2 0xfcefa3f8 9;
   MD5STEP F2 Rc Rd Ra Rb 7 0x676f02d9 14;
   MD5STEP F2 Rb Rc Rd Ra 12 0x8d2a4c8a 20;
   MD5STEP F3 Ra Rb Rc Rd 5 0xfffa3942 4;
   MD5STEP F3 Rd Ra Rb Rc 8 0x8771f681 11;
   MD5STEP F3 Rc Rd Ra Rb 11 0x6d9d6122 16;
   MD5STEP F3 Rb Rc Rd Ra 14 0xfde5380c 23;
   MD5STEP F3 Ra Rb Rc Rd 1 0xa4beea44 4;
   MD5STEP F3 Rd Ra Rb Rc 4 0x4bdecfa9 11;
   MD5STEP F3 Rc Rd Ra Rb 7 0xf6bb4b60 16;
   MD5STEP F3 Rb Rc Rd Ra 10 0xbebfbc70 23;
   MD5STEP F3 Ra Rb Rc Rd 13 0x289b7ec6 4;
   MD5STEP F3 Rd Ra Rb Rc 0 0xeaa127fa 11;
   MD5STEP F3 Rc Rd Ra Rb 3 0xd4ef3085 16;
   MD5STEP F3 Rb Rc Rd Ra 6 0x04881d05 23;
   MD5STEP F3 Ra Rb Rc Rd 9 0xd9d4d039 4;
   MD5STEP F3 Rd Ra Rb Rc 12 0xe6db99e5 11;
   MD5STEP F3 Rc Rd Ra Rb 15 0x1fa27cf8 16;
   MD5STEP F3 Rb Rc Rd Ra 2 0xc4ac5665 23;
   MD5STEP F4 Ra Rb Rc Rd 0 0xf4292244 6;
   MD5STEP F4 Rd Ra Rb Rc 7 0x432aff97 10;
   MD5STEP F4 Rc Rd Ra Rb 14 0xab9423a7 15;
   MD5STEP F4 Rb Rc Rd Ra 5 0xfc93a039 21;
   MD5STEP F4 Ra Rb Rc Rd 12 0x655b59c3 6;
   MD5STEP F4 Rd Ra Rb Rc 3 0x8f0ccc92 10;
   MD5STEP F4 Rc Rd Ra Rb 10 0xffeff47d 15;
   MD5STEP F4 Rb Rc Rd Ra 1 0x85845dd1 21;
   MD5STEP F4 Ra Rb Rc Rd 8 0x6fa87e4f 6;
   MD5STEP F4 Rd Ra Rb Rc 15 0xfe2ce6e0 10;
   MD5STEP F4 Rc Rd Ra Rb 6 0xa3014314 15;
   MD5STEP F4 Rb Rc Rd Ra 13 0x4e0811a1 21;
   MD5STEP F4 Ra Rb Rc Rd 4 0xf7537e82 6;
   MD5STEP F4 Rd Ra Rb Rc 11 0xbd3af235 10;
   MD5STEP F4 Rc Rd Ra Rb 2 0x2ad7d2bb 15;
   MD5STEP F4 Rb Rc Rd Ra 9 0xeb86d391 21].

Definition md5_transform (buf : regs) (inp : list Z) : regs :=
  let s := fold_left (fun st step => step inp st) md5_steps buf in
  {| ra := u32 (ra buf + ra s); rb := u32 (rb buf + rb s);
     rc := u32 (rc buf + rc s); rd := u32 (rd buf + rd s) |}.

Record md5_context_s := {
  buf : regs;
  bits0 : Z;
  bits1 : Z;
  in_ : list Z;
}.

(** [(uint32_t * )ctx->in] *)
Definition words (l : list Z) : list Z :=
  (fun i => le_val (take 4 (drop (4 * i) l))) <$> seq 0 16.

Definition md5_init (ctx : md5_context_s) : md5_context_s := {|
  buf := {| ra := 0x67452301; rb := 0xefcdab89; rc := 0x98badcfe; rd := 0x10325476 |};
  bits0 := 0; bits1 := 0; in_ := in_ ctx |}.

(** The "process data in 64-byte chunks" loop: the final [buf] and [in], and
    the bytes that are left. *)
Fixpoint chunk_loop (fuel : nat) (st : regs) (inb data : list Z) : regs * list Z * list Z :=
  match fuel with
  | O => (st, inb, data)
  | S fuel =>
      if 64 <=? zlen data then
        let inb := zwrite 0 (take 64 data) inb in
        chunk_loop fuel (md5_transform st (words inb)) inb (drop 64 data)
      else (st, inb, data)
  end.

Definition md5_update (ctx : md5_context_s) (data : list Z) : md5_context_s :=
  let len := zlen data in
  let t := bits0 ctx in
  let b0 := u32 (t + u32 (Z.shiftl len 3)) in
  let b1 := if b0 <? t then u32 (bits1 ctx + 1) else bits1 ctx in
  let b1 := u32 (b1 + Z.shiftr len 29) in
  let t := Z.land (Z.shiftr t 3) 0x3f in
  let finish st inb data :=
    let '(st, inb, rest) := chunk_loop (length data) st inb data in
    {| buf := st; bits0 := b0; bits1 := b1; in_ := zwrite 0 rest inb |} in
  if t =? 0 then finish (buf ctx) (in_ ctx) data
  else
    let need := 64 - t in
    if len <? need then
      {| buf := buf ctx; bits0 := b0; bits1 := b1; in_ := zwrite t data (in_ ctx) |}
    else
      let inb := zwrite t (take (Z.to_nat need) data) (in_ ctx) in
      finish (md5_transform (buf ctx) (words inb)) inb (drop (Z.to_nat need) data).

Definition zeros (n : Z) : list Z := replicate (Z.to_nat n) 0.

Definition buf_bytes (s : regs) : list Z :=
  le_bytes 4 (ra s) ++ le_bytes 4 (rb s) ++ le_bytes 4 (rc s) ++ le_bytes 4 (rd s).

(** The digest; the context is cleared. *)
Definition md5_final (ctx : md5_context_s) : list Z * md5_context_s :=
  let count := Z.land (Z.shiftr (bits0 ctx) 3) 0x3f in
  let p := count + 1 in
  let inb := zwrite count [0x80] (in_ ctx) in
  let count := 64 - 1 - count in
  let '(st, inb) :=
    if count <? 8 then
      let inb := zwrite p (zeros count) inb in
      (md5_transform (buf ctx) (words inb), zwrite 0 (zeros 56) inb)
    else (buf ctx, zwrite p (zeros (count - 8)) inb) in
  let inb := zwrite 56 (le_bytes 4 (bits0 ctx)) inb in
  let inb := zwrite 60 (le_bytes 4 (bits1 ctx)) inb in
  let st := md5_transform st (words inb) in
  (buf_bytes st,
   {| buf := {| ra := 0; rb := 0; rc := 0; rd := 0 |}; bits0 := 0; bits1 := 0; in_ := zeros 64 |}).

(** [stack]: what the uninitialised context on the stack holds. *)
Definition md5_sum (stack : md5_context_s) (addr : list Z) : list Z :=
  (md5_final (md5_update (md5_init stack) addr)).1.

Definition hex_digit (n : Z) : Z := default 0 (cstr "0123456789abcdef" !! Z.to_nat n).

(** The 33 bytes of the returned string; [None]: the unchecked [malloc] failed. *)
Definition md5_hash (stack : md5_context_s) (heap : bool) (addr : list Z) : option (list Z) :=
  if heap then
    Some (mjoin ((fun b => [hex_digit (b / 16); hex_digit (b mod 16)]) <$> md5_sum stack addr) ++ [0])
  else None.

(** What successive [read] calls return: [inr] the bytes read, [inl] a
    positive errno; after the last of them, end of file. *)
Definition read_results := list (Z + list Z).

(** The loop of [md5_file]: its [ret] and the context. *)
Fixpoint file_loop (ctx : md5_context_s) (reads : read_results) : Z * md5_context_s :=
  match reads with
  | [] => (0, ctx)
  | inl e :: _ => (- e, ctx)
  | inr [] :: _ => (0, ctx)
  | inr data :: rest => file_loop (md5_update ctx data) rest
  end.

Definition ENOMEM : Z := 12.

(** The return value and, when [mac] was written, the digest.  [fd]: the file's
    reads, or the errno of [open]. *)
Definition md5_file (stack : md5_context_s) (fd : Z + read_results) (heap : bool)
    : Z * option (list Z) :=
  match fd with
  | inl e => (- e, None)
  | inr reads =>
      if heap then
        let '(ret, ctx) := file_loop (md5_init stack) reads in
        (ret, Some (md5_final ctx).1)
      else (- ENOMEM, None)
  end.

(** ** RFC 1321 *)

Definition rfc_F (x y z : Z) : Z := Z.lor (Z.land x y) (Z.land (Z.lnot x) z).
Definition rfc_G (x y z : Z) : Z := Z.lor (Z.land x z) (Z.land y (Z.lnot z)).
Definition rfc_H (x y z : Z) : Z := Z.lxor (Z.lxor x y) z.
Definition rfc_I (x y z : Z) : Z := Z.lxor y (Z.lor x (u32 (Z.lnot z))).

(** [T[i]] is the integer part of [2^32 * abs(sin(i))], [i] in radians: the sine
    by its Taylor series in fixed point with 256 fractional bits.  The terms
    are below [e^64 < 2^93] and the 250 summed leave nothing of weight. *)
Fixpoint sin_series (fuel : nat) (x2 term n acc : Z) : Z :=
  match fuel with
  | O => acc
  | S fuel => sin_series fuel x2 (- (term * x2) / ((n + 1) * (n + 2))) (n + 2) (acc + term)
  end.

Definition rfc_T (i : Z) : Z :=
  Z.shiftr (Z.abs (sin_series 250 (i * i) (Z.shiftl i 256) 1 0)) 224.

(** Round, message word, shift and constant of the operations 0 to 63. *)
Definition rfc_k (j : Z) : Z :=
  match j / 16 with 0 => j | 1 => 5 * j + 1 | 2 => 3 * j + 5 | _ => 7 * j end mod 16.
Definition rfc_s (j : Z) : Z :=
  default 0 (match j / 16 with
             | 0 => [7; 12; 17; 22] | 1 => [5; 9; 14; 20]
             | 2 => [4; 11; 16; 23] | _ => [6; 10; 15; 21] end !! Z.to_nat (j mod 4)).
Definition rfc_params : list (nat * nat * Z * Z) :=
  (fun j => (Z.to_nat (j / 16), Z.to_nat (rfc_k j), rfc_s j, rfc_T (j + 1))) <$> seqZ 0 64.

Definition rfc_f (round : nat) : Z -> Z -> Z -> Z :=
  match round with 0 => rfc_F | 1 => rfc_G | 2 => rfc_H | _ => rfc_I end%nat.

(** [a = b + ((a + f(b,c,d) + X[k] + T[i]) <<< s)], then the roles rotate. *)
Definition rfc_op (f : Z -> Z -> Z -> Z) (k : nat) (s t : Z) (x : list Z) (st : regs) : regs :=
  {| ra := rd st;
     rb := u32 (rotl (u32 (ra st + f (rb st) (rc st) (rd st) +
                           u32 (default 0 (x !! k) + t))) s + rb st);
     rc := rb st; rd := rc st |}.

Definition rfc_ops : list (list Z -> regs -> regs) :=
  (fun '(r, k, s, t) => rfc_op (rfc_f r) k s t) <$> rfc_params.

Definition rfc_compress (st : regs) (x : list Z) : regs :=
  let s := fold_left (fun st op => op x st) rfc_ops st in
  {| ra := u32 (ra st + ra s); rb := u32 (rb st + rb s);
     rc := u32 (rc st + rc s); rd := u32 (rd st + rd s) |}.

Lemma F1_rfc x y z : F1 x y z = rfc_F x y z.
Proof.
  unfold F1, rfc_F. apply Z.bits_inj'. intros n Hn.
  rewrite Z.lor_spec, Z.lxor_spec, !Z.land_spec, Z.lxor_spec, Z.lnot_spec by done.
  by destruct (Z.testbit x n), (Z.testbit y n), (Z.testbit z n).
Qed.

Lemma F2_rfc x y z : F2 x y z = rfc_G x y z.
Proof.
  unfold F2. rewrite F1_rfc. unfold rfc_F, rfc_G.
  by rewrite (Z.land_comm z x), (Z.land_comm (Z.lnot z) y).
Qed.

(** Four steps of the code, which name the registers in turn, are four
    operations of the RFC, which rotate them. *)
Lemma four_steps f g k0 k1 k2 k3 s0 s1 s2 s3 t0 t1 t2 t3 inp st :
  (forall x y z, f x y z = g x y z) ->
  MD5STEP f Rb Rc Rd Ra k3 t3 s3 inp (MD5STEP f Rc Rd Ra Rb k2 t2 s2 inp
    (MD5STEP f Rd Ra Rb Rc k1 t1 s1 inp (MD5STEP f Ra Rb Rc Rd k0 t0 s0 inp st))) =
  rfc_op g k3 s3 t3 inp (rfc_op g k2 s2 t2 inp (rfc_op g k1 s1 t1 inp (rfc_op g k0 s0 t0 inp st))).
Proof.
  intros Hfg. unfold MD5STEP, rfc_op. cbn [ra rb rc rd rget rset]. by rewrite !Hfg.
Qed.

(** The 64 lines of the code have the parameters of the RFC. *)
Lemma md5_steps_rfc inp st :
  fold_left (fun st step => step inp st) md5_steps st =
  fold_left (fun st op => op inp st) rfc_ops st.
Proof.
  unfold rfc_ops.
  assert (rfc_params = ltac:(let v := eval vm_compute in rfc_params in exact v)) as ->
    by (vm_compute; reflexivity).
  unfold md5_steps. cbn [fold_left fmap list_fmap rfc_f].
  do 4 rewrite (four_steps F1 rfc_F) by apply F1_rfc.
  do 4 rewrite (four_steps F2 rfc_G) by apply F2_rfc.
  do 4 rewrite (four_steps F3 rfc_H) by done.
  do 4 rewrite (four_steps F4 rfc_I) by done.
  done.
Qed.

Lemma md5_transform_rfc_all st x : md5_transform st x = rfc_compress st x.
Proof. unfold md5_transform, rfc_compress. by rewrite md5_steps_rfc. Qed.

(** ** The message, block by block *)

Definition rfc_init : regs :=
  {| ra := 0x67452301; rb := 0xefcdab89; rc := 0x98badcfe; rd := 0x10325476 |}.

(** The state after the first [n] blocks of [l]. *)
Fixpoint absorb (n : nat) (st : regs) (l : list Z) : regs :=
  match n with
  | O => st
  | S n => absorb n (rfc_compress st (words (take 64 l))) (drop 64 l)
  end.

(** The message, a bit 1, zeros up to 56 modulo 64, the length in bits. *)
Definition rfc_pad (m : list Z) : list Z :=
  m ++ [0x80] ++ zeros ((55 - zlen m) mod 64) ++ le_bytes 8 (8 * zlen m).

Definition rfc_md5 (m : list Z) : list Z :=
  buf_bytes (absorb (length (rfc_pad m) / 64) rfc_init (rfc_pad m)).

Lemma absorb_add n k st l : absorb (n + k) st l = absorb k (absorb n st l) (drop (64 * n) l).
Proof.
  revert st l. induction n as [|n IH]; intros st l; [done|].
  cbn [absorb Nat.add]. rewrite IH, drop_drop. do 2 f_equal. lia.
Qed.

Lemma absorb_app n st l r : (64 * n <= length l)%nat -> absorb n st (l ++ r) = absorb n st l.
Proof.
  revert st l. induction n as [|n IH]; intros st l Hl; [done|]. cbn [absorb].
  rewrite take_app_le, drop_app_le, IH; rewrite ?length_drop; [done|lia..].
Qed.

Lemma absorb_1 st l : length l = 64%nat -> absorb 1 st l = rfc_compress st (words l).
Proof. intros Hl. cbn [absorb]. by rewrite take_ge by lia. Qed.

(** Absorbing [q] blocks of [m], then blocks of [l], is absorbing the blocks of
    [m ++ l] when [m] ends at a block boundary. *)
Lemma absorb_concat q k st m l : length m = (64 * q)%nat -> 
  absorb (q + k) st (m ++ l) = absorb k (absorb q st m) l.
Proof. intros Hm. by rewrite absorb_add, absorb_app, drop_app_length' by lia. Qed.

(** The chunk loop absorbs every complete block of its data. *)
Lemma chunk_loop_absorb fuel st inb data : length inb = 64%nat -> (length data <= fuel)%nat ->
  exists inb', length inb' = 64%nat /\
    chunk_loop fuel st inb data =
    (absorb (length data / 64) st data, inb', drop (64 * (length data / 64)) data).
Proof.
  revert st inb data. induction fuel as [|fuel IH]; intros st inb data Hi Hf.
  { destruct data; simpl in *; [|lia]. by exists inb. }
  cbn [chunk_loop]. destruct (Z.leb_spec 64 (zlen data)) as [Hd|Hd]; unfold zlen in Hd.
  - rewrite zwrite_all by (rewrite length_take; lia).
    destruct (IH (md5_transform st (words (take 64 data))) (take 64 data) (drop 64 data))
      as (inb' & Hi' & E); [rewrite length_take; lia|rewrite length_drop; lia|].
    exists inb'. split; [done|]. rewrite E, length_drop, drop_drop.
    replace (length data / 64)%nat with (S ((length data - 64) / 64)) by lia.
    cbn [absorb]. rewrite md5_transform_rfc_all. do 2 f_equal. lia.
  - exists inb. split; [done|]. rewrite Nat.div_small by lia. by rewrite drop_0.
Qed.

(** ** What a context stands for *)

(** [ctx] has absorbed the complete blocks of [m], its buffer starts with the
    rest of [m], and its counter is the length of [m] in bits. *)
Record absorbed (ctx : md5_context_s) (m : list Z) : Prop := {
  abs_in : length (in_ ctx) = 64%nat;
  abs_buf : buf ctx = absorb (length m / 64) rfc_init m;
  abs_rest : take (length m mod 64) (in_ ctx) = drop (64 * (length m / 64)) m;
  abs_b0 : 0 <= bits0 ctx < 2 ^ 32;
  abs_b1 : 0 <= bits1 ctx < 2 ^ 32;
  abs_bits : bits0 ctx + 2 ^ 32 * bits1 ctx = (8 * zlen m) mod 2 ^ 64;
}.

Lemma bit_count_step b0 b1 n k : 0 <= b0 < 2 ^ 32 -> 0 <= b1 < 2 ^ 32 -> 0 <= k < 2 ^ 32 ->
  b0 + 2 ^ 32 * b1 = (8 * n) mod 2 ^ 64 ->
  let b0' := u32 (b0 + u32 (Z.shiftl k 3)) in
  let b1' := u32 ((if b0' <? b0 then u32 (b1 + 1) else b1) + Z.shiftr k 29) in
  b0' + 2 ^ 32 * b1' = (8 * (n + k)) mod 2 ^ 64.
Proof.
  intros H0 H1 Hk Hn b0' b1'. subst b0' b1'.
  rewrite Z.shiftl_mul_pow2, Z.shiftr_div_pow2 by lia. unfold u32. revert H0 H1 Hk Hn. pow_lit.
  intros H0 H1 Hk Hn. destruct (Z.ltb_spec ((b0 + (k * 8) mod 4294967296) mod 4294967296) b0); lia.
Qed.

Lemma byte_count b0 b1 n : 0 <= b0 -> b0 + 2 ^ 32 * b1 = (8 * n) mod 2 ^ 64 ->
  Z.land (Z.shiftr b0 3) 0x3f = n mod 64.
Proof.
  intros H0 Hn. change 0x3f with (2 ^ 6 - 1). rewrite land_ones_mod, Z.shiftr_div_pow2 by lia.
  revert Hn. pow_lit. lia.
Qed.

Lemma finish_absorbed q m inb data : length m = (64 * q)%nat -> length inb = 64%nat ->
  exists inb' rest,
    chunk_loop (length data) (absorb q rfc_init m) inb data =
      (absorb (length (m ++ data) / 64) rfc_init (m ++ data), inb', rest) /\
    length inb' = 64%nat /\
    take (length (m ++ data) mod 64) (zwrite 0 rest inb') =
      drop (64 * (length (m ++ data) / 64)) (m ++ data).
Proof.
  intros Hm Hi. destruct (chunk_loop_absorb (length data) (absorb q rfc_init m) inb data Hi)
    as (inb' & Hi' & ->); [done|].
  assert (length (m ++ data) / 64 = q + length data / 64)%nat as Hq by (rewrite length_app; lia).
  eexists inb', _. split; [|split; [done|]].
  - by rewrite Hq, absorb_concat.
  - rewrite zwrite_0 by (rewrite length_drop; lia).
    rewrite Hq, drop_app_ge, take_app_length' by (rewrite ?length_app, ?length_drop; lia).
    f_equal. lia.
Qed.

(** A refinement step: [md5_update] appends its data to what the context stands for. *)
Lemma update_absorbed ctx m data : zlen data < 2 ^ 32 -> absorbed ctx m ->
  absorbed (md5_update ctx data) (m ++ data).
Proof.
  intros Hd [Hi Hb Hr H0 H1 Hn]. pose proof (zlen_nonneg data) as Hd0.
  pose proof (bit_count_step _ _ _ (zlen data) H0 H1 (conj Hd0 Hd) Hn) as Hn'.
  rewrite <- zlen_app in Hn'. unfold md5_update.
  rewrite (byte_count _ _ _ (proj1 H0) Hn). unfold zlen in Hn' |- *.
  set (n := length m) in *. set (q := (n / 64)%nat) in *.
  assert (length (drop (64 * q) m) = n mod 64)%nat as Hrl by (rewrite length_drop; lia).
  cbv zeta in Hn'. destruct (Z.eqb_spec (Z.of_nat n mod 64) 0) as [Ht|Ht].
  - destruct (finish_absorbed q m (in_ ctx) data) as (inb' & rest & E & Hl & Htk); [lia|done|].
    rewrite Hb, E. split; cbn [in_ buf bits0 bits1]; try exact Hn'; auto using u32_range. by rewrite length_zwrite.
  - destruct (Z.ltb_spec (Z.of_nat (length data)) (64 - Z.of_nat n mod 64)) as [Hs|Hs].
    + split; cbn [in_ buf bits0 bits1]; try exact Hn'; auto using u32_range; [by rewrite length_zwrite|..];
        rewrite length_app; fold n;
        replace ((n + length data) / 64)%nat with q by lia.
      * by rewrite absorb_app by lia.
      * rewrite zwrite_in, drop_app_le by (unfold zlen; lia). rewrite <- Hr, app_assoc.
        rewrite take_app_length' by (rewrite length_app, length_take; lia). f_equal. f_equal. lia.
    + set (k := Z.to_nat (64 - Z.of_nat n mod 64)) in *.
      rewrite (zwrite_to_end _ (take k data)) by (unfold zlen; rewrite ?length_take; lia).
      replace (Z.to_nat (Z.of_nat n mod 64)) with (n mod 64)%nat by lia. rewrite Hr.
      assert (md5_transform (buf ctx) (words (drop (64 * q) m ++ take k data)) =
              absorb (S q) rfc_init (m ++ take k data)) as ->.
      { rewrite md5_transform_rfc_all, Hb, <- absorb_1 by
          (rewrite length_app, length_take; lia).
        by rewrite <- (Nat.add_1_r q), absorb_add, (absorb_app q), (drop_app_le m) by lia. }
      destruct (finish_absorbed (S q) (m ++ take k data) (drop (64 * q) m ++ take k data) (drop k data))
        as (inb' & rest & E & Hl & Htk); [rewrite length_app, length_take; lia..|].
      rewrite E. rewrite <- app_assoc, take_drop in Htk |- *.
      split; cbn [in_ buf bits0 bits1]; try exact Hn'; auto using u32_range. by rewrite length_zwrite.
Qed.

Lemma init_absorbed stack : length (in_ stack) = 64%nat -> absorbed (md5_init stack) [].
Proof. intros Hl. by split. Qed.

Lemma length_zeros n : length (zeros n) = Z.to_nat n.
Proof. apply length_replicate. Qed.

Lemma zeros_app a b : 0 <= a -> 0 <= b -> zeros (a + b) = zeros a ++ zeros b.
Proof. intros. unfold zeros. rewrite Z2Nat.inj_add by done. apply replicate_add. Qed.

(** The two counter words are the 64-bit length of the padding. *)
Lemma counter_bytes b0 b1 n : 0 <= b0 < 2 ^ 32 -> 0 <= b1 < 2 ^ 32 ->
  b0 + 2 ^ 32 * b1 = n mod 2 ^ 64 -> le_bytes 4 b0 ++ le_bytes 4 b1 = le_bytes 8 n.
Proof.
  intros H0 H1 Hn. rewrite <- (le_bytes_mod 8 n). change (256 ^ Z.of_nat 8) with (2 ^ 64).
  rewrite <- Hn. rewrite (le_bytes_app 4 4), <- (le_bytes_mod 4 (b0 + _)).
  change (256 ^ Z.of_nat 4) with (2 ^ 32). f_equal; f_equal; lia.
Qed.

(** The last block: the length words over a block that starts with [p]. *)
Lemma last_block p l b0 b1 : length p = 56%nat -> length l = 64%nat ->
  zwrite 60 (le_bytes 4 b1) (zwrite 56 (le_bytes 4 b0) (zwrite 0 p l)) =
  p ++ le_bytes 4 b0 ++ le_bytes 4 b1.
Proof.
  intros Hp Hl. pose proof (length_le_bytes 4 b0). pose proof (length_le_bytes 4 b1).
  assert (zlen p = 56) as Hzp by (unfold zlen; lia).
  rewrite (zwrite_app 56 (le_bytes 4 b0)) by (rewrite ?zlen_zwrite; unfold zlen; lia).
  change 56 with (0 + 56). rewrite <- Hzp, zwrite_app by (unfold zlen; rewrite ?length_app; lia).
  apply zwrite_all. rewrite !length_app. lia.
Qed.

Lemma absorb_last q st m l : length m = (64 * q)%nat -> length l = 64%nat ->
  rfc_compress (absorb q st m) (words l) = absorb (S q) st (m ++ l).
Proof. intros Hm Hl. by rewrite <- (Nat.add_1_r q), absorb_concat, absorb_1. Qed.

(** The padded message: the complete blocks of [m], then one or two blocks. *)
Lemma rfc_md5_blocks m q k tl : (length m / 64)%nat = q -> length tl = (64 * k)%nat ->
  rfc_pad m = take (64 * q) m ++ tl ->
  rfc_md5 m = buf_bytes (absorb k (absorb q rfc_init m) tl).
Proof.
  intros Hq Hk Hp. unfold rfc_md5. rewrite Hp.
  assert (length (take (64 * q) m) = 64 * q)%nat as Hh by (rewrite length_take; lia).
  replace (length (take (64 * q) m ++ tl) / 64)%nat with (q + k)%nat by (rewrite length_app; lia).
  rewrite absorb_concat by done. do 2 f_equal.
  rewrite <- (take_drop (64 * q) m) at 2. by rewrite absorb_app by lia.
Qed.

(** The buffer after the 0x80 byte and [k] zeros. *)
Lemma pad_writes t k inb : 0 <= t -> 0 <= k -> t + 1 + k <= zlen inb ->
  zwrite (t + 1) (zeros k) (zwrite t [128] inb) =
  zwrite 0 (take (Z.to_nat t) inb ++ [128] ++ zeros k) inb.
Proof.
  intros Ht Hk Hl. assert (zlen (zeros k) = k) as Hz by (unfold zlen; rewrite length_zeros; lia).
  pose proof (zwrite_app t [128] (zeros k) inb) as E. change (zlen [128]) with 1 in E.
  rewrite E by lia. unfold zlen in *. rewrite zwrite_0; rewrite !length_app, length_take; [|simpl; lia].
  rewrite zwrite_in by (unfold zlen; simpl; lia). rewrite <- !app_assoc. do 3 f_equal.
  f_equal. simpl. lia.
Qed.

Lemma final_absorbed ctx m : absorbed ctx m -> (md5_final ctx).1 = rfc_md5 m.
Proof.
  intros [Hi Hb Hr H0 H1 Hn]. unfold md5_final. rewrite (byte_count _ _ _ (proj1 H0) Hn).
  pose proof (counter_bytes _ _ _ H0 H1 Hn) as HL. pose proof (length_le_bytes 8 (8 * zlen m)) as HL8.
  pose proof (take_drop (64 * (length m / 64)) m) as Hm.
  pose proof (length_drop m (64 * (length m / 64))) as Hrl. rewrite <- Hr in Hm, Hrl.
  assert (Z.to_nat (zlen m mod 64) = length m mod 64)%nat as Hnm by (unfold zlen; lia).
  assert (0 <= zlen m mod 64 < 64) as Ht by lia.
  assert (zlen (in_ ctx) = 64) as Hz by (unfold zlen; lia).
  destruct (Z.ltb_spec (64 - 1 - zlen m mod 64) 8) as [Hs|Hs];
    rewrite pad_writes, Hnm by lia; set (rest := take _ (in_ ctx)) in *.
  - set (b1 := rest ++ [128] ++ zeros (64 - 1 - zlen m mod 64)).
    assert (length b1 = 64%nat) as Hb1 by (subst b1; rewrite !length_app, length_zeros; simpl; lia).
    rewrite (zwrite_all b1), last_block, !md5_transform_rfc_all, Hb, HL by
      (rewrite ?length_zeros; lia). cbn [fst].
    rewrite (rfc_md5_blocks m (length m / 64) 2 (b1 ++ zeros 56 ++ le_bytes 8 (8 * zlen m)));
      [|done|rewrite !length_app, length_zeros; lia|].
    + cbn [absorb]. rewrite take_app_length', drop_app_length' by done.
      by rewrite take_ge by (rewrite length_app, length_zeros; lia).
    + unfold rfc_pad. rewrite <- Hm at 1. subst b1. rewrite <- !app_assoc. do 3 f_equal.
      rewrite app_assoc, <- zeros_app by lia. do 2 f_equal. lia.
  - set (p := rest ++ [128] ++ zeros (64 - 1 - zlen m mod 64 - 8)).
    assert (length p = 56%nat) as Hp by (subst p; rewrite !length_app, length_zeros; simpl; lia).
    rewrite last_block, md5_transform_rfc_all, Hb, HL by done. cbn [fst].
    rewrite (rfc_md5_blocks m (length m / 64) 1 (p ++ le_bytes 8 (8 * zlen m)));
      [|done|rewrite length_app; lia|].
    + cbn [absorb]. by rewrite take_ge by (rewrite length_app; lia).
    + unfold rfc_pad. rewrite <- Hm at 1. subst p. rewrite <- !app_assoc. do 4 f_equal. f_equal. lia.
Qed.

(** ** Theorems *)

(** The contexts that stand for the chunks of [ms], one [md5_update] each. *)
Lemma updates_absorbed ms : Forall (fun d => zlen d < 2 ^ 32) ms -> forall ctx m,
  absorbed ctx m -> absorbed (fold_left md5_update ms ctx) (m ++ mjoin ms).
Proof.
  induction 1 as [|d ds Hd _ IH]; intros ctx m Hc; [by rewrite app_nil_r|].
  simpl. rewrite app_assoc. apply IH. by apply update_absorbed.
Qed.

Lemma file_loop_absorbed ds tl : Forall (fun d => d <> [] /\ zlen d < 2 ^ 32) ds ->
  forall ctx m, absorbed ctx m ->
  exists ctx', absorbed ctx' (m ++ mjoin ds) /\
    file_loop ctx ((inr <$> ds) ++ tl) = file_loop ctx' tl.
Proof.
  induction 1 as [|d ds [Hne Hd] _ IH]; intros ctx m Hc.
  { exists ctx. by rewrite app_nil_r. }
  destruct (IH (md5_update ctx d) (m ++ d)) as (ctx' & Ha & Hf); [by apply update_absorbed|].
  exists ctx'. rewrite <- app_assoc in Ha. split; [done|]. by destruct d.
Qed.

(** C33.  The unrolled [md5_transform] is the table-driven compression function
    of RFC 1321, with the constants of the sine table. *)
Theorem md5_transform_is_rfc1321 st x : md5_transform st x = rfc_compress st x.
Proof. apply md5_transform_rfc_all. Qed.

(** C15.  However the message is cut into [md5_update] calls, [md5_final] gives
    the RFC 1321 digest of their concatenation, whatever was on the stack, and
    clears the context. *)
Theorem md5_streaming_correct stack chunks :
  length (in_ stack) = 64%nat -> Forall (fun d => zlen d < 2 ^ 32) chunks ->
  (md5_final (fold_left md5_update chunks (md5_init stack))).1 = rfc_md5 (mjoin chunks).
Proof.
  intros Hs Hc. apply final_absorbed. apply (updates_absorbed chunks Hc _ []).
  by apply init_absorbed.
Qed.

Definition dirty_stack : md5_context_s :=
  {| buf := {| ra := 1; rb := 2; rc := 3; rd := 4 |}; bits0 := 5; bits1 := 6;
     in_ := replicate 64%nat 0xaa |}.

Lemma md5_streaming_correct_witness :
  (md5_final (fold_left md5_update [cstr "ab"; cstr "c"] (md5_init dirty_stack))).1 =
  rfc_md5 (mjoin [cstr "ab"; cstr "c"]).
Proof. apply md5_streaming_correct; [done|repeat constructor; done]. Defined.

(**  [md5_file] returns 0 and the digest of the file however [read] cuts
    it, and on a read error the negated errno (the digest then covers what had
    been read). *)
Theorem md5_file_correct stack ds err : length (in_ stack) = 64%nat ->
  Forall (fun d => d <> [] /\ zlen d < 2 ^ 32) ds ->
  md5_file stack (inr (inr <$> ds)) true = (0, Some (rfc_md5 (mjoin ds))) /\
  md5_file stack (inr ((inr <$> ds) ++ [inl err])) true = (- err, Some (rfc_md5 (mjoin ds))).
Proof.
  intros Hs Hd. pose proof (init_absorbed stack Hs) as Hi. unfold md5_file. split.
  - rewrite <- (app_nil_r (inr <$> ds)).
    destruct (file_loop_absorbed ds [] Hd _ _ Hi) as (ctx & Ha & ->). simpl.
    by rewrite (final_absorbed ctx (mjoin ds)).
  - destruct (file_loop_absorbed ds [inl err] Hd _ _ Hi) as (ctx & Ha & ->). simpl.
    by rewrite (final_absorbed ctx (mjoin ds)).
Qed.

Lemma md5_file_correct_witness :
  md5_file dirty_stack (inr (inr <$> [cstr "ab"; cstr "c"])) true =
    (0, Some (rfc_md5 (mjoin [cstr "ab"; cstr "c"]))) /\
  md5_file dirty_stack (inr ((inr <$> [cstr "ab"; cstr "c"]) ++ [inl 5])) true =
    (- (5), Some (rfc_md5 (mjoin [cstr "ab"; cstr "c"]))).
Proof. apply md5_file_correct; [done|repeat constructor; done]. Defined.

(** [md5_hash] writes the digests of the test suite of RFC 1321, as 32
    hexadecimal digits and a NUL. *)
Theorem md5_hash_rfc1321_suite :
  (md5_hash dirty_stack true ∘ cstr) <$>
    [EmptyString;
     "a"; "abc"; "message digest"; "abcdefghijklmnopqrstuvwxyz";
     "ABCDEFGHIJKLMNOPQRSTUVWXYZabcdefghijklmnopqrstuvwxyz0123456789";
     "12345678901234567890123456789012345678901234567890123456789012345678901234567890"]%string =
  (fun h => Some (cstr h ++ [0])) <$>
    ["d41d8cd98f00b204e9800998ecf8427e"; "0cc175b9c0f1b6a831c399e269772661";
     "900150983cd24fb0d6963f7d28e17f72"; "f96b697d7cb7938d525a2f31aaf161d0";
     "c3fcd3d76192e4007dfb496cca67e13b"; "d174ab98d277d9f5a5611c2c9f419d9f";
     "57edf4a22be3c955ac49da2e2107b67a"]%string.
Proof. vm_compute. reflexivity. Qed.

End Md5.
