(* ===== verification/Dhcpd.v ===== *)
(** The DHCP server (netutils/dhcpd/dhcpd.c): the lease table, the option
    parser, the replies and the message handlers.

    The packet buffers are the 548 bytes of [struct dhcpmsg_s] (32-bit
    little-endian target, CONFIG_NET_DHCP_LIGHT off, HAVE_LEASE_TIME on); a
    pointer into the lease table is an index, [ds_optend] an offset into the
    options of the outgoing packet.  [now] is what [dhcpd_time] returns while
    one message is handled, [sendrc] what [sendto] returns.  The packets sent
    and the ARP entries set are recorded in the state. *)

From S2P Require Import Prelude.

Module Dhcpd.

(** ** Constants and data *)

Definition DHCP_OPTION_PAD : Z := 0.
Definition DHCP_OPTION_SUBNET_MASK : Z := 1.
Definition DHCP_OPTION_ROUTER : Z := 3.
Definition DHCP_OPTION_DNS_SERVER : Z := 6.
Definition DHCP_OPTION_REQ_IPADDR : Z := 50.
Definition DHCP_OPTION_LEASE_TIME : Z := 51.
Definition DHCP_OPTION_OVERLOAD : Z := 52.
Definition DHCP_OPTION_MSG_TYPE : Z := 53.
Definition DHCP_OPTION_SERVER_ID : Z := 54.
Definition DHCP_OPTION_END : Z := 255.
Definition DHCP_REPLY : Z := 2.
Definition DHCPDISCOVER : Z := 1.
Definition DHCPOFFER : Z := 2.
Definition DHCPREQUEST : Z := 3.
Definition DHCPDECLINE : Z := 4.
Definition DHCPACK : Z := 5.
Definition DHCPNAK : Z := 6.
Definition DHCPRELEASE : Z := 7.
Definition DHCPD_OPTIONS_SIZE : Z := 312.
Definition INADDR_BROADCAST : Z := 0xffffffff.
Definition g_magiccookie : list Z := [99; 130; 83; 99].

(** Offsets of the fields of [struct dhcpmsg_s] *)
Definition off_op : Z := 0.
Definition off_htype : Z := 1.
Definition off_hlen : Z := 2.
Definition off_xid : Z := 4.
Definition off_flags : Z := 10.
Definition off_ciaddr : Z := 12.
Definition off_yiaddr : Z := 16.
Definition off_giaddr : Z := 24.
Definition off_chaddr : Z := 28.
Definition off_sname : Z := 44.
Definition off_file : Z := 108.
Definition off_options : Z := 236.
Definition sizeof_dhcpmsg : Z := 548.

(** The build configuration. *)
Class DhcpdConst := {
  MAXLEASES : Z;
  LEASETIME : Z;
  MINLEASETIME : Z;
  MAXLEASETIME : Z;
  OFFERTIME : Z;
  DECLINETIME : Z;
  IGNOREBROADCAST : bool;
}.

Definition zero_bytes (n : Z) : list Z := replicate (Z.to_nat n) 0.

Record lease_s := { mac : list Z; allocated : bool; expiry : Z }.

Definition cleared_lease : lease_s := {| mac := zero_bytes 6; allocated := false; expiry := 0 |}.

Record dhcpd_config_s := {
  ds_startip : Z;
  ds_endip : Z;
  ds_routerip : option Z;
  ds_netmask : option Z;
  ds_dnsip : option Z;
}.

(** The options found in a client message. *)
Record options_s := {
  ds_optmsgtype : Z;
  ds_optreqip : Z;
  ds_optserverip : Z;
  ds_optleasetime : Z;
}.

Definition no_options : options_s :=
  {| ds_optmsgtype := 0; ds_optreqip := 0; ds_optserverip := 0; ds_optleasetime := 0 |}.

Record dhcpd_state_s := {
  ds_serverip : Z;
  ds_inpacket : list Z;
  ds_outpacket : list Z;
  ds_opts : options_s;
  ds_optend : option Z;
  ds_leases : list lease_s;
  sent : list (Z * list Z);
  arp : list (list Z * list Z);
}.

Definition set_leases (l : list lease_s) (s : dhcpd_state_s) : dhcpd_state_s :=
  {| ds_serverip := ds_serverip s; ds_inpacket := ds_inpacket s; ds_outpacket := ds_outpacket s;
     ds_opts := ds_opts s; ds_optend := ds_optend s; ds_leases := l; sent := sent s; arp := arp s |}.

Definition set_out (p : list Z) (e : option Z) (s : dhcpd_state_s) : dhcpd_state_s :=
  {| ds_serverip := ds_serverip s; ds_inpacket := ds_inpacket s; ds_outpacket := p;
     ds_opts := ds_opts s; ds_optend := e; ds_leases := ds_leases s; sent := sent s; arp := arp s |}.

Definition set_opts (o : options_s) (s : dhcpd_state_s) : dhcpd_state_s :=
  {| ds_serverip := ds_serverip s; ds_inpacket := ds_inpacket s; ds_outpacket := ds_outpacket s;
     ds_opts := o; ds_optend := None; ds_leases := ds_leases s; sent := sent s; arp := arp s |}.

Definition set_in (p : list Z) (s : dhcpd_state_s) : dhcpd_state_s :=
  {| ds_serverip := ds_serverip s; ds_inpacket := p; ds_outpacket := ds_outpacket s;
     ds_opts := ds_opts s; ds_optend := ds_optend s; ds_leases := ds_leases s;
     sent := sent s; arp := arp s |}.

Definition log_arp (ip hw : list Z) (s : dhcpd_state_s) : dhcpd_state_s :=
  {| ds_serverip := ds_serverip s; ds_inpacket := ds_inpacket s; ds_outpacket := ds_outpacket s;
     ds_opts := ds_opts s; ds_optend := ds_optend s; ds_leases := ds_leases s;
     sent := sent s; arp := arp s ++ [(ip, hw)] |}.

Definition log_sent (ip : Z) (b : list Z) (s : dhcpd_state_s) : dhcpd_state_s :=
  {| ds_serverip := ds_serverip s; ds_inpacket := ds_inpacket s; ds_outpacket := ds_outpacket s;
     ds_opts := ds_opts s; ds_optend := ds_optend s; ds_leases := ds_leases s;
     sent := sent s ++ [(ip, b)]; arp := arp s |}.

(** [htonl] and [ntohl] on the little-endian target *)
Definition htonl (x : Z) : Z := le_val (reverse (le_bytes 4 x)).

(** ** The option parser *)

(** The field [ptr] walks through. *)
Inductive field := DHCPD_OPTION_FIELD | DHCPD_FILE_FIELD | DHCPD_SNAME_FIELD.

(** [memcpy(&tmp, p, 4); ntohl(tmp)] *)
Definition load_be32 {A} (mem : list Z) (i : nat) (k : Z -> run A) : run A :=
  load mem i (fun a => load mem (i + 1) (fun b => load mem (i + 2) (fun c =>
  load mem (i + 3) (fun d => k (htonl (le_val [a; b; c; d])))))).

(** One pass through the [switch], up to the advance: [inr] leaves the function
    with [true], [inl] gives the new [(ptr, remaining, optlen, overloaded,
    currfield)] and options. *)
Definition parse_switch (mem : list Z) (ptr : nat) (remaining optlen overloaded : Z)
    (currfield : field) (o : options_s)
    : run ((nat * Z * Z * Z * field * options_s) + options_s) :=
  let go optlen overloaded o := Done (inl (ptr, remaining, optlen, overloaded, currfield, o)) in
  load mem ptr (fun code =>
  if code =? DHCP_OPTION_PAD then go 1 overloaded o
  else if code =? DHCP_OPTION_OVERLOAD then
    load mem (ptr + 1) (fun l =>
    if (3 <=? l + 2) && (l + 2 <? remaining)
    then load mem (ptr + 2) (fun d => go (l + 2) d o)
    else go (l + 2) overloaded o)
  else if code =? DHCP_OPTION_END then
    match currfield with
    | DHCPD_OPTION_FIELD =>
        if negb (Z.land overloaded 1 =? 0)
        then Done (inl (Z.to_nat off_file, 128, optlen, overloaded, DHCPD_FILE_FIELD, o))
        else Done (inr o)
    | DHCPD_FILE_FIELD =>
        if negb (Z.land overloaded 2 =? 0)
        then Done (inl (Z.to_nat off_sname, 64, optlen, overloaded, DHCPD_SNAME_FIELD, o))
        else Done (inr o)
    | DHCPD_SNAME_FIELD => Done (inr o)
    end
  else if code =? DHCP_OPTION_REQ_IPADDR then
    load mem (ptr + 1) (fun l =>
    if (6 <=? l + 2) && (l + 2 <? remaining)
    then load_be32 mem (ptr + 2) (fun v => go (l + 2) overloaded
           {| ds_optmsgtype := ds_optmsgtype o; ds_optreqip := v;
              ds_optserverip := ds_optserverip o; ds_optleasetime := ds_optleasetime o |})
    else go (l + 2) overloaded o)
  else if code =? DHCP_OPTION_LEASE_TIME then
    load mem (ptr + 1) (fun l =>
    if (6 <=? l + 2) && (l + 2 <? remaining)
    then load_be32 mem (ptr + 2) (fun v => go (l + 2) overloaded
           {| ds_optmsgtype := ds_optmsgtype o; ds_optreqip := ds_optreqip o;
              ds_optserverip := ds_optserverip o; ds_optleasetime := v |})
    else go (l + 2) overloaded o)
  else if code =? DHCP_OPTION_MSG_TYPE then
    load mem (ptr + 1) (fun l =>
    if (3 <=? l + 2) && (l + 2 <? remaining)
    then load mem (ptr + 2) (fun v => go (l + 2) overloaded
           {| ds_optmsgtype := v; ds_optreqip := ds_optreqip o;
              ds_optserverip := ds_optserverip o; ds_optleasetime := ds_optleasetime o |})
    else go (l + 2) overloaded o)
  else if code =? DHCP_OPTION_SERVER_ID then
    load mem (ptr + 1) (fun l =>
    if (6 <=? l + 2) && (l + 2 <? remaining)
    then load_be32 mem (ptr + 2) (fun v => go (l + 2) overloaded
           {| ds_optmsgtype := ds_optmsgtype o; ds_optreqip := ds_optreqip o;
              ds_optserverip := v; ds_optleasetime := ds_optleasetime o |})
    else go (l + 2) overloaded o)
  else load mem (ptr + 1) (fun l => go (l + 2) overloaded o)).

Fixpoint parse_loop (fuel : nat) (mem : list Z) (ptr : nat) (remaining optlen overloaded : Z)
    (currfield : field) (o : options_s) : run (bool * options_s) :=
  match fuel with
  | O => OutOfFuel
  | S fuel =>
      r ← parse_switch mem ptr remaining optlen overloaded currfield o;
      match r with
      | inr o => Done (true, o)
      | inl (ptr, remaining, optlen, overloaded, currfield, o) =>
          let ptr := (ptr + Z.to_nat optlen)%nat in
          let remaining := remaining - optlen in
          if 0 <? remaining
          then parse_loop fuel mem ptr remaining optlen overloaded currfield o
          else Done (false, o)
      end
  end.

(** Each iteration takes at least one byte of the 308 + 128 + 64 of the three
    fields, so 500 iterations are enough.  [ds_outpacket] follows
    [ds_inpacket] in memory. *)
Definition dhcpd_parseoptions (s : dhcpd_state_s) : run (bool * dhcpd_state_s) :=
  if bool_decide (zslice off_options 4 (ds_inpacket s) = g_magiccookie) then
    '(ok, o) ← parse_loop 500 (ds_inpacket s ++ ds_outpacket s) (Z.to_nat off_options + 4)
                 (DHCPD_OPTIONS_SIZE - 4) 0 0 DHCPD_OPTION_FIELD no_options;
    Done (ok, set_opts o s)
  else Done (false, s).

(** ** The lease table *)

Section server.
Context `{!DhcpdConst}.
Variable conf : dhcpd_config_s.
Variable now : Z.
Variable sendrc : Z.

(** The entry a pointer (an index) refers to. *)
Definition lease_at (i : nat) (s : dhcpd_state_s) : lease_s := default cleared_lease (ds_leases s !! i).

Definition dhcpd_leaseexpired (i : nat) (s : dhcpd_state_s) : bool * dhcpd_state_s :=
  if now <? expiry (lease_at i s) then (false, s)
  else (true, set_leases (<[i := cleared_lease]> (ds_leases s)) s).

(** [true]: a pointer to the lease is returned, [false]: NULL. *)
Definition dhcpd_setlease (hw : list Z) (ipaddr expiry : Z) (s : dhcpd_state_s)
    : bool * dhcpd_state_s :=
  let ndx := s32 (u32 (ipaddr - ds_startip conf)) in
  if (0 <=? ndx) && (ndx <? MAXLEASES) then
    (true, set_leases (<[Z.to_nat ndx := {| mac := take 6 hw; allocated := true;
                                            expiry := now + expiry |}]> (ds_leases s)) s)
  else (false, s).

Definition dhcp_leaseipaddr (i : nat) : Z := u32 (Z.of_nat i + ds_startip conf).

Fixpoint find_mac (hw : list Z) (l : list lease_s) (i : nat) : option nat :=
  match l with
  | [] => None
  | x :: t => if bool_decide (mac x = hw) then Some i else find_mac hw t (S i)
  end.

Definition dhcpd_findbymac (hw : list Z) (s : dhcpd_state_s) : option nat :=
  find_mac (take 6 hw) (ds_leases s) 0.

Definition dhcpd_findbyipaddr (ipaddr : Z) (s : dhcpd_state_s) : option nat :=
  if (ds_startip conf <=? ipaddr) && (ipaddr <=? ds_endip conf) then
    let i := Z.to_nat (ipaddr - ds_startip conf) in
    if allocated (lease_at i s) then Some i else None
  else None.

(** [!lease || dhcpd_leaseexpired(lease)] for the lease on [ipaddr] *)
Definition lease_free (ipaddr : Z) (s : dhcpd_state_s) : bool * dhcpd_state_s :=
  match dhcpd_findbyipaddr ipaddr s with
  | None => (true, s)
  | Some i => dhcpd_leaseexpired i s
  end.

Fixpoint alloc_loop (fuel : nat) (ipaddr : Z) (s : dhcpd_state_s) : Z * dhcpd_state_s :=
  match fuel with
  | O => (0, s)
  | S fuel =>
      if ipaddr <=? ds_endip conf then
        if (Z.land ipaddr 0xff =? 0) || (Z.land ipaddr 0xff =? 0xff)
        then alloc_loop fuel (u32 (ipaddr + 1)) s
        else
          let '(free, s) := lease_free ipaddr s in
          if free then
            (ipaddr, set_leases (<[Z.to_nat (ipaddr - ds_startip conf) :=
               {| mac := zero_bytes 6; allocated := true; expiry := now + OFFERTIME |}]>
               (ds_leases s)) s)
          else alloc_loop fuel (u32 (ipaddr + 1)) s
      else (0, s)
  end.

(** One iteration per address of the range, when the range does not end at
    255.255.255.255. *)
Definition dhcpd_allocipaddr (s : dhcpd_state_s) : Z * dhcpd_state_s :=
  alloc_loop (Z.to_nat (ds_endip conf - ds_startip conf + 2)) (ds_startip conf) s.

Definition dhcpd_verifyreqip (s : dhcpd_state_s) : bool * dhcpd_state_s :=
  let reqip := ds_optreqip (ds_opts s) in
  if (ds_startip conf <=? reqip) && (reqip <=? ds_endip conf)
  then lease_free reqip s
  else (false, s).

(** The new value of [*leasetime]. *)
Definition dhcpd_verifyreqleasetime (leasetime : Z) (s : dhcpd_state_s) : Z :=
  let tmp := u32 (ds_optleasetime (ds_opts s)) in
  if tmp =? 0 then leasetime
  else if MAXLEASETIME <? tmp then MAXLEASETIME
  else if tmp <? MINLEASETIME then MINLEASETIME
  else tmp.

(** ** Building and sending a reply *)

Definition dhcpd_addoption (option : list Z) (s : dhcpd_state_s) : dhcpd_state_s :=
  match ds_optend s with
  | None => s
  | Some offset =>
      let len := default 0 (option !! 1%nat) + 2 in
      if offset + len + 1 <? DHCPD_OPTIONS_SIZE then
        let p := zwrite (off_options + offset) (take (Z.to_nat len) option) (ds_outpacket s) in
        set_out (zwrite (off_options + offset + len) [DHCP_OPTION_END] p) (Some (offset + len)) s
      else s
  end.

Definition dhcpd_addoption8 (code value : Z) : dhcpd_state_s -> dhcpd_state_s :=
  dhcpd_addoption [code; 1; value].

(** [dhcp_addoption32p] does the same with the value in memory. *)
Definition dhcpd_addoption32 (code value : Z) : dhcpd_state_s -> dhcpd_state_s :=
  dhcpd_addoption ([code; 4] ++ le_bytes 4 value).

Definition copy_in_field (off n : Z) (s : dhcpd_state_s) (p : list Z) : list Z :=
  zwrite off (zslice off n (ds_inpacket s)) p.

Definition dhcpd_initpacket (mtype : Z) (s : dhcpd_state_s) : dhcpd_state_s :=
  let p := zero_bytes sizeof_dhcpmsg in
  let p := zwrite off_op [DHCP_REPLY] p in
  let p := copy_in_field off_htype 1 s p in
  let p := copy_in_field off_hlen 1 s p in
  let p := copy_in_field off_xid 4 s p in
  let p := copy_in_field off_chaddr 16 s p in
  let p := if bool_decide (zslice off_giaddr 4 p <> zero_bytes 4)
           then copy_in_field off_flags 2 s p else p in
  let p := zwrite off_options g_magiccookie p in
  let s := set_out (zwrite (off_options + 4) [DHCP_OPTION_END] p) (Some 4) s in
  let s := dhcpd_addoption8 DHCP_OPTION_MSG_TYPE mtype s in
  dhcpd_addoption32 DHCP_OPTION_SERVER_ID (ds_serverip s) s.

(** The address a reply goes to, and the ARP entry made for it. *)
Definition reply_address (bbroadcast : bool) (s : dhcpd_state_s) : Z * dhcpd_state_s :=
  let p := ds_outpacket s in
  let hw := zslice off_chaddr 16 p in
  let ciaddr := zslice off_ciaddr 4 p in
  let yiaddr := zslice off_yiaddr 4 p in
  if IGNOREBROADCAST then (INADDR_BROADCAST, s)
  else if bbroadcast then (INADDR_BROADCAST, s)
  else if bool_decide (ciaddr <> zero_bytes 4) then (le_val ciaddr, log_arp ciaddr (take 6 hw) s)
  else if negb (Z.land (le_val (zslice off_flags 2 p)) 0x80 =? 0) then (INADDR_BROADCAST, s)
  else (le_val yiaddr, log_arp yiaddr (take 6 hw) s).

Definition dhcpd_sendpacket (bbroadcast : bool) (s : dhcpd_state_s) : Z * dhcpd_state_s :=
  let '(ipaddr, s) := reply_address bbroadcast s in
  let len := off_options + default 0 (ds_optend s) + 1 in
  (sendrc, log_sent ipaddr (zslice 0 len (ds_outpacket s)) s).

(** The options OFFER and ACK have in common. *)
Definition add_lease_options (leasetime : Z) (s : dhcpd_state_s) : dhcpd_state_s :=
  let add code o s := match o with Some v => dhcpd_addoption32 code (htonl v) s | None => s end in
  let s := dhcpd_addoption32 DHCP_OPTION_LEASE_TIME (htonl leasetime) s in
  let s := add DHCP_OPTION_SUBNET_MASK (ds_netmask conf) s in
  let s := add DHCP_OPTION_ROUTER (ds_routerip conf) s in
  add DHCP_OPTION_DNS_SERVER (ds_dnsip conf) s.

Definition set_yiaddr (ipaddr : Z) (s : dhcpd_state_s) : dhcpd_state_s :=
  set_out (zwrite off_yiaddr (le_bytes 4 (htonl ipaddr)) (ds_outpacket s)) (ds_optend s) s.

Definition copy_ciaddr (s : dhcpd_state_s) : dhcpd_state_s :=
  set_out (copy_in_field off_ciaddr 4 s (ds_outpacket s)) (ds_optend s) s.

Definition dhcpd_sendoffer (ipaddr leasetime : Z) (s : dhcpd_state_s) : Z * dhcpd_state_s :=
  let s := dhcpd_initpacket DHCPOFFER s in
  let s := set_yiaddr ipaddr s in
  let s := add_lease_options leasetime s in
  dhcpd_sendpacket IGNOREBROADCAST s.

Definition dhcpd_sendnak (s : dhcpd_state_s) : Z * dhcpd_state_s :=
  dhcpd_sendpacket true (copy_ciaddr (dhcpd_initpacket DHCPNAK s)).

Definition dhcpd_sendack (ipaddr : Z) (s : dhcpd_state_s) : Z * dhcpd_state_s :=
  let s := copy_ciaddr (dhcpd_initpacket DHCPACK s) in
  let s := set_yiaddr ipaddr s in
  let leasetime := dhcpd_verifyreqleasetime LEASETIME s in
  let s := add_lease_options leasetime s in
  let '(rc, s) := dhcpd_sendpacket IGNOREBROADCAST s in
  if rc <? 0 then (ERROR, s)
  else (OK, (dhcpd_setlease (zslice off_chaddr 16 (ds_inpacket s)) ipaddr leasetime s).2).

(** ** The message handlers *)

Definition chaddr (s : dhcpd_state_s) : list Z := zslice off_chaddr 16 (ds_inpacket s).

(** The address and lease time [dhcpd_discover] chooses. *)
Definition discover_address (s : dhcpd_state_s) : Z * Z * dhcpd_state_s :=
  match dhcpd_findbymac (chaddr s) s with
  | Some i =>
      let e := expiry (lease_at i s) in
      let '(expired, s) := dhcpd_leaseexpired i s in
      let leasetime :=
        if expired then LEASETIME
        else if u32 (e - now) <? MINLEASETIME then MINLEASETIME else u32 (e - now) in
      (dhcp_leaseipaddr i, leasetime, s)
  | None =>
      let '(ok, s) := dhcpd_verifyreqip s in
      if ok then (ds_optreqip (ds_opts s), LEASETIME, s)
      else let '(ip, s) := dhcpd_allocipaddr s in (ip, LEASETIME, s)
  end.

Definition dhcpd_discover (s : dhcpd_state_s) : Z * dhcpd_state_s :=
  let '(ipaddr, leasetime, s) := discover_address s in
  if ipaddr =? 0 then (ERROR, s)
  else
    let '(ok, s) := dhcpd_setlease (chaddr s) ipaddr OFFERTIME s in
    if ok then dhcpd_sendoffer ipaddr (dhcpd_verifyreqleasetime leasetime s) s
    else (ERROR, s).

Inductive response := Silent | Ack | Nak.

(** The decision part of [dhcpd_request]: the response and the address. *)
Definition request_decision (s : dhcpd_state_s) : response * Z * dhcpd_state_s :=
  let o := ds_opts s in
  match dhcpd_findbymac (chaddr s) s with
  | Some i =>
      let ipaddr := dhcp_leaseipaddr i in
      let ack b := (if b : bool then Ack else Nak, ipaddr, s) in
      if negb (ds_optserverip o =? 0) then
        ack ((ds_optserverip o =? htonl (ds_serverip s)) &&
             (negb (ds_optreqip o =? 0) || (ds_optreqip o =? ipaddr)))
      else if negb (ds_optreqip o =? 0) then ack (ipaddr =? ds_optreqip o)
      else ack (bool_decide (le_bytes 4 (htonl ipaddr) = zslice off_ciaddr 4 (ds_inpacket s)))
  | None =>
      if negb (ds_optreqip o =? 0) && (ds_optserverip o =? 0) then
        match dhcpd_findbyipaddr (ds_optreqip o) s with
        | Some i =>
            let '(expired, s) := dhcpd_leaseexpired i s in
            (if expired then Silent else Nak, 0, s)
        | None =>
            if (ds_startip conf <=? ds_optreqip o) && (ds_optreqip o <=? ds_endip conf)
            then (Ack, ds_optreqip o, s) else (Nak, 0, s)
        end
      else (Silent, 0, s)
  end.

Definition dhcpd_request (s : dhcpd_state_s) : Z * dhcpd_state_s :=
  let '(r, ipaddr, s) := request_decision s in
  match r with
  | Ack => (OK, (dhcpd_sendack ipaddr s).2)
  | Nak => (OK, (dhcpd_sendnak s).2)
  | Silent => (OK, s)
  end.

Definition dhcpd_decline (s : dhcpd_state_s) : Z * dhcpd_state_s :=
  match dhcpd_findbymac (chaddr s) s with
  | Some i =>
      (OK, set_leases (<[i := {| mac := zero_bytes 6; allocated := allocated (lease_at i s);
                                 expiry := now + DECLINETIME |}]> (ds_leases s)) s)
  | None => (OK, s)
  end.

Definition dhcpd_release (s : dhcpd_state_s) : Z * dhcpd_state_s :=
  match dhcpd_findbymac (chaddr s) s with
  | Some i => (OK, set_leases (<[i := cleared_lease]> (ds_leases s)) s)
  | None => (OK, s)
  end.

(** The dispatch on the message type in [dhcpd_run]. *)
Definition dhcpd_dispatch (s : dhcpd_state_s) : dhcpd_state_s :=
  let t := ds_optmsgtype (ds_opts s) in
  if t =? DHCPDISCOVER then (dhcpd_discover s).2
  else if t =? DHCPREQUEST then (dhcpd_request s).2
  else if t =? DHCPDECLINE then (dhcpd_decline s).2
  else if t =? DHCPRELEASE then (dhcpd_release s).2
  else s.

(** One turn of the loop of [dhcpd_run] when [recv] delivers [data]: the bytes
    of the previous message behind them stay in the buffer. *)
Definition dhcpd_message (data : list Z) (s : dhcpd_state_s) : run dhcpd_state_s :=
  let s := set_in (zwrite 0 data (ds_inpacket s)) s in
  '(ok, s) ← dhcpd_parseoptions s;
  Done (if ok : bool then dhcpd_dispatch s else s).

End server.

(** [g_dhcpd_config] updates *)
Definition dhcpd_set_startip `{!DhcpdConst} (startip : Z) (c : dhcpd_config_s) : dhcpd_config_s :=
  {| ds_startip := startip; ds_endip := u32 (startip + MAXLEASES - 1);
     ds_routerip := ds_routerip c; ds_netmask := ds_netmask c; ds_dnsip := ds_dnsip c |}.

Definition dhcpd_set_routerip (ip : Z) (c : dhcpd_config_s) : dhcpd_config_s :=
  {| ds_startip := ds_startip c; ds_endip := ds_endip c; ds_routerip := Some ip;
     ds_netmask := ds_netmask c; ds_dnsip := ds_dnsip c |}.

Definition dhcpd_set_netmask (ip : Z) (c : dhcpd_config_s) : dhcpd_config_s :=
  {| ds_startip := ds_startip c; ds_endip := ds_endip c; ds_routerip := ds_routerip c;
     ds_netmask := Some ip; ds_dnsip := ds_dnsip c |}.

Definition dhcpd_set_dnsip (ip : Z) (c : dhcpd_config_s) : dhcpd_config_s :=
  {| ds_startip := ds_startip c; ds_endip := ds_endip c; ds_routerip := ds_routerip c;
     ds_netmask := ds_netmask c; ds_dnsip := Some ip |}.

(** The state [dhcpd_run] starts with: everything zero. *)
Definition initial_state `{!DhcpdConst} (serverip : Z) : dhcpd_state_s := {|
  ds_serverip := serverip; ds_inpacket := zero_bytes sizeof_dhcpmsg;
  ds_outpacket := zero_bytes sizeof_dhcpmsg; ds_opts := no_options; ds_optend := None;
  ds_leases := replicate (Z.to_nat MAXLEASES) cleared_lease; sent := []; arp := [] |}.

End Dhcpd.
