(* ===== verification/DhcpdParse.v ===== *)
(** The option parser of the DHCP server: it ends and stays inside the message
    on every input, and it reads back the options of a well-formed message. *)

From S2P Require Import Prelude Dhcpd.
Import Dhcpd.

(** ** Every input *)

Section any_input.
Variable mem : list Z.
Hypothesis mem_bytes : Forall is_byte mem.
Hypothesis mem_size : (549 <= length mem)%nat.

Lemma load_in {A} i (k : Z -> run A) : (i <= 548)%nat ->
  exists b, is_byte b /\ load mem i k = k b.
Proof.
  intros Hi. destruct (lookup_lt_is_Some_2 mem i) as [b Hb]; [lia|].
  exists b. unfold load. rewrite Hb. split; [|done]. by apply (Forall_lookup_1 _ _ i _ mem_bytes).
Qed.

Lemma load_be32_in {A} i (k : Z -> run A) : (i + 3 <= 548)%nat ->
  exists v, load_be32 mem i k = k v.
Proof.
  intros Hi. unfold load_be32.
  repeat match goal with |- exists v, load mem ?j ?f = _ =>
    destruct (load_in j f) as (? & _ & ->); [lia|] end.
  by eexists.
Qed.

(** End of a field, and the bytes of the fields that may still follow it. *)
Definition field_end (f : field) : Z :=
  match f with DHCPD_OPTION_FIELD => 548 | DHCPD_FILE_FIELD => 236 | DHCPD_SNAME_FIELD => 108 end.
Definition field_more (f : field) : Z :=
  match f with DHCPD_OPTION_FIELD => 192 | DHCPD_FILE_FIELD => 64 | DHCPD_SNAME_FIELD => 0 end.

(** What holds before the advance of an iteration. *)
Definition switch_post (remaining : Z) (f : field)
    (r : (nat * Z * Z * Z * field * options_s) + options_s) : Prop :=
  match r with
  | inr _ => True
  | inl (ptr, rem, optlen, _, f', _) =>
      1 <= optlen /\ Z.of_nat ptr + rem = field_end f' /\
      rem + field_more f' <= remaining + field_more f
  end.

Lemma parse_switch_post ptr remaining optlen overloaded f o :
  0 < remaining -> Z.of_nat ptr + remaining = field_end f ->
  (overloaded <> 0 -> 1 <= optlen) ->
  exists r, parse_switch mem ptr remaining optlen overloaded f o = Done r /\
            switch_post remaining f r.
Proof.
  intros Hr Hp Hov. assert (ptr <= 547)%nat as Hptr by (destruct f; simpl in Hp; lia).
  assert (forall n, negb (Z.land overloaded n =? 0) = true -> 1 <= optlen) as Hov'.
  { intros n Hn. breflect. apply Hov. intros ->. by rewrite Z.land_0_l in Hn. }
  unfold parse_switch. cbv zeta.
  match goal with |- exists r, load mem ptr ?k = _ /\ _ =>
    destruct (load_in ptr k) as (code & Hc & ->); [lia|] end.
  repeat match goal with
  | |- exists r, Done ?x = Done r /\ _ => exists x; split; [done|]; simpl
  | |- exists r, (if ?b then _ else _) = _ /\ _ => destruct b eqn:?
  | |- exists r, match ?f with _ => _ end = _ /\ _ => destruct f
  | |- exists r, load mem ?j ?k = _ /\ _ =>
      destruct (load_in j k) as (? & ? & ->); [breflect; destruct f; simpl in Hp; lia|]
  | |- exists r, load_be32 mem ?j ?k = _ /\ _ =>
      destruct (load_be32_in j k) as (? & ->); [breflect; destruct f; simpl in Hp; lia|]
  end; unfold is_byte in *; try done; try lia;
    match goal with Hn : negb (Z.land _ ?n =? 0) = true |- _ => specialize (Hov' n Hn) end;
    unfold off_file, off_sname; lia.
Qed.

Lemma parse_loop_done fuel ptr remaining optlen overloaded f o :
  0 < remaining -> Z.of_nat ptr + remaining = field_end f ->
  (overloaded <> 0 -> 1 <= optlen) -> remaining + field_more f <= Z.of_nat fuel ->
  exists r, parse_loop fuel mem ptr remaining optlen overloaded f o = Done r.
Proof.
  revert ptr remaining optlen overloaded f o.
  induction fuel as [|fuel IH]; intros ptr remaining optlen overloaded f o Hr Hp Hov Hf.
  { destruct f; simpl in Hf; lia. }
  cbn [parse_loop].
  destruct (parse_switch_post ptr remaining optlen overloaded f o) as (r & -> & Hpost); [done..|].
  destruct r as [[[[[[ptr' rem'] optlen'] ov'] f'] o']|o']; simpl in *; [|by eexists].
  destruct Hpost as (H1 & H2 & H3). destruct (Z.ltb_spec 0 (rem' - optlen')); [|by eexists].
  apply IH; lia.
Qed.

End any_input.

(** ** Well-formed messages *)

(** An option is its code and its data. *)
Definition encode_option (o : Z * list Z) : list Z := o.1 :: zlen o.2 :: o.2.
Definition encode_options (os : list (Z * list Z)) : list Z := mjoin (encode_option <$> os).

Definition be32 (d : list Z) : Z := htonl (le_val (take 4 d)).

(** What an option sets; an option that is too short sets nothing. *)
Definition apply_option (o : options_s) (x : Z * list Z) : options_s :=
  let '(code, d) := x in
  if (code =? DHCP_OPTION_REQ_IPADDR) && (4 <=? zlen d) then
    {| ds_optmsgtype := ds_optmsgtype o; ds_optreqip := be32 d;
       ds_optserverip := ds_optserverip o; ds_optleasetime := ds_optleasetime o |}
  else if (code =? DHCP_OPTION_LEASE_TIME) && (4 <=? zlen d) then
    {| ds_optmsgtype := ds_optmsgtype o; ds_optreqip := ds_optreqip o;
       ds_optserverip := ds_optserverip o; ds_optleasetime := be32 d |}
  else if (code =? DHCP_OPTION_MSG_TYPE) && (1 <=? zlen d) then
    {| ds_optmsgtype := hd 0 d; ds_optreqip := ds_optreqip o;
       ds_optserverip := ds_optserverip o; ds_optleasetime := ds_optleasetime o |}
  else if (code =? DHCP_OPTION_SERVER_ID) && (4 <=? zlen d) then
    {| ds_optmsgtype := ds_optmsgtype o; ds_optreqip := ds_optreqip o;
       ds_optserverip := be32 d; ds_optleasetime := ds_optleasetime o |}
  else o.

(** An option that is none of the parser's control codes. *)
Definition plain_option (x : Z * list Z) : Prop :=
  x.1 <> DHCP_OPTION_PAD /\ x.1 <> DHCP_OPTION_OVERLOAD /\ x.1 <> DHCP_OPTION_END.

Lemma load_app {A} pre x l i (k : Z -> run A) : l !! i = Some x ->
  load (pre ++ l) (length pre + i) k = k x.
Proof.
  intros Hx. unfold load. rewrite lookup_app_r by lia.
  by replace (length pre + i - length pre)%nat with i by lia; rewrite Hx.
Qed.

Lemma load_be32_app {A} pre i l (k : Z -> run A) : (i + 4 <= length l)%nat ->
  load_be32 (pre ++ l) (length pre + i) k = k (htonl (le_val (take 4 (drop i l)))).
Proof.
  intros Hl. destruct (drop i l) as [|a [|b [|c [|d t]]]] eqn:E;
    try (apply (f_equal length) in E; rewrite length_drop in E; simpl in E; lia).
  assert (forall j x, drop i l !! j = Some x -> l !! (i + j)%nat = Some x) as Hj
    by (intros j x; by rewrite lookup_drop).
  rewrite E in Hj. unfold load_be32. rewrite <- !(Nat.add_assoc (length pre)).
  rewrite (load_app _ a), (load_app _ b), (load_app _ c), (load_app _ d);
    [done|by apply (Hj 3%nat)|by apply (Hj 2%nat)|by apply (Hj 1%nat)|].
  rewrite <- (Nat.add_0_r i). by apply (Hj 0%nat).
Qed.

(** The parser at an option that leaves room behind it. *)
Lemma parse_switch_option pre code d tl remaining optlen f o :
  plain_option (code, d) -> zlen d + 2 < remaining ->
  parse_switch (pre ++ encode_option (code, d) ++ tl) (length pre) remaining optlen 0 f o =
  Done (inl (length pre, remaining, zlen d + 2, 0, f, apply_option o (code, d))).
Proof.
  intros (H1 & H2 & H3) Hr. simpl in H1, H2, H3. unfold parse_switch, encode_option. cbn [fst snd].
  pose proof (fun A k => load_app (A := A) pre code ((code :: zlen d :: d) ++ tl) 0 k eq_refl) as L0.
  rewrite Nat.add_0_r in L0. rewrite L0. cbv beta zeta.
  rewrite !(proj2 (Z.eqb_neq _ _)) by done.
  rewrite !(load_app pre (zlen d) _ 1) by done.
  assert (zlen d + 2 <? remaining = true) as -> by (by apply Z.ltb_lt). rewrite !andb_true_r.
  replace (6 <=? zlen d + 2) with (4 <=? zlen d) by (repeat case_zbool).
  replace (3 <=? zlen d + 2) with (1 <=? zlen d) by (repeat case_zbool).
  unfold apply_option, be32. cbv beta iota.
  assert (forall A k, 4 <= zlen d ->
    load_be32 (A := A) (pre ++ (code :: zlen d :: d) ++ tl) (length pre + 2) k =
    k (htonl (le_val (take 4 d)))) as L4.
  { unfold zlen. intros A k Hd. rewrite load_be32_app by (simpl; rewrite length_app; lia).
    change (drop 2 (_ ++ tl)) with (d ++ tl). by rewrite take_app_le by lia. }
  destruct (Z.leb_spec 4 (zlen d)) as [H4|H4]; rewrite ?andb_true_r, ?andb_false_r;
    [rewrite !L4 by done|]; repeat case_match; try done; breflect;
    unfold DHCP_OPTION_REQ_IPADDR, DHCP_OPTION_LEASE_TIME, DHCP_OPTION_MSG_TYPE,
      DHCP_OPTION_SERVER_ID, zlen in *;
    try (exfalso; lia); try (rewrite (load_app pre (hd 0 d)); [done|]);
    destruct d; simpl in *; (done || lia).
Qed.

Lemma encode_options_cons x os :
  encode_options (x :: os) = encode_option x ++ encode_options os.
Proof. done. Qed.

Lemma encode_options_app os1 os2 :
  encode_options (os1 ++ os2) = encode_options os1 ++ encode_options os2.
Proof. unfold encode_options. by rewrite fmap_app, join_app. Qed.

Lemma encode_options_length os : (2 * length os <= length (encode_options os))%nat.
Proof.
  induction os as [|[c d] os IH]; [done|]. rewrite encode_options_cons, length_app.
  cbn [encode_option fst snd length]. lia.
Qed.

Lemma parse_loop_options os : Forall plain_option os -> forall fuel pre tl remaining optlen o,
  (length os < fuel)%nat -> zlen (encode_options os) < remaining ->
  parse_loop fuel (pre ++ encode_options os ++ DHCP_OPTION_END :: tl) (length pre)
    remaining optlen 0 DHCPD_OPTION_FIELD o = Done (true, fold_left apply_option os o).
Proof.
  induction 1 as [|[c d] os Hx _ IH]; intros [|fuel] pre tl remaining optlen o Hf Hr;
    try (simpl in Hf; lia); cbn [parse_loop].
  - assert (load (pre ++ encode_options [] ++ DHCP_OPTION_END :: tl) (length pre) =
            fun k : Z -> run ((nat * Z * Z * Z * field * options_s) + options_s) =>
            k DHCP_OPTION_END) as E.
    { unfold load. by rewrite lookup_app_r, Nat.sub_diag by lia. }
    unfold parse_switch. by rewrite E.
  - rewrite encode_options_cons in *. unfold zlen in Hr. rewrite length_app in Hr.
    cbn [encode_option fst snd length] in Hr.
    rewrite <- (app_assoc (encode_option (c, d))), parse_switch_option by (done || unfold zlen; lia).
    cbn [mbind run_bind]. unfold zlen at 1. rewrite (proj2 (Z.ltb_lt _ _)) by (unfold zlen; lia).
    rewrite app_assoc.
    replace (length pre + Z.to_nat (zlen d + 2))%nat with (length (pre ++ encode_option (c, d)))
      by (unfold zlen; rewrite length_app; simpl; lia).
    apply IH; [simpl in Hf; lia|unfold zlen; lia].
Qed.

(** The options of a message that holds the encoding of [os]. *)
Lemma parse_message s head os tl :
  ds_inpacket s = head ++ g_magiccookie ++ encode_options os ++ DHCP_OPTION_END :: tl ->
  length head = Z.to_nat off_options -> zlen (encode_options os) < DHCPD_OPTIONS_SIZE - 4 ->
  Forall plain_option os ->
  dhcpd_parseoptions s = Done (true, set_opts (fold_left apply_option os no_options) s).
Proof.
  intros Hin Hh Hlen Hos. unfold dhcpd_parseoptions.
  assert (zslice off_options 4 (ds_inpacket s) = g_magiccookie) as Hc.
  { rewrite Hin. unfold zslice. rewrite drop_app_length' by (by rewrite Hh). done. }
  rewrite (bool_decide_eq_true_2 _ Hc), Hin.
  replace (Z.to_nat off_options + 4)%nat with (length (head ++ g_magiccookie))
    by (rewrite length_app, Hh; done).
  rewrite <- !app_assoc. rewrite (app_assoc head).
  pose proof (encode_options_length os) as Hl. unfold zlen, DHCPD_OPTIONS_SIZE in Hlen.
  change ((DHCP_OPTION_END :: tl) ++ ds_outpacket s) with (DHCP_OPTION_END :: tl ++ ds_outpacket s).
  rewrite parse_loop_options; [done|done|lia|unfold zlen, DHCPD_OPTIONS_SIZE; lia].
Qed.
