(* ===== verification/DhcpdTable.v ===== *)
(** The lease table of the DHCP server as a transition system: every handler
    moves it by [table_step]s, and the steps keep the table's invariant and
    the valid leases of other clients. *)

From S2P Require Import Prelude Dhcpd.
Import Dhcpd.

(** ** Abstract transitions of the table, for a message of client [m] *)

Definition no_mac : list Z := zero_bytes 6.

Inductive table_step (now : Z) (m : list Z) : list lease_s -> list lease_s -> Prop :=
| step_expire l i x :
    l !! i = Some x -> expiry x <= now -> table_step now m l (<[i := cleared_lease]> l)
| step_renew l i x e :
    l !! i = Some x -> mac x = m ->
    table_step now m l (<[i := {| mac := m; allocated := true; expiry := e |}]> l)
| step_grant l i x e :
    l !! i = Some x -> allocated x = false \/ expiry x <= now -> (forall y, y ∈ l -> mac y <> m) ->
    table_step now m l (<[i := {| mac := m; allocated := true; expiry := e |}]> l)
| step_decline l i x e :
    l !! i = Some x -> mac x = m ->
    table_step now m l (<[i := {| mac := no_mac; allocated := allocated x; expiry := e |}]> l)
| step_release l i x :
    l !! i = Some x -> mac x = m -> table_step now m l (<[i := cleared_lease]> l).

(** No client holds two addresses, and a free entry names no client. *)
Record table_ok (l : list lease_s) : Prop := {
  ok_macs : Forall (fun x => length (mac x) = 6%nat) l;
  ok_free : Forall (fun x => allocated x = false -> mac x = no_mac) l;
  ok_unique : forall i j x y, l !! i = Some x -> l !! j = Some y ->
    mac x = mac y -> mac x <> no_mac -> i = j;
}.

(** A client's lease that is still valid. *)
Definition valid_lease (now : Z) (x : lease_s) : Prop := allocated x = true /\ now < expiry x.

Lemma insert_ok l i x z : table_ok l -> l !! i = Some x -> length (mac z) = 6%nat ->
  (allocated z = false -> mac z = no_mac) ->
  (mac z = no_mac \/ mac z = mac x \/ forall y, y ∈ l -> mac y <> mac z) ->
  table_ok (<[i := z]> l).
Proof.
  intros [Hm Hf Hu] Hx Hz Hzf Hnew. pose proof (lookup_lt_Some _ _ _ Hx) as Hlt.
  assert (forall j y, <[i := z]> l !! j = Some y -> j <> i -> mac z = mac y -> mac z <> no_mac -> False)
    as Hother.
  { intros j y Hj Hne Heq Hnz. rewrite list_lookup_insert_ne in Hj by done.
    destruct Hnew as [Hn|[Hn|Hn]]; [done| |].
    - apply Hne. apply (Hu j i y x); congruence.
    - apply (Hn y); [by eapply list_elem_of_lookup_2|done]. }
  split; [by apply Forall_insert|by apply Forall_insert|].
  intros j k y1 y2 H1 H2 Heq Hnz. destruct (decide (j = i)) as [->|Hj], (decide (k = i)) as [->|Hk];
    [done| | |].
  - rewrite list_lookup_insert_eq in H1 by done. simplify_eq. exfalso. by eapply Hother.
  - rewrite list_lookup_insert_eq in H2 by done. simplify_eq. exfalso. eapply (Hother j); eauto; congruence.
  - rewrite list_lookup_insert_ne in H1, H2 by done. by eapply Hu.
Qed.

Lemma table_step_ok now m l l' : length m = 6%nat -> table_step now m l l' ->
  table_ok l -> table_ok l'.
Proof.
  intros Hm Hst Hok. destruct Hst; eapply insert_ok; eauto; simpl; try done; auto; try congruence.
Qed.

Lemma table_step_length now m l l' : table_step now m l l' -> length l' = length l.
Proof. destruct 1; apply length_insert. Qed.

(** A step on behalf of [m] leaves the valid leases of the others alone. *)
Lemma table_step_others now m l l' i x : table_step now m l l' ->
  l !! i = Some x -> valid_lease now x -> mac x <> m -> l' !! i = Some x.
Proof.
  intros Hst Hi [Ha He] Hne.
  destruct Hst as [l j y Hj Hy|l j y e Hj Hy|l j y e Hj Hy _|l j y e Hj Hy|l j y Hj Hy];
    (destruct (decide (i = j)) as [->|]; [|by rewrite list_lookup_insert_ne]);
    simplify_eq; try lia; try done; destruct Hy; [congruence|lia].
Qed.

Lemma steps_ok now m l l' : length m = 6%nat -> rtc (table_step now m) l l' ->
  table_ok l -> table_ok l'.
Proof. intros Hm. induction 1; eauto using table_step_ok. Qed.

Lemma steps_length now m l l' : rtc (table_step now m) l l' -> length l' = length l.
Proof. induction 1 as [|l l1 l2 H1 _ IH]; [done|]. rewrite IH. by eapply table_step_length. Qed.

Lemma steps_others now m l l' i x : rtc (table_step now m) l l' ->
  l !! i = Some x -> valid_lease now x -> mac x <> m -> l' !! i = Some x.
Proof. induction 1; eauto using table_step_others. Qed.

Lemma initial_ok n : table_ok (replicate n cleared_lease).
Proof.
  assert (forall i x, replicate n cleared_lease !! i = Some x -> x = cleared_lease) as Hr.
  { intros i x Hx. by apply lookup_replicate in Hx as [-> _]. }
  split.
  - apply Forall_replicate. done.
  - by apply Forall_replicate.
  - intros i j x y Hx _ _ Hn. apply Hr in Hx as ->. done.
Qed.

(** ** The operations of the code *)

Section operations.
Context `{!DhcpdConst}.
Variable conf : dhcpd_config_s.
Variables (now sendrc : Z).

(** The range the table describes. *)
Record wf_conf : Prop := {
  wf_max : 0 < MAXLEASES < 2 ^ 31;
  wf_start : 0 < ds_startip conf;
  wf_end : ds_endip conf = ds_startip conf + MAXLEASES - 1;
  wf_top : ds_endip conf < 2 ^ 32 - 1;
}.
Hypothesis Hconf : wf_conf.

Definition table_size (s : dhcpd_state_s) : Prop := length (ds_leases s) = Z.to_nat MAXLEASES.

Lemma lease_at_Some i s x : ds_leases s !! i = Some x -> lease_at i s = x.
Proof. unfold lease_at. by intros ->. Qed.

Lemma find_mac_spec hw l i : 
  match find_mac hw l i with
  | Some j => (i <= j)%nat /\ exists x, l !! (j - i)%nat = Some x /\ mac x = hw
  | None => forall y, y ∈ l -> mac y <> hw
  end.
Proof.
  revert i. induction l as [|x t IH]; intros i; cbn [find_mac].
  { intros y Hy. by apply elem_of_nil in Hy. }
  case_bool_decide as Hx.
  { split; [lia|]. exists x. by rewrite Nat.sub_diag. }
  specialize (IH (S i)). destruct (find_mac hw t (S i)) as [j|].
  - destruct IH as (Hj & y & Hy & Hm). split; [lia|]. exists y.
    by replace (j - i)%nat with (S (j - S i)) by lia.
  - intros y Hy. apply elem_of_cons in Hy as [->|Hy]; [done|by apply IH].
Qed.

Lemma findbymac_Some hw s i : dhcpd_findbymac hw s = Some i ->
  exists x, ds_leases s !! i = Some x /\ mac x = take 6 hw.
Proof.
  unfold dhcpd_findbymac. intros E. pose proof (find_mac_spec (take 6 hw) (ds_leases s) 0) as Hfm.
  rewrite E in Hfm. destruct Hfm as (_ & x & Hx & Hm). rewrite Nat.sub_0_r in Hx. eauto.
Qed.

Lemma findbymac_None hw s : dhcpd_findbymac hw s = None ->
  forall y, y ∈ ds_leases s -> mac y <> take 6 hw.
Proof.
  unfold dhcpd_findbymac. intros E. pose proof (find_mac_spec (take 6 hw) (ds_leases s) 0) as Hfm.
  by rewrite E in Hfm.
Qed.

(** An address of the range and the entry that belongs to it. *)
Lemma in_range_lookup ip s : table_size s -> ds_startip conf <= ip <= ds_endip conf ->
  exists x, ds_leases s !! Z.to_nat (ip - ds_startip conf) = Some x.
Proof.
  intros Hs Hip. destruct Hconf as [Hm H0 He Ht]. apply lookup_lt_is_Some_2.
  unfold table_size in Hs. lia.
Qed.

Lemma setlease_index ip : ds_startip conf <= ip <= ds_endip conf ->
  s32 (u32 (ip - ds_startip conf)) = ip - ds_startip conf.
Proof.
  intros Hip. destruct Hconf as [Hm H0 He Ht]. rewrite u32_small, s32_small; lia.
Qed.

Lemma setlease_in hw ip e s : ds_startip conf <= ip <= ds_endip conf ->
  dhcpd_setlease conf now hw ip e s =
  (true, set_leases (<[Z.to_nat (ip - ds_startip conf) :=
           {| mac := take 6 hw; allocated := true; expiry := now + e |}]> (ds_leases s)) s).
Proof.
  intros Hip. unfold dhcpd_setlease. rewrite setlease_index by done.
  destruct Hconf as [Hm H0 He Ht].
  rewrite (proj2 (Z.leb_le _ _)), (proj2 (Z.ltb_lt _ _)) by lia. done.
Qed.

Lemma leaseipaddr_in i s x : table_size s -> ds_leases s !! i = Some x ->
  dhcp_leaseipaddr conf i = Z.of_nat i + ds_startip conf /\
  ds_startip conf <= dhcp_leaseipaddr conf i <= ds_endip conf.
Proof.
  intros Hs Hx. apply lookup_lt_Some in Hx. unfold table_size in Hs.
  destruct Hconf as [Hm H0 He Ht]. unfold dhcp_leaseipaddr. rewrite u32_small; lia.
Qed.

(** The entry is freed, if it was taken, and [lease_free] says whether it is free. *)
Lemma lease_free_spec ip s : table_size s -> ds_startip conf <= ip <= ds_endip conf ->
  let i := Z.to_nat (ip - ds_startip conf) in
  exists x, ds_leases s !! i = Some x /\
  lease_free conf now ip s =
    if allocated x then
      if now <? expiry x then (false, s)
      else (true, set_leases (<[i := cleared_lease]> (ds_leases s)) s)
    else (true, s).
Proof.
  intros Hs Hip i. destruct (in_range_lookup ip s Hs Hip) as [x Hx]. exists x. split; [done|].
  unfold lease_free, dhcpd_findbyipaddr, dhcpd_leaseexpired.
  rewrite !(proj2 (Z.leb_le _ _)) by lia. cbn [andb]. fold i in Hx |- *.
  rewrite (lease_at_Some i s x Hx). destruct (allocated x); [|done].
  by rewrite (lease_at_Some i s x Hx).
Qed.

(** ** Allocation *)

(** An address whose last byte is neither 0 nor 255. *)
Definition usable (ip : Z) : bool :=
  negb ((Z.land ip 0xff =? 0) || (Z.land ip 0xff =? 0xff)).

(** The address has no lease, or an expired one. *)
Definition free_at (ip : Z) (s : dhcpd_state_s) : Prop :=
  exists x, ds_leases s !! Z.to_nat (ip - ds_startip conf) = Some x /\
            (allocated x = false \/ expiry x <= now).

Definition held_lease : lease_s :=
  {| mac := no_mac; allocated := true; expiry := now + OFFERTIME |}.

Lemma lease_free_true ip s : table_size s -> ds_startip conf <= ip <= ds_endip conf ->
  (lease_free conf now ip s).1 = true <-> free_at ip s.
Proof.
  intros Hs Hip. destruct (lease_free_spec ip s Hs Hip) as (x & Hx & E). rewrite E. unfold free_at.
  split.
  - intros Hf. exists x. split; [done|]. destruct (allocated x); [right|by left].
    destruct (Z.ltb_spec now (expiry x)); [done|lia].
  - intros (y & Hy & Hf). rewrite Hx in Hy. injection Hy as <-. destruct (allocated x); [|done].
    destruct (Z.ltb_spec now (expiry x)); [|done]. destruct Hf; [done|lia].
Qed.

Lemma lease_free_state ip s :
  let r := lease_free conf now ip s in
  if r.1 then exists l, r.2 = set_leases l s /\ forall z,
      <[Z.to_nat (ip - ds_startip conf) := z]> l = <[Z.to_nat (ip - ds_startip conf) := z]> (ds_leases s)
  else r.2 = s.
Proof.
  unfold lease_free, dhcpd_findbyipaddr, dhcpd_leaseexpired.
  repeat case_match; simplify_eq; simpl; try done;
    first [by eexists; split; [|intros; apply list_insert_insert_eq]
          | exists (ds_leases s); split; [by destruct s|done]].
Qed.

Lemma alloc_loop_spec fuel ip s : table_size s -> ds_startip conf <= ip ->
  ds_endip conf + 1 - ip < Z.of_nat fuel ->
  (exists a, ip <= a <= ds_endip conf /\ usable a = true /\ free_at a s /\
     alloc_loop conf now fuel ip s =
       (a, set_leases (<[Z.to_nat (a - ds_startip conf) := held_lease]> (ds_leases s)) s)) \/
  ((forall a, ip <= a <= ds_endip conf -> usable a = true -> ~ free_at a s) /\
   alloc_loop conf now fuel ip s = (0, s)).
Proof.
  intros Hs. revert ip. induction fuel as [|fuel IH]; intros ip Hip Hf.
  { right. split; [intros a Ha; lia|done]. }
  cbn [alloc_loop]. destruct (Z.leb_spec ip (ds_endip conf)) as [Hle|Hgt].
  2: { right. split; [intros a Ha; lia|done]. }
  destruct Hconf as [Hm H0 He Ht]. rewrite (u32_small (ip + 1)) by lia.
  specialize (IH (ip + 1) ltac:(lia) ltac:(lia)).
  assert ((usable ip = true -> ~ free_at ip s) ->
    alloc_loop conf now (S fuel) ip s = alloc_loop conf now fuel (ip + 1) s ->
    (exists a, ip <= a <= ds_endip conf /\ usable a = true /\ free_at a s /\
       alloc_loop conf now (S fuel) ip s =
       (a, set_leases (<[Z.to_nat (a - ds_startip conf) := held_lease]> (ds_leases s)) s)) \/
    ((forall a, ip <= a <= ds_endip conf -> usable a = true -> ~ free_at a s) /\
     alloc_loop conf now (S fuel) ip s = (0, s))) as Hskip.
  { intros Hno ->. destruct IH as [(a & Ha & IH)|[Hn IH]]; [left; exists a; split; [lia|done]|right].
    split; [|done]. intros a Ha. destruct (decide (a = ip)) as [->|]; [done|]. apply Hn. lia. }
  cbn [alloc_loop] in Hskip. rewrite (proj2 (Z.leb_le ip _)), (u32_small (ip + 1)) in Hskip by lia.
  destruct ((Z.land ip 0xff =? 0) || (Z.land ip 0xff =? 0xff)) eqn:Eu.
  { apply Hskip; [|done]. unfold usable. by rewrite Eu. }
  pose proof (lease_free_true ip s Hs ltac:(lia)) as Hfree.
  pose proof (lease_free_state ip s) as Hst. cbv zeta in Hst.
  destruct (lease_free conf now ip s) as [[] s1]; simpl in *.
  - left. exists ip. destruct Hst as (l & -> & Hl). split; [lia|].
    split; [unfold usable; by rewrite Eu|]. split; [by apply Hfree|].
    f_equal. cbn [set_leases ds_leases]. rewrite Hl. done.
  - subst s1. apply Hskip; [|done]. intros _ Hfr. by apply Hfree in Hfr.
Qed.

End operations.
