(* ===== verification/DhcpdServer.v ===== *)
(** The message handlers of the DHCP server: their effect on the lease table
    ([table_step]s) and the reply they send. *)

From S2P Require Import Prelude Dhcpd DhcpdParse DhcpdTable.
Import Dhcpd.

Section server.
Context `{!DhcpdConst}.
Variable conf : dhcpd_config_s.
Variables (now sendrc : Z).
Hypothesis Hconf : wf_conf conf.

(** ** Building a packet leaves the rest of the state alone *)

Record same_core (s s' : dhcpd_state_s) : Prop := {
  core_leases : ds_leases s' = ds_leases s;
  core_in : ds_inpacket s' = ds_inpacket s;
  core_opts : ds_opts s' = ds_opts s;
  core_server : ds_serverip s' = ds_serverip s;
}.

#[export] Instance same_core_preorder : PreOrder same_core.
Proof. split; [by split|]. intros a b c [] []. split; congruence. Qed.

Lemma core_yiaddr ip s : same_core s (set_yiaddr ip s).
Proof. done. Qed.

Lemma core_ciaddr s : same_core s (copy_ciaddr s).
Proof. done. Qed.

Lemma core_addoption o s : same_core s (dhcpd_addoption o s).
Proof. unfold dhcpd_addoption. repeat case_match; done. Qed.

Lemma core_initpacket t s : same_core s (dhcpd_initpacket t s).
Proof.
  unfold dhcpd_initpacket, dhcpd_addoption8, dhcpd_addoption32.
  etrans; [|apply core_addoption]. etrans; [|apply core_addoption]. done.
Qed.

Lemma core_lease_options lt s : same_core s (add_lease_options conf lt s).
Proof.
  unfold add_lease_options, dhcpd_addoption32.
  repeat case_match; repeat (etrans; [|apply core_addoption]); done.
Qed.

Lemma core_sendpacket b s : same_core s (dhcpd_sendpacket sendrc b s).2.
Proof. unfold dhcpd_sendpacket, reply_address. repeat case_match; by simplify_eq. Qed.

Lemma core_sendoffer ip lt s : same_core s (dhcpd_sendoffer conf sendrc ip lt s).2.
Proof.
  unfold dhcpd_sendoffer. etrans; [|apply core_sendpacket]. etrans; [|apply core_lease_options].
  etrans; [apply core_initpacket|]. apply core_yiaddr.
Qed.

Lemma core_sendnak s : same_core s (dhcpd_sendnak sendrc s).2.
Proof.
  unfold dhcpd_sendnak. etrans; [|apply core_sendpacket].
  etrans; [apply core_initpacket|]. apply core_ciaddr.
Qed.

(** The state an ACK is sent from. *)
Definition ack_packet (ip : Z) (s : dhcpd_state_s) : dhcpd_state_s :=
  let s := set_yiaddr ip (copy_ciaddr (dhcpd_initpacket DHCPACK s)) in
  add_lease_options conf (dhcpd_verifyreqleasetime LEASETIME s) s.

Lemma core_ack_packet ip s : same_core s (ack_packet ip s).
Proof.
  unfold ack_packet. etrans; [|apply core_lease_options].
  etrans; [apply core_initpacket|]. etrans; [apply core_ciaddr|]. apply core_yiaddr.
Qed.

(** ** Effects on the table *)

Definition client (s : dhcpd_state_s) : list Z := take 6 (chaddr s).

Lemma core_client s s' : same_core s s' -> client s' = client s.
Proof. intros [_ Hi _ _]. unfold client, chaddr. by rewrite Hi. Qed.

Lemma sendack_leases ip s : ds_startip conf <= ip <= ds_endip conf ->
  let r := dhcpd_sendack conf now sendrc ip s in
  ds_leases r.2 = if sendrc <? 0 then ds_leases s else
    <[Z.to_nat (ip - ds_startip conf) :=
      {| mac := client s; allocated := true;
         expiry := now + dhcpd_verifyreqleasetime LEASETIME s |}]> (ds_leases s).
Proof.
  intros Hip r. subst r. unfold dhcpd_sendack. fold (chaddr).
  set (s1 := set_yiaddr ip (copy_ciaddr (dhcpd_initpacket DHCPACK s))).
  assert (same_core s s1) as Hc1.
  { etrans; [apply core_initpacket|]. etrans; [apply core_ciaddr|]. apply core_yiaddr. }
  set (lt := dhcpd_verifyreqleasetime LEASETIME s1).
  assert (lt = dhcpd_verifyreqleasetime LEASETIME s) as <-.
  { unfold lt, dhcpd_verifyreqleasetime. by rewrite (core_opts _ _ Hc1). }
  pose proof (core_sendpacket IGNOREBROADCAST (add_lease_options conf lt s1)) as Hc2.
  assert (same_core s (dhcpd_sendpacket sendrc IGNOREBROADCAST (add_lease_options conf lt s1)).2) as Hc.
  { etrans; [exact Hc1|]. etrans; [apply core_lease_options|done]. }
  assert ((dhcpd_sendpacket sendrc IGNOREBROADCAST (add_lease_options conf lt s1)).1 = sendrc) as Hrc.
  { unfold dhcpd_sendpacket. by case_match. }
  destruct (dhcpd_sendpacket sendrc IGNOREBROADCAST (add_lease_options conf lt s1)) as [rc s2].
  simpl in *. subst rc. destruct (sendrc <? 0); simpl; [apply Hc|].
  rewrite (setlease_in conf now Hconf) by done. simpl. destruct Hc as [Hl Hi _ _].
  unfold client, chaddr. by rewrite Hl, Hi.
Qed.

Notation steps s s' := (rtc (table_step now (client s)) (ds_leases s) (ds_leases s')).

Lemma step_1 m l l' : table_step now m l l' -> rtc (table_step now m) l l'.
Proof. apply rtc_once. Qed.

Notation slot ip := (Z.to_nat (ip - ds_startip conf)).

(** [ip] may be given to the client: its entry is the client's, or free. *)
Definition may_take (s : dhcpd_state_s) (ip : Z) : Prop :=
  ds_startip conf <= ip <= ds_endip conf /\
  forall e, table_step now (client s) (ds_leases s)
    (<[slot ip := {| mac := client s; allocated := true; expiry := e |}]> (ds_leases s)).

(** The chosen address, if any, may be given to the client, and only its entry
    of the table may have changed; no address is chosen when none is free. *)
Definition chosen (s : dhcpd_state_s) (r : Z * Z * dhcpd_state_s) : Prop :=
  exists l, r.2 = set_leases l s /\
    ((r.1.1 = 0 /\ l = ds_leases s /\ dhcpd_findbymac (chaddr s) s = None /\
      forall a, ds_startip conf <= a <= ds_endip conf -> usable a = true -> ~ free_at conf now a s) \/
     (may_take s r.1.1 /\ forall z, <[slot r.1.1 := z]> l = <[slot r.1.1 := z]> (ds_leases s))).

Lemma take_own s i x : table_size s -> ds_leases s !! i = Some x -> mac x = client s ->
  may_take s (dhcp_leaseipaddr conf i) /\ slot (dhcp_leaseipaddr conf i) = i.
Proof.
  intros Hs Hx Hm. destruct (leaseipaddr_in conf Hconf i s x Hs Hx) as [Hip Hr].
  assert (slot (dhcp_leaseipaddr conf i) = i) as Hsl by lia. split; [|done].
  split; [done|]. intros e. rewrite Hsl. by eapply step_renew.
Qed.

Lemma take_free s a : dhcpd_findbymac (chaddr s) s = None ->
  ds_startip conf <= a <= ds_endip conf -> free_at conf now a s -> may_take s a.
Proof.
  intros Hn Ha (x & Hx & Hfree). split; [done|]. intros e.
  eapply step_grant; [done|done|]. by apply findbymac_None.
Qed.

Lemma alloc_chosen s lt : table_size s -> dhcpd_findbymac (chaddr s) s = None ->
  chosen s (let '(ip, s) := dhcpd_allocipaddr conf now s in (ip, lt, s)).
Proof.
  intros Hs Hn. unfold dhcpd_allocipaddr.
  pose proof (wf_end conf Hconf). pose proof (wf_max conf Hconf).
  destruct (alloc_loop_spec conf now Hconf (Z.to_nat (ds_endip conf - ds_startip conf + 2))
    (ds_startip conf) s Hs) as [(a & Ha & _ & Hfree & ->)|[Hno ->]]; [lia..| |].
  - eexists. split; [done|]. right. split; [by apply take_free|].
    intros z. apply list_insert_insert_eq.
  - exists (ds_leases s). split; [by destruct s|]. by left.
Qed.

Lemma discover_address_spec s : table_size s -> chosen s (discover_address conf now s).
Proof.
  intros Hs. unfold discover_address. destruct (dhcpd_findbymac (chaddr s) s) as [i|] eqn:Ef.
  - destruct (findbymac_Some _ _ _ Ef) as (x & Hx & Hm).
    destruct (take_own s i x Hs Hx Hm) as [Htake Hsl].
    unfold dhcpd_leaseexpired. destruct (now <? expiry (lease_at i s)).
    + exists (ds_leases s). split; [by destruct s|]. by right.
    + eexists. split; [done|]. right. split; [done|]. simpl. rewrite Hsl.
      intros z. apply list_insert_insert_eq.
  - unfold dhcpd_verifyreqip. set (reqip := ds_optreqip (ds_opts s)).
    destruct ((ds_startip conf <=? reqip) && (reqip <=? ds_endip conf)) eqn:Er;
      [|by apply alloc_chosen].
    breflect. pose proof (lease_free_true conf now Hconf reqip s Hs ltac:(lia)) as Hfree.
    pose proof (lease_free_state conf now reqip s) as Hst. cbv zeta in Hst.
    destruct (lease_free conf now reqip s) as [[] s1]; simpl in Hst, Hfree.
    + destruct Hst as (l & -> & Hl). exists l. split; [done|]. right.
      split; [|done]. apply take_free; [done|done|]. by apply Hfree.
    + subst s1. by apply alloc_chosen.
Qed.

Lemma discover_steps s : table_size s -> steps s (dhcpd_discover conf now sendrc s).2.
Proof.
  intros Hs. unfold dhcpd_discover. pose proof (discover_address_spec s Hs) as Hspec.
  destruct (discover_address conf now s) as [[ip lt] s1].
  destruct Hspec as (l & Hs1 & [(Hip & -> & _)|([Hip Hstep] & Hl)]); simpl in *; subst s1.
  { by subst ip. }
  pose proof (wf_start conf Hconf). rewrite (proj2 (Z.eqb_neq ip 0)) by lia.
  rewrite (setlease_in conf now Hconf) by done.
  rewrite (core_leases _ _ (core_sendoffer _ _ _)). cbn [set_leases ds_leases]. rewrite Hl.
  apply step_1, Hstep.
Qed.

(** The decision on a request: an ACK is for an address the client may take,
    otherwise at most an expired lease is removed. *)
Lemma request_decision_spec s : table_size s ->
  let '(r, ip, s1) := request_decision conf now s in
  exists l, s1 = set_leases l s /\
    match r with
    | Ack => l = ds_leases s /\ may_take s ip
    | _ => rtc (table_step now (client s)) (ds_leases s) l
    end.
Proof.
  intros Hs. unfold request_decision.
  assert (s = set_leases (ds_leases s) s) as Hid by (by destruct s).
  destruct (dhcpd_findbymac (chaddr s) s) as [i|] eqn:Ef.
  - destruct (findbymac_Some _ _ _ Ef) as (x & Hx & Hm).
    destruct (take_own s i x Hs Hx Hm) as [Htake _].
    assert (forall b : bool, let '(r, ip, s1) := (if b then Ack else Nak, dhcp_leaseipaddr conf i, s) in
      exists l, s1 = set_leases l s /\ match r with
      | Ack => l = ds_leases s /\ may_take s ip
      | _ => rtc (table_step now (client s)) (ds_leases s) l end) as Hack.
    { intros []; by exists (ds_leases s). }
    destruct (negb (ds_optserverip _ =? 0)); [apply Hack|].
    destruct (negb (ds_optreqip _ =? 0)); apply Hack.
  - destruct (negb _ && _); [|by exists (ds_leases s)].
    set (reqip := ds_optreqip (ds_opts s)).
    unfold dhcpd_findbyipaddr.
    destruct ((ds_startip conf <=? reqip) && (reqip <=? ds_endip conf)) eqn:Er;
      [|by exists (ds_leases s)].
    breflect. destruct (in_range_lookup conf Hconf reqip s Hs ltac:(lia)) as [x Hx].
    rewrite (lease_at_Some _ _ _ Hx). destruct (allocated x) eqn:Ha.
    + unfold dhcpd_leaseexpired. rewrite (lease_at_Some _ _ _ Hx).
      destruct (Z.ltb_spec now (expiry x)); [by exists (ds_leases s)|].
      eexists. split; [done|]. apply step_1. by eapply step_expire.
    + exists (ds_leases s). split; [done|]. split; [done|]. apply take_free; [done|lia|].
      exists x. by split; [|left].
Qed.

Lemma request_steps s : table_size s -> steps s (dhcpd_request conf now sendrc s).2.
Proof.
  intros Hs. unfold dhcpd_request. pose proof (request_decision_spec s Hs) as Hr.
  destruct (request_decision conf now s) as [[r ip] s1]. destruct Hr as (l & -> & Hr). destruct r.
  - done.
  - destruct Hr as (-> & Hip & Hstep). simpl. rewrite sendack_leases by done. simpl.
    destruct (sendrc <? 0); [done|]. apply step_1, Hstep.
  - simpl. by rewrite (core_leases _ _ (core_sendnak _)).
Qed.

Lemma decline_steps s : steps s (dhcpd_decline now s).2.
Proof.
  unfold dhcpd_decline. destruct (dhcpd_findbymac (chaddr s) s) as [i|] eqn:Ef; [|done].
  destruct (findbymac_Some _ _ _ Ef) as (x & Hx & Hm). simpl. rewrite (lease_at_Some _ _ _ Hx).
  apply step_1. by eapply step_decline.
Qed.

Lemma release_steps s : steps s (dhcpd_release s).2.
Proof.
  unfold dhcpd_release. destruct (dhcpd_findbymac (chaddr s) s) as [i|] eqn:Ef; [|done].
  destruct (findbymac_Some _ _ _ Ef) as (x & Hx & Hm). simpl.
  apply step_1. by eapply step_release.
Qed.

Lemma dispatch_steps s : table_size s -> steps s (dhcpd_dispatch conf now sendrc s).
Proof.
  intros Hs. unfold dhcpd_dispatch.
  repeat case_match; auto using discover_steps, request_steps, decline_steps, release_steps, rtc_refl.
Qed.

(** ** The packet buffers *)

Definition packet_ok (p : list Z) : Prop := Forall is_byte p /\ zlen p = sizeof_dhcpmsg.

Lemma packet_zwrite off d p : Forall is_byte d -> packet_ok p -> packet_ok (zwrite off d p).
Proof.
  intros Hd [Hb Hl]. split; [by apply Forall_zwrite|]. by rewrite zlen_zwrite.
Qed.

Lemma packet_zero : packet_ok (zero_bytes sizeof_dhcpmsg).
Proof. split; [|done]. by apply Forall_replicate. Qed.

Lemma packet_copy off n s p : packet_ok (ds_inpacket s) -> packet_ok p ->
  packet_ok (copy_in_field off n s p).
Proof. intros [Hb _]. apply packet_zwrite. by apply Forall_zslice. Qed.

Lemma packet_addoption o s : Forall is_byte o -> packet_ok (ds_outpacket s) ->
  packet_ok (ds_outpacket (dhcpd_addoption o s)).
Proof.
  intros Ho Hp. unfold dhcpd_addoption. repeat case_match; try done. simpl.
  apply packet_zwrite; [solve_bytes|]. apply packet_zwrite; [by apply Forall_take|done].
Qed.

Lemma packet_addoption32 code v s : is_byte code -> packet_ok (ds_outpacket s) ->
  packet_ok (ds_outpacket (dhcpd_addoption32 code v s)).
Proof.
  intros Hc. apply packet_addoption. apply Forall_app_2; [solve_bytes|].
  apply le_bytes_byte.
Qed.

Lemma packet_initpacket t s : is_byte t -> packet_ok (ds_inpacket s) ->
  packet_ok (ds_outpacket (dhcpd_initpacket t s)).
Proof.
  intros Ht Hi. unfold dhcpd_initpacket. apply packet_addoption32; [done|].
  apply packet_addoption; [solve_bytes|].
  cbn [set_out ds_outpacket]. repeat (apply packet_zwrite; [solve_bytes|]).
  case_bool_decide; repeat apply packet_copy; try done;
    (apply packet_zwrite; [solve_bytes|apply packet_zero]).
Qed.

Lemma packet_lease_options lt s : packet_ok (ds_outpacket s) ->
  packet_ok (ds_outpacket (add_lease_options conf lt s)).
Proof.
  intros Hp. unfold add_lease_options.
  repeat case_match; repeat (apply packet_addoption32; [done|]); done.
Qed.

Lemma packet_yiaddr ip s : packet_ok (ds_outpacket s) -> packet_ok (ds_outpacket (set_yiaddr ip s)).
Proof. intros Hp. apply packet_zwrite; [apply le_bytes_byte|done]. Qed.

Lemma sendpacket_out b s : ds_outpacket (dhcpd_sendpacket sendrc b s).2 = ds_outpacket s.
Proof. unfold dhcpd_sendpacket, reply_address. repeat case_match; by simplify_eq. Qed.

Lemma packet_ciaddr s : packet_ok (ds_inpacket s) -> packet_ok (ds_outpacket s) ->
  packet_ok (ds_outpacket (copy_ciaddr s)).
Proof. intros Hi Hp. by apply packet_copy. Qed.

Lemma packet_sendoffer ip lt s : packet_ok (ds_inpacket s) ->
  packet_ok (ds_outpacket (dhcpd_sendoffer conf sendrc ip lt s).2).
Proof.
  intros Hi. unfold dhcpd_sendoffer. rewrite sendpacket_out.
  apply packet_lease_options, packet_yiaddr. by apply packet_initpacket.
Qed.

Lemma packet_sendack ip s : packet_ok (ds_inpacket s) ->
  packet_ok (ds_outpacket (dhcpd_sendack conf now sendrc ip s).2).
Proof.
  intros Hi. unfold dhcpd_sendack.
  set (s1 := set_yiaddr ip (copy_ciaddr (dhcpd_initpacket DHCPACK s))).
  assert (packet_ok (ds_outpacket s1)) as H1.
  { apply packet_yiaddr, packet_ciaddr; [|by apply packet_initpacket].
    by rewrite (core_in _ _ (core_initpacket _ _)). }
  pose proof (sendpacket_out IGNOREBROADCAST
    (add_lease_options conf (dhcpd_verifyreqleasetime LEASETIME s1) s1)) as Hout.
  destruct (dhcpd_sendpacket _ _ _) as [rc s2]. simpl in Hout.
  unfold dhcpd_setlease. repeat case_match; simpl; rewrite Hout; by apply packet_lease_options.
Qed.

Lemma packet_sendnak s : packet_ok (ds_inpacket s) ->
  packet_ok (ds_outpacket (dhcpd_sendnak sendrc s).2).
Proof.
  intros Hi. unfold dhcpd_sendnak. rewrite sendpacket_out. apply packet_ciaddr.
  - by rewrite (core_in _ _ (core_initpacket _ _)).
  - by apply packet_initpacket.
Qed.

Lemma discover_out s : table_size s -> packet_ok (ds_inpacket s) -> packet_ok (ds_outpacket s) ->
  packet_ok (ds_outpacket (dhcpd_discover conf now sendrc s).2).
Proof.
  intros Hs Hi Ho. unfold dhcpd_discover. pose proof (discover_address_spec s Hs) as Hspec.
  destruct (discover_address conf now s) as [[ip lt] s1]. destruct Hspec as (l & Hs1 & _).
  simpl in Hs1. subst s1. case_match; [done|]. unfold dhcpd_setlease. cbv zeta. destruct (_ && _); [|done].
  by apply packet_sendoffer.
Qed.

Lemma request_out s : table_size s -> packet_ok (ds_inpacket s) -> packet_ok (ds_outpacket s) ->
  packet_ok (ds_outpacket (dhcpd_request conf now sendrc s).2).
Proof.
  intros Hs Hi Ho. unfold dhcpd_request. pose proof (request_decision_spec s Hs) as Hr.
  destruct (request_decision conf now s) as [[r ip] s1]. destruct Hr as (l & -> & _).
  destruct r; [done|by apply packet_sendack|by apply packet_sendnak].
Qed.

Lemma packet_dispatch s : table_size s -> packet_ok (ds_inpacket s) -> packet_ok (ds_outpacket s) ->
  packet_ok (ds_outpacket (dhcpd_dispatch conf now sendrc s)).
Proof.
  intros Hs Hi Ho. unfold dhcpd_dispatch, dhcpd_decline, dhcpd_release.
  repeat case_match; auto using discover_out, request_out.
Qed.

Lemma setlease_in_packet hw ip e s :
  ds_inpacket (dhcpd_setlease conf now hw ip e s).2 = ds_inpacket s.
Proof. unfold dhcpd_setlease. by case_match. Qed.

Lemma sendack_in ip s : ds_inpacket (dhcpd_sendack conf now sendrc ip s).2 = ds_inpacket s.
Proof.
  unfold dhcpd_sendack.
  set (s1 := set_yiaddr ip (copy_ciaddr (dhcpd_initpacket DHCPACK s))).
  set (s2 := add_lease_options conf _ s1).
  pose proof (core_in _ _ (core_sendpacket IGNOREBROADCAST s2)) as Hc2.
  destruct (dhcpd_sendpacket sendrc IGNOREBROADCAST s2) as [rc s3]. simpl in Hc2.
  assert (ds_inpacket s2 = ds_inpacket s) as Hs2.
  { transitivity (ds_inpacket s1); [eapply core_in, core_lease_options|].
    eapply core_in. etrans; [apply core_initpacket|]. etrans; [apply core_ciaddr|apply core_yiaddr]. }
  cbv beta iota; destruct (rc <? 0); simpl; [|rewrite setlease_in_packet]; congruence.
Qed.

Lemma dispatch_in s : table_size s ->
  ds_inpacket (dhcpd_dispatch conf now sendrc s) = ds_inpacket s.
Proof.
  intros Hs. unfold dhcpd_dispatch, dhcpd_discover, dhcpd_request, dhcpd_decline, dhcpd_release.
  pose proof (discover_address_spec s Hs) as Hspec. pose proof (request_decision_spec s Hs) as Hr.
  destruct (discover_address conf now s) as [[ip lt] s1]. destruct Hspec as (l1 & Hs1 & _).
  destruct (request_decision conf now s) as [[r ip2] s2]. destruct Hr as (l2 & Hs2 & _).
  simpl in Hs1. subst s1 s2.
  case_match; [|case_match; [|repeat case_match; done]].
  - case_match; [done|]. unfold dhcpd_setlease. cbv zeta. destruct (_ && _); [|done].
    etrans; [eapply core_in, core_sendoffer|done].
  - destruct r; [done|cbn [snd]; by rewrite sendack_in|]. etrans; [eapply core_in, core_sendnak|done].
Qed.

(** ** One message *)

Record state_ok (s : dhcpd_state_s) : Prop := {
  st_in : packet_ok (ds_inpacket s);
  st_out : packet_ok (ds_outpacket s);
  st_size : table_size s;
  st_table : table_ok (ds_leases s);
}.

(** The client a message that arrives comes from. *)
Definition sender (data : list Z) (s : dhcpd_state_s) : list Z :=
  client (set_in (zwrite 0 data (ds_inpacket s)) s).

Lemma client_length s : packet_ok (ds_inpacket s) -> length (client s) = 6%nat.
Proof.
  intros [_ Hl]. unfold client, chaddr. pose proof (zlen_zslice off_chaddr 16 (ds_inpacket s)) as H16.
  rewrite Hl in H16. unfold zlen in H16. rewrite length_take.
  specialize (H16 ltac:(done) ltac:(done) ltac:(done)). lia.
Qed.

Lemma parse_done s : packet_ok (ds_inpacket s) -> packet_ok (ds_outpacket s) ->
  exists ok o, dhcpd_parseoptions s = Done (ok, if ok : bool then set_opts o s else s) \/
               dhcpd_parseoptions s = Done (ok, set_opts o s).
Proof.
  intros [Hib Hil] [Hob Hol]. unfold dhcpd_parseoptions.
  case_bool_decide; [|by exists false, no_options; left].
  destruct (parse_loop_done (ds_inpacket s ++ ds_outpacket s)) with
    (fuel := 500%nat) (ptr := (Z.to_nat off_options + 4)%nat) (remaining := DHCPD_OPTIONS_SIZE - 4)
    (optlen := 0) (overloaded := 0) (f := DHCPD_OPTION_FIELD) (o := no_options) as [[ok o] ->];
    try done.
  - by apply Forall_app_2.
  - unfold zlen, sizeof_dhcpmsg in *. rewrite length_app. lia.
  - exists ok, o. by right.
Qed.

Lemma message_ok data s : Forall is_byte data -> state_ok s ->
  exists s', dhcpd_message conf now sendrc data s = Done s' /\ state_ok s' /\
    rtc (table_step now (sender data s)) (ds_leases s) (ds_leases s').
Proof.
  intros Hd [Hi Ho Hs Ht]. unfold dhcpd_message, sender.
  set (s1 := set_in (zwrite 0 data (ds_inpacket s)) s).
  assert (packet_ok (ds_inpacket s1)) as Hi1 by (by apply packet_zwrite).
  assert (forall ok o, exists s', Done (if ok : bool then dhcpd_dispatch conf now sendrc (set_opts o s1)
      else set_opts o s1) = Done s' /\ state_ok s' /\
      rtc (table_step now (client s1)) (ds_leases s) (ds_leases s')) as Hgo.
  { intros [] o; eexists; (split; [done|]); [|by split].
    pose proof (dispatch_steps (set_opts o s1) Hs) as Hst.
    split; [|exact Hst]. split.
    - by rewrite dispatch_in.
    - by apply packet_dispatch.
    - unfold table_size. by rewrite (steps_length _ _ _ _ Hst).
    - eapply steps_ok; [|exact Hst|done]. by apply (client_length s1). }
  destruct (parse_done s1 Hi1 Ho) as (ok & o & [-> | ->]); simpl; [|apply Hgo].
  destruct ok; [apply (Hgo true)|]. by eexists.
Qed.

End server.
