(* ===== verification/DhcpdReply.v ===== *)
(** The replies of the DHCP server: their layout, and that the option parser
    reads back what was put into them. *)

From S2P Require Import Prelude Dhcpd DhcpdParse DhcpdTable DhcpdServer.
Import Dhcpd.

(** ** Byte order *)

Lemma htonl_range x : 0 <= htonl x < 2 ^ 32.
Proof.
  unfold htonl. pose proof (le_val_range (reverse (le_bytes 4 x))) as Hr.
  unfold zlen in Hr. rewrite length_reverse, length_le_bytes in Hr.
  apply Hr. apply Forall_reverse, le_bytes_byte.
Qed.

Lemma htonl_htonl x : htonl (htonl x) = u32 x.
Proof.
  unfold htonl at 1. unfold htonl.
  assert (le_bytes 4 (le_val (reverse (le_bytes 4 x))) = reverse (le_bytes 4 x)) as ->.
  { pose proof (le_bytes_val (reverse (le_bytes 4 x))) as E.
    rewrite length_reverse, length_le_bytes in E. apply E. apply Forall_reverse, le_bytes_byte. }
  by rewrite reverse_involutive, le_val_bytes.
Qed.

Lemma be32_le_bytes x : 0 <= x < 2 ^ 32 -> be32 (le_bytes 4 x) = htonl x.
Proof.
  intros Hx. unfold be32. rewrite take_ge by (rewrite length_le_bytes; lia).
  rewrite le_val_bytes. f_equal. by apply u32_small.
Qed.

(** ** The options of the packet being built *)

(** The outgoing packet is [head], the options [os] and END; [ds_optend] is at
    the END. *)
Definition out_has (s : dhcpd_state_s) (head : list Z) (os : list (Z * list Z)) : Prop :=
  exists tl, ds_outpacket s = head ++ encode_options os ++ DHCP_OPTION_END :: tl /\
    zlen (ds_outpacket s) = sizeof_dhcpmsg /\ zlen head = off_options + 4 /\
    ds_optend s = Some (4 + zlen (encode_options os)).

Lemma addoption_has s head os code d : out_has s head os ->
  4 + zlen (encode_options os) + zlen d + 3 < DHCPD_OPTIONS_SIZE ->
  out_has (dhcpd_addoption (encode_option (code, d)) s) head (os ++ [(code, d)]).
Proof.
  intros (tl & Hp & Hl & Hh & He) Hfit. unfold dhcpd_addoption. rewrite He. cbv zeta.
  change (default 0 (encode_option (code, d) !! 1%nat)) with (zlen d).
  change (encode_option (code, d)) with (code :: zlen d :: d).
  rewrite (proj2 (Z.ltb_lt _ _)) by lia.
  pose proof (zlen_nonneg d) as Hd. pose proof (zlen_nonneg (encode_options os)) as Hos.
  rewrite take_ge by (unfold zlen; simpl; lia).
  set (E := encode_options os) in *. set (o := code :: zlen d :: d).
  assert (zlen o = zlen d + 2) as Ho by (unfold zlen, o; simpl; lia).
  rewrite Hp, !zlen_app in Hl. change (zlen (DHCP_OPTION_END :: tl)) with (Z.of_nat (S (length tl))) in Hl.
  unfold sizeof_dhcpmsg, off_options, DHCPD_OPTIONS_SIZE in *.
  exists (drop (length o) tl). cbn [set_out ds_outpacket ds_optend].
  assert (zwrite (236 + (4 + zlen E)) o (ds_outpacket s) =
          (head ++ E ++ o) ++ drop (length o) (DHCP_OPTION_END :: tl)) as ->.
  { rewrite Hp, app_assoc. replace (236 + (4 + zlen E)) with (zlen (head ++ E)) by (rewrite zlen_app; lia).
    rewrite zwrite_at by (unfold zlen in *; simpl; lia). by rewrite <- !app_assoc. }
  replace (236 + (4 + zlen E) + (zlen d + 2)) with (zlen (head ++ E ++ o)) by (rewrite !zlen_app; lia).
  rewrite zwrite_at by (unfold zlen in *; rewrite length_drop; simpl; lia).
  rewrite drop_drop, encode_options_app. fold E.
  replace (encode_options [(code, d)]) with o by (unfold encode_options; simpl; by rewrite app_nil_r).
  rewrite Nat.add_1_r. cbn [drop]. rewrite <- !app_assoc. split; [done|].
  split; [|split; [done|f_equal; rewrite zlen_app; lia]].
  unfold zlen, sizeof_dhcpmsg in *. rewrite !length_app. cbn [length]. rewrite length_drop. lia.
Qed.

Lemma addoption32_has s head os code v : out_has s head os ->
  zlen (encode_options os) < 300 ->
  out_has (dhcpd_addoption32 code v s) head (os ++ [(code, le_bytes 4 v)]).
Proof.
  intros Hh Hl. unfold dhcpd_addoption32. apply (addoption_has s head os code (le_bytes 4 v) Hh).
  unfold zlen at 2. rewrite length_le_bytes. unfold DHCPD_OPTIONS_SIZE. lia.
Qed.

(** Writing a header field. *)
Lemma header_has s head os off d : out_has s head os -> 0 <= off -> off + zlen d <= off_options ->
  out_has (set_out (zwrite off d (ds_outpacket s)) (ds_optend s) s) (zwrite off d head) os.
Proof.
  intros (tl & Hp & Hl & Hh & He) Ho Hd. exists tl. cbn [set_out ds_outpacket ds_optend].
  rewrite !zlen_zwrite. split; [|done]. rewrite Hp. apply zwrite_app_l; lia.
Qed.

Section replies.
Context `{!DhcpdConst}.
Variable conf : dhcpd_config_s.
Variables (now sendrc : Z).

(** The header [dhcpd_initpacket] makes. *)
Definition init_header (s : dhcpd_state_s) : list Z :=
  let p := zwrite off_op [DHCP_REPLY] (zero_bytes sizeof_dhcpmsg) in
  copy_in_field off_chaddr 16 s (copy_in_field off_xid 4 s
    (copy_in_field off_hlen 1 s (copy_in_field off_htype 1 s p))).

Definition init_options (t : Z) (s : dhcpd_state_s) : list (Z * list Z) :=
  [(DHCP_OPTION_MSG_TYPE, [t]); (DHCP_OPTION_SERVER_ID, le_bytes 4 (ds_serverip s))].

Lemma zslice_zero off n m : 0 <= off -> 0 <= n -> off + n <= m ->
  zslice off n (zero_bytes m) = zero_bytes n.
Proof.
  intros. unfold zslice, zero_bytes. rewrite drop_replicate, take_replicate. f_equal. lia.
Qed.

(** The fields of the header; the condition on [giaddr] never holds, as it
    looks at the packet that has just been cleared. *)
Lemma init_header_fields s : packet_ok (ds_inpacket s) ->
  zlen (init_header s) = sizeof_dhcpmsg /\
  zslice off_op 1 (init_header s) = [DHCP_REPLY] /\
  zslice off_xid 4 (init_header s) = zslice off_xid 4 (ds_inpacket s) /\
  zslice off_chaddr 16 (init_header s) = zslice off_chaddr 16 (ds_inpacket s) /\
  zslice off_giaddr 4 (init_header s) = zero_bytes 4 /\
  zslice off_flags 2 (init_header s) = zero_bytes 2.
Proof.
  intros [_ Hl]. unfold init_header, copy_in_field.
  assert (zlen (zero_bytes sizeof_dhcpmsg) = 548) as Hz by done. unfold sizeof_dhcpmsg in Hl.
  unfold off_op, off_xid, off_chaddr, off_giaddr, off_flags, off_hlen, off_htype.
  rewrite !zlen_zwrite. split; [done|].
  assert (zlen [DHCP_REPLY] = 1) as H1 by done.
  split_and!;
    repeat first
      [ rewrite zslice_zwrite_before by (rewrite ?zlen_zwrite, ?zlen_zslice; lia)
      | rewrite zslice_zwrite_after by (rewrite ?zlen_zwrite, ?zlen_zslice; lia) ];
    try (apply zslice_zero; unfold sizeof_dhcpmsg; lia).
  - done.
  - rewrite zslice_zwrite_in by (rewrite ?zlen_zwrite, ?zlen_zslice; lia).
    rewrite Z.sub_diag. unfold zslice at 1. simpl drop. apply take_ge.
    pose proof (zlen_zslice 4 4 (ds_inpacket s)). unfold zlen in *. lia.
  - rewrite zslice_zwrite_in by (rewrite ?zlen_zwrite, ?zlen_zslice; lia).
    rewrite Z.sub_diag. unfold zslice at 1. simpl drop. apply take_ge.
    pose proof (zlen_zslice 28 16 (ds_inpacket s)). unfold zlen in *. lia.
Qed.

Lemma initpacket_has t s : packet_ok (ds_inpacket s) ->
  out_has (dhcpd_initpacket t s) (take 236 (init_header s) ++ g_magiccookie) (init_options t s).
Proof.
  intros Hi. destruct (init_header_fields s Hi) as (Hl & _ & _ & _ & Hg & _).
  unfold dhcpd_initpacket. fold (init_header s).
  rewrite bool_decide_eq_false_2 by (rewrite Hg; naive_solver).
  unfold init_options. set (h := take 236 (init_header s)).
  assert (length h = 236%nat) as Hh by (unfold h; rewrite length_take; unfold zlen, sizeof_dhcpmsg in Hl; lia).
  set (s1 := set_out _ (Some 4) s).
  assert (out_has s1 (h ++ g_magiccookie) []) as H1.
  { exists (drop 241 (init_header s)). cbn [set_out ds_outpacket ds_optend s1].
    rewrite !zlen_zwrite, zlen_app. split; [|unfold zlen; rewrite Hh; done].
    rewrite <- (take_drop 236 (init_header s)) at 1. fold h.
    replace off_options with (zlen h) by (unfold zlen; by rewrite Hh).
    rewrite zwrite_at by (rewrite length_drop; unfold zlen, sizeof_dhcpmsg in Hl; change (length g_magiccookie) with 4%nat; lia).
    replace (zlen h + 4) with (zlen (h ++ g_magiccookie)) by (rewrite zlen_app; done).
    rewrite app_assoc, zwrite_at by (rewrite !length_drop; change (length g_magiccookie) with 4%nat;
      unfold zlen, sizeof_dhcpmsg in Hl; cbn [length]; lia).
    rewrite !drop_drop. by rewrite <- !app_assoc. }
  apply (addoption_has s1 _ _ DHCP_OPTION_MSG_TYPE [t]) in H1; [|done].
  apply (addoption32_has _ _ _ DHCP_OPTION_SERVER_ID (ds_serverip s)) in H1; [|done].
  unfold dhcpd_addoption8. change [DHCP_OPTION_MSG_TYPE; 1; t] with
    (encode_option (DHCP_OPTION_MSG_TYPE, [t])).
  rewrite (core_server _ _ (core_addoption _ _)). exact H1.
Qed.

Definition option32 (code : Z) (o : option Z) : list (Z * list Z) :=
  match o with Some v => [(code, le_bytes 4 (htonl v))] | None => [] end.

(** The options of an OFFER or an ACK. *)
Definition reply_options (t lt : Z) (s : dhcpd_state_s) : list (Z * list Z) :=
  init_options t s ++ [(DHCP_OPTION_LEASE_TIME, le_bytes 4 (htonl lt))] ++
  option32 DHCP_OPTION_SUBNET_MASK (ds_netmask conf) ++
  option32 DHCP_OPTION_ROUTER (ds_routerip conf) ++
  option32 DHCP_OPTION_DNS_SERVER (ds_dnsip conf).

Lemma option32_has s head os code o : out_has s head os -> zlen (encode_options os) < 300 ->
  out_has (match o with Some v => dhcpd_addoption32 code (htonl v) s | None => s end) head
          (os ++ option32 code o).
Proof.
  intros Hh Hl. destruct o as [v|]; [by apply addoption32_has|]. by rewrite app_nil_r.
Qed.

Lemma option32_length code o : 0 <= zlen (encode_options (option32 code o)) <= 6.
Proof. by destruct o. Qed.

Lemma lease_options_has t lt s s0 head : out_has s head (init_options t s0) ->
  out_has (add_lease_options conf lt s) head (reply_options t lt s0).
Proof.
  intros Hh. unfold add_lease_options, reply_options. rewrite !app_assoc.
  pose proof (option32_length DHCP_OPTION_SUBNET_MASK (ds_netmask conf)).
  pose proof (option32_length DHCP_OPTION_ROUTER (ds_routerip conf)).
  assert (zlen (encode_options (init_options t s0 ++ [(DHCP_OPTION_LEASE_TIME, le_bytes 4 (htonl lt))]))
          = 15) as Hl by done.
  repeat apply option32_has; rewrite ?encode_options_app, ?zlen_app in *; try lia.
  by apply addoption32_has.
Qed.

(** ** What is sent *)

Lemma sendpacket_sent b s head os : out_has s head os -> exists dst,
  sent (dhcpd_sendpacket sendrc b s).2 = sent s ++ [(dst, head ++ encode_options os ++ [DHCP_OPTION_END])].
Proof.
  intros (tl & Hp & Hl & Hh & He). unfold dhcpd_sendpacket.
  destruct (reply_address b s) as [dst s1] eqn:Er. exists dst.
  assert (ds_outpacket s1 = ds_outpacket s /\ ds_optend s1 = ds_optend s /\ sent s1 = sent s)
    as (E1 & E2 & E3).
  { unfold reply_address in Er. repeat case_match; by simplify_eq. }
  cbn [snd log_sent sent]. rewrite E1, E2, E3, He, Hp. repeat f_equal. simpl default.
  unfold zslice. rewrite drop_0.
  replace (head ++ encode_options os ++ DHCP_OPTION_END :: tl)
    with ((head ++ encode_options os ++ [DHCP_OPTION_END]) ++ tl) by (by rewrite <- !app_assoc).
  rewrite take_app_length'; [done|]. rewrite !length_app. unfold zlen in *. simpl. lia.
Qed.

Lemma sent_addoption o s : sent (dhcpd_addoption o s) = sent s.
Proof. unfold dhcpd_addoption. repeat case_match; done. Qed.

Lemma sent_build t lt (f : dhcpd_state_s -> dhcpd_state_s) s : (forall s, sent (f s) = sent s) ->
  sent (add_lease_options conf lt (f (dhcpd_initpacket t s))) = sent s.
Proof.
  intros Hf. unfold add_lease_options, dhcpd_initpacket, dhcpd_addoption32, dhcpd_addoption8.
  repeat case_match; rewrite ?sent_addoption, Hf, ?sent_addoption; done.
Qed.

(** A packet that answers the message in [s] with message type [t], address
    [ip] and lease time [lt]: in a receiver's buffer its options are read back. *)
Definition reply_says (pkt : list Z) (s : dhcpd_state_s) (t ip lt : Z) : Prop :=
  zslice off_op 1 pkt = [DHCP_REPLY] /\
  zslice off_xid 4 pkt = zslice off_xid 4 (ds_inpacket s) /\
  zslice off_chaddr 16 pkt = chaddr s /\
  zslice off_yiaddr 4 pkt = le_bytes 4 (htonl ip) /\
  forall c, zlen (ds_inpacket c) = sizeof_dhcpmsg ->
    let c := set_in (zwrite 0 pkt (ds_inpacket c)) c in
    dhcpd_parseoptions c =
    Done (true, set_opts {| ds_optmsgtype := t; ds_optreqip := 0;
                            ds_optserverip := htonl (ds_serverip s); ds_optleasetime := lt |} c).

Lemma reply_options_read t lt s : 0 <= ds_serverip s < 2 ^ 32 -> 0 <= lt < 2 ^ 32 ->
  fold_left apply_option (reply_options t lt s) no_options =
  {| ds_optmsgtype := t; ds_optreqip := 0; ds_optserverip := htonl (ds_serverip s);
     ds_optleasetime := lt |}.
Proof.
  intros Hs Hlt. rewrite <- (be32_le_bytes (ds_serverip s)) by done.
  rewrite <- (u32_small lt) at 2 by done. rewrite <- htonl_htonl.
  rewrite <- (be32_le_bytes (htonl lt)) by apply htonl_range.
  unfold reply_options, option32. by destruct (ds_netmask conf), (ds_routerip conf), (ds_dnsip conf).
Qed.

Lemma reply_options_plain t lt s : Forall plain_option (reply_options t lt s).
Proof.
  unfold reply_options, option32.
  destruct (ds_netmask conf), (ds_routerip conf), (ds_dnsip conf); repeat constructor; done.
Qed.

Lemma reply_options_short t lt s : zlen (encode_options (reply_options t lt s)) < 100.
Proof.
  unfold reply_options, option32. by destruct (ds_netmask conf), (ds_routerip conf), (ds_dnsip conf).
Qed.

(** The header fields a reply is checked for. *)
Definition header_says (h : list Z) (s : dhcpd_state_s) : Prop :=
  zlen h = off_options /\ zslice off_op 1 h = [DHCP_REPLY] /\
  zslice off_xid 4 h = zslice off_xid 4 (ds_inpacket s) /\ zslice off_chaddr 16 h = chaddr s.

Lemma init_header_says s : packet_ok (ds_inpacket s) ->
  header_says (take 236 (init_header s)) s.
Proof.
  intros Hi. destruct (init_header_fields s Hi) as (Hl & Hop & Hx & Hc & _).
  assert (forall k j, 0 <= k -> 0 <= j -> k + j <= 236 ->
    zslice k j (take 236 (init_header s)) = zslice k j (init_header s)) as Hk.
  { intros k j H0 H1 H2. apply (zslice_zslice k j 236); lia. }
  split; [unfold zlen, sizeof_dhcpmsg in *; rewrite length_take; unfold off_options; lia|].
  by rewrite !Hk.
Qed.

Lemma header_says_addr h s off d : header_says h s -> zlen d = 4 ->
  off = off_ciaddr \/ off = off_yiaddr -> header_says (zwrite off d h) s.
Proof.
  intros (Hl & Hop & Hx & Hc) Hd Ho. unfold header_says.
  unfold off_options, off_op, off_xid, off_chaddr, off_ciaddr, off_yiaddr in *.
  rewrite zlen_zwrite, !zslice_zwrite_before, zslice_zwrite_after by lia. done.
Qed.

(** A packet with such a header, [reply_options] and END. *)
Lemma packet_says h s t ip lt : header_says h s ->
  zslice off_yiaddr 4 h = le_bytes 4 (htonl ip) -> 0 <= ds_serverip s < 2 ^ 32 -> 0 <= lt < 2 ^ 32 ->
  reply_says ((h ++ g_magiccookie) ++ encode_options (reply_options t lt s) ++ [DHCP_OPTION_END])
    s t ip lt.
Proof.
  intros (Hl & Hop & Hx & Hc) Hy Hs Hlt. unfold reply_says. rewrite <- app_assoc.
  unfold off_options in Hl. rewrite !zslice_app_l by (rewrite ?Hl; done).
  split_and!; [done..|]. intros c Hcl. cbv zeta. pose proof (reply_options_short t lt s) as Hsh.
  set (E := encode_options (reply_options t lt s)) in *.
  rewrite <- (reply_options_read t lt s) by done.
  eapply (parse_message _ h (reply_options t lt s)).
  - cbn [set_in ds_inpacket]. fold E.
    rewrite zwrite_0; [by rewrite <- !app_assoc|].
    rewrite !length_app. change (length g_magiccookie) with 4%nat.
    unfold zlen, sizeof_dhcpmsg in *. cbn [length]. lia.
  - unfold zlen in Hl. unfold off_options. lia.
  - fold E. unfold DHCPD_OPTIONS_SIZE. lia.
  - apply reply_options_plain.
Qed.

Lemma yiaddr_has s h os ip : out_has s (h ++ g_magiccookie) os -> zlen h = off_options ->
  out_has (set_yiaddr ip s) (zwrite off_yiaddr (le_bytes 4 (htonl ip)) h ++ g_magiccookie) os.
Proof.
  intros Ho Hl. apply (header_has _ _ _ off_yiaddr (le_bytes 4 (htonl ip))) in Ho; [|done..].
  by rewrite zwrite_app_l in Ho by (rewrite ?Hl; done).
Qed.

Lemma ciaddr_has s h os : out_has s (h ++ g_magiccookie) os -> zlen h = off_options ->
  zlen (zslice off_ciaddr 4 (ds_inpacket s)) = 4 ->
  out_has (copy_ciaddr s) (zwrite off_ciaddr (zslice off_ciaddr 4 (ds_inpacket s)) h ++ g_magiccookie) os.
Proof.
  intros Ho Hl Hc. apply (header_has _ _ _ off_ciaddr (zslice off_ciaddr 4 (ds_inpacket s))) in Ho;
    [|done|by rewrite Hc].
  by rewrite zwrite_app_l in Ho by (rewrite ?Hl, ?Hc; done).
Qed.

Lemma yiaddr_written h ip : zlen h = off_options ->
  zslice off_yiaddr 4 (zwrite off_yiaddr (le_bytes 4 (htonl ip)) h) = le_bytes 4 (htonl ip).
Proof. intros Hl. by rewrite zslice_zwrite_eq by (rewrite ?Hl; done). Qed.

Lemma sendoffer_says ip lt s : packet_ok (ds_inpacket s) ->
  0 <= ds_serverip s < 2 ^ 32 -> 0 <= lt < 2 ^ 32 -> exists dst pkt,
  sent (dhcpd_sendoffer conf sendrc ip lt s).2 = sent s ++ [(dst, pkt)] /\
  reply_says pkt s DHCPOFFER ip lt.
Proof.
  intros Hi Hs Hlt. pose proof (init_header_says s Hi) as Hh.
  pose proof (initpacket_has DHCPOFFER s Hi) as Ho.
  apply (yiaddr_has _ _ _ ip) in Ho; [|apply Hh].
  apply (lease_options_has _ lt) in Ho.
  destruct (sendpacket_sent IGNOREBROADCAST _ _ _ Ho) as [dst Hsent].
  exists dst. eexists. split.
  - unfold dhcpd_sendoffer. cbv zeta. rewrite Hsent.
    by rewrite (sent_build DHCPOFFER lt (set_yiaddr ip)).
  - apply packet_says; [|apply yiaddr_written, Hh|done..].
    apply header_says_addr; [done|done|by right].
Qed.

Lemma setlease_sent hw ip e s : sent (dhcpd_setlease conf now hw ip e s).2 = sent s.
Proof. unfold dhcpd_setlease. by case_match. Qed.

Lemma ack_leasetime ip s :
  dhcpd_verifyreqleasetime LEASETIME (set_yiaddr ip (copy_ciaddr (dhcpd_initpacket DHCPACK s))) =
  dhcpd_verifyreqleasetime LEASETIME s.
Proof.
  unfold dhcpd_verifyreqleasetime. cbn [set_yiaddr copy_ciaddr set_out ds_opts].
  by rewrite (core_opts _ _ (core_initpacket _ _)).
Qed.

Lemma sendack_sent ip s :
  sent (dhcpd_sendack conf now sendrc ip s).2 =
  sent (dhcpd_sendpacket sendrc IGNOREBROADCAST
    (add_lease_options conf (dhcpd_verifyreqleasetime LEASETIME s)
      (set_yiaddr ip (copy_ciaddr (dhcpd_initpacket DHCPACK s))))).2.
Proof.
  unfold dhcpd_sendack. cbv zeta. rewrite ack_leasetime.
  destruct (dhcpd_sendpacket _ _ _) as [rc s2].
  destruct (rc <? 0); [done|]. apply setlease_sent.
Qed.

Lemma sendack_says ip s : packet_ok (ds_inpacket s) -> 0 <= ds_serverip s < 2 ^ 32 ->
  0 <= dhcpd_verifyreqleasetime LEASETIME s < 2 ^ 32 -> exists dst pkt,
  sent (dhcpd_sendack conf now sendrc ip s).2 = sent s ++ [(dst, pkt)] /\
  reply_says pkt s DHCPACK ip (dhcpd_verifyreqleasetime LEASETIME s).
Proof.
  intros Hi Hs Hlt. pose proof (init_header_says s Hi) as Hh.
  pose proof (initpacket_has DHCPACK s Hi) as Ho.
  apply ciaddr_has in Ho; [|apply Hh|].
  2: { rewrite (core_in _ _ (core_initpacket _ _)). apply zlen_zslice; [done..|]. by rewrite (proj2 Hi). }
  rewrite (core_in _ _ (core_initpacket _ _)) in Ho.
  assert (header_says (zwrite off_ciaddr (zslice off_ciaddr 4 (ds_inpacket s))
    (take 236 (init_header s))) s) as Hh2.
  { apply header_says_addr; [done| |by left]. apply zlen_zslice; [done..|]. by rewrite (proj2 Hi). }
  apply (yiaddr_has _ _ _ ip) in Ho; [|apply Hh2].
  apply (lease_options_has _ (dhcpd_verifyreqleasetime LEASETIME s)) in Ho.
  destruct (sendpacket_sent IGNOREBROADCAST _ _ _ Ho) as [dst Hsent].
  exists dst. eexists. rewrite sendack_sent, Hsent. split.
  - by rewrite (sent_build DHCPACK _ (fun s => set_yiaddr ip (copy_ciaddr s))).
  - apply packet_says; [|apply yiaddr_written, Hh2|done..].
    apply header_says_addr; [done|done|by right].
Qed.

End replies.
