(* ===== verification/DhcpdTheorems.v ===== *)
(** The DHCP server: theorems over every sequence of messages, and the default
    configuration as their instance. *)

From S2P Require Import Prelude Dhcpd DhcpdParse DhcpdTable DhcpdServer DhcpdReply.
Import Dhcpd.

(** The states of a server that has handled any number of datagrams, at any
    times and whatever [sendto] returned. *)
Inductive served `{!DhcpdConst} (conf : dhcpd_config_s) (serverip : Z) : dhcpd_state_s -> Prop :=
| served_start : served conf serverip (initial_state serverip)
| served_message now sendrc data s s' :
    served conf serverip s -> Forall is_byte data ->
    dhcpd_message conf now sendrc data s = Done s' -> served conf serverip s'.

Section theorems.
Context `{!DhcpdConst}.
Variable conf : dhcpd_config_s.
Variable serverip : Z.

Lemma served_ok s : wf_conf conf -> served conf serverip s -> state_ok s.
Proof.
  intros Hconf. induction 1 as [|now rc data s s' _ IH Hd Hm].
  - split; [apply packet_zero..| |apply initial_ok]. apply length_replicate.
  - destruct (message_ok conf now rc Hconf data s Hd IH) as (s1 & E & Hok & _). congruence.
Qed.

(** The lease time the server grants is a [uint32_t]. *)
Definition wf_times : Prop :=
  0 <= LEASETIME < 2 ^ 32 /\ 0 <= MINLEASETIME <= MAXLEASETIME /\ MAXLEASETIME < 2 ^ 32.

Lemma leasetime_range lt s : wf_times -> 0 <= lt < 2 ^ 32 ->
  0 <= dhcpd_verifyreqleasetime lt s < 2 ^ 32.
Proof.
  intros (H1 & H2 & H3) Hlt. unfold dhcpd_verifyreqleasetime.
  pose proof (u32_range (ds_optleasetime (ds_opts s))). repeat case_match; lia.
Qed.

Lemma discover_leasetime_range now s : wf_times -> 0 <= (discover_address conf now s).1.2 < 2 ^ 32.
Proof.
  intros (H1 & H2 & H3). unfold discover_address, dhcpd_leaseexpired.
  destruct (dhcpd_findbymac (chaddr s) s) as [i|].
  - pose proof (u32_range (expiry (lease_at i s) - now)).
    destruct (now <? expiry (lease_at i s)); simpl; repeat case_match; lia.
  - destruct (dhcpd_verifyreqip conf now s) as [[] s1]; [done|].
    by destruct (dhcpd_allocipaddr conf now s1).
Qed.

(** C11.  In every state the server can be in, no client (no nonzero hardware
    address) holds two addresses, an address without a lease names no client,
    and the table has one entry per address of the range. *)
Theorem dhcpd_table_invariant s : wf_conf conf -> served conf serverip s ->
  table_ok (ds_leases s) /\ length (ds_leases s) = Z.to_nat MAXLEASES.
Proof. intros Hc Hs. destruct (served_ok s Hc Hs) as [_ _ Hsz Ht]. by split. Qed.

(** C2.  Whatever datagram arrives, the server handles it to the end, and every
    lease that is still valid and belongs to another hardware address than the
    sender's is untouched. *)
Theorem dhcpd_protects_leases now sendrc data s : wf_conf conf -> served conf serverip s ->
  Forall is_byte data ->
  exists s', dhcpd_message conf now sendrc data s = Done s' /\
    forall i x, ds_leases s !! i = Some x -> valid_lease now x -> mac x <> sender data s ->
      ds_leases s' !! i = Some x.
Proof.
  intros Hc Hs Hd.
  destruct (message_ok conf now sendrc Hc data s Hd (served_ok s Hc Hs)) as (s' & E & _ & Hst).
  exists s'. split; [done|]. intros i x. by apply (steps_others now).
Qed.

(** C30.  The option parser ends on every message, and reads at most one byte
    behind it: the result exists when the buffer is the 548-byte message and
    one more byte. *)
Theorem dhcpd_parser_total inpacket b : Forall is_byte inpacket -> zlen inpacket = sizeof_dhcpmsg ->
  is_byte b ->
  exists r, parse_loop 500 (inpacket ++ [b]) (Z.to_nat off_options + 4) (DHCPD_OPTIONS_SIZE - 4)
    0 0 DHCPD_OPTION_FIELD no_options = Done r.
Proof.
  intros Hi Hl Hb. apply parse_loop_done; try done.
  - apply Forall_app_2; [done|by solve_bytes].
  - unfold zlen, sizeof_dhcpmsg in Hl. rewrite length_app. simpl. lia.
Qed.

(** C25.  On a message whose options field holds the encoding of any list of
    options (none of them PAD, OVERLOAD or END) and END, the parser returns
    [true] and the options it knows, the last one of each code; nothing else
    of the state changes but [ds_optend]. *)
Theorem dhcpd_parses_options s head os tl :
  ds_inpacket s = head ++ g_magiccookie ++ encode_options os ++ DHCP_OPTION_END :: tl ->
  length head = Z.to_nat off_options -> zlen (encode_options os) < DHCPD_OPTIONS_SIZE - 4 ->
  Forall plain_option os ->
  dhcpd_parseoptions s = Done (true, set_opts (fold_left apply_option os no_options) s).
Proof. apply parse_message. Qed.

(** C17.  When a request is accepted and the reply can be sent, the client gets
    an ACK that carries the address and the granted lease time, and the table
    holds that lease: the address is in the range, the entry is the client's,
    and it expires after the time that was granted. *)
Theorem dhcpd_ack_commits now sendrc s ip s1 :
  wf_conf conf -> wf_times -> state_ok s -> 0 <= ds_serverip s < 2 ^ 32 -> 0 <= sendrc ->
  request_decision conf now s = (Ack, ip, s1) ->
  let s' := (dhcpd_request conf now sendrc s).2 in
  let lt := dhcpd_verifyreqleasetime LEASETIME s in
  ds_startip conf <= ip <= ds_endip conf /\
  ds_leases s' !! Z.to_nat (ip - ds_startip conf) =
    Some {| mac := client s; allocated := true; expiry := now + lt |} /\
  exists dst pkt, sent s' = sent s ++ [(dst, pkt)] /\ reply_says pkt s DHCPACK ip lt.
Proof.
  intros Hc Ht [Hi Ho Hsz Hok] Hip Hrc Hdec s' lt. subst s' lt.
  pose proof (request_decision_spec conf now Hc s Hsz) as Hspec. unfold dhcpd_request.
  rewrite Hdec in Hspec |- *. destruct Hspec as (l & -> & -> & Hrange & _).
  assert (set_leases (ds_leases s) s = s) as -> by (by destruct s). cbn [snd].
  split; [done|]. rewrite (sendack_leases conf now sendrc Hc) by done.
  rewrite (proj2 (Z.ltb_ge sendrc 0)) by done. split.
  - apply list_lookup_insert_eq. destruct (in_range_lookup conf Hc ip s Hsz Hrange) as [x Hx].
    by eapply lookup_lt_Some.
  - apply sendack_says; [done..|]. apply leasetime_range; [done|apply Ht].
Qed.

(** C27.  A DISCOVER is answered with an OFFER when the client is known or some
    usable address is free: the offered address is in the range and reserved
    for the client for the offer time. *)
Theorem dhcpd_offers_free_address now sendrc s :
  wf_conf conf -> wf_times -> state_ok s -> 0 <= ds_serverip s < 2 ^ 32 ->
  dhcpd_findbymac (chaddr s) s <> None \/
  (exists a, ds_startip conf <= a <= ds_endip conf /\ usable a = true /\ free_at conf now a s) ->
  let s' := (dhcpd_discover conf now sendrc s).2 in
  exists ip lt dst pkt, ds_startip conf <= ip <= ds_endip conf /\
    sent s' = sent s ++ [(dst, pkt)] /\ reply_says pkt s DHCPOFFER ip lt /\
    ds_leases s' !! Z.to_nat (ip - ds_startip conf) =
      Some {| mac := client s; allocated := true; expiry := now + OFFERTIME |}.
Proof.
  intros Hc Ht [Hi Ho Hsz Hok] Hip Havail s'. subst s'. unfold dhcpd_discover.
  pose proof (discover_address_spec conf now Hc s Hsz) as Hspec.
  pose proof (discover_leasetime_range now s Ht) as Hltr.
  destruct (discover_address conf now s) as [[ip lt] s1]. simpl in Hltr.
  destruct Hspec as (l & Hs1 & [(_ & _ & Hnf & Hno)|([Hr _] & Hl)]); simpl in *; subst s1.
  { destruct Havail as [Hk|(a & Ha & Hu & Hfree)]; [done|]. by destruct (Hno a Ha Hu). }
  pose proof (wf_start conf Hc). rewrite (proj2 (Z.eqb_neq ip 0)) by lia.
  rewrite (setlease_in conf now Hc) by done. cbn [set_leases ds_leases]. rewrite Hl.
  set (s2 := set_leases _ _).
  assert (0 <= dhcpd_verifyreqleasetime lt s2 < 2 ^ 32) as Hlt by (by apply leasetime_range).
  destruct (sendoffer_says conf sendrc ip (dhcpd_verifyreqleasetime lt s2) s2) as (dst & pkt & Hsent & Hsays);
    [done..|].
  exists ip, (dhcpd_verifyreqleasetime lt s2), dst, pkt. split; [done|]. split; [done|]. split; [done|].
  rewrite (core_leases _ _ (core_sendoffer conf sendrc _ _ _)). apply list_lookup_insert_eq.
  destruct (in_range_lookup conf Hc ip s Hsz Hr) as [x Hx]. by eapply lookup_lt_Some.
Qed.

(** A client that holds or was offered [ip] and asks this server for any
    other nonzero address is acknowledged [ip], not refused. *)
Theorem dhcpd_acks_other_address now s i :
  dhcpd_findbymac (chaddr s) s = Some i ->
  ds_optserverip (ds_opts s) = htonl (ds_serverip s) -> ds_optserverip (ds_opts s) <> 0 ->
  ds_optreqip (ds_opts s) <> 0 ->
  request_decision conf now s = (Ack, dhcp_leaseipaddr conf i, s).
Proof.
  intros Hf Hsrv Hn Hreq. unfold request_decision. rewrite Hf.
  rewrite (proj2 (Z.eqb_neq _ 0) Hn), (proj2 (Z.eqb_neq _ 0) Hreq). cbn [negb orb].
  by rewrite Hsrv, Z.eqb_refl.
Qed.

(** The broadcast flag of a client message never reaches the reply: its
    flags are zero whatever the message says, so the test of BOOTP_BROADCAST
    when the reply is sent never succeeds. *)
Theorem dhcpd_drops_broadcast_flag t s : packet_ok (ds_inpacket s) ->
  zslice off_flags 2 (ds_outpacket (dhcpd_initpacket t s)) = [0; 0].
Proof.
  intros Hi. destruct (initpacket_has t s Hi) as (tl & -> & _ & _).
  destruct (init_header_fields s Hi) as (Hl & _ & _ & _ & _ & Hfl).
  assert (zlen (take 236 (init_header s)) = 236) as Hh.
  { unfold zlen, sizeof_dhcpmsg in *. rewrite length_take. lia. }
  rewrite <- app_assoc, zslice_app_l by (rewrite ?Hh; done).
  etrans; [apply (zslice_zslice off_flags 2 236); done|]. exact Hfl.
Qed.

(** A datagram that ends after the magic cookie is taken to carry the
    options of the message before it, which are still in the buffer. *)
Theorem dhcpd_short_message_inherits s head os tl h :
  ds_inpacket s = head ++ g_magiccookie ++ encode_options os ++ DHCP_OPTION_END :: tl ->
  length head = Z.to_nat off_options -> zlen (encode_options os) < DHCPD_OPTIONS_SIZE - 4 ->
  Forall plain_option os -> length h = Z.to_nat off_options ->
  let s1 := set_in (zwrite 0 (h ++ g_magiccookie) (ds_inpacket s)) s in
  dhcpd_parseoptions s1 = Done (true, set_opts (fold_left apply_option os no_options) s1).
Proof.
  intros Hin Hh Hlen Hos Hh2 s1. apply (parse_message s1 h os tl); [|done..].
  subst s1. cbn [set_in ds_inpacket]. rewrite Hin, zwrite_0 by (rewrite !length_app; simpl; lia).
  rewrite <- app_assoc. do 2 f_equal. rewrite (app_assoc head). apply drop_app_length'.
  rewrite !length_app. lia.
Qed.

End theorems.

(** ** The default configuration *)

#[export] Instance dhcpd_defaults : DhcpdConst := {|
  MAXLEASES := 16; LEASETIME := 60 * 60 * 24 * 10; MINLEASETIME := 60 * 60 * 24;
  MAXLEASETIME := 60 * 60 * 24 * 30; OFFERTIME := 60 * 60; DECLINETIME := 60 * 60;
  IGNOREBROADCAST := false |}.

(** 10.0.0.2 to 10.0.0.17 *)
Definition default_conf : dhcpd_config_s :=
  dhcpd_set_startip (0x0a000002)
    {| ds_startip := 0; ds_endip := 0; ds_routerip := Some 0x0a000001;
       ds_netmask := Some 0xffffff00; ds_dnsip := None |}.

(** 10.0.0.1, as the [in_addr_t] in network order *)
Definition default_serverip : Z := 0x0100000a.

Lemma default_wf : wf_conf default_conf.
Proof. by split; vm_compute. Qed.

Lemma default_times : wf_times.
Proof. by split_and!; vm_compute. Qed.

(** A client message: hardware address and options. *)
Definition message (hw : list Z) (os : list (Z * list Z)) : list Z :=
  zero_bytes 28 ++ hw ++ zero_bytes (236 - 28 - zlen hw) ++ g_magiccookie ++
  encode_options os ++ [DHCP_OPTION_END].

Definition mac_a : list Z := [2; 0; 0; 0; 0; 1].
Definition mac_b : list Z := [2; 0; 0; 0; 0; 2].
Definition ask (t : Z) : list (Z * list Z) := [(DHCP_OPTION_MSG_TYPE, [t])].

(** The server after the given messages at time 1000. *)
Definition after (msgs : list (list Z)) : dhcpd_state_s :=
  fold_left (fun s m => match dhcpd_message default_conf 1000 1 m s with Done s' => s' | _ => s end)
    msgs (initial_state default_serverip).

Lemma after_served msgs : Forall (Forall is_byte) msgs ->
  served default_conf default_serverip (after msgs).
Proof.
  unfold after. intros Hm. assert (served default_conf default_serverip (initial_state default_serverip))
    as Hs by constructor. revert Hs. generalize (initial_state default_serverip).
  induction Hm as [|m ms Hb _ IH]; intros s Hs; [done|]. simpl. apply IH.
  destruct (message_ok default_conf 1000 1 default_wf m s Hb (served_ok _ _ _ default_wf Hs))
    as (s' & E & _). rewrite E. by eapply served_message.
Qed.

Lemma bytes_check l : forallb (fun b => (0 <=? b) && (b <? 256)) l = true -> Forall is_byte l.
Proof.
  intros H. apply Forall_forall. intros x Hx. rewrite forallb_forall in H.
  specialize (H x Hx). breflect. by split.
Qed.

Definition offered : list (list Z) := [message mac_a (ask DHCPDISCOVER)].

Lemma offered_bytes : Forall (Forall is_byte) offered.
Proof. apply Forall_cons_2; [by apply bytes_check; vm_compute|apply Forall_nil_2]. Qed.

Lemma dhcpd_table_invariant_witness :
  table_ok (ds_leases (after offered)) /\ length (ds_leases (after offered)) = Z.to_nat MAXLEASES.
Proof.
  apply (dhcpd_table_invariant default_conf default_serverip);
    [apply default_wf|apply after_served, offered_bytes].
Defined.

Lemma dhcpd_protects_leases_witness : exists s',
  dhcpd_message default_conf 1001 1 (message mac_b (ask DHCPDISCOVER)) (after offered) = Done s' /\
  forall i x, ds_leases (after offered) !! i = Some x -> valid_lease 1001 x ->
    mac x <> sender (message mac_b (ask DHCPDISCOVER)) (after offered) -> ds_leases s' !! i = Some x.
Proof.
  apply (dhcpd_protects_leases default_conf default_serverip);
    [apply default_wf|apply after_served, offered_bytes|by apply bytes_check; vm_compute].
Defined.

Lemma dhcpd_parser_total_witness : exists r,
  parse_loop 500 (zero_bytes sizeof_dhcpmsg ++ [255]) (Z.to_nat off_options + 4)
    (DHCPD_OPTIONS_SIZE - 4) 0 0 DHCPD_OPTION_FIELD no_options = Done r.
Proof. apply dhcpd_parser_total; [apply packet_zero|done|done]. Defined.

(** The receive buffer after a message of the first client. *)
Definition heard (os : list (Z * list Z)) : dhcpd_state_s :=
  set_in (zwrite 0 (message mac_a os) (zero_bytes sizeof_dhcpmsg)) (initial_state default_serverip).

Lemma dhcpd_parses_options_witness :
  dhcpd_parseoptions (heard (ask DHCPDISCOVER)) =
  Done (true, set_opts (fold_left apply_option (ask DHCPDISCOVER) no_options) (heard (ask DHCPDISCOVER))).
Proof.
  apply (dhcpd_parses_options _ (zero_bytes 28 ++ mac_a ++ zero_bytes 202) _ (zero_bytes 304));
    [by vm_compute|by vm_compute|by vm_compute|by repeat constructor].
Defined.

(** The first client has been offered an address and requests it. *)
Definition requesting (reqip : Z) : dhcpd_state_s :=
  set_opts {| ds_optmsgtype := DHCPREQUEST; ds_optreqip := reqip;
              ds_optserverip := htonl default_serverip; ds_optleasetime := 0 |} (after offered).

Lemma set_opts_ok o s : state_ok s -> state_ok (set_opts o s).
Proof. intros [Hi Ho Hs Ht]. by split. Qed.

Lemma requesting_ok reqip : state_ok (requesting reqip).
Proof.
  apply set_opts_ok. apply (served_ok default_conf default_serverip);
    [apply default_wf|apply after_served, offered_bytes].
Qed.

Lemma dhcpd_ack_commits_witness :
  let s := requesting 0x0a000002 in
  let s' := (dhcpd_request default_conf 1000 1 s).2 in
  let lt := dhcpd_verifyreqleasetime LEASETIME s in
  ds_startip default_conf <= 0x0a000002 <= ds_endip default_conf /\
  ds_leases s' !! Z.to_nat (0x0a000002 - ds_startip default_conf) =
    Some {| mac := client s; allocated := true; expiry := 1000 + lt |} /\
  exists dst pkt, sent s' = sent s ++ [(dst, pkt)] /\ reply_says pkt s DHCPACK 0x0a000002 lt.
Proof.
  apply (dhcpd_ack_commits default_conf 1000 1 (requesting 0x0a000002) 0x0a000002 (requesting 0x0a000002));
    [apply default_wf|apply default_times|apply requesting_ok|by vm_compute|done|by vm_compute].
Defined.

Lemma dhcpd_offers_free_address_witness :
  let s := heard (ask DHCPDISCOVER) in
  let s' := (dhcpd_discover default_conf 1000 1 s).2 in
  exists ip lt dst pkt, ds_startip default_conf <= ip <= ds_endip default_conf /\
    sent s' = sent s ++ [(dst, pkt)] /\ reply_says pkt s DHCPOFFER ip lt /\
    ds_leases s' !! Z.to_nat (ip - ds_startip default_conf) =
      Some {| mac := client s; allocated := true; expiry := 1000 + OFFERTIME |}.
Proof.
  apply (dhcpd_offers_free_address default_conf 1000 1 (heard (ask DHCPDISCOVER)));
    [apply default_wf|apply default_times| |by vm_compute|].
  - destruct (served_ok _ _ _ default_wf (served_start default_conf default_serverip)) as [Hi Ho Hs Ht].
    split; [|done..]. apply packet_zwrite; [by apply bytes_check; vm_compute|apply Hi].
  - right. exists 0x0a000002. split; [by vm_compute|]. split; [by vm_compute|].
    exists cleared_lease. split; [by vm_compute|by left].
Defined.

Lemma dhcpd_acks_other_address_witness :
  request_decision default_conf 1000 (requesting 0x0a000009) =
  (Ack, dhcp_leaseipaddr default_conf 0, requesting 0x0a000009).
Proof. apply dhcpd_acks_other_address; by vm_compute. Defined.

Lemma dhcpd_drops_broadcast_flag_witness :
  zslice off_flags 2 (ds_outpacket (dhcpd_initpacket DHCPOFFER
    (set_in (zwrite off_flags [128; 0] (zero_bytes sizeof_dhcpmsg)) (initial_state default_serverip)))) =
  [0; 0].
Proof.
  apply dhcpd_drops_broadcast_flag. apply packet_zwrite; [solve_bytes|apply packet_zero].
Defined.

Lemma dhcpd_short_message_inherits_witness :
  let s1 := set_in (zwrite 0 ((zero_bytes 28 ++ mac_b ++ zero_bytes 202) ++ g_magiccookie)
    (ds_inpacket (heard (ask DHCPRELEASE)))) (heard (ask DHCPRELEASE)) in
  dhcpd_parseoptions s1 =
  Done (true, set_opts (fold_left apply_option (ask DHCPRELEASE) no_options) s1).
Proof.
  apply (dhcpd_short_message_inherits (heard (ask DHCPRELEASE))
    (zero_bytes 28 ++ mac_a ++ zero_bytes 202) (ask DHCPRELEASE) (zero_bytes 304));
    [by vm_compute|by vm_compute|by vm_compute|by repeat constructor|by vm_compute].
Defined.
