(* ===== verification/DhcpdDaemon.v ===== *)
(** Start and stop of the DHCP daemon (netutils/dhcpd/dhcpd.c): [dhcpd_start]
    and [dhcpd_stop] on one side, [dhcpd_run] in the daemon task on the other,
    as a transition system over the shared [g_dhcpd_daemon].

    A transition is one access to the shared data.  [ds_lock] admits one
    caller of start or stop at a time, so one controller stands for all of
    them; [ds_sync] is a counting semaphore. *)

From S2P Require Import Prelude.

Module DhcpdDaemon.

Inductive dhcpd_daemon_e :=
| DHCPD_NOT_RUNNING | DHCPD_STARTED | DHCPD_RUNNING | DHCPD_STOP_REQUESTED | DHCPD_STOPPED.

#[export] Instance dhcpd_daemon_e_eq_dec : EqDecision dhcpd_daemon_e.
Proof. solve_decision. Defined.

(** Where the holder of [ds_lock] is; [Idle]: nobody holds it. *)
Inductive controller :=
| Idle
| StartSet      (* dhcpd_start: found the daemon not running *)
| StartCreate   (* dhcpd_start: DHCPD_STARTED is set *)
| StartWait     (* dhcpd_start: in sem_wait(ds_sync) *)
| StopSet       (* dhcpd_stop: found the daemon running *)
| StopKill      (* dhcpd_stop: before kill() *)
| StopWait.     (* dhcpd_stop: in sem_wait(ds_sync) *)

(** Where the daemon task is. *)
Inductive daemon :=
| NoTask
| Created       (* task_create() has succeeded *)
| Posting       (* DHCPD_RUNNING is set, before sem_post *)
| Running       (* in the receive loop *)
| Leaving       (* out of the loop, before free() *)
| Freed.        (* ds_data is freed and ds_pid is -1 *)

(** [exiting]: tasks that have set DHCPD_STOPPED and still have to post. *)
Record dhcpd_daemon_s := {
  ds_state : dhcpd_daemon_e;
  ds_sync : nat;
  ds_data : bool;
  ctl : controller;
  dmn : daemon;
  exiting : nat;
}.

Definition g_dhcpd_daemon : dhcpd_daemon_s := {|
  ds_state := DHCPD_NOT_RUNNING; ds_sync := 0; ds_data := false;
  ctl := Idle; dmn := NoTask; exiting := 0 |}.

Definition set_ctl (c : controller) (s : dhcpd_daemon_s) : dhcpd_daemon_s :=
  {| ds_state := ds_state s; ds_sync := ds_sync s; ds_data := ds_data s;
     ctl := c; dmn := dmn s; exiting := exiting s |}.
Definition set_dmn (d : daemon) (s : dhcpd_daemon_s) : dhcpd_daemon_s :=
  {| ds_state := ds_state s; ds_sync := ds_sync s; ds_data := ds_data s;
     ctl := ctl s; dmn := d; exiting := exiting s |}.
Definition set_state (e : dhcpd_daemon_e) (s : dhcpd_daemon_s) : dhcpd_daemon_s :=
  {| ds_state := e; ds_sync := ds_sync s; ds_data := ds_data s;
     ctl := ctl s; dmn := dmn s; exiting := exiting s |}.
Definition set_data (b : bool) (s : dhcpd_daemon_s) : dhcpd_daemon_s :=
  {| ds_state := ds_state s; ds_sync := ds_sync s; ds_data := b;
     ctl := ctl s; dmn := dmn s; exiting := exiting s |}.
Definition set_sync (n : nat) (s : dhcpd_daemon_s) : dhcpd_daemon_s :=
  {| ds_state := ds_state s; ds_sync := n; ds_data := ds_data s;
     ctl := ctl s; dmn := dmn s; exiting := exiting s |}.
Definition set_exiting (n : nat) (s : dhcpd_daemon_s) : dhcpd_daemon_s :=
  {| ds_state := ds_state s; ds_sync := ds_sync s; ds_data := ds_data s;
     ctl := ctl s; dmn := dmn s; exiting := n |}.

Definition not_running (e : dhcpd_daemon_e) : bool :=
  match e with DHCPD_NOT_RUNNING | DHCPD_STOPPED => true | _ => false end.
Definition running (e : dhcpd_daemon_e) : bool :=
  match e with DHCPD_STARTED | DHCPD_RUNNING => true | _ => false end.

(** [kill(ds_pid, ...)] finds the task once it has set [ds_pid] and until it
    resets it. *)
Definition kill_finds (d : daemon) : bool :=
  match d with Posting | Running | Leaving => true | _ => false end.

(** ** The steps of [dhcpd_start] *)
Inductive dhcpd_start : dhcpd_daemon_s -> dhcpd_daemon_s -> Prop :=
| start_skip s : ctl s = Idle -> not_running (ds_state s) = false -> dhcpd_start s s
| start_check s : ctl s = Idle -> not_running (ds_state s) = true -> dhcpd_start s (set_ctl StartSet s)
| start_set s : ctl s = StartSet ->
    dhcpd_start s (set_ctl StartCreate (set_state DHCPD_STARTED s))
| start_created s : ctl s = StartCreate -> dmn s = NoTask ->
    dhcpd_start s (set_ctl StartWait (set_dmn Created s))
| start_failed s : ctl s = StartCreate ->
    dhcpd_start s (set_ctl Idle (set_state DHCPD_STOPPED s))
| start_wait s n : ctl s = StartWait -> ds_sync s = S n ->
    dhcpd_start s (set_ctl (match ds_state s with DHCPD_STARTED => StartWait | _ => Idle end)
                           (set_sync n s)).

(** ** The steps of [dhcpd_stop] *)
Inductive dhcpd_stop : dhcpd_daemon_s -> dhcpd_daemon_s -> Prop :=
| stop_skip s : ctl s = Idle -> running (ds_state s) = false -> dhcpd_stop s s
| stop_check s : ctl s = Idle -> running (ds_state s) = true -> dhcpd_stop s (set_ctl StopSet s)
| stop_set s : ctl s = StopSet ->
    dhcpd_stop s (set_ctl StopKill (set_state DHCPD_STOP_REQUESTED s))
| stop_kill s : ctl s = StopKill -> kill_finds (dmn s) = true -> dhcpd_stop s (set_ctl StopWait s)
| stop_kill_failed s : ctl s = StopKill -> kill_finds (dmn s) = false ->
    dhcpd_stop s (set_ctl Idle s)
| stop_wait s n : ctl s = StopWait -> ds_sync s = S n ->
    dhcpd_stop s (set_ctl (match ds_state s with DHCPD_STOP_REQUESTED => StopKill | _ => Idle end)
                          (set_sync n s)).

(** ** The steps of [dhcpd_run] in the daemon task *)
Inductive dhcpd_run : dhcpd_daemon_s -> dhcpd_daemon_s -> Prop :=
| run_already s : dmn s = Created -> ds_state s = DHCPD_RUNNING -> dhcpd_run s (set_dmn NoTask s)
| run_nomem s : dmn s = Created -> ds_state s <> DHCPD_RUNNING -> dhcpd_run s (set_dmn NoTask s)
| run_begin s : dmn s = Created -> ds_state s <> DHCPD_RUNNING ->
    dhcpd_run s (set_dmn Posting (set_state DHCPD_RUNNING (set_data true s)))
| run_post s : dmn s = Posting -> dhcpd_run s (set_dmn Running (set_sync (S (ds_sync s)) s))
| run_message s : dmn s = Running -> ds_state s <> DHCPD_STOP_REQUESTED -> dhcpd_run s s
| run_nosocket s : dmn s = Running -> ds_state s <> DHCPD_STOP_REQUESTED ->
    dhcpd_run s (set_dmn Leaving s)
| run_stop s : dmn s = Running -> ds_state s = DHCPD_STOP_REQUESTED -> dhcpd_run s (set_dmn Leaving s)
| run_free s : dmn s = Leaving -> dhcpd_run s (set_dmn Freed (set_data false s))
| run_stopped s : dmn s = Freed ->
    dhcpd_run s (set_exiting (S (exiting s)) (set_dmn NoTask (set_state DHCPD_STOPPED s)))
| run_exit s n : exiting s = S n ->
    dhcpd_run s (set_exiting n (set_sync (S (ds_sync s)) s)).

Inductive step (s s' : dhcpd_daemon_s) : Prop :=
| step_start : dhcpd_start s s' -> step s s'
| step_stop : dhcpd_stop s s' -> step s s'
| step_run : dhcpd_run s s' -> step s s'.

(** ** The invariant *)

(** The task is on its way through the receive loop. *)
Definition serving (d : daemon) : bool :=
  match d with Posting | Running | Leaving => true | _ => false end.

(** The shared data is there exactly while the task serves; the task is there
    when the state says so, and not while a new one is being created. *)
Definition daemon_ok (s : dhcpd_daemon_s) : bool :=
  eqb (ds_data s) (serving (dmn s)) &&
  match ds_state s with
  | DHCPD_NOT_RUNNING | DHCPD_STOPPED => match dmn s with NoTask => true | _ => false end
  | DHCPD_STARTED =>
      match ctl s, dmn s with
      | StartCreate, NoTask | StartWait, NoTask | StartWait, Created => true
      | _, _ => false
      end
  | DHCPD_RUNNING => serving (dmn s) || match dmn s with Freed => true | _ => false end
  | DHCPD_STOP_REQUESTED => match dmn s with Created => false | _ => true end
  end &&
  match ctl s with
  | StartSet => not_running (ds_state s)
  | StartCreate => match ds_state s with DHCPD_STARTED => true | _ => false end
  | _ => true
  end.

(** The possible last steps of a run, the states as tuples. *)
Ltac step_cases :=
  match goal with
  | H : step ?s _ |- _ =>
      destruct s as [st n da c d e]; destruct H as [H|H|H]; inversion H; subst; clear H;
      cbn in *; subst
  end.

(** Case analysis on the remaining finite components. *)
Ltac enumerate :=
  try done;
  repeat (match goal with
          | x : dhcpd_daemon_e |- _ => destruct x
          | x : daemon |- _ => destruct x
          | x : controller |- _ => destruct x
          | x : bool |- _ => destruct x
          end; try done).

Lemma daemon_step_ok s s' : step s s' -> daemon_ok s = true -> daemon_ok s' = true.
Proof.
  intros Hst Hok. step_cases; by enumerate.
Qed.

Lemma reachable_ok s : rtc step g_dhcpd_daemon s -> daemon_ok s = true.
Proof.
  assert (daemon_ok g_dhcpd_daemon = true) as H0 by done.
  intros Hr. revert H0. induction Hr; eauto using daemon_step_ok.
Qed.

(** A run of the system, as the list of its states. *)
Lemma rtc_path (l : list dhcpd_daemon_s) s s' :
  Forall2 step (s :: l) (l ++ [s']) -> rtc step s s'.
Proof.
  revert s. induction l as [|x l IH]; intros s Hl; inversion_clear Hl; [by apply rtc_once|].
  eapply rtc_l; [done|]. by apply IH.
Qed.

Ltac one_step :=
  first
    [ apply step_start; first
        [ refine (start_check _ _ _) | refine (start_set _ _)
        | refine (start_created _ _ _) | refine (start_wait _ _ _ _) ]; done
    | apply step_stop; first
        [ refine (stop_check _ _ _) | refine (stop_set _ _) | refine (stop_kill_failed _ _ _) ]; done
    | apply step_run; first
        [ refine (run_begin _ _ _) | refine (run_post _ _) | refine (run_nosocket _ _ _)
        | refine (run_free _ _) | refine (run_stopped _ _) | refine (run_exit _ _ _) ]; done ].

(** ** Theorems *)

(** C31.  However start, stop and the daemon interleave, there is one server:
    its data exists exactly while the task is between the begin and the end of
    [dhcpd_run]'s service, a daemon that counts as not running has no task,
    and [dhcpd_start] never creates a task beside a live one. *)
Theorem daemon_single_instance s : rtc step g_dhcpd_daemon s ->
  ds_data s = serving (dmn s) /\
  (not_running (ds_state s) = true -> dmn s = NoTask) /\
  (ctl s = StartCreate -> dmn s = NoTask) /\
  (ds_state s = DHCPD_RUNNING -> serving (dmn s) = true \/ dmn s = Freed).
Proof.
  intros Hs. pose proof (reachable_ok s Hs) as Hok. clear Hs.
  destruct s as [st n da c d e]. cbn in *. enumerate; cbn in *; repeat split; auto; done.
Qed.

(** The daemon is up and [dhcpd_start] has returned. *)
Definition up : dhcpd_daemon_s := {|
  ds_state := DHCPD_RUNNING; ds_sync := 0; ds_data := true;
  ctl := Idle; dmn := Running; exiting := 0 |}.

Definition starting : dhcpd_daemon_s :=
  set_ctl StartWait (set_state DHCPD_STARTED (set_dmn Created g_dhcpd_daemon)).

Lemma reach_starting : rtc step g_dhcpd_daemon starting.
Proof.
  apply (rtc_path [set_ctl StartSet g_dhcpd_daemon;
                   set_ctl StartCreate (set_state DHCPD_STARTED g_dhcpd_daemon)]).
  repeat (constructor; [one_step|]). constructor.
Qed.

Lemma reach_up : rtc step g_dhcpd_daemon up.
Proof.
  etrans; [apply reach_starting|].
  apply (rtc_path [set_dmn Posting (set_state DHCPD_RUNNING (set_data true starting));
                   set_dmn Running (set_sync 1 (set_state DHCPD_RUNNING (set_data true starting)))]).
  repeat (constructor; [one_step|]). constructor.
Qed.

Lemma daemon_single_instance_witness :
  ds_data up = serving (dmn up) /\
  (not_running (ds_state up) = true -> dmn up = NoTask) /\
  (ctl up = StartCreate -> dmn up = NoTask) /\
  (ds_state up = DHCPD_RUNNING -> serving (dmn up) = true \/ dmn up = Freed).
Proof. apply daemon_single_instance. apply reach_up. Defined.

(** When the daemon task cannot allocate its data, [dhcpd_start] never
    returns: it waits for [ds_sync] with [ds_lock] held, and no step of the
    system is possible any more. *)
Theorem start_hangs_without_memory :
  exists s, rtc step g_dhcpd_daemon s /\ ctl s = StartWait /\ forall s', ~ step s s'.
Proof.
  exists (set_dmn NoTask starting). split; [|split; [done|]].
  - eapply rtc_r; [apply reach_starting|]. apply step_run. by apply run_nomem.
  - intros s' [Hs|Hs|Hs]; inversion Hs; simplify_eq/=.
Qed.

(** The daemon has gone after [dhcpd_stop] looked at its state and before it
    wrote DHCPD_STOP_REQUESTED. *)
Definition wedged (s : dhcpd_daemon_s) : Prop :=
  ds_state s = DHCPD_STOP_REQUESTED /\ dmn s = NoTask /\ exiting s = 0%nat /\
  (ctl s = Idle \/ ctl s = StopKill).

Lemma wedged_step s s' : wedged s -> step s s' -> wedged s'.
Proof.
  intros (Hs & Hd & He & Hc) Hst. unfold wedged.
  step_cases; try done; destruct Hc as [Hc|Hc]; try done; by auto.
Qed.

(** When the daemon ends by itself (its socket cannot be opened) while
    [dhcpd_stop] is between its test and its write of the state, the server
    can never be started again: the state stays DHCPD_STOP_REQUESTED with no
    task whatever start and stop do. *)
Theorem stop_race_disables_server :
  exists s, rtc step g_dhcpd_daemon s /\ ctl s = Idle /\
    forall s', rtc step s s' -> ds_state s' = DHCPD_STOP_REQUESTED /\ dmn s' = NoTask.
Proof.
  set (gone := {| ds_state := DHCPD_STOP_REQUESTED; ds_sync := 1; ds_data := false;
                  ctl := Idle; dmn := NoTask; exiting := 0 |}).
  exists gone. split; [|split; [done|]].
  - etrans; [apply reach_up|].
    apply (rtc_path [set_ctl StopSet up; set_ctl StopSet (set_dmn Leaving up);
      set_ctl StopSet (set_dmn Freed (set_data false up));
      set_exiting 1 (set_state DHCPD_STOPPED (set_ctl StopSet (set_dmn NoTask (set_data false up))));
      set_sync 1 (set_state DHCPD_STOPPED (set_ctl StopSet (set_dmn NoTask (set_data false up))));
      set_ctl StopKill gone]).
  repeat (constructor; [one_step|]). constructor.
  - assert (wedged gone) as Hw by (unfold wedged; simpl; naive_solver).
    intros s' Hr. assert (wedged s') as (? & ? & _); [|done].
    revert Hw. induction Hr; eauto using wedged_step.
Qed.

End DhcpdDaemon.
