(* ===== verification/CLib.v ===== *)
(** Functions of the C library the shell calls: [strtol] with base 0, on the
    characters of a string, with a 32-bit [long]. *)

From stdpp Require Import strings.
From S2P Require Import Prelude.
#[local] Open Scope Z_scope.

Definition LONG_MAX : Z := 2 ^ 31 - 1.
Definition LONG_MIN : Z := - 2 ^ 31.

(** Space, tab, newline, vertical tab, form feed, carriage return. *)
Definition isspace (c : Z) : bool := (c =? 32) || ((9 <=? c) && (c <=? 13)).

(** The value of [c] as a digit of any base up to 36. *)
Definition digit_value (c : Z) : option Z :=
  if (48 <=? c) && (c <=? 57) then Some (c - 48)
  else if (97 <=? c) && (c <=? 122) then Some (c - 87)
  else if (65 <=? c) && (c <=? 90) then Some (c - 55)
  else None.

Fixpoint skip_space (s : list Z) : list Z :=
  match s with
  | c :: t => if isspace c then skip_space t else s
  | [] => []
  end.

(** The digits at the start of [s], accumulated on [acc]; the rest. *)
Fixpoint digits (base acc : Z) (s : list Z) : Z * list Z :=
  match s with
  | c :: t =>
      match digit_value c with
      | Some d => if d <? base then digits base (acc * base + d) t else (acc, s)
      | None => (acc, s)
      end
  | [] => (acc, [])
  end.

Definition is_digit_of (base : Z) (s : list Z) : bool :=
  match s with
  | c :: _ => match digit_value c with Some d => d <? base | None => false end
  | [] => false
  end.

(** The base that base 0 selects and the digits that follow its prefix. *)
Definition detect_base (s : list Z) : Z * list Z :=
  match s with
  | c :: x :: t =>
      if c =? 48 then
        if ((x =? 120) || (x =? 88)) && is_digit_of 16 t then (16, t) else (8, s)
      else (10, s)
  | [c] => if c =? 48 then (8, s) else (10, s)
  | [] => (10, s)
  end.

Definition clip_long (v : Z) : Z := Z.max LONG_MIN (Z.min LONG_MAX v).

(** [strtol(s, &endptr, 0)]: the value and the characters from [*endptr] on; a
    string without a number is not consumed. *)
Definition strtol (s : list Z) : Z * list Z :=
  let s1 := skip_space s in
  let '(neg, s2) :=
    match s1 with
    | c :: t => if c =? 45 then (true, t) else if c =? 43 then (false, t) else (false, s1)
    | [] => (false, [])
    end in
  let '(base, s3) := detect_base s2 in
  if is_digit_of base s3 then
    let '(v, rest) := digits base 0 s3 in
    (clip_long (if neg : bool then - v else v), rest)
  else (0, s).

(** ** Decimal numbers *)

(** The decimal digits of [n], with [fuel] at least their number. *)
Fixpoint decimal (fuel : nat) (n : Z) : list Z :=
  match fuel with
  | O => []
  | S fuel => if n <? 10 then [48 + n] else decimal fuel (n / 10) ++ [48 + n mod 10]
  end.

Lemma digits_app base acc l1 l2 :
  Forall (fun c => exists d, digit_value c = Some d /\ d < base) l1 ->
  digits base acc (l1 ++ l2) = digits base (digits base acc l1).1 l2.
Proof.
  intros Hl. revert acc. induction Hl as [|c t (d & Hd & Hlt) _ IH]; intros acc; [done|].
  cbn [app digits]. rewrite Hd, (proj2 (Z.ltb_lt _ _) Hlt). apply IH.
Qed.

Lemma digit_value_dec d : 0 <= d < 10 -> digit_value (48 + d) = Some d.
Proof.
  intros Hd. unfold digit_value.
  rewrite (proj2 (Z.leb_le 48 (48 + d))) by lia.
  rewrite (proj2 (Z.leb_le (48 + d) 57)) by lia.
  cbn [andb]. f_equal. lia.
Qed.

Lemma decimal_digits fuel n : 0 <= n ->
  Forall (fun c => exists d, digit_value c = Some d /\ d < 10) (decimal fuel n).
Proof.
  revert n. induction fuel as [|fuel IH]; intros n Hn; [constructor|]. cbn [decimal].
  destruct (Z.ltb_spec n 10) as [H|H].
  - constructor; [|constructor]. exists n. split; [apply digit_value_dec|]; lia.
  - apply Forall_app_2; [apply IH, Z.div_pos; lia|]. constructor; [|constructor].
    pose proof (Z.mod_pos_bound n 10). exists (n mod 10). split; [apply digit_value_dec|]; lia.
Qed.

Lemma digits_decimal fuel n acc : 0 <= n < 10 ^ Z.of_nat fuel -> (0 < fuel)%nat -> acc = 0 ->
  digits 10 acc (decimal fuel n) = (n, []).
Proof.
  revert n acc. induction fuel as [|fuel IH]; intros n acc Hn Hf ->; [lia|]. cbn [decimal].
  destruct (Z.ltb_spec n 10) as [H|H].
  - cbn [digits]. rewrite digit_value_dec by lia. by rewrite (proj2 (Z.ltb_lt _ _)).
  - rewrite Nat2Z.inj_succ, Z.pow_succ_r in Hn by lia.
    pose proof (Z.mod_pos_bound n 10). pose proof (Z.div_mod n 10).
    assert (0 <= n / 10 < 10 ^ Z.of_nat fuel) as Hq by
      (split; [apply Z.div_pos; lia|apply Z.div_lt_upper_bound; lia]).
    rewrite digits_app by (apply decimal_digits; lia).
    destruct fuel as [|fuel]; [simpl in Hq; lia|].
    rewrite IH by (done || lia). cbn [fst digits]. rewrite digit_value_dec by lia.
    rewrite (proj2 (Z.ltb_lt _ _)) by lia. do 2 f_equal. lia.
Qed.

(** A decimal number other than 0 does not start with the digit 0. *)
Lemma decimal_head fuel n : 0 < n < 10 ^ Z.of_nat fuel ->
  exists c t, decimal fuel n = c :: t /\ 49 <= c <= 57.
Proof.
  revert n. induction fuel as [|fuel IH]; intros n Hn; [simpl in Hn; lia|]. cbn [decimal].
  destruct (Z.ltb_spec n 10) as [H|H]; [exists (48 + n), []; lia + (split; [done|lia])|].
  rewrite Nat2Z.inj_succ, Z.pow_succ_r in Hn by lia.
  destruct (IH (n / 10)) as (c & t & -> & Hc).
  { split; [apply Z.div_str_pos; lia|apply Z.div_lt_upper_bound; lia]. }
  by exists c, (t ++ [48 + n mod 10]).
Qed.

(** [strtol] reads back a decimal number, with an optional minus sign. *)
Lemma strtol_decimal fuel n : 0 <= n < 10 ^ Z.of_nat fuel -> n <= LONG_MAX -> (0 < fuel)%nat ->
  strtol (decimal fuel n) = (n, []) /\ strtol (45 :: decimal fuel n) = (- n, []).
Proof.
  intros Hn Hm Hf. pose proof (digits_decimal fuel n 0 Hn Hf eq_refl) as Hd.
  assert (clip_long n = n /\ clip_long (- n) = - n) as [Ec Ec'].
  { unfold clip_long, LONG_MAX, LONG_MIN in *. lia. }
  destruct (decide (n = 0)) as [->|Hz]; [destruct fuel; [lia|done]|].
  destruct (decimal_head fuel n) as (c & t & E & Hc); [lia|]. rewrite E in Hd |- *.
  assert (skip_space (c :: t) = c :: t) as Hs.
  { cbn [skip_space]. unfold isspace. by replace (_ || _) with false by (repeat case_zbool). }
  assert (detect_base (c :: t) = (10, c :: t)) as Hb.
  { unfold detect_base. rewrite (proj2 (Z.eqb_neq c 48)) by lia. by destruct t. }
  assert (is_digit_of 10 (c :: t) = true) as Hi.
  { cbn [is_digit_of]. replace c with (48 + (c - 48)) by lia. rewrite digit_value_dec by lia.
    apply Z.ltb_lt. lia. }
  split.
  - unfold strtol. rewrite Hs, (proj2 (Z.eqb_neq c 45)), (proj2 (Z.eqb_neq c 43)) by lia.
    rewrite Hb, Hi, Hd. by rewrite Ec.
  - unfold strtol. change (skip_space (45 :: c :: t)) with (45 :: c :: t).
    cbv beta iota zeta. rewrite Z.eqb_refl, Hb, Hi, Hd. by rewrite Ec'.
Qed.
