(* ===== verification/NshParse.v ===== *)
(** NSH, the shell (nshlib/nsh_parse.c, nsh_script.c, nsh.h), and the line
    reader it uses (system/readline/readline_common.c): the model.

    Text is a list of character codes; a file is the list of its characters
    and [np_pos] the position of the script's descriptor.  The state of a shell
    is its parser state, the environment variables and the list of the commands
    handed to [nsh_execute] so far.  What a command does when it is executed is
    a parameter ([nsh_os]).

    Configuration: scripts, loops and if-then-else enabled; background commands
    (CONFIG_NSH_DISABLEBG set), CONFIG_NSH_QUOTE, _ALIAS, _PIPELINE, _ARGCAT,
    _CMDPARMS and _VARS off; environment variables on; readline without echo,
    history and tab completion.  CONFIG_NSH_NESTDEPTH, CONFIG_NSH_MAXARGUMENTS
    and LINE_MAX are the parameters [NESTDEPTH], [MAXARGUMENTS] and
    [LINE_MAX]. *)

From stdpp Require Import strings.
From S2P Require Import Prelude.
#[local] Open Scope Z_scope.

Module NshParse.

(** ** Data (nsh.h) *)

Inductive nsh_itef_e := NSH_ITEF_NORMAL | NSH_ITEF_IF | NSH_ITEF_THEN | NSH_ITEF_ELSE.
Inductive nsh_lp_e := NSH_LOOP_NORMAL | NSH_LOOP_WHILE | NSH_LOOP_UNTIL | NSH_LOOP_DO.

#[export] Instance nsh_itef_e_eq_dec : EqDecision nsh_itef_e.
Proof. solve_decision. Defined.
#[export] Instance nsh_lp_e_eq_dec : EqDecision nsh_lp_e.
Proof. solve_decision. Defined.

Record nsh_itef_s := {
  ie_ifcond : bool;
  ie_disabled : bool;
  ie_inverted : bool;
  ie_state : nsh_itef_e;
}.

Record nsh_loop_s := {
  lp_enable : bool;
  lp_state : nsh_lp_e;
  lp_iendx : nat;
  lp_topoffs : Z;
}.

(** [np_pos] is the file position of the script [np_fd]. *)
Record nsh_parser_s := {
  np_fail : bool;
  np_fd : Z;
  np_foffs : Z;
  np_loffs : Z;
  np_jump : bool;
  np_lpndx : nat;
  np_iendx : nat;
  np_iestate : list nsh_itef_s;
  np_lpstate : list nsh_loop_s;
  np_pos : Z;
}.

Definition itef_normal : nsh_itef_s :=
  {| ie_ifcond := false; ie_disabled := false; ie_inverted := false; ie_state := NSH_ITEF_NORMAL |}.
Definition loop_normal : nsh_loop_s :=
  {| lp_enable := true; lp_state := NSH_LOOP_NORMAL; lp_iendx := 0; lp_topoffs := 0 |}.

(** [np_iestate[np_iendx]] and [np_lpstate[np_lpndx]] *)
Definition ie_top (np : nsh_parser_s) : nsh_itef_s := default itef_normal (np_iestate np !! np_iendx np).
Definition lp_top (np : nsh_parser_s) : nsh_loop_s := default loop_normal (np_lpstate np !! np_lpndx np).

Definition set_fail (b : bool) (np : nsh_parser_s) : nsh_parser_s :=
  {| np_fail := b; np_fd := np_fd np; np_foffs := np_foffs np;
     np_loffs := np_loffs np; np_jump := np_jump np; np_lpndx := np_lpndx np;
     np_iendx := np_iendx np; np_iestate := np_iestate np; np_lpstate := np_lpstate np;
     np_pos := np_pos np |}.
Definition set_ie (i : nat) (l : list nsh_itef_s) (np : nsh_parser_s) : nsh_parser_s :=
  {| np_fail := np_fail np; np_fd := np_fd np; np_foffs := np_foffs np;
     np_loffs := np_loffs np; np_jump := np_jump np; np_lpndx := np_lpndx np;
     np_iendx := i; np_iestate := l; np_lpstate := np_lpstate np; np_pos := np_pos np |}.
Definition set_lp (i : nat) (l : list nsh_loop_s) (np : nsh_parser_s) : nsh_parser_s :=
  {| np_fail := np_fail np; np_fd := np_fd np; np_foffs := np_foffs np;
     np_loffs := np_loffs np; np_jump := np_jump np; np_lpndx := i;
     np_iendx := np_iendx np; np_iestate := np_iestate np; np_lpstate := l; np_pos := np_pos np |}.
Definition set_jump (b : bool) (pos : Z) (np : nsh_parser_s) : nsh_parser_s :=
  {| np_fail := np_fail np; np_fd := np_fd np; np_foffs := np_foffs np;
     np_loffs := np_loffs np; np_jump := b; np_lpndx := np_lpndx np;
     np_iendx := np_iendx np; np_iestate := np_iestate np; np_lpstate := np_lpstate np;
     np_pos := pos |}.
Definition set_offs (foffs loffs : Z) (np : nsh_parser_s) : nsh_parser_s :=
  {| np_fail := np_fail np; np_fd := np_fd np; np_foffs := foffs;
     np_loffs := loffs; np_jump := np_jump np; np_lpndx := np_lpndx np;
     np_iendx := np_iendx np; np_iestate := np_iestate np; np_lpstate := np_lpstate np;
     np_pos := np_pos np |}.

Definition set_fd (fd pos : Z) (np : nsh_parser_s) : nsh_parser_s :=
  {| np_fail := np_fail np; np_fd := fd; np_foffs := np_foffs np;
     np_loffs := np_loffs np; np_jump := np_jump np; np_lpndx := np_lpndx np;
     np_iendx := np_iendx np; np_iestate := np_iestate np; np_lpstate := np_lpstate np;
     np_pos := pos |}.

(** Updates of the entry on top of a stack. *)
Definition upd_ie (x : nsh_itef_s) (np : nsh_parser_s) : nsh_parser_s :=
  set_ie (np_iendx np) (<[np_iendx np := x]> (np_iestate np)) np.
Definition upd_lp (x : nsh_loop_s) (np : nsh_parser_s) : nsh_parser_s :=
  set_lp (np_lpndx np) (<[np_lpndx np := x]> (np_lpstate np)) np.

(** [strcmp(w, s) == 0] *)
Definition word_is (w : list Z) (s : string) : bool := bool_decide (w = cstr s).
Definition lp_is (s : nsh_lp_e) (np : nsh_parser_s) : bool := bool_decide (lp_state (lp_top np) = s).
Definition ie_is (s : nsh_itef_e) (np : nsh_parser_s) : bool := bool_decide (ie_state (ie_top np) = s).

(** ** The result of a command *)

Definition nsh_saveresult (np : nsh_parser_s) (result : bool) : Z * nsh_parser_s :=
  let lp := lp_top np in
  let ie := ie_top np in
  let enable b := upd_lp {| lp_enable := b; lp_state := lp_state lp; lp_iendx := lp_iendx lp;
                            lp_topoffs := lp_topoffs lp |} (set_fail false np) in
  if lp_is NSH_LOOP_WHILE np then (OK, enable (negb result))
  else if lp_is NSH_LOOP_UNTIL np then (OK, enable result)
  else if ie_is NSH_ITEF_IF np then
    (OK, upd_ie {| ie_ifcond := xorb (ie_inverted ie) result; ie_disabled := ie_disabled ie;
                   ie_inverted := ie_inverted ie; ie_state := ie_state ie |} (set_fail false np))
  else (if result then ERROR else OK, set_fail result np).

Definition nsh_loop_enabled (np : nsh_parser_s) : bool :=
  if lp_is NSH_LOOP_DO np then lp_enable (lp_top np) else true.

Definition nsh_itef_enabled (np : nsh_parser_s) : bool :=
  let ie := ie_top np in
  if negb (ie_disabled ie) then
    match ie_state ie with
    | NSH_ITEF_NORMAL | NSH_ITEF_IF => true
    | NSH_ITEF_THEN => negb (ie_ifcond ie)
    | NSH_ITEF_ELSE => ie_ifcond ie
    end
  else false.

Definition nsh_cmdenabled (np : nsh_parser_s) : bool := nsh_loop_enabled np && nsh_itef_enabled np.

(** ** Environment and executed commands *)

(** The environment variables, first match first, and the text of [np_pids]. *)
Record env_s := {
  env_vars : list (list Z * list Z);
  env_pids : list Z;
}.

(** A command handed to [nsh_execute]: its arguments, the file of a redirected
    output with a flag for appending, and that of a redirected input. *)
Record cmd_s := {
  c_argv : list (list Z);
  c_out : option (bool * list Z);
  c_in : option (list Z);
}.

Record nsh_vtbl_s := {
  vt_np : nsh_parser_s;
  vt_env : env_s;
  vt_hist : list cmd_s;
}.

Definition set_np (np : nsh_parser_s) (vt : nsh_vtbl_s) : nsh_vtbl_s :=
  {| vt_np := np; vt_env := vt_env vt; vt_hist := vt_hist vt |}.

Fixpoint getenv (vars : list (list Z * list Z)) (name : list Z) : option (list Z) :=
  match vars with
  | (n, v) :: t => if bool_decide (n = name) then Some v else getenv t name
  | [] => None
  end.

(** Overwrite the value that [getenv] finds. *)
Fixpoint setvalue (name v : list Z) (vars : list (list Z * list Z)) : list (list Z * list Z) :=
  match vars with
  | (n, w) :: t => if bool_decide (n = name) then (n, v) :: t else (n, w) :: setvalue name v t
  | [] => []
  end.

Definition nsh_envexpand (vt : nsh_vtbl_s) (varname : list Z) : list Z :=
  if word_is varname "?" then (if np_fail (vt_np vt) then cstr "1" else cstr "0")
  else if word_is varname "!" then env_pids (vt_env vt)
  else default [] (getenv (env_vars (vt_env vt)) varname).

(** ** The next argument of a command line *)

Definition token_separator (c : Z) : bool := (c =? 32) || (c =? 9) || (c =? 10).
Definition quote_separator (c : Z) : bool := (c =? 39) || (c =? 34) || (c =? 96).

Fixpoint skip_separators (s : list Z) : list Z :=
  match s with
  | c :: t => if token_separator c then skip_separators t else s
  | [] => []
  end.

(** [strcspn(s, reject)], with [reject] given as the test for its characters. *)
Fixpoint strcspn (reject : Z -> bool) (s : list Z) : nat :=
  match s with
  | c :: t => if reject c then 0 else S (strcspn reject t)
  | [] => 0
  end.

(** The loop over [pend]: the argument without its quotes, whether a single and
    a double quote occurred in it, and the text behind the delimiter.  [quote]
    is the quotation mark of the string we are in; the text ends in one when
    its terminator is missing. *)
Fixpoint arg_scan (quote : option Z) (squote dquote : bool) (s : list Z)
    : option (list Z * bool * bool * list Z) :=
  match s, quote with
  | [], None => Some ([], squote, dquote, [])
  | [], Some _ => None
  | c :: t, None =>
      if quote_separator c then
        '(w, sq, dq, r) ← arg_scan (Some c) (squote || (c =? 39)) (dquote || (c =? 34)) t;
        Some (if c =? 96 then c :: w else w, sq, dq, r)
      else if token_separator c then Some ([], squote, dquote, t)
      else
        '(w, sq, dq, r) ← arg_scan None squote dquote t;
        Some (c :: w, sq, dq, r)
  | c :: t, Some q =>
      if c =? q then
        '(w, sq, dq, r) ← arg_scan None squote dquote t;
        Some (if q =? 96 then c :: w else w, sq, dq, r)
      else
        '(w, sq, dq, r) ← arg_scan quote squote dquote t;
        Some (c :: w, sq, dq, r)
  end.

(** The expanded argument, and the name of the variable it is the value of if
    that sets [*isenvvar], which is not passed when [dquote]. *)
Definition nsh_argexpand (vt : nsh_vtbl_s) (dquote : bool) (w : list Z) : list Z * option (list Z) :=
  match w with
  | c :: name =>
      if c =? 36 then (nsh_envexpand vt name, if dquote then None else Some name) else (w, None)
  | [] => ([], None)
  end.

(** The argument ([None] for NULL), the name of the variable it is the value of
    if that sets [*isenvvar], and the text from the new [*saveptr] on. *)
Definition nsh_argument (vt : nsh_vtbl_s) (saveptr : list Z)
    : option (list Z * option (list Z)) * list Z :=
  let pbegin := skip_separators saveptr in
  match pbegin with
  | [] => (None, saveptr)
  | c :: t =>
      if c =? 60 then (Some (cstr "<", None), t)
      else if c =? 35 then (None, pbegin)
      else
        match arg_scan None false false pbegin with
        | None => (None, saveptr)
        | Some (w, squote, dquote, rest) =>
            if squote : bool then (Some (w, None), rest)
            else (Some (nsh_argexpand vt dquote w), rest)
        end
  end.

(** The argument alone, where [isenvvar] is not used. *)
Definition next_word (vt : nsh_vtbl_s) (saveptr : list Z) : option (list Z) * list Z :=
  let '(a, rest) := nsh_argument vt saveptr in (fst <$> a, rest).

(** ** Loops *)

(** [*p == NULL || **p == '\0'] *)
Definition missing (w : option (list Z)) : bool :=
  match w with None | Some [] => true | _ => false end.

Section parser.
Variable NESTDEPTH MAXARGUMENTS : nat.

Definition loop_error (np : nsh_parser_s) : nsh_parser_s :=
  set_jump false (np_pos np)
    (set_lp 0 (<[0%nat := {| lp_enable := true; lp_state := NSH_LOOP_NORMAL;
                             lp_iendx := lp_iendx (default loop_normal (np_lpstate np !! 0%nat));
                             lp_topoffs := 0 |}]> (np_lpstate np)) np).

Definition set_lp_state (s : nsh_lp_e) (np : nsh_parser_s) : nsh_parser_s :=
  let lp := lp_top np in
  upd_lp {| lp_enable := lp_enable lp; lp_state := s; lp_iendx := lp_iendx lp;
            lp_topoffs := lp_topoffs lp |} np.

(** [cmd] is [*ppcmd]; the result is the return value, the parser state, the new
    [*ppcmd] and the text from the new [*saveptr] on. *)
Definition nsh_loop (vt : nsh_vtbl_s) (cmd : option (list Z)) (saveptr : list Z)
    : Z * nsh_parser_s * option (list Z) * list Z :=
  let np := vt_np vt in
  match cmd with
  | None => (OK, np, cmd, saveptr)
  | Some c =>
      let '(next, rest) := next_word vt saveptr in
      if word_is c "while" || word_is c "until" then
        if missing next then (ERROR, loop_error np, next, rest)
        else if ie_is NSH_ITEF_IF np || lp_is NSH_LOOP_WHILE np || lp_is NSH_LOOP_UNTIL np ||
                (np_fd np <? 0) || (np_foffs np <? 0)
        then (ERROR, loop_error np, next, rest)
        else if (NESTDEPTH - 1 <=? np_lpndx np)%nat then (ERROR, loop_error np, next, rest)
        else
          let state := if word_is c "while" then NSH_LOOP_WHILE else NSH_LOOP_UNTIL in
          let enable := nsh_cmdenabled np in
          let offset := np_foffs np + np_loffs np in
          let np := set_jump false (np_pos np) np in
          (OK, set_lp (S (np_lpndx np))
                 (<[S (np_lpndx np) :=
                    {| lp_enable := enable; lp_state := state; lp_iendx := np_iendx np;
                       lp_topoffs := offset |}]> (np_lpstate np)) np, next, rest)
      else if word_is c "do" then
        if negb (lp_is NSH_LOOP_WHILE np) && negb (lp_is NSH_LOOP_UNTIL np)
        then (ERROR, loop_error np, next, rest)
        else (OK, set_lp_state NSH_LOOP_DO np, next, rest)
      else if word_is c "done" then
        if bool_decide (is_Some next) then (ERROR, loop_error np, next, rest)
        else if negb (lp_is NSH_LOOP_DO np) then (ERROR, loop_error np, next, rest)
        else if (np_lpndx np <? 1)%nat then (ERROR, loop_error np, next, rest)
        else
          let lp := lp_top np in
          let np := if lp_enable lp then set_jump true (lp_topoffs lp) np else np in
          let lp' := {| lp_enable := true; lp_state := NSH_LOOP_NORMAL;
                        lp_iendx := lp_iendx lp; lp_topoffs := lp_topoffs lp |} in
          (OK, set_lp (np_lpndx np - 1) (<[np_lpndx np := lp']> (np_lpstate np)) np, next, rest)
      else if lp_is NSH_LOOP_WHILE np || lp_is NSH_LOOP_UNTIL np
      then (ERROR, loop_error np, cmd, saveptr)
      else (OK, np, cmd, saveptr)
  end.

(** ** If-then-else *)

Definition itef_error (np : nsh_parser_s) : nsh_parser_s :=
  set_ie 0 (<[0%nat := itef_normal]> (np_iestate np)) np.

Definition set_ie_state (s : nsh_itef_e) (np : nsh_parser_s) : nsh_parser_s :=
  let ie := ie_top np in
  upd_ie {| ie_ifcond := ie_ifcond ie; ie_disabled := ie_disabled ie;
            ie_inverted := ie_inverted ie; ie_state := s |} np.

Definition nsh_itef (vt : nsh_vtbl_s) (cmd : option (list Z)) (saveptr : list Z)
    : Z * nsh_parser_s * option (list Z) * list Z :=
  let np := vt_np vt in
  match cmd with
  | None => (OK, np, cmd, saveptr)
  | Some c =>
      let '(next, rest) := next_word vt saveptr in
      if word_is c "if" then
        if missing next then (ERROR, itef_error np, next, rest)
        else
          let inverted := bool_decide (next = Some (cstr "!")) in
          let '(next, rest) := if inverted then next_word vt rest else (next, rest) in
          if missing next then (ERROR, itef_error np, next, rest)
          else if ie_is NSH_ITEF_IF np then (ERROR, itef_error np, next, rest)
          else if (NESTDEPTH - 1 <=? np_iendx np)%nat then (ERROR, itef_error np, next, rest)
          else
            let disabled := negb (nsh_cmdenabled np) in
            (OK, set_ie (S (np_iendx np))
                   (<[S (np_iendx np) :=
                      {| ie_ifcond := false; ie_disabled := disabled; ie_inverted := inverted;
                         ie_state := NSH_ITEF_IF |}]> (np_iestate np)) np, next, rest)
      else if word_is c "then" then
        if negb (ie_is NSH_ITEF_IF np) then (ERROR, itef_error np, next, rest)
        else (OK, set_ie_state NSH_ITEF_THEN np, next, rest)
      else if word_is c "else" then
        if negb (ie_is NSH_ITEF_THEN np) then (ERROR, itef_error np, next, rest)
        else (OK, set_ie_state NSH_ITEF_ELSE np, next, rest)
      else if word_is c "fi" then
        if bool_decide (is_Some next) then (ERROR, itef_error np, next, rest)
        else if negb (ie_is NSH_ITEF_THEN np) && negb (ie_is NSH_ITEF_ELSE np)
        then (ERROR, itef_error np, next, rest)
        else if (np_iendx np <? 1)%nat then (ERROR, itef_error np, next, rest)
        else (OK, set_ie (np_iendx np - 1) (np_iestate np) np, next, rest)
      else if ie_is NSH_ITEF_IF np then (ERROR, itef_error np, cmd, saveptr)
      else (OK, np, cmd, saveptr)
  end.

(** ** The arguments of a command *)

Definition MAX_ARGV_ENTRIES : nat := MAXARGUMENTS + 4.

(** The tokens of an expanded variable that are terminated in place, while
    [room] entries are left, and the text the last entry points to. *)
Fixpoint env_split (room : nat) (s : list Z) : list (list Z) * list Z :=
  match room with
  | O => ([], s)
  | S room =>
      let n := strcspn token_separator s in
      let tok := take n s in
      match drop n s with
      | [] => ([], s)
      | rest =>
          let '(toks, last) := env_split room (skip_separators rest) in (tok :: toks, last)
      end
  end.

Definition has_prefix (p s : list Z) : bool := bool_decide (take (length p) s = p).

(** The file a redirection names: the rest of its argument, or the next one. *)
Definition redirect_target (vt : nsh_vtbl_s) (op arg saveptr : list Z)
    : option (list Z) * list Z :=
  match drop (length op) arg with
  | [] => next_word vt saveptr
  | file => (Some file, saveptr)
  end.

(** The loop that fills [argv]: [None] for the error of a redirection without a
    file name.  Terminating the tokens of a variable's value shortens the
    value itself. *)
Fixpoint args_loop (fuel : nat) (vt : nsh_vtbl_s) (c : cmd_s) (saveptr : list Z)
    : run (nsh_vtbl_s * option cmd_s) :=
  match fuel with
  | O => OutOfFuel
  | S fuel =>
      if (length (c_argv c) <? MAX_ARGV_ENTRIES - 1)%nat then
        match nsh_argument vt saveptr with
        | (None, _) => Done (vt, Some c)
        | (Some (arg, isenvvar), rest) =>
            let '(toks, arg) :=
              match isenvvar with
              | Some _ => env_split (MAX_ARGV_ENTRIES - 1 - length (c_argv c)) arg
              | None => ([], arg)
              end in
            let vt :=
              match isenvvar, toks with
              | Some name, tok :: _ =>
                  {| vt_np := vt_np vt;
                     vt_env := {| env_vars := setvalue name tok (env_vars (vt_env vt));
                                  env_pids := env_pids (vt_env vt) |};
                     vt_hist := vt_hist vt |}
              | _, _ => vt
              end in
            let argv := c_argv c ++ toks in
            if has_prefix (cstr ">>") arg then
              match redirect_target vt (cstr ">>") arg rest with
              | (None, _) => Done (vt, None)
              | (Some file, rest) =>
                  args_loop fuel vt {| c_argv := argv; c_out := Some (true, file);
                                       c_in := c_in c |} rest
              end
            else if has_prefix (cstr ">") arg then
              match redirect_target vt (cstr ">") arg rest with
              | (None, _) => Done (vt, None)
              | (Some file, rest) =>
                  args_loop fuel vt {| c_argv := argv; c_out := Some (false, file);
                                       c_in := c_in c |} rest
              end
            else if has_prefix (cstr "<") arg then
              match redirect_target vt (cstr "<") arg rest with
              | (None, _) => Done (vt, None)
              | (Some file, rest) =>
                  args_loop fuel vt {| c_argv := argv; c_out := c_out c;
                                       c_in := Some file |} rest
              end
            else
              args_loop fuel vt {| c_argv := argv ++ [arg]; c_out := c_out c;
                                   c_in := c_in c |} rest
        end
      else Done (vt, Some c)
  end.

(** ** Executing a command *)

Definition cmd_break (np : nsh_parser_s) : nsh_parser_s :=
  if lp_is NSH_LOOP_DO np then
    let lp := lp_top np in
    upd_lp {| lp_enable := false; lp_state := lp_state lp; lp_iendx := lp_iendx lp;
              lp_topoffs := lp_topoffs lp |} (set_ie (lp_iendx lp) (np_iestate np) np)
  else np.

End parser.

(** What the rest of the system does with a command, given the commands executed
    before and the environment: [start_app] is [nsh_builtin] and then
    [nsh_fileapp] ([None] when no application of that name can be started),
    [open_ok] says whether the files of its redirections can be opened,
    [command] is [nsh_command], whose handler for [break] always succeeds and
    changes the parser state by [cmd_break].  The result says whether the
    command failed, with the environment it leaves. *)
Record nsh_os := {
  start_app : list cmd_s -> env_s -> cmd_s -> option (bool * env_s);
  open_ok : list cmd_s -> cmd_s -> bool;
  command : list cmd_s -> env_s -> cmd_s -> bool * env_s;
}.

(** [break] takes no arguments. *)
Definition is_break (c : cmd_s) : bool :=
  match c_argv c with [w] => word_is w "break" | _ => false end.

Definition nsh_execute (os : nsh_os) (vt : nsh_vtbl_s) (c : cmd_s) : Z * nsh_vtbl_s :=
  let hist := vt_hist vt ++ [c] in
  let finish np env failed :=
    let '(ret, np) := nsh_saveresult np failed in
    (ret, {| vt_np := np; vt_env := env; vt_hist := hist |}) in
  match start_app os (vt_hist vt) (vt_env vt) c with
  | Some (failed, env) => finish (vt_np vt) env failed
  | None =>
      if negb (open_ok os (vt_hist vt) c) then finish (vt_np vt) (vt_env vt) true
      else
        let '(failed, env) := command os (vt_hist vt) (vt_env vt) c in
        if is_break c then finish (cmd_break (vt_np vt)) env false
        else finish (vt_np vt) env failed
  end.

Section shell.
Variable NESTDEPTH MAXARGUMENTS : nat.
Variable os : nsh_os.

(** [nsh_saveresult(vtbl, true)] for an error of the control words. *)
Definition save_error (vt : nsh_vtbl_s) (np : nsh_parser_s) : run (Z * nsh_vtbl_s) :=
  let '(ret, np) := nsh_saveresult np true in Done (ret, set_np np vt).

(** Filling the last entry of [argv] with the last token of a variable makes
    [argc] the size of the array, and [argv[argc] = NULL] writes behind it. *)
Definition nsh_parse_command (vt : nsh_vtbl_s) (cmdline : list Z) : run (Z * nsh_vtbl_s) :=
  let '(cmd, saveptr) := next_word vt cmdline in
  let '(ret, np, cmd, saveptr) := nsh_loop NESTDEPTH vt cmd saveptr in
  if negb (ret =? 0) then save_error vt np
  else
    let vt := set_np np vt in
    let '(ret, np, cmd, saveptr) := nsh_itef NESTDEPTH vt cmd saveptr in
    if negb (ret =? 0) then save_error vt np
    else
      let vt := set_np np vt in
      match cmd with
      | None => Done (OK, vt)
      | Some cmd =>
          if negb (nsh_cmdenabled np) then Done (OK, vt)
          else
            '(vt, c) ← args_loop MAXARGUMENTS (S (length saveptr)) vt
                         {| c_argv := [cmd]; c_out := None; c_in := None |} saveptr;
            match c with
            | None => Done (ERROR, vt)
            | Some c =>
                if (MAX_ARGV_ENTRIES MAXARGUMENTS <=? length (c_argv c))%nat then OutOfBounds
                else Done (nsh_execute os vt c)
            end
      end.

(** ** A line of commands *)

Definition line_separator (c : Z) : bool :=
  (c =? 34) || (c =? 39) || (c =? 35) || (c =? 59) || (c =? 10).

(** The characters of [cmdline] from [start] up to [stop]. *)
Definition substr (start stop : nat) (cmdline : list Z) : list Z :=
  take (stop - start) (drop start cmdline).

Fixpoint line_loop (fuel : nat) (vt : nsh_vtbl_s) (cmdline : list Z) (start working : nat)
    : run (Z * nsh_vtbl_s) :=
  match fuel with
  | O => OutOfFuel
  | S fuel =>
      if np_jump (vt_np vt) then Done (OK, vt)
      else
        let vt := set_np (set_offs (np_foffs (vt_np vt)) (u16 (Z.of_nat working)) (vt_np vt)) vt in
        let ptr := (working + strcspn line_separator (drop working cmdline))%nat in
        match cmdline !! ptr with
        | None => nsh_parse_command vt (drop start cmdline)
        | Some c =>
            if (c =? 10) || (c =? 35) then nsh_parse_command vt (drop start cmdline)
            else if c =? 59 then
              '(ret, vt) ← nsh_parse_command vt (substr start ptr cmdline);
              if negb (ret =? OK) then Done (ret, vt)
              else line_loop fuel vt cmdline (S ptr) (S ptr)
            else if (start <? ptr)%nat && bool_decide (cmdline !! (ptr - 1)%nat = Some 92)
            then line_loop fuel vt cmdline start (S working)
            else
              match index_of c (drop (S ptr) cmdline) with
              | None => Done (ERROR, vt)
              | Some i => line_loop fuel vt cmdline start (S ptr + Z.to_nat i + 1)%nat
              end
        end
  end.

Definition nsh_parse (vt : nsh_vtbl_s) (cmdline : list Z) : run (Z * nsh_vtbl_s) :=
  let np := vt_np vt in
  line_loop (S (length cmdline)) (set_np (set_jump false (np_pos np) np) vt) cmdline 0 0.

End shell.

(** ** Reading a line

    [readline_common] of system/readline as a script is read with it: without
    echo, history and completion, on characters that are all there.  Readline.v
    models the function with its options; ReadlineTheorems.v shows that it
    yields these lines when they are off. *)

Definition EOF : Z := -1.

Definition iscntrl (c : Z) : bool := (c <? 32) || (c =? 127).

(** [buf] holds the [nch] characters stored so far, [n] counts the characters
    read from the stream [s].  The result is the return value, the line and the
    number of characters read. *)
Fixpoint readline_loop (buflen : nat) (escape : Z) (buf : list Z) (n : Z) (s : list Z)
    : Z * list Z * Z :=
  match s with
  | [] => if (0 <? length buf)%nat then (zlen buf, buf, n) else (EOF, buf, n)
  | ch :: t =>
      if negb (escape =? 0) then
        readline_loop buflen (if negb (ch =? 91) || (escape =? 2) then 0 else 2) buf (n + 1) t
      else if (ch =? 8) || (ch =? 127) then
        readline_loop buflen escape (take (length buf - 1) buf) (n + 1) t
      else if ch =? 27 then readline_loop buflen 1 buf (n + 1) t
      else if ch =? 10 then (zlen buf + 1, buf ++ [10], n + 1)
      else if negb (iscntrl ch) then
        let buf := buf ++ [ch] in
        if (buflen <=? length buf + 1)%nat then (zlen buf, buf, n + 1)
        else readline_loop buflen escape buf (n + 1) t
      else readline_loop buflen escape buf (n + 1) t
  end.

Definition readline_common (buflen : nat) (s : list Z) : Z * list Z * Z :=
  if (buflen <? 2)%nat then (0, [], 0) else readline_loop buflen 0 [] 0 s.

(** ** Scripts *)

Section script.
Variable NESTDEPTH MAXARGUMENTS LINE_MAX : nat.
Variable os : nsh_os.
Variable ignore : bool.  (* NSH_PFLAG_IGNORE of [np_flags] *)

(** One pass of the loop of [nsh_script] over the characters of the file. *)
Definition script_line (file : list Z) (vt : nsh_vtbl_s) : run (Z * nsh_vtbl_s) :=
  let pos := np_pos (vt_np vt) in
  let np := set_offs pos 0 (vt_np vt) in
  let '(ret, buffer, n) := readline_common LINE_MAX (drop (Z.to_nat pos) file) in
  let vt := set_np (set_jump (np_jump np) (pos + n) np) vt in
  if 0 <=? ret then
    '(r, vt) ← nsh_parse NESTDEPTH MAXARGUMENTS os vt buffer;
    Done (if ignore then ret else r, vt)
  else Done (ret, vt).

Fixpoint script_loop (fuel : nat) (file : list Z) (vt : nsh_vtbl_s) : run (Z * nsh_vtbl_s) :=
  match fuel with
  | O => OutOfFuel
  | S fuel =>
      '(ret, vt) ← script_line file vt;
      if 0 <=? ret then script_loop fuel file vt else Done (ret, vt)
  end.

(** [fd] is the descriptor [open] returns for the script, negative if it fails. *)
Definition nsh_script (fuel : nat) (fd : Z) (file : list Z) (vt : nsh_vtbl_s)
    : run (Z * nsh_vtbl_s) :=
  let savestream := np_fd (vt_np vt) in
  let savepos := np_pos (vt_np vt) in
  if fd <? 0 then Done (ERROR, vt)
  else
    '(ret, vt) ← script_loop fuel file (set_np (set_fd fd 0 (vt_np vt)) vt);
    Done (ret, set_np (set_fd savestream savepos (vt_np vt)) vt).

End script.

(** The parser state of a new shell, whose memory is zeroed. *)
Definition initial_np (NESTDEPTH : nat) : nsh_parser_s :=
  {| np_fail := false; np_fd := 0; np_foffs := 0; np_loffs := 0; np_jump := false;
     np_lpndx := 0; np_iendx := 0; np_iestate := replicate NESTDEPTH itef_normal;
     np_lpstate := replicate NESTDEPTH
       {| lp_enable := false; lp_state := NSH_LOOP_NORMAL; lp_iendx := 0; lp_topoffs := 0 |};
     np_pos := 0 |}.

End NshParse.
