(* ===== verification/NshText.v ===== *)
(** NSH, text: how lines of plain words are read, split and tokenized. *)

From stdpp Require Import strings.
From S2P Require Import Prelude NshParse.
#[local] Open Scope Z_scope.

Module NshText.
Import NshParse.

(** A printable character without a meaning of its own in a command line. *)
Definition plain_char (c : Z) : bool :=
  (32 <? c) && (c <? 127) && negb (line_separator c) && negb (quote_separator c) &&
  negb (token_separator c) && negb ((c =? 36) || (c =? 60) || (c =? 62)).

Definition plain_word (w : list Z) : bool := negb (bool_decide (w = [])) && forallb plain_char w.

(** The line with the words [ws]: a blank between words, a newline at its end. *)
Fixpoint line_text (ws : list (list Z)) : list Z :=
  match ws with
  | [] => []
  | w :: t => w ++ (match t with [] => 10 | _ => 32 end) :: line_text t
  end.

Lemma plain_char_spec c : plain_char c = true ->
  32 < c < 127 /\ line_separator c = false /\ quote_separator c = false /\
  token_separator c = false /\ c <> 36 /\ c <> 60 /\ c <> 62.
Proof. unfold plain_char. intros H. breflect. repeat split; lia || done. Qed.

Lemma plain_char_range c : plain_char c = true -> 32 < c < 127 /\ c <> 35 /\ c <> 59.
Proof.
  intros H. apply plain_char_spec in H as (? & H & _). unfold line_separator in H. breflect. lia.
Qed.

Lemma plain_word_cons w : plain_word w = true ->
  exists c t, w = c :: t /\ plain_char c = true /\ Forall (fun c => plain_char c = true) t.
Proof.
  unfold plain_word. destruct w as [|c t]; [done|]. intros H. breflect. simpl in *. breflect.
  exists c, t. repeat split; [done|]. by apply Forall_forall, forallb_forall.
Qed.

Lemma plain_word_Forall w : plain_word w = true -> Forall (fun c => plain_char c = true) w.
Proof. intros (c & t & -> & ? & ?)%plain_word_cons. by constructor. Qed.

(** ** Tokens *)

Lemma arg_scan_plain w d t sq dq : Forall (fun c => plain_char c = true) w ->
  token_separator d = true -> arg_scan None sq dq (w ++ d :: t) = Some (w, sq, dq, t).
Proof.
  intros Hw Hd. induction Hw as [|c w Hc _ IH]; cbn [app arg_scan].
  - rewrite Hd. replace (quote_separator d) with false; [done|].
    unfold token_separator, quote_separator in *. repeat case_zbool.
  - apply plain_char_spec in Hc as (_ & _ & -> & -> & _). by rewrite IH.
Qed.

Lemma next_word_line vt w t : plain_word w = true -> nsh_argument vt (line_text (w :: t)) = (Some (w, None), line_text t).
Proof.
  intros Hw. pose proof (plain_word_Forall _ Hw) as Hf.
  apply plain_word_cons in Hw as (c & r & -> & Hc & _).
  cbn [line_text]. set (d := match t with [] => 10 | _ => 32 end).
  unfold nsh_argument. pose proof (plain_char_spec _ Hc) as (_ & _ & _ & Hs & H1 & H2 & _).
  pose proof (plain_char_range _ Hc).
  cbn [app skip_separators]. rewrite Hs, !(proj2 (Z.eqb_neq _ _)) by lia.
  change (c :: r ++ d :: line_text t) with ((c :: r) ++ d :: line_text t).
  rewrite arg_scan_plain by (done || by destruct t).
  unfold nsh_argexpand. by rewrite (proj2 (Z.eqb_neq c 36)).
Qed.

Lemma next_word_cons vt w t : plain_word w = true -> next_word vt (line_text (w :: t)) = (Some w, line_text t).
Proof. intros H. unfold next_word. by rewrite next_word_line. Qed.

Lemma plain_no_redirect w op : plain_word w = true -> op = cstr ">>" \/ op = cstr ">" \/ op = cstr "<" ->
  has_prefix op w = false.
Proof.
  intros (c & t & -> & Hc & _)%plain_word_cons Hop. apply plain_char_spec in Hc.
  apply bool_decide_eq_false. intros E. assert (head (c :: t) = head op) as E2; [|simpl in E2].
  { rewrite <- E. by destruct Hop as [-> | [-> | ->]]. }
  destruct Hop as [-> | [-> | ->]]; vm_compute in E2; simplify_eq; lia.
Qed.

(** The arguments of a line of plain words. *)
Lemma args_loop_line MAXARGUMENTS ws : forall fuel vt c,
  forallb plain_word ws = true ->
  (length ws < fuel)%nat -> (length (c_argv c) + length ws <= MAXARGUMENTS + 3)%nat ->
  args_loop MAXARGUMENTS fuel vt c (line_text ws) =
    Done (vt, Some {| c_argv := c_argv c ++ ws; c_out := c_out c; c_in := c_in c |}).
Proof.
  induction ws as [|w t IH]; intros fuel vt c Hw Hf Hl; (destruct fuel as [|fuel]; [simpl in Hf; lia|]);
    cbn [args_loop].
  - rewrite app_nil_r. destruct c as [a o i]. cbn [c_argv c_out c_in]. by destruct (_ <? _)%nat.
  - simpl in Hw, Hf, Hl. breflect. unfold MAX_ARGV_ENTRIES at 1.
    rewrite (proj2 (Nat.ltb_lt _ _)) by lia.
    rewrite next_word_line by done. cbv iota beta. rewrite app_nil_r.
    rewrite !plain_no_redirect by tauto. rewrite IH; [|done|lia|].
    + cbn [c_argv c_out c_in]. by rewrite <- app_assoc.
    + cbn [c_argv]. rewrite length_app. simpl. lia.
Qed.

(** ** Lines *)

Lemma line_text_length ws : (length ws <= length (line_text ws))%nat.
Proof. induction ws as [|w t IH]; simpl; [lia|]. rewrite length_app. simpl. lia. Qed.

(** A line of plain words is its text up to the newline. *)
Lemma line_text_split ws : ws <> [] -> forallb plain_word ws = true ->
  exists s, line_text ws = s ++ [10] /\ Forall (fun c => plain_char c = true \/ c = 32) s.
Proof.
  induction ws as [|w t IH]; intros Hn Hw; [done|]. simpl in Hw. breflect.
  assert (Forall (fun c => plain_char c = true \/ c = 32) w) as Hf.
  { eapply Forall_impl; [|exact (plain_word_Forall _ H)]. auto. }
  destruct t as [|w2 t]; [by exists w|].
  destruct IH as (s & E & Hs); [done|done|]. exists (w ++ 32 :: s). cbn [line_text] in *.
  rewrite E. split; [by rewrite <- app_assoc|]. apply Forall_app_2; [done|]. constructor; auto.
Qed.

Lemma strcspn_line s t : Forall (fun c => line_separator c = false) s ->
  strcspn line_separator (s ++ 10 :: t) = length s.
Proof. intros Hs. induction Hs as [|c s Hc _ IH]; [done|]. cbn. by rewrite Hc, IH. Qed.

Lemma plain_or_blank_separator c : plain_char c = true \/ c = 32 -> line_separator c = false.
Proof. intros [Hc | ->]; [|done]. by apply plain_char_spec in Hc as (_ & ? & _). Qed.

(** [nsh_parse] of a line of plain words is one command. *)
Lemma nsh_parse_line NESTDEPTH MAXARGUMENTS os vt ws : ws <> [] -> forallb plain_word ws = true ->
  nsh_parse NESTDEPTH MAXARGUMENTS os vt (line_text ws) =
    nsh_parse_command NESTDEPTH MAXARGUMENTS os
      (set_np (set_offs (np_foffs (vt_np vt)) 0 (set_jump false (np_pos (vt_np vt)) (vt_np vt))) vt)
      (line_text ws).
Proof.
  intros Hn Hw. destruct (line_text_split ws Hn Hw) as (s & E & Hs). rewrite E.
  unfold nsh_parse. cbn [line_loop]. cbn [vt_np set_np np_jump set_jump]. rewrite drop_0.
  rewrite strcspn_line by (eapply Forall_impl; [apply plain_or_blank_separator|exact Hs]).
  rewrite Nat.add_0_l, lookup_app_r, Nat.sub_diag by lia. done.
Qed.

Lemma readline_loop_plain buflen s t : forall buf n,
  Forall (fun c => plain_char c = true \/ c = 32) s -> (length buf + length s + 1 < buflen)%nat ->
  readline_loop buflen 0 buf n (s ++ 10 :: t) = (zlen (buf ++ s) + 1, buf ++ s ++ [10], n + zlen s + 1).
Proof.
  induction s as [|c s IH]; intros buf n Hs Hl; cbn [app readline_loop].
  - rewrite app_nil_r. change (zlen []) with 0. by rewrite Z.add_0_r.
  - inv_Forall. simpl in Hl.
    assert (32 <= c < 127) as Hc by (destruct H as [H | ->]; [apply plain_char_range in H|]; lia).
    unfold iscntrl. rewrite (proj2 (Z.ltb_ge c 32)) by lia.
    rewrite (proj2 (Z.eqb_neq c 8)), (proj2 (Z.eqb_neq c 127)), (proj2 (Z.eqb_neq c 27)),
      (proj2 (Z.eqb_neq c 10)) by lia. cbn [negb Z.eqb orb].
    rewrite (proj2 (Nat.leb_gt _ _)) by (rewrite length_app; simpl; lia).
    rewrite IH; [|done|rewrite length_app; simpl; lia].
    rewrite <- !app_assoc. unfold zlen. simpl. rewrite !length_app. simpl. do 2 f_equal. lia.
Qed.

(** The reader returns a line of plain words that fits its buffer. *)
Lemma readline_line buflen ws t : ws <> [] -> forallb plain_word ws = true ->
  (length (line_text ws) < buflen)%nat ->
  readline_common buflen (line_text ws ++ t) =
    (zlen (line_text ws), line_text ws, zlen (line_text ws)).
Proof.
  intros Hn Hw Hl. destruct (line_text_split ws Hn Hw) as (s & E & Hs). rewrite E in *.
  rewrite length_app in Hl. simpl in Hl.
  unfold readline_common. rewrite (proj2 (Nat.ltb_ge _ _)) by lia.
  rewrite <- app_assoc. cbn [app]. rewrite readline_loop_plain by (done || simpl; lia).
  cbn [app]. rewrite zlen_app. change (zlen [10]) with 1. by rewrite Z.add_0_l.
Qed.

End NshText.
