(* ===== verification/NshSteps.v ===== *)
(** NSH, one line of a script at a time: the parser state seen as two stacks,
    and what each kind of line does to them. *)

From stdpp Require Import strings.
From S2P Require Import Prelude NshParse NshText.
#[local] Open Scope Z_scope.

Module NshSteps.
Import NshParse NshText.

(** ** Stacks in arrays *)

(** The entries [0..i] of [l], the last one first. *)
Definition stk {A} (i : nat) (l : list A) : list A := reverse (take (S i) l).

Lemma stk_cons {A} i (l : list A) x : l !! i = Some x -> stk i l = x :: reverse (take i l).
Proof. intros Hx. unfold stk. by rewrite (take_S_r _ _ _ Hx), reverse_app. Qed.

Lemma stk_top {A} i (l : list A) x s : stk i l = x :: s -> (i < length l)%nat -> l !! i = Some x.
Proof.
  intros E Hi. apply lookup_lt_is_Some in Hi as [y Hy]. rewrite (stk_cons _ _ _ Hy) in E. by simplify_eq.
Qed.

Lemma stk_upd {A} i (l : list A) x y s : stk i l = x :: s -> (i < length l)%nat ->
  stk i (<[i := y]> l) = y :: s.
Proof.
  intros E Hi. rewrite (stk_cons _ _ y) by by apply list_lookup_insert_eq.
  rewrite (stk_cons _ _ _ (stk_top _ _ _ _ E Hi)) in E. simplify_eq. by rewrite take_insert_ge.
Qed.

Lemma stk_push {A} i (l : list A) y : (S i < length l)%nat -> stk (S i) (<[S i := y]> l) = y :: stk i l.
Proof.
  intros Hi. rewrite (stk_cons _ _ y) by by apply list_lookup_insert_eq. by rewrite take_insert_ge.
Qed.

Lemma stk_pop {A} i (l : list A) x y s : stk i l = x :: y :: s -> (i < length l)%nat ->
  (0 < i)%nat /\ stk (i - 1) l = y :: s /\ forall z, stk (i - 1) (<[i := z]> l) = y :: s.
Proof.
  intros E Hi. assert (length (stk i l) = S (S (length s))) as Hl by by rewrite E.
  unfold stk in Hl. rewrite length_reverse, length_take in Hl.
  destruct i as [|i]; [lia|]. split; [lia|]. replace (S i - 1)%nat with i by lia.
  apply lookup_lt_is_Some in Hi as [w Hw].
  rewrite (stk_cons _ _ _ Hw) in E. simplify_eq. split; [done|].
  intros z. unfold stk. by rewrite take_insert_ge by lia.
Qed.

Lemma length_stk {A} i (l : list A) : (i < length l)%nat -> length (stk i l) = S i.
Proof. intros H. unfold stk. rewrite length_reverse, length_take. lia. Qed.

Section steps.
Context (NESTDEPTH MAXARGUMENTS LINE_MAX : nat) (os : nsh_os) (ignore : bool) (file : list Z).

(** The stacks [I] and [L], the file position, the environment and the executed
    commands of a shell that runs a script. *)
Record st_at (vt : nsh_vtbl_s) (pos : Z) (I : list nsh_itef_s) (L : list nsh_loop_s)
    (env : env_s) (hist : list cmd_s) : Prop := {
  st_ie : stk (np_iendx (vt_np vt)) (np_iestate (vt_np vt)) = I;
  st_lp : stk (np_lpndx (vt_np vt)) (np_lpstate (vt_np vt)) = L;
  st_iel : length (np_iestate (vt_np vt)) = NESTDEPTH;
  st_lpl : length (np_lpstate (vt_np vt)) = NESTDEPTH;
  st_iei : (np_iendx (vt_np vt) < NESTDEPTH)%nat;
  st_lpi : (np_lpndx (vt_np vt) < NESTDEPTH)%nat;
  st_pos : np_pos (vt_np vt) = pos;
  st_fd : 0 <= np_fd (vt_np vt);
  st_env : vt_env vt = env;
  st_hist : vt_hist vt = hist;
}.

(** The state of [nsh_parse_command] for the line that starts at [pos]. *)
Definition st_cmd vt pos next I L env hist : Prop :=
  st_at vt next I L env hist /\ np_foffs (vt_np vt) = pos /\ np_loffs (vt_np vt) = 0.

Definition line_ok (ws : list (list Z)) : Prop :=
  ws <> [] /\ forallb plain_word ws = true /\ (length (line_text ws) < LINE_MAX)%nat /\
  (length ws <= MAXARGUMENTS + 3)%nat.

(** The line with the words [ws] is at offset [pos] of the script. *)
Definition line_at (pos : Z) (ws : list (list Z)) : Prop :=
  0 <= pos /\ exists t, drop (Z.to_nat pos) file = line_text ws ++ t.

Notation parse_command := (nsh_parse_command NESTDEPTH MAXARGUMENTS os).

Lemma script_line_words vt pos I L env hist ws :
  st_at vt pos I L env hist -> line_ok ws -> line_at pos ws ->
  exists vt0, st_cmd vt0 pos (pos + zlen (line_text ws)) I L env hist /\
    script_line NESTDEPTH MAXARGUMENTS LINE_MAX os ignore file vt =
      ('(r, vt') ← parse_command vt0 (line_text ws);
       Done (if ignore then zlen (line_text ws) else r, vt')).
Proof.
  intros Hst (Hn & Hw & Hl & _) (Hp & t & Ht).
  destruct Hst. unfold script_line. rewrite st_pos0, Ht.
  rewrite readline_line by done. cbv beta iota zeta.
  rewrite (proj2 (Z.leb_le _ _)) by apply zlen_nonneg.
  rewrite nsh_parse_line by done. eexists. split; [|reflexivity].
  by repeat split.
Qed.

(** ** The entries on top *)

Definition loop_on (lt : nsh_loop_s) : bool :=
  match lp_state lt with NSH_LOOP_DO => lp_enable lt | _ => true end.
Definition itef_on (it : nsh_itef_s) : bool :=
  negb (ie_disabled it) &&
  match ie_state it with
  | NSH_ITEF_NORMAL | NSH_ITEF_IF => true
  | NSH_ITEF_THEN => negb (ie_ifcond it)
  | NSH_ITEF_ELSE => ie_ifcond it
  end.

(** Not between [while] or [until] and [do], nor between [if] and [then]. *)
Definition ready_lp (lt : nsh_loop_s) : Prop :=
  lp_state lt <> NSH_LOOP_WHILE /\ lp_state lt <> NSH_LOOP_UNTIL.
Definition ready_ie (it : nsh_itef_s) : Prop := ie_state it <> NSH_ITEF_IF.

Section tops.
Context {vt : nsh_vtbl_s} {pos : Z} {it : nsh_itef_s} {I : list nsh_itef_s}
  {lt : nsh_loop_s} {L : list nsh_loop_s} {env : env_s} {hist : list cmd_s}
  (Hst : st_at vt pos (it :: I) (lt :: L) env hist).

Lemma ie_top_eq : ie_top (vt_np vt) = it.
Proof using Hst.
  destruct Hst. unfold ie_top. erewrite stk_top by (done || by rewrite st_iel0). done.
Qed.

Lemma lp_top_eq : lp_top (vt_np vt) = lt.
Proof using Hst.
  destruct Hst. unfold lp_top. erewrite stk_top by (done || by rewrite st_lpl0). done.
Qed.

Lemma lp_is_eq s : lp_is s (vt_np vt) = bool_decide (lp_state lt = s).
Proof using Hst. unfold lp_is. by rewrite lp_top_eq. Qed.

Lemma ie_is_eq s : ie_is s (vt_np vt) = bool_decide (ie_state it = s).
Proof using Hst. unfold ie_is. by rewrite ie_top_eq. Qed.

Lemma loop_enabled_eq : nsh_loop_enabled (vt_np vt) = loop_on lt.
Proof using Hst.
  unfold nsh_loop_enabled, loop_on. rewrite lp_is_eq, lp_top_eq. by destruct (lp_state lt).
Qed.

Lemma itef_enabled_eq : nsh_itef_enabled (vt_np vt) = itef_on it.
Proof using Hst.
  unfold nsh_itef_enabled, itef_on. rewrite ie_top_eq. by destruct (ie_disabled it).
Qed.

Lemma cmdenabled_eq : nsh_cmdenabled (vt_np vt) = loop_on lt && itef_on it.
Proof using Hst. unfold nsh_cmdenabled. by rewrite loop_enabled_eq, itef_enabled_eq. Qed.

Lemma ie_depth : S (length I) = S (np_iendx (vt_np vt)).
Proof using Hst.
  destruct Hst. change (S (length I)) with (length (it :: I)). rewrite <- st_ie0.
  apply length_stk. by rewrite st_iel0.
Qed.

Lemma lp_depth : S (length L) = S (np_lpndx (vt_np vt)).
Proof using Hst.
  destruct Hst. change (S (length L)) with (length (lt :: L)). rewrite <- st_lp0.
  apply length_stk. by rewrite st_lpl0.
Qed.

(** ** Updates of the stacks *)

Lemma st_upd_ie x : st_at (set_np (upd_ie x (vt_np vt)) vt) pos (x :: I) (lt :: L) env hist.
Proof using Hst.
  destruct Hst. constructor; simpl; rewrite ?length_insert; try done.
  eapply stk_upd; [done|]. by rewrite st_iel0.
Qed.

Lemma st_push_ie x : (S (length I) < NESTDEPTH)%nat ->
  st_at (set_np (set_ie (S (np_iendx (vt_np vt)))
           (<[S (np_iendx (vt_np vt)) := x]> (np_iestate (vt_np vt))) (vt_np vt)) vt)
    pos (x :: it :: I) (lt :: L) env hist.
Proof using Hst.
  rewrite ie_depth. intros Hd. destruct Hst. constructor; simpl; rewrite ?length_insert; try done.
  rewrite stk_push by by rewrite st_iel0. by rewrite st_ie0.
Qed.

Lemma st_push_lp x : (S (length L) < NESTDEPTH)%nat ->
  st_at (set_np (set_lp (S (np_lpndx (vt_np vt)))
           (<[S (np_lpndx (vt_np vt)) := x]> (np_lpstate (vt_np vt)))
           (set_jump false (np_pos (vt_np vt)) (vt_np vt))) vt)
    pos (it :: I) (x :: lt :: L) env hist.
Proof using Hst.
  rewrite lp_depth. intros Hd. destruct Hst. constructor; simpl; rewrite ?length_insert; try done.
  rewrite stk_push by by rewrite st_lpl0. by rewrite st_lp0.
Qed.

Lemma st_upd_lp x : st_at (set_np (upd_lp x (vt_np vt)) vt) pos (it :: I) (x :: L) env hist.
Proof using Hst.
  destruct Hst. constructor; simpl; rewrite ?length_insert; try done.
  eapply stk_upd; [done|]. by rewrite st_lpl0.
Qed.

Lemma st_fail b : st_at (set_np (set_fail b (vt_np vt)) vt) pos (it :: I) (lt :: L) env hist.
Proof using Hst. destruct Hst. by constructor. Qed.

End tops.

Lemma st_pop_ie vt pos x it I L env hist : st_at vt pos (x :: it :: I) L env hist ->
  (0 < np_iendx (vt_np vt))%nat /\
  st_at (set_np (set_ie (np_iendx (vt_np vt) - 1) (np_iestate (vt_np vt)) (vt_np vt)) vt)
    pos (it :: I) L env hist.
Proof.
  intros []. destruct (stk_pop _ _ _ _ _ st_ie0) as (Hp & Hs & _); [by rewrite st_iel0|].
  split; [done|]. constructor; simpl; done || lia.
Qed.

Lemma st_pop_lp vt pos I x lt L env hist y : st_at vt pos I (x :: lt :: L) env hist ->
  (0 < np_lpndx (vt_np vt))%nat /\
  st_at (set_np (set_lp (np_lpndx (vt_np vt) - 1)
           (<[np_lpndx (vt_np vt) := y]> (np_lpstate (vt_np vt))) (vt_np vt)) vt)
    pos I (lt :: L) env hist.
Proof.
  intros []. destruct (stk_pop _ _ _ _ _ st_lp0) as (Hp & _ & Hs); [by rewrite st_lpl0|].
  split; [done|]. constructor; simpl; rewrite ?length_insert; done || lia.
Qed.

Lemma st_jump vt pos I L env hist b p : st_at vt pos I L env hist ->
  st_at (set_np (set_jump b p (vt_np vt)) vt) p I L env hist.
Proof. intros []. by constructor. Qed.

(** ** Executing the command of a line *)

Definition plain_cmd (ws : list (list Z)) : cmd_s := {| c_argv := ws; c_out := None; c_in := None |}.

(** Whether a command other than [break] fails, and the environment it leaves. *)
Definition outcome (hist : list cmd_s) (env : env_s) (c : cmd_s) : bool * env_s :=
  match start_app os hist env c with
  | Some r => r
  | None => if open_ok os hist c then command os hist env c else (true, env)
  end.

Definition control_word (w : list Z) : bool :=
  existsb (word_is w) ["while"; "until"; "do"; "done"; "if"; "then"; "else"; "fi"; "break"; "!"]%string.

Definition simple (ws : list (list Z)) : Prop :=
  match ws with w :: _ => control_word w = false | [] => False end.

Lemma control_word_false w : control_word w = false ->
  forall k, k ∈ ["while"; "until"; "do"; "done"; "if"; "then"; "else"; "fi"; "break"; "!"]%string ->
  word_is w k = false.
Proof.
  unfold control_word. intros H k Hk. destruct (word_is w k) eqn:E; [|done].
  exfalso. eapply eq_true_false_abs; [|exact H]. apply existsb_exists. exists k.
  split; [|done]. by apply list_elem_of_In.
Qed.

Lemma nsh_execute_outcome vt c : is_break c = false ->
  nsh_execute os vt c =
    let '(failed, env') := outcome (vt_hist vt) (vt_env vt) c in
    let '(ret, np) := nsh_saveresult (vt_np vt) failed in
    (ret, {| vt_np := np; vt_env := env'; vt_hist := vt_hist vt ++ [c] |}).
Proof.
  intros Hb. unfold nsh_execute, outcome. rewrite Hb.
  destruct (start_app _ _ _ _) as [[f e]|]; [done|].
  by destruct (open_ok _ _ _); [destruct (command _ _ _ _)|].
Qed.

(** What [nsh_saveresult] does to the tops of the stacks, and its result. *)
Definition saved_lp (lt : nsh_loop_s) (f : bool) : nsh_loop_s :=
  match lp_state lt with
  | NSH_LOOP_WHILE => {| lp_enable := negb f; lp_state := lp_state lt; lp_iendx := lp_iendx lt;
                         lp_topoffs := lp_topoffs lt |}
  | NSH_LOOP_UNTIL => {| lp_enable := f; lp_state := lp_state lt; lp_iendx := lp_iendx lt;
                         lp_topoffs := lp_topoffs lt |}
  | _ => lt
  end.
Definition saved_ie (lt : nsh_loop_s) (it : nsh_itef_s) (f : bool) : nsh_itef_s :=
  match lp_state lt, ie_state it with
  | NSH_LOOP_WHILE, _ | NSH_LOOP_UNTIL, _ => it
  | _, NSH_ITEF_IF => {| ie_ifcond := xorb (ie_inverted it) f; ie_disabled := ie_disabled it;
                         ie_inverted := ie_inverted it; ie_state := ie_state it |}
  | _, _ => it
  end.
Definition saved_ret (lt : nsh_loop_s) (it : nsh_itef_s) (f : bool) : Z :=
  match lp_state lt, ie_state it with
  | NSH_LOOP_WHILE, _ | NSH_LOOP_UNTIL, _ => OK
  | _, NSH_ITEF_IF => OK
  | _, _ => if f then ERROR else OK
  end.

Lemma saveresult_st vt pos it I lt L env hist f : st_at vt pos (it :: I) (lt :: L) env hist ->
  exists np, nsh_saveresult (vt_np vt) f = (saved_ret lt it f, np) /\
    st_at (set_np np vt) pos (saved_ie lt it f :: I) (saved_lp lt f :: L) env hist.
Proof.
  intros Hst. unfold nsh_saveresult, saved_ret, saved_ie, saved_lp.
  rewrite !(lp_is_eq Hst), (ie_is_eq Hst), (lp_top_eq Hst), (ie_top_eq Hst).
  pose proof (fun b => st_fail Hst b) as Hf.
  destruct (lp_state lt) eqn:E1; try (eexists; split; [reflexivity|]; exact (st_upd_lp (Hf _) _));
    destruct (ie_state it) eqn:E2; eexists;
    (split; [reflexivity|]); first [exact (Hf _) | exact (st_upd_ie (Hf _) _)].
Qed.

(** The part of [nsh_parse_command] behind the control words. *)
Definition run_command (vt : nsh_vtbl_s) (cmd : option (list Z)) (saveptr : list Z)
    : run (Z * nsh_vtbl_s) :=
  match cmd with
  | None => Done (OK, vt)
  | Some cmd =>
      if negb (nsh_cmdenabled (vt_np vt)) then Done (OK, vt)
      else
        '(vt, c) ← args_loop MAXARGUMENTS (S (length saveptr)) vt (plain_cmd [cmd]) saveptr;
        match c with
        | None => Done (ERROR, vt)
        | Some c =>
            if (MAX_ARGV_ENTRIES MAXARGUMENTS <=? length (c_argv c))%nat then OutOfBounds
            else Done (nsh_execute os vt c)
        end
  end.

(** A command is executed when both stacks enable it, and its result saved. *)
Lemma run_command_on vt pos it I lt L env hist w t :
  st_at vt pos (it :: I) (lt :: L) env hist -> loop_on lt && itef_on it = true ->
  forallb plain_word (w :: t) = true -> (length (w :: t) <= MAXARGUMENTS + 3)%nat ->
  control_word w = false ->
  let '(f, env') := outcome hist env (plain_cmd (w :: t)) in
  exists vt', run_command vt (Some w) (line_text t) = Done (saved_ret lt it f, vt') /\
    st_at vt' pos (saved_ie lt it f :: I) (saved_lp lt f :: L) env' (hist ++ [plain_cmd (w :: t)]).
Proof.
  intros Hst Hon [Hw1 Hw2]%andb_true_iff Hl Hc. simpl in Hl. unfold run_command.
  rewrite (cmdenabled_eq Hst), Hon. cbn [negb].
  pose proof (line_text_length t).
  rewrite args_loop_line by (done || simpl; lia). cbv beta iota delta [mbind run_bind].
  cbn [c_argv c_out c_in plain_cmd app length]. unfold MAX_ARGV_ENTRIES.
  rewrite (proj2 (Nat.leb_gt _ _)) by lia. fold (plain_cmd (w :: t)).
  rewrite nsh_execute_outcome by
    (unfold is_break, plain_cmd; cbn [c_argv]; destruct t; [apply (control_word_false w Hc); set_solver|done]).
  rewrite (st_env _ _ _ _ _ _ Hst), (st_hist _ _ _ _ _ _ Hst).
  destruct (outcome hist env (plain_cmd (w :: t))) as [f env'].
  destruct (saveresult_st _ _ _ _ _ _ _ _ f Hst) as (np & -> & Hst').
  eexists. split; [reflexivity|]. destruct Hst'. by constructor.
Qed.

Lemma run_command_off vt pos it I lt L env hist cmd saveptr :
  st_at vt pos (it :: I) (lt :: L) env hist -> loop_on lt && itef_on it = false ->
  run_command vt cmd saveptr = Done (OK, vt).
Proof.
  intros Hst Hoff. unfold run_command. destruct cmd; [|done]. by rewrite (cmdenabled_eq Hst), Hoff.
Qed.

(** ** The lines of a script *)

Lemma set_np_id vt : set_np (vt_np vt) vt = vt.
Proof. by destruct vt. Qed.

Lemma parse_command_words vt w t : plain_word w = true ->
  parse_command vt (line_text (w :: t)) =
    let '(ret, np, cmd, saveptr) := nsh_loop NESTDEPTH vt (Some w) (line_text t) in
    if negb (ret =? 0) then save_error vt np
    else
      let vt := set_np np vt in
      let '(ret, np, cmd, saveptr) := nsh_itef NESTDEPTH vt cmd saveptr in
      if negb (ret =? 0) then save_error vt np else run_command (set_np np vt) cmd saveptr.
Proof. intros Hw. unfold nsh_parse_command. by rewrite next_word_cons. Qed.

Lemma loop_skip vt pos it I lt L env hist w saveptr :
  st_at vt pos (it :: I) (lt :: L) env hist -> ready_lp lt ->
  existsb (word_is w) ["while"; "until"; "do"; "done"]%string = false ->
  nsh_loop NESTDEPTH vt (Some w) saveptr = (OK, vt_np vt, Some w, saveptr).
Proof.
  intros Hst [H1 H2] Hw. simpl in Hw. breflect. unfold nsh_loop.
  destruct (next_word vt saveptr) as [n r]. rewrite !(lp_is_eq Hst).
  rewrite (bool_decide_eq_false_2 _ H1), (bool_decide_eq_false_2 _ H2).
  by repeat match goal with H : word_is _ _ = false |- _ => rewrite H; clear H end.
Qed.

Lemma itef_skip vt pos it I lt L env hist w saveptr :
  st_at vt pos (it :: I) (lt :: L) env hist -> ready_ie it ->
  existsb (word_is w) ["if"; "then"; "else"; "fi"]%string = false ->
  nsh_itef NESTDEPTH vt (Some w) saveptr = (OK, vt_np vt, Some w, saveptr).
Proof.
  intros Hst Hr Hw. simpl in Hw. breflect. unfold nsh_itef.
  destruct (next_word vt saveptr) as [n r]. rewrite !(ie_is_eq Hst).
  rewrite (bool_decide_eq_false_2 _ Hr).
  by repeat match goal with H : word_is _ _ = false |- _ => rewrite H; clear H end.
Qed.

Lemma control_loop w : control_word w = false ->
  existsb (word_is w) ["while"; "until"; "do"; "done"]%string = false.
Proof. unfold control_word. simpl. intros H. breflect. by repeat (apply orb_false_iff; split). Qed.

Lemma control_itef w : control_word w = false ->
  existsb (word_is w) ["if"; "then"; "else"; "fi"]%string = false.
Proof. unfold control_word. simpl. intros H. breflect. by repeat (apply orb_false_iff; split). Qed.

(** An ordinary command. *)
Lemma cmd_plain vt pos it I lt L env hist ws :
  st_at vt pos (it :: I) (lt :: L) env hist -> ready_lp lt -> ready_ie it ->
  line_ok ws -> simple ws ->
  if loop_on lt && itef_on it then
    let '(f, env') := outcome hist env (plain_cmd ws) in
    exists vt', parse_command vt (line_text ws) = Done (if f then ERROR else OK, vt') /\
      st_at vt' pos (it :: I) (lt :: L) env' (hist ++ [plain_cmd ws])
  else parse_command vt (line_text ws) = Done (OK, vt).
Proof.
  intros Hst Hlp Hie (_ & Hw & _ & Hl) Hs. destruct ws as [|w t]; [done|]. simpl in Hs.
  pose proof Hw as [Hw1 _]%andb_true_iff.
  rewrite parse_command_words by done.
  rewrite (loop_skip _ _ _ _ _ _ _ _ _ _ Hst) by (done || by apply control_loop).
  cbn [Z.eqb OK negb]. cbv zeta. rewrite set_np_id.
  rewrite (itef_skip _ _ _ _ _ _ _ _ _ _ Hst) by (done || by apply control_itef).
  cbn [Z.eqb OK negb]. rewrite set_np_id.
  destruct (loop_on lt && itef_on it) eqn:Hon; [|by eapply run_command_off].
  pose proof (run_command_on _ _ _ _ _ _ _ _ _ _ Hst Hon Hw Hl Hs) as Hr.
  destruct (outcome hist env (plain_cmd (w :: t))) as [f env'].
  replace (saved_ret lt it f) with (if f then ERROR else OK) in Hr.
  - replace (saved_ie lt it f) with it in Hr.
    + by replace (saved_lp lt f) with lt in Hr by (unfold saved_lp; destruct Hlp; by destruct (lp_state lt)).
    + unfold saved_ie. destruct Hlp. by destruct (lp_state lt), (ie_state it) eqn:?.
  - unfold saved_ret. destruct Hlp. by destruct (lp_state lt), (ie_state it) eqn:?.
Qed.

(** ** If, then, else, fi *)

Definition if_line (inv : bool) (cond : list (list Z)) : list (list Z) :=
  cstr "if" :: (if inv then [cstr "!"] else []) ++ cond.

(** The entry that [if] pushes, and the one its condition leaves. *)
Definition if_entry (on inv : bool) (c : bool) (s : nsh_itef_e) : nsh_itef_s :=
  {| ie_ifcond := c; ie_disabled := negb on; ie_inverted := inv; ie_state := s |}.

Lemma control_not_bang w : control_word w = false -> Some w <> Some (cstr "!").
Proof.
  intros Hc [= ->]. assert (word_is (cstr "!") "!" = false) as E; [|done].
  apply (control_word_false _ Hc). set_solver.
Qed.

Lemma itef_if vt pos it I lt L env hist (inv : bool) w t :
  st_at vt pos (it :: I) (lt :: L) env hist -> ready_ie it -> (S (length I) < NESTDEPTH)%nat ->
  plain_word w = true -> control_word w = false ->
  exists np, nsh_itef NESTDEPTH vt (Some (cstr "if"))
               (line_text ((if inv then [cstr "!"] else []) ++ w :: t)) = (OK, np, Some w, line_text t) /\
    st_at (set_np np vt) pos
      (if_entry (loop_on lt && itef_on it) inv false NSH_ITEF_IF :: it :: I) (lt :: L) env hist.
Proof.
  intros Hst Hr Hd Hw Hc.
  assert (missing (Some w) = false) as Hm by (apply plain_word_cons in Hw as (? & ? & -> & _); done).
  eexists. split; [|exact (st_push_ie Hst _ Hd)].
  unfold nsh_itef. rewrite (ie_is_eq Hst), (bool_decide_eq_false_2 _ Hr), (cmdenabled_eq Hst).
  rewrite (proj2 (Nat.leb_gt _ _)) by (pose proof (ie_depth Hst); lia).
  change (word_is (cstr "if") "if") with true. cbv iota.
  destruct inv; cbn [app]; rewrite !next_word_cons by done.
  - change (missing (Some (cstr "!"))) with false. cbv iota.
    change (bool_decide (Some (cstr "!") = Some (cstr "!"))) with true. cbv iota zeta.
    by rewrite Hm.
  - rewrite Hm. by rewrite (bool_decide_eq_false_2 _ (control_not_bang _ Hc)), Hm.
Qed.

Lemma cmd_if vt pos it I lt L env hist inv cond :
  st_at vt pos (it :: I) (lt :: L) env hist -> ready_lp lt -> ready_ie it ->
  (S (length I) < NESTDEPTH)%nat -> line_ok (if_line inv cond) -> simple cond ->
  if loop_on lt && itef_on it then
    let '(f, env') := outcome hist env (plain_cmd cond) in
    exists vt', parse_command vt (line_text (if_line inv cond)) = Done (OK, vt') /\
      st_at vt' pos (if_entry true inv (xorb inv f) NSH_ITEF_IF :: it :: I) (lt :: L) env'
        (hist ++ [plain_cmd cond])
  else
    exists vt', parse_command vt (line_text (if_line inv cond)) = Done (OK, vt') /\
      st_at vt' pos (if_entry false inv false NSH_ITEF_IF :: it :: I) (lt :: L) env hist.
Proof.
  intros Hst Hlp Hie Hd (_ & Hw & _ & Hl) Hs. destruct cond as [|w t]; [done|]. simpl in Hs.
  assert (forallb plain_word (w :: t) = true) as Hw' by
    (unfold if_line in Hw; destruct inv; simpl in Hw; breflect; simpl; by apply andb_true_iff).
  assert (length (w :: t) <= MAXARGUMENTS + 3)%nat as Hl' by
    (unfold if_line in Hl; destruct inv; simpl in Hl |- *; lia).
  pose proof Hw' as [Hw1 _]%andb_true_iff.
  unfold if_line. rewrite parse_command_words by done.
  rewrite (loop_skip _ _ _ _ _ _ _ _ _ _ Hst) by done.
  cbn [Z.eqb OK negb]. cbv zeta. rewrite set_np_id.
  destruct (itef_if _ _ _ _ _ _ _ _ inv w t Hst Hie Hd Hw1 Hs) as (np & -> & Hst').
  cbn [Z.eqb OK negb]. destruct (loop_on lt) eqn:Hlt, (itef_on it) eqn:Hit; cbn [andb].
  2-4: eexists; split; [eapply run_command_off; [exact Hst'|]|exact Hst']; by rewrite ?Hlt.
  pose proof (run_command_on _ _ _ _ _ _ _ _ w t Hst') as Hr. rewrite Hlt in Hr.
  specialize (Hr eq_refl Hw' Hl' Hs).
  destruct (outcome hist env (plain_cmd (w :: t))) as [f env'].
  unfold saved_ret, saved_ie, saved_lp in Hr. destruct Hlp. by destruct (lp_state lt).
Qed.

(** A line with one control word. *)
Lemma itef_word vt pos it I lt L env hist w it' :
  st_at vt pos (it :: I) (lt :: L) env hist -> ready_lp lt ->
  existsb (word_is w) ["while"; "until"; "do"; "done"]%string = false -> plain_word w = true ->
  (exists np, nsh_itef NESTDEPTH vt (Some w) [] = (OK, np, None, []) /\
     st_at (set_np np vt) pos it' (lt :: L) env hist) ->
  exists vt', parse_command vt (line_text [w]) = Done (OK, vt') /\
    st_at vt' pos it' (lt :: L) env hist.
Proof.
  intros Hst Hlp Hw Hp (np & E & Hst'). rewrite parse_command_words by done.
  rewrite (loop_skip _ _ _ _ _ _ _ _ _ _ Hst) by done.
  cbn [Z.eqb OK negb]. cbv zeta. rewrite set_np_id. change (line_text []) with (@nil Z). rewrite E.
  by eexists.
Qed.

Lemma cmd_then vt pos on inv c it I lt L env hist :
  st_at vt pos (if_entry on inv c NSH_ITEF_IF :: it :: I) (lt :: L) env hist -> ready_lp lt ->
  exists vt', parse_command vt (line_text [cstr "then"]) = Done (OK, vt') /\
    st_at vt' pos (if_entry on inv c NSH_ITEF_THEN :: it :: I) (lt :: L) env hist.
Proof.
  intros Hst Hlp. eapply itef_word; [done..|]. eexists. split.
  - unfold nsh_itef. rewrite (ie_is_eq Hst). reflexivity.
  - unfold set_ie_state. rewrite (ie_top_eq Hst). exact (st_upd_ie Hst _).
Qed.

Lemma cmd_else vt pos on inv c it I lt L env hist :
  st_at vt pos (if_entry on inv c NSH_ITEF_THEN :: it :: I) (lt :: L) env hist -> ready_lp lt ->
  exists vt', parse_command vt (line_text [cstr "else"]) = Done (OK, vt') /\
    st_at vt' pos (if_entry on inv c NSH_ITEF_ELSE :: it :: I) (lt :: L) env hist.
Proof.
  intros Hst Hlp. eapply itef_word; [done..|]. eexists. split.
  - unfold nsh_itef. rewrite !(ie_is_eq Hst). reflexivity.
  - unfold set_ie_state. rewrite (ie_top_eq Hst). exact (st_upd_ie Hst _).
Qed.

Lemma cmd_fi vt pos on inv c s it I lt L env hist :
  st_at vt pos (if_entry on inv c s :: it :: I) (lt :: L) env hist -> ready_lp lt ->
  s = NSH_ITEF_THEN \/ s = NSH_ITEF_ELSE ->
  exists vt', parse_command vt (line_text [cstr "fi"]) = Done (OK, vt') /\
    st_at vt' pos (it :: I) (lt :: L) env hist.
Proof.
  intros Hst Hlp Hs. eapply itef_word; [done..|].
  destruct (st_pop_ie _ _ _ _ _ _ _ _ Hst) as [Hp Hst']. eexists. split; [|exact Hst'].
  unfold nsh_itef. rewrite !(ie_is_eq Hst), (proj2 (Nat.ltb_ge _ _)) by lia.
  by destruct Hs as [-> | ->].
Qed.

(** ** While, until, do, done *)

Definition loop_word (until : bool) : list Z := if until then cstr "until" else cstr "while".
Definition loop_line (until : bool) (cond : list (list Z)) : list (list Z) := loop_word until :: cond.

(** The entry of a loop whose first line is at [top]. *)
Definition loop_entry (enable : bool) (s : nsh_lp_e) (iendx : nat) (top : Z) : nsh_loop_s :=
  {| lp_enable := enable; lp_state := s; lp_iendx := iendx; lp_topoffs := top |}.

Definition loop_cond (until : bool) : nsh_lp_e := if until then NSH_LOOP_UNTIL else NSH_LOOP_WHILE.

Lemma loop_while vt pos top it I lt L env hist until w t :
  st_cmd vt top pos (it :: I) (lt :: L) env hist -> ready_lp lt -> ready_ie it -> 0 <= top ->
  (S (length L) < NESTDEPTH)%nat -> plain_word w = true ->
  exists np, nsh_loop NESTDEPTH vt (Some (loop_word until)) (line_text (w :: t)) =
      (OK, np, Some w, line_text t) /\
    st_at (set_np np vt) pos (it :: I)
      (loop_entry (loop_on lt && itef_on it) (loop_cond until) (length I) top :: lt :: L) env hist.
Proof.
  intros (Hst & Hfo & Hlo) [H1 H2] Hie Ht Hd Hw.
  assert (missing (Some w) = false) as Hm by (apply plain_word_cons in Hw as (? & ? & -> & _); done).
  eexists. split; [|exact (st_push_lp Hst _ Hd)].
  unfold nsh_loop. rewrite next_word_cons by done. rewrite Hm.
  replace (word_is _ _ || word_is _ _) with true by by destruct until.
  rewrite (ie_is_eq Hst), !(lp_is_eq Hst), (bool_decide_eq_false_2 _ Hie),
    (bool_decide_eq_false_2 _ H1), (bool_decide_eq_false_2 _ H2), Hfo, Hlo.
  rewrite (proj2 (Z.ltb_ge _ _)) by apply (st_fd _ _ _ _ _ _ Hst).
  rewrite (proj2 (Z.ltb_ge _ _)) by done. cbn [orb].
  rewrite (proj2 (Nat.leb_gt _ _)) by (pose proof (lp_depth Hst); lia).
  rewrite (cmdenabled_eq Hst), Z.add_0_r. unfold loop_entry.
  replace (length I) with (np_iendx (vt_np vt)) by (pose proof (ie_depth Hst); lia).
  by destruct until.
Qed.

(** The condition of a loop is executed whenever the if-then-else stack enables
    it, also when the enclosing loop skips its body: here the two agree. *)
Lemma cmd_loop vt pos top it I lt L env hist until cond :
  st_cmd vt top pos (it :: I) (lt :: L) env hist -> ready_lp lt -> ready_ie it -> 0 <= top ->
  (S (length L) < NESTDEPTH)%nat -> line_ok (loop_line until cond) -> simple cond ->
  loop_on lt = true \/ itef_on it = false ->
  if loop_on lt && itef_on it then
    let '(f, env') := outcome hist env (plain_cmd cond) in
    exists vt', parse_command vt (line_text (loop_line until cond)) = Done (OK, vt') /\
      st_at vt' pos (it :: I)
        (loop_entry (xorb until (negb f)) (loop_cond until) (length I) top :: lt :: L) env'
        (hist ++ [plain_cmd cond])
  else
    exists vt', parse_command vt (line_text (loop_line until cond)) = Done (OK, vt') /\
      st_at vt' pos (it :: I)
        (loop_entry false (loop_cond until) (length I) top :: lt :: L) env hist.
Proof.
  intros Hst Hlp Hie Ht Hd (_ & Hw & _ & Hl) Hs Hor. destruct cond as [|w t]; [done|]. simpl in Hs.
  pose proof Hw as [Hw0 Hw']%andb_true_iff. pose proof Hw' as [Hw1 _]%andb_true_iff.
  unfold loop_line. rewrite parse_command_words by done.
  destruct (loop_while _ _ _ _ _ _ _ _ _ until w t Hst Hlp Hie Ht Hd Hw1) as (np & -> & Hst').
  cbn [Z.eqb OK negb]. cbv zeta.
  rewrite (itef_skip _ _ _ _ _ _ _ _ _ _ Hst') by (done || by apply control_itef).
  cbn [Z.eqb OK negb]. change (vt_np (set_np np vt)) with np.
  change (set_np np (set_np np vt)) with (set_np np vt).
  assert (forall e, loop_on (loop_entry e (loop_cond until) (length I) top) = true) as Hon by
    (by destruct until).
  destruct (loop_on lt && itef_on it) eqn:E.
  - apply andb_true_iff in E as [E1 E2].
    pose proof (run_command_on _ _ _ _ _ _ _ _ w t Hst') as Hr. rewrite Hon, E2 in Hr.
    specialize (Hr eq_refl Hw'). simpl in Hl. specialize (Hr ltac:(simpl; lia) Hs).
    destruct (outcome hist env (plain_cmd (w :: t))) as [f env'].
    by destruct until, f.
  - eexists. split; [|exact Hst']. eapply run_command_off; [exact Hst'|].
    rewrite Hon. destruct Hor as [Hor | ->]; [|done]. by rewrite Hor in E.
Qed.

(** A line with [do] or [done]. *)
Lemma loop_word_line vt np pos I L env hist w :
  plain_word w = true -> nsh_loop NESTDEPTH vt (Some w) [] = (OK, np, None, []) ->
  st_at (set_np np vt) pos I L env hist ->
  exists vt', parse_command vt (line_text [w]) = Done (OK, vt') /\ st_at vt' pos I L env hist.
Proof.
  intros Hp E Hst'. rewrite parse_command_words by done.
  change (line_text []) with (@nil Z). rewrite E. by eexists.
Qed.

Lemma cmd_do vt pos e until i top it I L env hist :
  st_at vt pos (it :: I) (loop_entry e (loop_cond until) i top :: L) env hist ->
  exists vt', parse_command vt (line_text [cstr "do"]) = Done (OK, vt') /\
    st_at vt' pos (it :: I) (loop_entry e NSH_LOOP_DO i top :: L) env hist.
Proof.
  intros Hst. eapply loop_word_line; [done| |].
  - unfold nsh_loop. rewrite !(lp_is_eq Hst). by destruct until.
  - unfold set_lp_state. rewrite (lp_top_eq Hst). exact (st_upd_lp Hst _).
Qed.

(** [done] goes back to the top of an enabled loop. *)
Lemma cmd_done vt pos e i top it I lt L env hist :
  st_at vt pos (it :: I) (loop_entry e NSH_LOOP_DO i top :: lt :: L) env hist ->
  exists vt', parse_command vt (line_text [cstr "done"]) = Done (OK, vt') /\
    st_at vt' (if e then top else pos) (it :: I) (lt :: L) env hist.
Proof.
  intros Hst. destruct (st_pop_lp _ _ _ _ _ _ _ _ (lp_top (vt_np vt)) Hst) as [Hp _].
  eapply loop_word_line; [done| |].
  - unfold nsh_loop. rewrite !(lp_is_eq Hst), (lp_top_eq Hst), (proj2 (Nat.ltb_ge _ _)) by lia.
    reflexivity.
  - destruct e; cbn [lp_enable loop_entry lp_topoffs].
    + refine (proj2 (st_pop_lp _ _ _ _ _ _ _ _ _ (st_jump _ _ _ _ _ _ true top Hst))).
    + exact (proj2 (st_pop_lp _ _ _ _ _ _ _ _ _ Hst)).
Qed.

End steps.
End NshSteps.
