(* ===== verification/NshScript.v ===== *)
(** NSH scripts against a reference semantics: structured programs with
    if-then-else and while/until loops, their text, and the proof that
    [nsh_script] executes on the text the commands the semantics prescribes. *)

From stdpp Require Import strings.
From S2P Require Import Prelude NshParse NshText NshSteps.
#[local] Open Scope Z_scope.

Module NshScript.
Import NshParse NshText NshSteps.

(** ** Programs and their text *)

(** A sequence of commands, conditionals and loops; a condition is a command. *)
Inductive prog :=
| PNil
| PCmd (ws : list (list Z)) (k : prog)
| PIf (inv : bool) (cond : list (list Z)) (th el k : prog)
| PLoop (until : bool) (cond : list (list Z)) (body k : prog).

(** The lines of a program, one command or control word each; the [else] part
    is left out when it is empty. *)
Fixpoint lines (p : prog) : list (list (list Z)) :=
  match p with
  | PNil => []
  | PCmd ws k => ws :: lines k
  | PIf inv cond th el k =>
      if_line inv cond :: [cstr "then"] :: lines th ++
      (match el with PNil => [] | _ => [cstr "else"] :: lines el end) ++
      [cstr "fi"] :: lines k
  | PLoop until cond body k =>
      loop_line until cond :: [cstr "do"] :: lines body ++ [cstr "done"] :: lines k
  end.

Definition text (ls : list (list (list Z))) : list Z := mjoin (line_text <$> ls).

Definition else_lines (el : prog) : list (list (list Z)) :=
  match el with PNil => [] | _ => [cstr "else"] :: lines el end.

Lemma text_cons l ls : text (l :: ls) = line_text l ++ text ls.
Proof. done. Qed.

Lemma text_app a b : text (a ++ b) = text a ++ text b.
Proof. unfold text. by rewrite fmap_app, join_app. Qed.

(** Go on with [k] unless the script ended. *)
Definition andthen (r : option (bool * env_s * list cmd_s))
    (k : env_s -> list cmd_s -> option (bool * env_s * list cmd_s)) :=
  match r with Some (true, env, hist) => k env hist | _ => r end.

Section script.
Context (NESTDEPTH MAXARGUMENTS LINE_MAX : nat) (os : nsh_os) (ignore : bool).

(** ** Reference semantics *)

(** The commands executed and the environment left, and whether the script goes
    on: without [ignore] it ends at the first command that fails and is not a
    condition.  [None]: more fuel is needed. *)
Fixpoint eval (fuel : nat) (p : prog) (env : env_s) (hist : list cmd_s)
    : option (bool * env_s * list cmd_s) :=
  match fuel with
  | O => None
  | S fuel =>
      match p with
      | PNil => Some (true, env, hist)
      | PCmd ws k =>
          let '(failed, env) := outcome os hist env (plain_cmd ws) in
          let hist := hist ++ [plain_cmd ws] in
          if failed && negb ignore then Some (false, env, hist) else eval fuel k env hist
      | PIf inv cond th el k =>
          let '(failed, env) := outcome os hist env (plain_cmd cond) in
          andthen (eval fuel (if xorb inv failed then el else th) env (hist ++ [plain_cmd cond]))
            (eval fuel k)
      | PLoop until cond body k =>
          let '(failed, env) := outcome os hist env (plain_cmd cond) in
          let hist := hist ++ [plain_cmd cond] in
          if xorb until (negb failed) then andthen (eval fuel body env hist) (eval fuel p)
          else eval fuel k env hist
      end
  end.

(** Programs that fit the limits of the parser: their lines fit the buffers, no
    command starts with a control word, conditionals and loops are nested at
    most [di] and [dl] deep, and the body of a loop contains another loop only
    inside a conditional ([inloop]). *)
Fixpoint wf (di dl : nat) (inloop : bool) (p : prog) : Prop :=
  match p with
  | PNil => True
  | PCmd ws k => line_ok MAXARGUMENTS LINE_MAX ws /\ simple ws /\ wf di dl inloop k
  | PIf inv cond th el k =>
      line_ok MAXARGUMENTS LINE_MAX (if_line inv cond) /\ simple cond /\
      match di with
      | O => False
      | S di' => wf di' dl false th /\ wf di' dl false el
      end /\ wf di dl inloop k
  | PLoop until cond body k =>
      inloop = false /\ line_ok MAXARGUMENTS LINE_MAX (loop_line until cond) /\ simple cond /\
      match dl with O => False | S dl' => wf di dl' true body end /\ wf di dl inloop k
  end.

(** ** Runs of the script loop *)

Context (file : list Z) (Hmax : (5 < LINE_MAX)%nat).

Notation loop := (script_loop NESTDEPTH MAXARGUMENTS LINE_MAX os ignore).
Notation st := (st_at NESTDEPTH).

Definition runs (vt vt' : nsh_vtbl_s) : Prop :=
  exists n, forall fuel, loop (n + fuel) file vt = loop fuel file vt'.
Definition stops (vt vt' : nsh_vtbl_s) : Prop :=
  exists n, forall fuel, loop (n + fuel) file vt = Done (ERROR, vt').

Lemma runs_refl vt : runs vt vt.
Proof. by exists 0%nat. Qed.

Lemma runs_trans vt1 vt2 vt3 : runs vt1 vt2 -> runs vt2 vt3 -> runs vt1 vt3.
Proof.
  intros [n Hn] [m Hm]. exists (n + m)%nat. intros fuel. by rewrite <- Nat.add_assoc, Hn, Hm.
Qed.

Lemma runs_stops vt1 vt2 vt3 : runs vt1 vt2 -> stops vt2 vt3 -> stops vt1 vt3.
Proof.
  intros [n Hn] [m Hm]. exists (n + m)%nat. intros fuel. by rewrite <- Nat.add_assoc, Hn, Hm.
Qed.

(** The lines [ls] are at offset [pos] of the script. *)
Definition lines_at (pos : Z) (ls : list (list (list Z))) : Prop :=
  0 <= pos /\ exists t, drop (Z.to_nat pos) file = text ls ++ t.

Lemma lines_at_app pos a b : lines_at pos (a ++ b) ->
  lines_at pos a /\ lines_at (pos + zlen (text a)) b.
Proof.
  intros (Hp & t & Ht). rewrite text_app, <- app_assoc in Ht. split; [split; [done|by eexists]|].
  pose proof (zlen_nonneg (text a)). split; [lia|]. exists t.
  unfold zlen. rewrite Z2Nat.inj_add, Nat2Z.id by lia. rewrite <- drop_drop, Ht.
  by rewrite drop_app_length.
Qed.

Lemma lines_at_cons pos l ls : lines_at pos (l :: ls) ->
  line_at file pos l /\ lines_at (pos + zlen (line_text l)) ls.
Proof.
  intros H. change (l :: ls) with ([l] ++ ls) in H. apply lines_at_app in H as [(Hp & t & Ht) H].
  rewrite text_cons, app_nil_r in *. split; [|done]. split; [done|]. by exists t.
Qed.

Lemma line_runs vt pos I L env hist ws (Q : nsh_vtbl_s -> Prop) :
  st vt pos I L env hist -> line_ok MAXARGUMENTS LINE_MAX ws -> line_at file pos ws ->
  (forall vt0, st_cmd NESTDEPTH vt0 pos (pos + zlen (line_text ws)) I L env hist ->
   exists vt', nsh_parse_command NESTDEPTH MAXARGUMENTS os vt0 (line_text ws) = Done (OK, vt') /\ Q vt') ->
  exists vt', runs vt vt' /\ Q vt'.
Proof.
  intros Hst Hok Hat H. destruct (script_line_words _ _ _ os ignore _ _ _ _ _ _ _ _ Hst Hok Hat) as (vt0 & H0 & E).
  destruct (H vt0 H0) as (vt' & E' & HQ). exists vt'. split; [|done]. exists 1%nat. intros fuel.
  cbn [Nat.add script_loop]. rewrite E, E'. cbv beta iota delta [mbind run_bind].
  by rewrite (proj2 (Z.leb_le _ _)) by (destruct ignore; [apply zlen_nonneg|done]).
Qed.

Lemma line_fails vt pos I L env hist ws (Q : nsh_vtbl_s -> Prop) :
  st vt pos I L env hist -> line_ok MAXARGUMENTS LINE_MAX ws -> line_at file pos ws ->
  (forall vt0, st_cmd NESTDEPTH vt0 pos (pos + zlen (line_text ws)) I L env hist ->
   exists vt', nsh_parse_command NESTDEPTH MAXARGUMENTS os vt0 (line_text ws) = Done (ERROR, vt') /\ Q vt') ->
  exists vt', (if ignore then runs vt vt' else stops vt vt') /\ Q vt'.
Proof.
  intros Hst Hok Hat H. destruct (script_line_words _ _ _ os ignore _ _ _ _ _ _ _ _ Hst Hok Hat) as (vt0 & H0 & E).
  destruct (H vt0 H0) as (vt' & E' & HQ). exists vt'. split; [|done].
  assert (forall b fuel, b = ignore -> loop (1 + fuel) file vt =
    if 0 <=? (if b then zlen (line_text ws) else ERROR) then loop fuel file vt'
    else Done (if b then zlen (line_text ws) else ERROR, vt')) as Hs.
  { intros b fuel ->. cbn [Nat.add script_loop]. by rewrite E, E'. }
  assert (ignore = true \/ ignore = false) as [Hi|Hi] by (destruct ignore; auto);
    rewrite Hi; exists 1%nat; intros fuel; rewrite (Hs _ _ (eq_sym Hi)); [|done].
  by rewrite (proj2 (Z.leb_le _ _)) by apply zlen_nonneg.
Qed.

(** A line with a control word of at most four letters. *)
Lemma word_line_ok w : plain_word w = true -> (length w <= 4)%nat ->
  line_ok MAXARGUMENTS LINE_MAX [w].
Proof using Hmax.
  intros Hw Hl. repeat split; [done|by simpl; rewrite Hw| |simpl; lia].
  cbn [line_text]. rewrite length_app. simpl. lia.
Qed.

(** ** Outcomes of a part of the script *)

(** The script arrives at [next] with these stacks, or it ends. *)
Definition reaches (vt : nsh_vtbl_s) (go : bool) (next : Z) I L env hist : Prop :=
  if go then exists vt', runs vt vt' /\ st vt' next I L env hist
  else exists vt', stops vt vt' /\ vt_env vt' = env /\ vt_hist vt' = hist.

Lemma reaches_refl vt pos next I L env hist :
  st vt pos I L env hist -> pos = next -> reaches vt true next I L env hist.
Proof. intros H <-. exists vt. split; [apply runs_refl|done]. Qed.

Lemma reaches_runs vt vt' go next I L env hist :
  runs vt vt' -> reaches vt' go next I L env hist -> reaches vt go next I L env hist.
Proof.
  intros Hr H. destruct go; destruct H as (vt2 & H1 & H2); exists vt2; split; [|done| |done].
  - by eapply runs_trans.
  - by eapply runs_stops.
Qed.

Lemma reaches_bind vt g1 p1 I1 L1 e1 h1 g2 p2 I2 L2 e2 h2 :
  reaches vt g1 p1 I1 L1 e1 h1 ->
  (g1 = true -> forall vt', st vt' p1 I1 L1 e1 h1 -> reaches vt' g2 p2 I2 L2 e2 h2) ->
  (g1 = false -> g2 = false /\ e2 = e1 /\ h2 = h1) ->
  reaches vt g2 p2 I2 L2 e2 h2.
Proof.
  intros H Ht Hf. destruct g1.
  - destruct H as (vt' & Hr & Hst). eapply reaches_runs; [done|]. by apply Ht.
  - destruct (Hf eq_refl) as (-> & -> & ->). done.
Qed.

(** A line that goes on, followed by the rest of the lines. *)
Lemma reaches_line vt pos I L env hist ws ls next1 I1 L1 e1 h1 go next I2 L2 e2 h2 :
  st vt pos I L env hist -> lines_at pos (ws :: ls) -> line_ok MAXARGUMENTS LINE_MAX ws ->
  (forall vt0, st_cmd NESTDEPTH vt0 pos (pos + zlen (line_text ws)) I L env hist ->
   exists vt', nsh_parse_command NESTDEPTH MAXARGUMENTS os vt0 (line_text ws) = Done (OK, vt') /\
     st vt' next1 I1 L1 e1 h1) ->
  (forall vt', st vt' next1 I1 L1 e1 h1 -> lines_at (pos + zlen (line_text ws)) ls ->
   reaches vt' go next I2 L2 e2 h2) ->
  reaches vt go next I2 L2 e2 h2.
Proof.
  intros Hst [Hat Hls]%lines_at_cons Hok Hline Hnext.
  destruct (line_runs _ _ _ _ _ _ _ _ Hst Hok Hat Hline) as (vt' & Hr & Hst').
  eapply reaches_runs; [exact Hr|]. by apply Hnext.
Qed.

Ltac solve_word := apply word_line_ok; [done|vm_compute; lia].
Ltac text_len := rewrite ?text_cons, ?text_app, ?text_cons, ?zlen_app; lia.

(** The lines of a conditional behind its condition. *)
Lemma if_flow on inv c vt pos it I lt L env hist th el g1 e1 h1 g2 e2 h2 :
  ready_lp lt ->
  st vt pos (if_entry on inv c NSH_ITEF_IF :: it :: I) (lt :: L) env hist ->
  lines_at pos ([cstr "then"] :: lines th ++ else_lines el ++ [[cstr "fi"]]) ->
  (forall vt pos, st vt pos (if_entry on inv c NSH_ITEF_THEN :: it :: I) (lt :: L) env hist ->
     lines_at pos (lines th) ->
     reaches vt g1 (pos + zlen (text (lines th)))
       (if_entry on inv c NSH_ITEF_THEN :: it :: I) (lt :: L) e1 h1) ->
  (g1 = true -> el <> PNil -> forall vt pos,
     st vt pos (if_entry on inv c NSH_ITEF_ELSE :: it :: I) (lt :: L) e1 h1 ->
     lines_at pos (lines el) ->
     reaches vt g2 (pos + zlen (text (lines el)))
       (if_entry on inv c NSH_ITEF_ELSE :: it :: I) (lt :: L) e2 h2) ->
  (g1 = false \/ el = PNil -> g2 = g1 /\ e2 = e1 /\ h2 = h1) ->
  reaches vt g2 (pos + zlen (text ([cstr "then"] :: lines th ++ else_lines el ++ [[cstr "fi"]])))
    (it :: I) (lt :: L) e2 h2.
Proof using Hmax.
  intros Hlp Hst Hat Hth Hel Hnil.
  eapply reaches_line; [exact Hst|exact Hat|solve_word| |].
  { intros vt0 [H0 _]. by eapply cmd_then. }
  clear vt Hst Hat. intros vt Hst [Ht Hat]%lines_at_app.
  eapply reaches_bind; [by apply Hth| |intros ->; by apply Hnil; left].
  clear vt Hst Hth. intros -> vt Hst. apply lines_at_app in Hat as [Hat Hfi].
  assert (forall s e h vt next, (s = NSH_ITEF_THEN \/ s = NSH_ITEF_ELSE) ->
    next = pos + zlen (text ([cstr "then"] :: lines th ++ else_lines el ++ [[cstr "fi"]])) ->
    st vt (pos + zlen (line_text [cstr "then"]) + zlen (text (lines th)) +
           zlen (text (else_lines el))) (if_entry on inv c s :: it :: I) (lt :: L) e h ->
    reaches vt true next (it :: I) (lt :: L) e h) as Hend.
  { intros s e h vt' next Hs -> Hst'.
    eapply reaches_line; [exact Hst'|exact Hfi|solve_word| |].
    { intros vt0 [H0 _]. by eapply cmd_fi. }
    intros vt2 Hst2 _. eapply reaches_refl; [exact Hst2|].
    rewrite text_cons, !text_app, !zlen_app. change (text [[cstr "fi"]]) with (line_text [cstr "fi"]). lia. }
  assert (el = PNil \/ el <> PNil) as [-> | Hn] by (destruct el; auto).
  { destruct Hnil as (-> & -> & ->); [by right|]. eapply Hend; [by left|done|].
    change (text (else_lines PNil)) with (@nil Z). change (zlen []) with 0. by rewrite Z.add_0_r. }
  assert (else_lines el = [cstr "else"] :: lines el) as Ee by by destruct el.
  rewrite Ee in *.
  eapply reaches_line; [exact Hst|exact Hat|solve_word| |].
  { intros vt0 [H0 _]. by eapply cmd_else. }
  clear vt Hst Hat. intros vt Hst Hat.
  eapply reaches_bind; [by apply Hel| |done].
  intros -> vt' Hst'. eapply Hend; [by right|done|].
  replace (_ + _ + _ + zlen (text ([cstr "else"] :: lines el))) with
    (pos + zlen (line_text [cstr "then"]) + zlen (text (lines th)) + zlen (line_text [cstr "else"]) +
     zlen (text (lines el))) by text_len. exact Hst'.
Qed.

Lemma if_lines inv cond th el k : lines (PIf inv cond th el k) =
  if_line inv cond :: ([cstr "then"] :: lines th ++ else_lines el ++ [[cstr "fi"]]) ++ lines k.
Proof. cbn [lines app]. unfold else_lines. by rewrite <- !app_assoc. Qed.

Lemma loop_lines until cond body k : lines (PLoop until cond body k) =
  loop_line until cond :: ([cstr "do"] :: lines body ++ [[cstr "done"]]) ++ lines k.
Proof. cbn [lines app]. by rewrite <- !app_assoc. Qed.

(** The lines of a loop behind its condition. *)
Lemma loop_flow e until top vt pos it I lt L env hist body g e1 h1 :
  st vt pos (it :: I) (loop_entry e (loop_cond until) (length I) top :: lt :: L) env hist ->
  lines_at pos ([cstr "do"] :: lines body ++ [[cstr "done"]]) ->
  (forall vt pos, st vt pos (it :: I) (loop_entry e NSH_LOOP_DO (length I) top :: lt :: L) env hist ->
     lines_at pos (lines body) ->
     reaches vt g (pos + zlen (text (lines body))) (it :: I)
       (loop_entry e NSH_LOOP_DO (length I) top :: lt :: L) e1 h1) ->
  reaches vt g (if e then top else pos + zlen (text ([cstr "do"] :: lines body ++ [[cstr "done"]])))
    (it :: I) (lt :: L) e1 h1.
Proof using Hmax.
  intros Hst Hat Hb.
  eapply reaches_line; [exact Hst|exact Hat|solve_word| |].
  { intros vt0 [H0 _]. by eapply cmd_do. }
  clear vt Hst Hat. intros vt Hst [Ht Hat]%lines_at_app.
  eapply reaches_bind; [by apply Hb| |done].
  intros -> vt' Hst'. eapply reaches_line; [exact Hst'|exact Hat|solve_word| |].
  { intros vt0 [H0 _]. by eapply cmd_done. }
  intros vt2 Hst2 _. eapply reaches_refl; [exact Hst2|].
  destruct e; [done|]. rewrite text_cons, text_app, !zlen_app.
  change (text [[cstr "done"]]) with (line_text [cstr "done"]). lia.
Qed.

(** A part of the script that is not enabled is passed without effect. *)
Lemma skip p : forall di dl inloop vt pos it I lt L env hist,
  wf di dl inloop p -> st vt pos (it :: I) (lt :: L) env hist -> ready_lp lt -> ready_ie it ->
  loop_on lt && itef_on it = false -> inloop = true \/ itef_on it = false ->
  (S (length I) + di <= NESTDEPTH)%nat -> (S (length L) + dl <= NESTDEPTH)%nat ->
  lines_at pos (lines p) ->
  reaches vt true (pos + zlen (text (lines p))) (it :: I) (lt :: L) env hist.
Proof using Hmax.
  induction p as [|ws k IHk|inv cond th IHth el IHel k IHk|until cond body IHb k IHk];
    intros di dl inloop vt pos it I lt L env hist Hwf Hst Hlp Hie Hoff Hin Hdi Hdl Hat.
  - eapply reaches_refl; [exact Hst|]. change (zlen (text (lines PNil))) with 0. lia.
  - destruct Hwf as (Hok & Hs & Hwf). cbn [lines] in Hat.
    eapply reaches_line; [exact Hst|exact Hat|done| |].
    { intros vt0 [H0 _]. exists vt0. split; [|exact H0].
      pose proof (cmd_plain NESTDEPTH MAXARGUMENTS LINE_MAX os _ _ _ _ _ _ _ _ _ H0 Hlp Hie Hok Hs) as Hc.
      by rewrite Hoff in Hc. }
    intros vt' Hst' Hat'. cbn [lines]. rewrite text_cons, zlen_app, Z.add_assoc. by eapply IHk.
  - destruct Hwf as (Hok & Hs & Hdep & Hwf). destruct di as [|di]; [done|]. destruct Hdep as [Hwt Hwe].
    rewrite if_lines in Hat |- *. rewrite text_cons, text_app, !zlen_app, !Z.add_assoc.
    eapply reaches_line; [exact Hst|exact Hat|done| |].
    { intros vt0 [H0 _].
      pose proof (cmd_if NESTDEPTH MAXARGUMENTS LINE_MAX os _ _ _ _ _ _ _ _ inv cond H0 Hlp Hie ltac:(lia) Hok Hs) as Hc.
      rewrite Hoff in Hc. exact Hc. }
    intros vt1 Hst1 [Ha Hk]%lines_at_app.
    eapply reaches_bind; [|intros _ vt2 Hst2; by eapply IHk|done].
    eapply if_flow; [done|exact Hst1|exact Ha| | |done].
    + intros vt2 pos2 Hst2 Hat2. eapply IHth; try done; [by rewrite andb_false_r|by right|simpl; lia].
    + intros _ _ vt2 pos2 Hst2 Hat2. eapply IHel; try done; [by rewrite andb_false_r|by right|simpl; lia].
  - destruct Hwf as (-> & Hok & Hs & Hdep & Hwf). destruct dl as [|dl]; [done|].
    destruct Hin as [|Hit]; [done|].
    rewrite loop_lines in Hat |- *. rewrite text_cons, text_app, !zlen_app, !Z.add_assoc.
    eapply reaches_line; [exact Hst|exact Hat|done| |].
    { intros vt0 H0.
      pose proof (cmd_loop NESTDEPTH MAXARGUMENTS LINE_MAX os _ _ _ _ _ _ _ _ _ until cond H0 Hlp Hie
        (proj1 Hat) ltac:(lia) Hok Hs (or_intror Hit)) as Hc.
      rewrite Hoff in Hc. exact Hc. }
    intros vt1 Hst1 [Ha Hk]%lines_at_app.
    eapply reaches_bind; [eapply (loop_flow false); [exact Hst1|exact Ha|]|
      intros _ vt2 Hst2; eapply IHk; try done; by right|done].
    intros vt2 pos2 Hst2 Hat2. eapply IHb; try done; [by right|simpl; lia].
Qed.

(** An enabled part of the script executes what the reference semantics says. *)
Definition exec_spec (fuel : nat) (p : prog) : Prop :=
  forall di dl inloop vt pos it I lt L env hist go env' hist',
  eval fuel p env hist = Some (go, env', hist') ->
  wf di dl inloop p -> st vt pos (it :: I) (lt :: L) env hist -> ready_lp lt -> ready_ie it ->
  loop_on lt = true -> itef_on it = true ->
  (S (length I) + di <= NESTDEPTH)%nat -> (S (length L) + dl <= NESTDEPTH)%nat ->
  lines_at pos (lines p) ->
  reaches vt go (pos + zlen (text (lines p))) (it :: I) (lt :: L) env' hist'.

(** The continuation of an outcome of the reference semantics. *)
Lemma eval_bind (r : option (bool * env_s * list cmd_s)) k go env' hist' :
  andthen r k = Some (go, env', hist') ->
  exists g e h, r = Some (g, e, h) /\
    (g = true -> k e h = Some (go, env', hist')) /\ (g = false -> go = false /\ env' = e /\ hist' = h).
Proof. destruct r as [[[[] e] h]|]; intros H; [..|done]; eexists _, _, _; naive_solver. Qed.

Lemma exec_cmd fuel ws k : exec_spec fuel k -> exec_spec (S fuel) (PCmd ws k).
Proof using Hmax.
  intros IH di dl inloop vt pos it I lt L env hist go env' hist' He (Hok & Hs & Hwf) Hst Hlp Hie
    Hlt Hit Hdi Hdl Hat.
  cbn [eval] in He. cbn [lines] in Hat |- *. rewrite text_cons, zlen_app, Z.add_assoc.
  pose proof (fun vt0 next H0 => cmd_plain NESTDEPTH MAXARGUMENTS LINE_MAX os vt0 next it I lt L env hist ws
    H0 Hlp Hie Hok Hs) as Hc.
  rewrite Hlt, Hit in Hc. cbn [andb] in Hc.
  destruct (outcome os hist env (plain_cmd ws)) as [f e1]. destruct f.
  - pose proof Hat as [Hl Hk]%lines_at_cons.
    destruct (line_fails _ _ _ _ _ _ _ _ Hst Hok Hl (fun vt0 H0 => Hc vt0 _ (proj1 H0))) as (vt' & Hr & Hst').
    destruct ignore eqn:Hi; cbn [andb negb] in He.
    + eapply reaches_runs; [exact Hr|]. by eapply IH.
    + simplify_eq. exists vt'. split; [exact Hr|]. by destruct Hst'.
  - cbn [andb] in He. eapply reaches_line; [exact Hst|exact Hat|done|intros vt0 H0; exact (Hc vt0 _ (proj1 H0))|].
    intros vt' Hst' Hk. by eapply IH.
Qed.

Lemma exec_if fuel inv cond th el k :
  exec_spec fuel th -> exec_spec fuel el -> exec_spec fuel k -> exec_spec (S fuel) (PIf inv cond th el k).
Proof using Hmax.
  intros IHt IHe IHk di dl inloop vt pos it I lt L env hist go env' hist' He (Hok & Hs & Hdep & Hwf)
    Hst Hlp Hie Hlt Hit Hdi Hdl Hat.
  destruct di as [|di]; [done|]. destruct Hdep as [Hwt Hwe]. cbn [eval] in He.
  rewrite if_lines in Hat |- *. rewrite text_cons, text_app, !zlen_app, !Z.add_assoc.
  pose proof (fun vt0 next H0 => cmd_if NESTDEPTH MAXARGUMENTS LINE_MAX os vt0 next it I lt L env hist inv cond
    H0 Hlp Hie ltac:(lia) Hok Hs) as Hc.
  rewrite Hlt, Hit in Hc. cbn [andb] in Hc.
  destruct (outcome os hist env (plain_cmd cond)) as [f e1].
  apply eval_bind in He as (g & e2 & h2 & Hb & Hgo & Hend).
  eapply reaches_line; [exact Hst|exact Hat|done|intros vt0 H0; exact (Hc vt0 _ (proj1 H0))|].
  clear vt Hst Hat Hc. intros vt Hst [Ha Hk]%lines_at_app.
  eapply (reaches_bind _ g); [|intros Hg vt2 Hst2; eapply IHk; by eauto|exact Hend].
  assert (forall vt pos c s e h, st vt pos (if_entry true inv c s :: it :: I) (lt :: L) e h ->
    forall p, wf di dl false p -> itef_on (if_entry true inv c s) = false ->
    ready_ie (if_entry true inv c s) -> lines_at pos (lines p) ->
    reaches vt true (pos + zlen (text (lines p))) (if_entry true inv c s :: it :: I) (lt :: L) e h) as Hskip.
  { intros vt2 pos2 c s e h Hst2 p Hp Hoff Hr Hat2.
    eapply skip; try done; [by rewrite Hlt|by right|simpl; lia]. }
  destruct (xorb inv f) eqn:Hx.
  - eapply (if_flow _ _ _ _ _ _ _ _ _ _ _ _ _ true); [done|exact Hst|exact Ha| | |].
    + intros vt2 pos2 Hst2 Hat2. by eapply Hskip.
    + intros _ _ vt2 pos2 Hst2 Hat2. eapply IHe; try done; simpl; lia.
    + intros [ | -> ]; [done|]. destruct fuel; [done|]. cbn [eval] in Hb. by simplify_eq.
  - eapply (if_flow _ _ _ _ _ _ _ _ _ _ _ _ _ g); [done|exact Hst|exact Ha| | |done].
    + intros vt2 pos2 Hst2 Hat2. eapply IHt; try done; simpl; lia.
    + intros -> _ vt2 pos2 Hst2 Hat2. by eapply Hskip.
Qed.

Lemma exec_loop fuel until cond body k :
  exec_spec fuel body -> exec_spec fuel k -> exec_spec fuel (PLoop until cond body k) ->
  exec_spec (S fuel) (PLoop until cond body k).
Proof using Hmax.
  intros IHb IHk IHl di dl inloop vt pos it I lt L env hist go env' hist' He Hwf
    Hst Hlp Hie Hlt Hit Hdi Hdl Hat.
  pose proof Hwf as (Hin & Hok & Hs & Hdep & Hwk). destruct dl as [|dl]; [done|].
  cbn [eval] in He. pose proof Hat as Hat0. rewrite loop_lines in Hat.
  pose proof (fun vt0 next H0 => cmd_loop NESTDEPTH MAXARGUMENTS LINE_MAX os vt0 next pos it I lt L env hist
    until cond H0 Hlp Hie (proj1 Hat) ltac:(lia) Hok Hs (or_introl Hlt)) as Hc.
  rewrite Hlt, Hit in Hc. cbn [andb] in Hc.
  destruct (outcome os hist env (plain_cmd cond)) as [f e1].
  eapply reaches_line; [exact Hst|exact Hat|done|intros vt0 H0; exact (Hc vt0 _ H0)|].
  clear vt Hst Hc. intros vt Hst [Ha Hk]%lines_at_app.
  destruct (xorb until (negb f)).
  - apply eval_bind in He as (g & e2 & h2 & Hb & Hgo & Hend).
    eapply (reaches_bind _ g); [|intros Hg vt2 Hst2; eapply IHl; try done; by auto|exact Hend].
    eapply (loop_flow true); [exact Hst|exact Ha|].
    intros vt2 pos2 Hst2 Hat2. eapply IHb; try done; simpl; lia.
  - rewrite loop_lines, text_cons, text_app, !zlen_app, !Z.add_assoc.
    eapply (reaches_bind _ true); [|intros _ vt2 Hst2; eapply IHk; try done; exact Hst2|done].
    eapply (loop_flow false); [exact Hst|exact Ha|].
    intros vt2 pos2 Hst2 Hat2. eapply skip; try done; [by left|simpl; lia].
Qed.

Lemma exec_all fuel : forall p, exec_spec fuel p.
Proof using Hmax.
  induction fuel as [|fuel IH]; [by intros p ???????????|]. intros [].
  - intros di dl inloop vt pos it I lt L env hist go env' hist' He _ Hst _ _ _ _ _ _ _.
    cbn [eval] in He. simplify_eq. eapply reaches_refl; [exact Hst|].
    change (zlen (text (lines PNil))) with 0. lia.
  - by apply exec_cmd.
  - by apply exec_if.
  - by apply exec_loop.
Qed.

(** At the end of the file the loop ends with EOF. *)
Lemma loop_eof vt pos I L env hist :
  st vt pos I L env hist -> drop (Z.to_nat pos) file = [] ->
  exists vt', (forall fuel, loop (S fuel) file vt = Done (EOF, vt')) /\ st vt' pos I L env hist.
Proof using Hmax.
  intros Hst Hd. destruct Hst. eexists. split.
  - intros fuel. cbn [script_loop]. unfold script_line. rewrite st_pos0, Hd.
    unfold readline_common. rewrite (proj2 (Nat.ltb_ge _ _)) by lia. reflexivity.
  - constructor; try done. simpl. lia.
Qed.

End script.

(** The script [p] of a fresh shell: started with enough fuel, [nsh_script]
    ends, and has executed what the reference semantics prescribes. *)
Lemma script_exec NESTDEPTH MAXARGUMENTS LINE_MAX os ignore p fuel env go env' hist' fd :
  (5 < LINE_MAX)%nat -> (0 < NESTDEPTH)%nat -> 0 <= fd ->
  wf MAXARGUMENTS LINE_MAX (NESTDEPTH - 1) (NESTDEPTH - 1) false p ->
  eval os ignore fuel p env [] = Some (go, env', hist') ->
  exists n vt', forall m, (n <= m)%nat ->
    nsh_script NESTDEPTH MAXARGUMENTS LINE_MAX os ignore m fd (text (lines p))
      {| vt_np := initial_np NESTDEPTH; vt_env := env; vt_hist := [] |} = Done (ERROR, vt') /\
    vt_env vt' = env' /\ vt_hist vt' = hist' /\
    (go = true -> np_iendx (vt_np vt') = 0%nat /\ np_lpndx (vt_np vt') = 0%nat).
Proof.
  intros Hmax Hnest Hfd Hwf He. set (file := text (lines p)).
  set (vt0 := {| vt_np := set_fd fd 0 (initial_np NESTDEPTH); vt_env := env; vt_hist := [] |}).
  set (lp0 := {| lp_enable := false; lp_state := NSH_LOOP_NORMAL; lp_iendx := 0; lp_topoffs := 0 |}).
  assert (st_at NESTDEPTH vt0 0 [itef_normal] [lp0] env []) as Hst.
  { destruct NESTDEPTH as [|d]; [lia|].
    constructor; try done; simpl; rewrite ?length_replicate; done || lia. }
  assert (lines_at file 0 (lines p)) as Hat by (split; [done|]; exists []; by rewrite app_nil_r).
  pose proof (exec_all NESTDEPTH MAXARGUMENTS LINE_MAX os ignore file Hmax fuel p _ _ _ _ _ _ _ _ _ _ _ _ _ _
    He Hwf Hst ltac:(done) ltac:(done) eq_refl eq_refl ltac:(simpl; lia) ltac:(simpl; lia) Hat) as Hr.
  unfold nsh_script. rewrite (proj2 (Z.ltb_ge _ _)) by done.
  change (set_np (set_fd fd 0 (vt_np _)) _) with vt0.
  destruct go.
  - destruct Hr as (vt1 & [n Hn] & Hst1).
    destruct (loop_eof NESTDEPTH MAXARGUMENTS LINE_MAX os ignore file Hmax _ _ _ _ _ _ Hst1)
      as (vt2 & E & Hst2).
    { rewrite Z.add_0_l. unfold zlen. rewrite Nat2Z.id. by apply drop_ge. }
    exists (S n). eexists. intros m Hm. replace m with (n + S (m - S n))%nat by lia.
    rewrite Hn, E. split; [reflexivity|].
    pose proof (ie_depth _ Hst2). pose proof (lp_depth _ Hst2).
    destruct Hst2. split; [done|]. split; [done|]. intros _. simpl in *. lia.
  - destruct Hr as (vt1 & [n Hn] & He1 & Hh1). exists n. eexists. intros m Hm.
    replace m with (n + (m - n))%nat by lia. rewrite Hn. split; [reflexivity|]. done.
Qed.

End NshScript.
