(* ===== verification/NshInv.v ===== *)
(** NSH, the parser state: an invariant kept by every command line and script,
    and the totality of the command-line parser. *)

From stdpp Require Import strings.
From S2P Require Import Prelude NshParse.
#[local] Open Scope Z_scope.

Module NshInv.
Import NshParse.

(** Both arrays have [N] entries and both indices lie inside them; entry 0 is
    outside every conditional and loop; below the top of the loop stack every
    loop is in its body, and the entry on top belongs to a loop. *)
Record parser_ok (N : nat) (np : nsh_parser_s) : Prop := {
  ok_iel : length (np_iestate np) = N;
  ok_lpl : length (np_lpstate np) = N;
  ok_iei : (np_iendx np < N)%nat;
  ok_lpi : (np_lpndx np < N)%nat;
  ok_lpie : Forall (fun lp => (lp_iendx lp < N)%nat) (np_lpstate np);
  ok_ie0 : np_iestate np !! 0%nat = Some itef_normal;
  ok_lp0 : lp_state <$> np_lpstate np !! 0%nat = Some NSH_LOOP_NORMAL;
  ok_lps : forall j lp, (0 < j <= np_lpndx np)%nat -> np_lpstate np !! j = Some lp ->
    lp_state lp <> NSH_LOOP_NORMAL /\ ((j < np_lpndx np)%nat -> lp_state lp = NSH_LOOP_DO);
}.

Lemma parser_initial_ok N : (0 < N)%nat -> parser_ok N (initial_np N).
Proof.
  intros HN. destruct N as [|N]; [lia|].
  constructor; simpl; rewrite ?length_replicate; try done; try lia.
  constructor; [simpl; lia|]. apply Forall_replicate. simpl. lia.
Qed.

Section ok.
Context {N : nat} {np : nsh_parser_s} (Hok : parser_ok N np).

Lemma lp_top_in : np_lpstate np !! np_lpndx np = Some (lp_top np).
Proof using Hok.
  unfold lp_top. destruct Hok. assert (is_Some (np_lpstate np !! np_lpndx np)) as [x ->]; [|done].
  apply lookup_lt_is_Some. lia.
Qed.

Lemma lp_top_iendx : (lp_iendx (lp_top np) < N)%nat.
Proof using Hok. exact (Forall_lookup_1 _ _ _ _ (ok_lpie _ _ Hok) lp_top_in). Qed.

(** The loop stack is empty exactly when the entry on top is entry 0. *)
Lemma lp_top_normal : lp_state (lp_top np) = NSH_LOOP_NORMAL <-> np_lpndx np = 0%nat.
Proof using Hok.
  pose proof lp_top_in as Ht. destruct Hok. split.
  - intros E. destruct (decide (np_lpndx np = 0%nat)) as [|Hn]; [done|].
    destruct (ok_lps0 (np_lpndx np) _ ltac:(lia) Ht). done.
  - intros E. rewrite E in Ht. rewrite Ht in ok_lp1. simpl in *. by simplify_eq.
Qed.

Lemma ie_top_normal : ie_state (ie_top np) <> NSH_ITEF_NORMAL -> (0 < np_iendx np)%nat.
Proof using Hok.
  destruct Hok. intros E. destruct (decide (np_iendx np = 0%nat)) as [En|]; [|lia].
  exfalso. apply E. unfold ie_top. by rewrite En, ok_ie1.
Qed.

Lemma ok_upd_lp x : (lp_iendx x < N)%nat ->
  (lp_state x = NSH_LOOP_NORMAL <-> np_lpndx np = 0%nat) -> parser_ok N (upd_lp x np).
Proof using Hok.
  intros Hi Hx. destruct Hok. constructor; simpl; rewrite ?length_insert; try done.
  - by apply Forall_insert.
  - destruct (decide (np_lpndx np = 0%nat)) as [E|E].
    + rewrite E, list_lookup_insert_eq by lia. simpl. f_equal. by apply Hx.
    + by rewrite list_lookup_insert_ne.
  - intros j lp Hj. destruct (decide (j = np_lpndx np)) as [->|E].
    + rewrite list_lookup_insert_eq by lia. intros [= <-]. split; [|lia]. intros E%Hx. lia.
    + rewrite list_lookup_insert_ne by done. by apply ok_lps0.
Qed.

Lemma ok_upd_ie x : (0 < np_iendx np)%nat -> parser_ok N (upd_ie x np).
Proof using Hok.
  intros Hi. destruct Hok. constructor; simpl; rewrite ?length_insert; try done.
  by rewrite list_lookup_insert_ne by lia.
Qed.

Lemma ok_set_ie i : (i < N)%nat -> parser_ok N (set_ie i (np_iestate np) np).
Proof using Hok. intros Hi. by destruct Hok. Qed.

Lemma ok_set_fail b : parser_ok N (set_fail b np).
Proof using Hok. by destruct Hok. Qed.
Lemma ok_set_jump b p : parser_ok N (set_jump b p np).
Proof using Hok. by destruct Hok. Qed.
Lemma ok_set_offs f l : parser_ok N (set_offs f l np).
Proof using Hok. by destruct Hok. Qed.
Lemma ok_set_fd f p : parser_ok N (set_fd f p np).
Proof using Hok. by destruct Hok. Qed.

Lemma ok_push_ie x : (S (np_iendx np) < N)%nat ->
  parser_ok N (set_ie (S (np_iendx np)) (<[S (np_iendx np) := x]> (np_iestate np)) np).
Proof using Hok.
  intros Hi. destruct Hok. constructor; simpl; rewrite ?length_insert; try done.
  by rewrite list_lookup_insert_ne by lia.
Qed.

Lemma ok_push_lp x : (S (np_lpndx np) < N)%nat -> lp_iendx x = np_iendx np ->
  lp_state x <> NSH_LOOP_NORMAL -> lp_is NSH_LOOP_WHILE np = false -> lp_is NSH_LOOP_UNTIL np = false ->
  parser_ok N (set_lp (S (np_lpndx np)) (<[S (np_lpndx np) := x]> (np_lpstate np)) np).
Proof using Hok.
  intros Hi Hx Hs H1%bool_decide_eq_false H2%bool_decide_eq_false. pose proof lp_top_in as Ht.
  destruct Hok. constructor; simpl; rewrite ?length_insert; try done.
  - apply Forall_insert; [done|]. simpl. lia.
  - by rewrite list_lookup_insert_ne by lia.
  - intros j lp Hj. destruct (decide (j = S (np_lpndx np))) as [->|E].
    + rewrite list_lookup_insert_eq by lia. intros [= <-]. split; [done|lia].
    + rewrite list_lookup_insert_ne by done. intros Hl. destruct (ok_lps0 j lp) as [Hn Hd]; [lia|done|].
      split; [done|]. intros _. destruct (decide (j = np_lpndx np)) as [->|]; [|apply Hd; lia].
      rewrite Ht in Hl. simplify_eq. by destruct (lp_state (lp_top np)).
Qed.

Lemma ok_pop_lp x : lp_iendx x = lp_iendx (lp_top np) -> (0 < np_lpndx np)%nat ->
  parser_ok N (set_lp (np_lpndx np - 1) (<[np_lpndx np := x]> (np_lpstate np)) np).
Proof using Hok.
  intros Hx Hp. pose proof lp_top_iendx. destruct Hok. constructor; simpl; rewrite ?length_insert; try done; try lia.
  - apply Forall_insert; [done|]. simpl. lia.
  - by rewrite list_lookup_insert_ne by lia.
  - intros j lp Hj. rewrite list_lookup_insert_ne by lia. intros Hl.
    destruct (ok_lps0 j lp) as [Hn Hd]; [lia|done|]. split; [done|]. intros. apply Hd. lia.
Qed.

Lemma ok_loop_error : parser_ok N (loop_error np).
Proof using Hok.
  destruct Hok. constructor; simpl; rewrite ?length_insert; try done; try lia.
  - apply Forall_insert; [done|]. simpl.
    destruct (np_lpstate np !! 0%nat) eqn:E; [|simpl; lia]. simpl. exact (Forall_lookup_1 _ _ _ _ ok_lpie0 E).
  - by rewrite list_lookup_insert_eq by lia.
Qed.

Lemma ok_itef_error : parser_ok N (itef_error np).
Proof using Hok.
  destruct Hok. constructor; simpl; rewrite ?length_insert; try done; try lia.
  by rewrite list_lookup_insert_eq by lia.
Qed.

End ok.

(** ** Every operation keeps the invariant *)

Section ops.
Context {N : nat}.

Lemma lp_is_true s np : lp_is s np = true -> lp_state (lp_top np) = s.
Proof. apply bool_decide_eq_true. Qed.
Lemma ie_is_true s np : ie_is s np = true -> ie_state (ie_top np) = s.
Proof. apply bool_decide_eq_true. Qed.

(** An update that keeps the state of a loop in [s], which is not NORMAL. *)
Lemma ok_upd_lp_is s np x : parser_ok N np -> lp_is s np = true -> s <> NSH_LOOP_NORMAL ->
  lp_state x <> NSH_LOOP_NORMAL -> lp_iendx x = lp_iendx (lp_top np) -> parser_ok N (upd_lp x np).
Proof.
  intros Hok Hs%lp_is_true Hn Hx Hi. apply ok_upd_lp; [done|rewrite Hi; by apply lp_top_iendx|].
  split; [done|]. intros E. apply (lp_top_normal Hok) in E. congruence.
Qed.

Lemma ok_upd_ie_is s np x : parser_ok N np -> ie_is s np = true -> s <> NSH_ITEF_NORMAL ->
  parser_ok N (upd_ie x np).
Proof.
  intros Hok Hs%ie_is_true Hn. apply ok_upd_ie; [done|]. apply (ie_top_normal Hok). congruence.
Qed.

Lemma ok_saveresult np f : parser_ok N np -> parser_ok N (nsh_saveresult np f).2.
Proof.
  intros Hok. unfold nsh_saveresult. pose proof (ok_set_fail Hok) as Hf.
  destruct (lp_is NSH_LOOP_WHILE np) eqn:E1.
  { eapply (ok_upd_lp_is NSH_LOOP_WHILE); try done. simpl. by rewrite (lp_is_true _ _ E1). }
  destruct (lp_is NSH_LOOP_UNTIL np) eqn:E2.
  { eapply (ok_upd_lp_is NSH_LOOP_UNTIL); try done. simpl. by rewrite (lp_is_true _ _ E2). }
  destruct (ie_is NSH_ITEF_IF np) eqn:E3; [|apply Hf].
  by eapply (ok_upd_ie_is NSH_ITEF_IF).
Qed.

Lemma ok_break np : parser_ok N np -> parser_ok N (cmd_break np).
Proof.
  intros Hok. unfold cmd_break. destruct (lp_is NSH_LOOP_DO np) eqn:E; [|done].
  eapply (ok_upd_lp_is NSH_LOOP_DO); try done.
  - apply ok_set_ie; [done|]. by apply lp_top_iendx.
  - simpl. by rewrite (lp_is_true _ _ E).
Qed.

Lemma ok_loop vt cmd saveptr : parser_ok N (vt_np vt) ->
  parser_ok N (nsh_loop N vt cmd saveptr).1.1.2.
Proof.
  intros Hok. unfold nsh_loop. destruct cmd as [c|]; [|done].
  destruct (next_word vt saveptr) as [next rest]. pose proof (ok_loop_error Hok).
  destruct (word_is c "while" || word_is c "until").
  { destruct (missing next); [done|].
    destruct (_ || (np_foffs (vt_np vt) <? 0)) eqn:E; [done|]. breflect.
    destruct (Nat.leb_spec (N - 1) (np_lpndx (vt_np vt))) as [|Hd]; [done|]. simpl.
    apply (ok_push_lp (ok_set_jump Hok _ _)); simpl; try done; [lia|]. by destruct (word_is c "while"). }
  destruct (word_is c "do").
  { destruct (lp_is NSH_LOOP_WHILE (vt_np vt)) eqn:E1; simpl.
    { by eapply (ok_upd_lp_is NSH_LOOP_WHILE). }
    destruct (lp_is NSH_LOOP_UNTIL (vt_np vt)) eqn:E2; simpl; [|done].
    by eapply (ok_upd_lp_is NSH_LOOP_UNTIL). }
  destruct (word_is c "done").
  { destruct (bool_decide (is_Some next)); [done|].
    destruct (lp_is NSH_LOOP_DO (vt_np vt)) eqn:E; [|done]. cbn [negb].
    destruct (Nat.ltb_spec (np_lpndx (vt_np vt)) 1) as [|Hp]; [done|]. cbn [fst snd].
    destruct (lp_enable _); by apply ok_pop_lp; try apply ok_set_jump. }
  destruct (_ || _); done.
Qed.

Lemma ok_itef vt cmd saveptr : parser_ok N (vt_np vt) ->
  parser_ok N (nsh_itef N vt cmd saveptr).1.1.2.
Proof.
  intros Hok. unfold nsh_itef. destruct cmd as [c|]; [|done].
  destruct (next_word vt saveptr) as [next rest]. pose proof (ok_itef_error Hok).
  destruct (word_is c "if").
  { destruct (missing next); [done|]. cbv zeta.
    destruct (if bool_decide (next = Some (cstr "!")) then _ else _) as [next' rest'].
    destruct (missing next'); [done|]. destruct (ie_is NSH_ITEF_IF (vt_np vt)); [done|].
    destruct (Nat.leb_spec (N - 1) (np_iendx (vt_np vt))) as [|Hd]; [done|]. simpl.
    apply ok_push_ie; [done|lia]. }
  destruct (word_is c "then").
  { destruct (ie_is NSH_ITEF_IF (vt_np vt)) eqn:E; [|done]. by eapply (ok_upd_ie_is NSH_ITEF_IF). }
  destruct (word_is c "else").
  { destruct (ie_is NSH_ITEF_THEN (vt_np vt)) eqn:E; [|done]. by eapply (ok_upd_ie_is NSH_ITEF_THEN). }
  destruct (word_is c "fi").
  { destruct (bool_decide (is_Some next)); [done|]. destruct (negb _ && negb _); [done|].
    destruct (_ <? 1)%nat; [done|]. simpl. apply ok_set_ie; [done|]. destruct Hok. lia. }
  destruct (ie_is _ _); done.
Qed.

(** Splitting the arguments leaves the parser state alone. *)
Lemma args_loop_np M fuel : forall vt c saveptr vt' c',
  args_loop M fuel vt c saveptr = Done (vt', c') -> vt_np vt' = vt_np vt /\ vt_hist vt' = vt_hist vt.
Proof.
  induction fuel as [|fuel IH]; intros vt c saveptr vt' c'; cbn [args_loop]; [done|].
  destruct (_ <? _)%nat; [|by intros [= <- <-]].
  destruct (nsh_argument vt saveptr) as [[[arg isenv]|] rest]; [|by intros [= <- <-]].
  destruct (match isenv with Some _ => _ | None => _ end) as [toks arg'].
  set (vt1 := match isenv, toks with Some _, _ :: _ => _ | _, _ => vt end).
  assert (vt_np vt1 = vt_np vt /\ vt_hist vt1 = vt_hist vt) as [E1 E2] by (subst vt1; by destruct isenv, toks).
  cbv zeta. fold vt1. rewrite <- E1, <- E2. clearbody vt1.
  repeat match goal with
  | |- context [ if has_prefix ?p ?a then _ else _ ] => destruct (has_prefix p a)
  | |- context [ redirect_target ?a ?b ?c ?d ] => destruct (redirect_target a b c d) as [[] ?]
  end; try (by intros [= <- <-]); apply IH.
Qed.

Lemma ok_execute os vt c : parser_ok N (vt_np vt) -> parser_ok N (vt_np (nsh_execute os vt c).2).
Proof.
  intros Hok. unfold nsh_execute.
  assert (forall np env f h, parser_ok N np -> parser_ok N (vt_np
    (let '(ret, np0) := nsh_saveresult np f in (ret, {| vt_np := np0; vt_env := env; vt_hist := h |})).2)) as Hf.
  { intros np env f h Hn. pose proof (ok_saveresult np f Hn). by destruct (nsh_saveresult np f). }
  destruct (start_app _ _ _ _) as [[f env]|]; [by apply Hf|].
  destruct (negb _); [by apply Hf|]. destruct (command _ _ _ _) as [f env].
  destruct (is_break c); apply Hf; [by apply ok_break|done].
Qed.

Lemma ok_save_error vt np r vt' : parser_ok N np -> save_error vt np = Done (r, vt') -> parser_ok N (vt_np vt').
Proof.
  intros Hok. unfold save_error. pose proof (ok_saveresult np true Hok).
  destruct (nsh_saveresult np true) as [x np']. by intros [= <- <-].
Qed.

Section run.
Context (MAXARGUMENTS LINE_MAX : nat) (os : nsh_os).

Lemma ok_parse_command vt cmdline r vt' : parser_ok N (vt_np vt) ->
  nsh_parse_command N MAXARGUMENTS os vt cmdline = Done (r, vt') -> parser_ok N (vt_np vt').
Proof.
  intros Hok. unfold nsh_parse_command. destruct (next_word vt cmdline) as [cmd s].
  pose proof (ok_loop vt cmd s Hok) as H1.
  destruct (nsh_loop N vt cmd s) as [[[ret np] cmd1] s1]. simpl in H1.
  destruct (negb (ret =? 0)); [by apply ok_save_error|].
  pose proof (ok_itef (set_np np vt) cmd1 s1 H1) as H2.
  destruct (nsh_itef N (set_np np vt) cmd1 s1) as [[[ret2 np2] cmd2] s2]. simpl in H2.
  destruct (negb (ret2 =? 0)); [by apply ok_save_error|].
  destruct cmd2 as [w|]; [|by intros [= <- <-]].
  destruct (negb _); [by intros [= <- <-]|].
  destruct (args_loop _ _ _ _ _) as [[vt3 c]| |] eqn:E; [|done..].
  apply args_loop_np in E as [E _]. cbv beta iota delta [mbind run_bind].
  destruct c as [c|]; [|intros [= <- <-]; by rewrite E].
  destruct (_ <=? _)%nat; [done|]. intros [= Hx].
  pose proof (ok_execute os vt3 c) as H3. rewrite Hx in H3. apply H3. by rewrite E.
Qed.

Lemma ok_line_loop fuel : forall vt cmdline start working r vt', parser_ok N (vt_np vt) ->
  line_loop N MAXARGUMENTS os fuel vt cmdline start working = Done (r, vt') -> parser_ok N (vt_np vt').
Proof.
  induction fuel as [|fuel IH]; intros vt cmdline start working r vt' Hok; cbn [line_loop]; [done|].
  destruct (np_jump _); [by intros [= <- <-]|]. cbv zeta.
  set (vt1 := set_np (set_offs _ _ _) vt).
  assert (parser_ok N (vt_np vt1)) as H1 by by apply ok_set_offs. clearbody vt1.
  destruct (cmdline !! _) as [c|]; [|by apply ok_parse_command].
  destruct (_ || _); [by apply ok_parse_command|].
  destruct (c =? 59).
  { destruct (nsh_parse_command _ _ _ _ _) as [[ret vt2]| |] eqn:E; [|done..].
    apply ok_parse_command in E; [|done]. cbv beta iota delta [mbind run_bind].
    destruct (negb _); [by intros [= <- <-]|]. by apply IH. }
  destruct (_ && _); [by apply IH|].
  destruct (index_of _ _); [by apply IH|by intros [= <- <-]].
Qed.

Lemma ok_script_line ignore file vt r vt' : parser_ok N (vt_np vt) ->
  script_line N MAXARGUMENTS LINE_MAX os ignore file vt = Done (r, vt') -> parser_ok N (vt_np vt').
Proof.
  intros Hok. unfold script_line. destruct (readline_common _ _) as [[ret buffer] n]. cbv zeta.
  set (vt1 := set_np (set_jump _ _ _) vt).
  assert (parser_ok N (vt_np vt1)) as H1 by by apply ok_set_jump, ok_set_offs. clearbody vt1.
  destruct (0 <=? ret); cbv beta iota delta [mbind run_bind]; [|by intros [= <- <-]].
  destruct (nsh_parse _ _ _ _ _) as [[r2 vt2]| |] eqn:E; [|done..]. intros [= <- <-].
  apply ok_line_loop in E; [done|by apply ok_set_jump].
Qed.

Lemma ok_script_loop ignore fuel file : forall vt r vt', parser_ok N (vt_np vt) ->
  script_loop N MAXARGUMENTS LINE_MAX os ignore fuel file vt = Done (r, vt') -> parser_ok N (vt_np vt').
Proof.
  induction fuel as [|fuel IH]; intros vt r vt' Hok; cbn [script_loop]; [done|].
  destruct (script_line _ _ _ _ _ _ _) as [[r2 vt2]| |] eqn:E; [|done..].
  apply ok_script_line in E; [|done]. cbv beta iota delta [mbind run_bind].
  destruct (0 <=? r2); [by apply IH|by intros [= <- <-]].
Qed.

Lemma ok_script ignore fuel fd file vt r vt' : parser_ok N (vt_np vt) ->
  nsh_script N MAXARGUMENTS LINE_MAX os ignore fuel fd file vt = Done (r, vt') -> parser_ok N (vt_np vt').
Proof.
  intros Hok. unfold nsh_script. destruct (fd <? 0); [by intros [= <- <-]|].
  destruct (script_loop _ _ _ _ _ _ _ _) as [[r2 vt2]| |] eqn:E; [|done..].
  apply ok_script_loop in E; [|by apply ok_set_fd]. intros [= <- <-]. by apply ok_set_fd.
Qed.

End run.
End ops.
End NshInv.
