(* ===== verification/NshTotal.v ===== *)
(** NSH, the command line: every line is parsed in a bounded number of steps,
    and inside [argv] as long as no variable holds more than one word. *)

From stdpp Require Import strings.
From S2P Require Import Prelude NshParse NshInv.
#[local] Open Scope Z_scope.

Module NshTotal.
Import NshParse NshInv.

(** ** Arguments consume text *)

Lemma arg_scan_shorter s : forall q sq dq w a b r,
  arg_scan q sq dq s = Some (w, a, b, r) -> (length r <= pred (length s))%nat.
Proof.
  induction s as [|c t IH]; intros q sq dq w a b r; cbn [arg_scan].
  - destruct q; [done|]. by intros [= <- <- <- <-].
  - assert (forall q sq dq f, ('(w, sq, dq, r) ← arg_scan q sq dq t; Some (f w, sq, dq, r)) =
      Some (w, a, b, r) -> (length r <= length t)%nat) as Hrec.
    { intros q' sq' dq' f E. destruct (arg_scan q' sq' dq' t) as [[[[w' a'] b'] r']|] eqn:E'; [|done].
      apply IH in E'. simpl in E. simplify_eq. lia. }
    simpl. destruct q as [q|].
    + destruct (c =? q).
      * apply (Hrec None sq dq (fun w => if q =? 96 then c :: w else w)).
      * apply (Hrec (Some q) sq dq (cons c)).
    + destruct (quote_separator c).
      * apply (Hrec (Some c) _ _ (fun w => if c =? 96 then c :: w else w)).
      * destruct (token_separator c); [by intros [= <- <- <- <-]|]. apply (Hrec None sq dq (cons c)).
Qed.

Lemma skip_separators_length s : (length (skip_separators s) <= length s)%nat.
Proof. induction s as [|c t IH]; simpl; [done|]. destruct (token_separator c); simpl; lia. Qed.

Lemma nsh_argument_rest vt s a rest : nsh_argument vt s = (a, rest) ->
  (length rest <= length s)%nat /\ (is_Some a -> (length rest < length s)%nat).
Proof.
  unfold nsh_argument. pose proof (skip_separators_length s) as Hs.
  destruct (skip_separators s) as [|c t]; [intros [= <- <-]; split; [done|by intros []]|]. simpl in Hs.
  destruct (c =? 60); [intros [= <- <-]; simpl; lia|].
  destruct (c =? 35); [intros [= <- <-]; simpl; split; [lia|by intros []]|].
  destruct (arg_scan _ _ _ _) as [[[[w sq] dq] r]|] eqn:E; [|intros [= <- <-]; split; [done|by intros []]].
  apply arg_scan_shorter in E. simpl in E. destruct sq; intros [= <- <-]; lia.
Qed.

Lemma redirect_rest vt op arg s a rest : redirect_target vt op arg s = (a, rest) ->
  (length rest <= length s)%nat.
Proof.
  unfold redirect_target, next_word. destruct (drop _ _); [|by intros [= <- <-]].
  destruct (nsh_argument vt s) as [x r] eqn:E. intros [= <- <-].
  by apply nsh_argument_rest in E as [? _].
Qed.

(** ** Variables of one word *)

Definition one_word (v : list Z) : Prop := Forall (fun c => token_separator c = false) v.

Definition one_word_env (env : env_s) : Prop :=
  one_word (env_pids env) /\ Forall (fun nv => one_word nv.2) (env_vars env).

Lemma getenv_one_word vars name : Forall (fun nv => one_word nv.2) vars ->
  one_word (default [] (getenv vars name)).
Proof.
  intros H. induction H as [|[n v] t Hv _ IH]; simpl; [constructor|]. by destruct (bool_decide _).
Qed.

Lemma envexpand_one_word vt name : one_word_env (vt_env vt) -> one_word (nsh_envexpand vt name).
Proof.
  intros [Hp Hv]. unfold nsh_envexpand. destruct (word_is _ _).
  { destruct (np_fail _); repeat constructor. }
  destruct (word_is _ _); [done|]. by apply getenv_one_word.
Qed.

Lemma env_split_one_word room v : one_word v -> env_split room v = ([], v).
Proof.
  intros Hv. destruct room as [|room]; [done|]. cbn [env_split].
  assert (strcspn token_separator v = length v) as ->.
  { induction Hv as [|c t Hc _ IH]; [done|]. simpl. by rewrite Hc, IH. }
  by rewrite drop_ge.
Qed.

Lemma argument_env vt s arg name rest : nsh_argument vt s = (Some (arg, Some name), rest) ->
  arg = nsh_envexpand vt name.
Proof.
  unfold nsh_argument. destruct (skip_separators s) as [|c t]; [done|].
  destruct (c =? 60); [done|]. destruct (c =? 35); [done|].
  destruct (arg_scan _ _ _ _) as [[[[w sq] dq] r]|]; [|done]. destruct sq; [done|].
  unfold nsh_argexpand. destruct w as [|d n]; [done|]. destruct (d =? 36); [|done].
  destruct dq; [done|]. by intros [= <- <- _].
Qed.

(** ** The loop over the arguments *)

Section args.
Context (MAXARGUMENTS : nat).

(** With fuel for the rest of the line the loop ends; it cannot leave [argv]
    when the variables have one word each. *)
Lemma args_loop_total fuel : forall vt c saveptr, (length saveptr < fuel)%nat ->
  exists vt' c', args_loop MAXARGUMENTS fuel vt c saveptr = Done (vt', c') /\
    (one_word_env (vt_env vt) -> (0 < length (c_argv c) <= MAXARGUMENTS + 3)%nat ->
     vt' = vt /\ forall d, c' = Some d -> (0 < length (c_argv d) <= MAXARGUMENTS + 3)%nat).
Proof.
  induction fuel as [|fuel IH]; intros vt c saveptr Hf; [lia|]. cbn [args_loop].
  destruct (Nat.ltb_spec (length (c_argv c)) (MAX_ARGV_ENTRIES MAXARGUMENTS - 1)) as [Hlt|];
    [|eexists _, _; split; [done|]; intros _ ?; split; [done|]; intros d [= <-]; done].
  unfold MAX_ARGV_ENTRIES in Hlt.
  destruct (nsh_argument vt saveptr) as [[[arg isenv]|] rest] eqn:Ea;
    [|eexists _, _; split; [done|]; intros _ ?; split; [done|]; intros d [= <-]; done].
  pose proof (nsh_argument_rest _ _ _ _ Ea) as [_ Hr]. specialize (Hr ltac:(done)).
  destruct (match isenv with Some _ => _ | None => _ end) as [toks arg'] eqn:Et. cbv zeta.
  set (vt1 := match isenv, toks with Some _, _ :: _ => _ | _, _ => vt end).
  assert (one_word_env (vt_env vt) -> toks = [] /\ vt1 = vt) as Hone.
  { intros Ho. assert (toks = []) as ->; [|subst vt1; by destruct isenv].
    destruct isenv as [name|]; [|by simplify_eq].
    apply argument_env in Ea as ->. rewrite env_split_one_word in Et; [by simplify_eq|].
    by apply envexpand_one_word. }
  clearbody vt1. clear Et.
  assert (forall d rest', (length rest' <= length rest)%nat ->
    (toks = [] -> (0 < length (c_argv c) < MAXARGUMENTS + 3)%nat ->
     (0 < length (c_argv d) <= MAXARGUMENTS + 3)%nat) ->
    exists vt' c', args_loop MAXARGUMENTS fuel vt1 d rest' = Done (vt', c') /\
    (one_word_env (vt_env vt) -> (0 < length (c_argv c) <= MAXARGUMENTS + 3)%nat ->
     vt' = vt /\ forall d, c' = Some d -> (0 < length (c_argv d) <= MAXARGUMENTS + 3)%nat)) as Hgo.
  { intros d rest' Hl Hd. destruct (IH vt1 d rest') as (vt' & c' & E & H); [lia|].
    exists vt', c'. split; [done|]. intros Ho Hc. destruct (Hone Ho) as [Ht ->].
    apply H; [done|]. apply Hd; [done|lia]. }
  assert (exists vt' c', Done (vt1, @None cmd_s) = Done (vt', c') /\
    (one_word_env (vt_env vt) -> (0 < length (c_argv c) <= MAXARGUMENTS + 3)%nat ->
     vt' = vt /\ forall d, c' = Some d -> (0 < length (c_argv d) <= MAXARGUMENTS + 3)%nat)) as Herr.
  { eexists _, _. split; [done|]. intros Ho _. by destruct (Hone Ho) as [_ ->]. }
  repeat match goal with
  | |- context [ if has_prefix ?p ?a then _ else _ ] => destruct (has_prefix p a)
  | |- context [ redirect_target ?a ?b ?c ?d ] =>
      let E := fresh "E" in destruct (redirect_target a b c d) as [[] ?] eqn:E; apply redirect_rest in E
  end; try exact Herr; apply Hgo; try done; intros ->; cbn [c_argv]; rewrite ?length_app; simpl; lia.
Qed.

End args.

(** ** Command lines *)

(** The environment keeps to one word per variable whatever is executed. *)
Definition os_one_word (os : nsh_os) : Prop := forall hist env c,
  one_word_env env ->
  (forall f env', start_app os hist env c = Some (f, env') -> one_word_env env') /\
  one_word_env (command os hist env c).2.

(** Commands executed by a line, with their arguments inside [argv]. *)
Definition fits (MAXARGUMENTS : nat) (c : cmd_s) : Prop :=
  (0 < length (c_argv c) <= MAXARGUMENTS + 3)%nat.

Definition line_result (MAXARGUMENTS : nat) (vt vt' : nsh_vtbl_s) : Prop :=
  one_word_env (vt_env vt') /\
  exists cs, vt_hist vt' = vt_hist vt ++ cs /\ Forall (fits MAXARGUMENTS) cs.

Section lines.
Context (NESTDEPTH MAXARGUMENTS : nat) (os : nsh_os).

Lemma line_result_refl vt np : one_word_env (vt_env vt) -> line_result MAXARGUMENTS vt (set_np np vt).
Proof. intros H. split; [done|]. exists []. by rewrite app_nil_r. Qed.

Lemma line_result_trans vt1 vt2 vt3 : line_result MAXARGUMENTS vt1 vt2 ->
  line_result MAXARGUMENTS vt2 vt3 -> line_result MAXARGUMENTS vt1 vt3.
Proof.
  intros (_ & c1 & E1 & H1) (Ho & c2 & E2 & H2). split; [done|]. exists (c1 ++ c2).
  rewrite E2, E1, app_assoc. split; [done|]. by apply Forall_app_2.
Qed.

Lemma execute_result vt c : os_one_word os -> one_word_env (vt_env vt) -> fits MAXARGUMENTS c ->
  line_result MAXARGUMENTS vt (nsh_execute os vt c).2.
Proof.
  intros Hos Ho Hc. destruct (Hos (vt_hist vt) (vt_env vt) c Ho) as [Hs Hcmd]. unfold nsh_execute.
  assert (forall np env f, one_word_env env -> line_result MAXARGUMENTS vt
    (let '(ret, np0) := nsh_saveresult np f in
     (ret, {| vt_np := np0; vt_env := env; vt_hist := vt_hist vt ++ [c] |})).2) as Hf.
  { intros np env f He. destruct (nsh_saveresult np f). split; [done|]. exists [c]. split; [done|]. by constructor. }
  destruct (start_app _ _ _ _) as [[f env]|]; [apply Hf; by eapply Hs|].
  destruct (negb _); [by apply Hf|]. destruct (command _ _ _ _) as [f env].
  by destruct (is_break c); apply Hf.
Qed.

Lemma parse_command_total vt cmdline :
  nsh_parse_command NESTDEPTH MAXARGUMENTS os vt cmdline <> OutOfFuel /\
  (os_one_word os -> one_word_env (vt_env vt) ->
   exists r vt', nsh_parse_command NESTDEPTH MAXARGUMENTS os vt cmdline = Done (r, vt') /\
     line_result MAXARGUMENTS vt vt').
Proof.
  unfold nsh_parse_command. destruct (next_word vt cmdline) as [cmd s].
  destruct (nsh_loop NESTDEPTH vt cmd s) as [[[ret np] cmd1] s1].
  assert (forall vt1 np, vt_env vt1 = vt_env vt -> vt_hist vt1 = vt_hist vt ->
    save_error vt1 np <> OutOfFuel /\ (os_one_word os -> one_word_env (vt_env vt) ->
     exists r vt', save_error vt1 np = Done (r, vt') /\ line_result MAXARGUMENTS vt vt')) as Herr.
  { intros vt1 np1 E1 E2. unfold save_error. destruct (nsh_saveresult np1 true). split; [done|].
    intros _ Ho. eexists _, _. split; [done|]. split; [simpl; by rewrite E1|]. exists [].
    simpl. by rewrite E2, app_nil_r. }
  destruct (negb (ret =? 0)); [by apply Herr|].
  destruct (nsh_itef NESTDEPTH (set_np np vt) cmd1 s1) as [[[ret2 np2] cmd2] s2].
  destruct (negb (ret2 =? 0)); [by apply Herr|]. cbv zeta.
  assert (forall np, Done (OK, set_np np (set_np np2 vt)) <> OutOfFuel) as Hn by done.
  destruct cmd2 as [w|].
  2: { split; [done|]. intros _ Ho. eexists _, _. split; [done|]. by apply (line_result_refl vt). }
  destruct (negb _).
  { split; [done|]. intros _ Ho. eexists _, _. split; [done|]. by apply (line_result_refl vt). }
  destruct (args_loop_total MAXARGUMENTS (S (length s2)) (set_np np2 (set_np np vt))
    {| c_argv := [w]; c_out := None; c_in := None |} s2) as (vt' & c' & -> & H); [lia|].
  cbv beta iota delta [mbind run_bind]. split; [by destruct c' as [c|]; [destruct (_ <=? _)%nat|]|].
  intros Hos Ho. destruct (H Ho) as [-> Hc]; [simpl; lia|].
  destruct c' as [c|]; [|eexists _, _; split; [done|]; by apply (line_result_refl vt)].
  specialize (Hc c eq_refl). unfold MAX_ARGV_ENTRIES. rewrite (proj2 (Nat.leb_gt _ _)) by lia.
  destruct (nsh_execute os _ c) as [r vt'] eqn:E. eexists _, _. split; [done|].
  pose proof (execute_result (set_np np2 (set_np np vt)) c Hos Ho Hc) as Hr. rewrite E in Hr. exact Hr.
Qed.

Lemma line_loop_total fuel : forall vt cmdline start working,
  (0 < fuel)%nat -> (length cmdline < fuel + working)%nat ->
  line_loop NESTDEPTH MAXARGUMENTS os fuel vt cmdline start working <> OutOfFuel /\
  (os_one_word os -> one_word_env (vt_env vt) ->
   exists r vt', line_loop NESTDEPTH MAXARGUMENTS os fuel vt cmdline start working = Done (r, vt') /\
     line_result MAXARGUMENTS vt vt').
Proof.
  induction fuel as [|fuel IH]; intros vt cmdline start working Hf Hl; [lia|]. cbn [line_loop].
  assert (forall np (r : Z), Done (r, set_np np vt) <> OutOfFuel /\
    (os_one_word os -> one_word_env (vt_env vt) -> exists (r' : Z) vt', Done (r, set_np np vt) = Done (r', vt') /\
     line_result MAXARGUMENTS vt vt')) as Hret.
  { intros np r. split; [done|]. intros _ Ho. eexists _, _. split; [done|]. by apply line_result_refl. }
  destruct (np_jump _).
  { destruct vt as [np env hist]. exact (Hret np OK). }
  cbv zeta. set (np1 := set_offs _ _ _). set (ptr := (working + _)%nat).
  destruct (cmdline !! ptr) as [c|] eqn:Ec; [|apply (parse_command_total (set_np np1 vt))].
  apply lookup_lt_Some in Ec.
  destruct (_ || _); [apply (parse_command_total (set_np np1 vt))|].
  destruct (c =? 59).
  - pose proof (parse_command_total (set_np np1 vt) (substr start ptr cmdline)) as [Hn Hd].
    destruct (nsh_parse_command _ _ _ _ _) as [[ret vt2]| |]; cbv beta iota delta [mbind run_bind]; [| |done].
    + destruct (negb _).
      * split; [done|]. intros Hos Ho. destruct (Hd Hos Ho) as (r & vt3 & [= <- <-] & Hr). by eexists _, _.
      * destruct (IH vt2 cmdline (S ptr) (S ptr)) as [H1 H2]; [subst ptr; lia|subst ptr; lia|].
        split; [done|]. intros Hos Ho. destruct (Hd Hos Ho) as (r & vt3 & [= <- <-] & Hr).
        destruct (H2 Hos (proj1 Hr)) as (r2 & vt4 & E & Hr2). eexists _, _. split; [exact E|].
        by eapply line_result_trans.
    + split; [done|]. intros Hos Ho. by destruct (Hd Hos Ho) as (? & ? & ? & _).
  - destruct (_ && _); [apply (IH (set_np np1 vt)); subst ptr; lia|].
    destruct (index_of _ _); [apply (IH (set_np np1 vt)); subst ptr; lia|apply Hret].
Qed.

Lemma nsh_parse_total vt cmdline :
  nsh_parse NESTDEPTH MAXARGUMENTS os vt cmdline <> OutOfFuel /\
  (os_one_word os -> one_word_env (vt_env vt) ->
   exists r vt', nsh_parse NESTDEPTH MAXARGUMENTS os vt cmdline = Done (r, vt') /\
     line_result MAXARGUMENTS vt vt').
Proof.
  apply (line_loop_total (S (length cmdline)) (set_np (set_jump false (np_pos (vt_np vt)) (vt_np vt)) vt));
    lia.
Qed.

(** ** Lines of a script *)

Context (LINE_MAX : nat) (ignore : bool) (file : list Z).
Notation script_line := (script_line NESTDEPTH MAXARGUMENTS LINE_MAX os ignore).

Lemma script_line_total vt :
  script_line file vt <> OutOfFuel /\
  (os_one_word os -> one_word_env (vt_env vt) ->
   exists r vt', script_line file vt = Done (r, vt') /\ one_word_env (vt_env vt')).
Proof.
  unfold NshParse.script_line. destruct (readline_common _ _) as [[ret buffer] n]. cbv zeta.
  set (vt1 := set_np (set_jump _ _ _) vt). change (vt_env vt) with (vt_env vt1). clearbody vt1.
  destruct (0 <=? ret); [|split; [done|eauto]]. destruct (nsh_parse_total vt1 buffer) as [Hf Hd].
  cbv beta iota delta [mbind run_bind]. split.
  - by destruct (nsh_parse _ _ _ _ _) as [[]| |].
  - intros Hos Henv. destruct (Hd Hos Henv) as (r & vt' & -> & Hone & _). eauto.
Qed.

(** [nsh_script]'s loop goes on behind the line. *)
Definition next_line (vt vt' : nsh_vtbl_s) : Prop :=
  exists ret, 0 <= ret /\ script_line file vt = Done (ret, vt').

(** The loop runs along these steps: it needs a pass for each, and ends where
    no further line is taken. *)
Lemma script_loop_steps fuel : forall vt,
  match script_loop NESTDEPTH MAXARGUMENTS LINE_MAX os ignore fuel file vt with
  | Done (ret, vt') => exists vt1, rtc next_line vt vt1 /\ script_line file vt1 = Done (ret, vt') /\ ret < 0
  | OutOfBounds => exists vt1, rtc next_line vt vt1 /\ script_line file vt1 = OutOfBounds
  | OutOfFuel => exists vt1, nsteps next_line fuel vt vt1
  end.
Proof.
  induction fuel as [|fuel IH]; intros vt; cbn [script_loop]; [exists vt; constructor|].
  cbv beta iota delta [mbind run_bind]. destruct (script_line_total vt) as [Hf _].
  destruct (script_line file vt) as [[ret vt']| |] eqn:E; [|by exists vt; split; [constructor|]|done].
  destruct (Z.leb_spec 0 ret) as [Hr|Hr]; [|exists vt; by split; [constructor|]].
  assert (next_line vt vt') as Hn by (exists ret; done). specialize (IH vt').
  destruct (script_loop _ _ _ _ _ _ _ _) as [[r2 vt2]| |].
  - destruct IH as (vt1 & Hs & Hl). exists vt1. split; [by eapply rtc_l|done].
  - destruct IH as (vt1 & Hs & Hl). exists vt1. split; [by eapply rtc_l|done].
  - destruct IH as (vt1 & Hs). exists vt1. by eapply nsteps_l.
Qed.

Lemma lines_keep_ok vt vt' : rtc next_line vt vt' -> parser_ok NESTDEPTH (vt_np vt) -> parser_ok NESTDEPTH (vt_np vt').
Proof.
  induction 1 as [|vt vt1 vt2 (ret & _ & E) _ IH]; [done|]. intros Hok. apply IH. by eapply ok_script_line.
Qed.

Lemma lines_keep_one_word vt vt' : os_one_word os -> rtc next_line vt vt' ->
  one_word_env (vt_env vt) -> one_word_env (vt_env vt').
Proof.
  intros Hos. induction 1 as [|vt vt1 vt2 (ret & _ & E) _ IH]; [done|]. intros Hone. apply IH.
  destruct (script_line_total vt) as [_ Hd]. destruct (Hd Hos Hone) as (r & vt' & E' & ?). congruence.
Qed.

End lines.
End NshTotal.
