(* ===== verification/NshTest.v ===== *)
(** NSH, the commands [test] and [[] (nshlib/nsh_test.c).

    [argv] is the list of the words up to the terminating NULL: reading the
    entry behind the last word hands NULL to [strcmp], which the model reports
    as [OutOfBounds].  [stat] of the resolved path is a parameter: [None] when
    the path cannot be resolved or [stat] fails, else what the expressions read
    of the buffer. *)

From stdpp Require Import strings.
From S2P Require Import Prelude CLib NshParse.
#[local] Open Scope Z_scope.

Module NshTest.
Import NshParse.

Definition TEST_TRUE : Z := OK.
Definition TEST_FALSE : Z := ERROR.
Definition TEST_ERROR : Z := 1.

Definition test_of (b : bool) : Z := if b then TEST_TRUE else TEST_FALSE.

(** ** Simple expressions *)

Definition binaryexpression (a0 a1 a2 : list Z) : Z :=
  if word_is a1 "=" || word_is a1 "==" then test_of (bool_decide (a0 = a2))
  else if word_is a1 "!=" then test_of (negb (bool_decide (a0 = a2)))
  else
    let '(integer1, end1) := strtol a0 in
    if bool_decide (a0 = []) || negb (bool_decide (end1 = [])) then TEST_ERROR
    else
      let '(integer2, end2) := strtol a2 in
      if bool_decide (a2 = []) || negb (bool_decide (end2 = [])) then TEST_ERROR
      else if word_is a1 "-eq" then test_of (integer1 =? integer2)
      else if word_is a1 "-ge" then test_of (integer2 <=? integer1)
      else if word_is a1 "-gt" then test_of (integer2 <? integer1)
      else if word_is a1 "-le" then test_of (integer1 <=? integer2)
      else if word_is a1 "-lt" then test_of (integer1 <? integer2)
      else if word_is a1 "-ne" then test_of (negb (integer1 =? integer2))
      else TEST_ERROR.

Record stat_s := {
  st_isblk : bool;
  st_ischr : bool;
  st_isdir : bool;
  st_isreg : bool;
  st_readable : bool;
  st_writable : bool;
  st_size : Z;
}.

(** The buffer after [memset]: no file type, no permissions. *)
Definition stat_zero : stat_s :=
  {| st_isblk := false; st_ischr := false; st_isdir := false; st_isreg := false;
     st_readable := false; st_writable := false; st_size := 0 |}.

Section test.
Variable stat : list Z -> option stat_s.

Definition unaryexpression (a0 a1 : list Z) : Z :=
  if word_is a0 "-n" then test_of (negb (bool_decide (a1 = [])))
  else if word_is a0 "-z" then test_of (bool_decide (a1 = []))
  else
    let ret := stat a1 in
    let buf := default stat_zero ret in
    if word_is a0 "-b" then test_of (st_isblk buf)
    else if word_is a0 "-c" then test_of (st_ischr buf)
    else if word_is a0 "-d" then test_of (st_isdir buf)
    else if word_is a0 "-e" then test_of (bool_decide (is_Some ret))
    else if word_is a0 "-f" then test_of (st_isreg buf)
    else if word_is a0 "-r" then test_of (st_readable buf)
    else if word_is a0 "-s" then test_of (0 <? st_size buf)
    else if word_is a0 "-w" then test_of (st_writable buf)
    else TEST_ERROR.

(** ** Expressions *)

(** [argv[i]], which must not be NULL. *)
Definition arg {A} (argv : list (list Z)) (i : nat) (k : list Z -> run A) : run A :=
  match argv !! i with Some w => k w | None => OutOfBounds end.

(** What follows a simple expression of [i] words with the value [value];
    [rec] is the recursive call. *)
Definition rest_expression (rec : nat -> list (list Z) -> run Z) (argc : nat) (argv : list (list Z))
    (i : nat) (value : Z) : run Z :=
  if value =? TEST_ERROR then Done TEST_FALSE
  else if (i <? argc)%nat then
    arg argv i (fun w =>
      if word_is w "-a" then
        if negb (value =? TEST_TRUE) then Done TEST_FALSE
        else rec (argc - S i)%nat (drop (S i) argv)
      else if word_is w "-o" then
        if value =? TEST_TRUE then Done TEST_TRUE
        else rec (argc - S i)%nat (drop (S i) argv)
      else Done TEST_FALSE)
  else Done value.

Definition do_binary (rec : nat -> list (list Z) -> run Z) (argc : nat) (argv : list (list Z)) : run Z :=
  if (argc <? 3)%nat then Done TEST_FALSE
  else
    arg argv 0 (fun a0 => arg argv 1 (fun a1 => arg argv 2 (fun a2 =>
      rest_expression rec argc argv 3 (binaryexpression a0 a1 a2)))).

Fixpoint expression (fuel argc : nat) (argv : list (list Z)) : run Z :=
  match fuel with
  | O => OutOfFuel
  | S fuel =>
      arg argv 0 (fun a0 =>
        if word_is a0 "!" then
          if (argc <? 2)%nat then Done TEST_FALSE
          else
            v ← expression fuel (argc - 1) (drop 1 argv);
            Done (if v =? TEST_TRUE then TEST_FALSE else TEST_TRUE)
        else if bool_decide (head a0 = Some 45) then
          if (argc <? 2)%nat then Done TEST_FALSE
          else
            arg argv 1 (fun a1 =>
              let value := unaryexpression a0 a1 in
              if value =? TEST_ERROR then do_binary (expression fuel) argc argv
              else rest_expression (expression fuel) argc argv 2 value)
        else do_binary (expression fuel) argc argv)
  end.

(** [argv] includes the command name. *)
Definition cmd_test (argv : list (list Z)) : run Z :=
  expression (S (length argv)) (length argv - 1) (drop 1 argv).

Definition cmd_lbracket (argv : list (list Z)) : run Z :=
  arg argv (length argv - 1) (fun last =>
    if negb (word_is last "]") then Done ERROR
    else expression (S (length argv)) (length argv - 2) (drop 1 argv)).

(** ** Expressions with a meaning *)

Inductive unop := UNonempty | UEmpty | UBlk | UChr | UDir | UExists | UReg | UReadable | USize | UWritable.
Inductive cmp := CEq | CGe | CGt | CLe | CLt | CNe.

Inductive atom :=
| AUn (op : unop) (s : list Z)
| AStr (eq : bool) (a b : list Z)
| AInt (op : cmp) (x y : Z).

(** A chain of simple expressions, grouped to the right. *)
Inductive texpr :=
| TAtom (a : atom)
| TNot (e : texpr)
| TAnd (a : atom) (e : texpr)
| TOr (a : atom) (e : texpr).

Definition unop_word (op : unop) : list Z :=
  cstr match op with
       | UNonempty => "-n" | UEmpty => "-z" | UBlk => "-b" | UChr => "-c" | UDir => "-d"
       | UExists => "-e" | UReg => "-f" | UReadable => "-r" | USize => "-s" | UWritable => "-w"
       end.

Definition cmp_word (op : cmp) : list Z :=
  cstr match op with
       | CEq => "-eq" | CGe => "-ge" | CGt => "-gt" | CLe => "-le" | CLt => "-lt" | CNe => "-ne"
       end.

(** The decimal text of an integer; ten digits hold every [long]. *)
Definition int_word (z : Z) : list Z := if z <? 0 then 45 :: decimal 10 (- z) else decimal 10 z.

Definition atom_words (a : atom) : list (list Z) :=
  match a with
  | AUn op s => [unop_word op; s]
  | AStr eq a b => [a; cstr (if eq then "=" else "!="); b]
  | AInt op x y => [int_word x; cmp_word op; int_word y]
  end.

Fixpoint words (e : texpr) : list (list Z) :=
  match e with
  | TAtom a => atom_words a
  | TNot e => cstr "!" :: words e
  | TAnd a e => atom_words a ++ cstr "-a" :: words e
  | TOr a e => atom_words a ++ cstr "-o" :: words e
  end.

Definition unop_sem (op : unop) (s : list Z) : bool :=
  match op, stat s with
  | UNonempty, _ => negb (bool_decide (s = []))
  | UEmpty, _ => bool_decide (s = [])
  | _, None => false
  | UBlk, Some b => st_isblk b
  | UChr, Some b => st_ischr b
  | UDir, Some b => st_isdir b
  | UExists, Some _ => true
  | UReg, Some b => st_isreg b
  | UReadable, Some b => st_readable b
  | USize, Some b => 0 <? st_size b
  | UWritable, Some b => st_writable b
  end.

Definition cmp_sem (op : cmp) (x y : Z) : bool :=
  match op with
  | CEq => x =? y | CGe => y <=? x | CGt => y <? x | CLe => x <=? y | CLt => x <? y
  | CNe => negb (x =? y)
  end.

Definition atom_sem (a : atom) : bool :=
  match a with
  | AUn op s => unop_sem op s
  | AStr eq a b => if eq then bool_decide (a = b) else negb (bool_decide (a = b))
  | AInt op x y => cmp_sem op x y
  end.

Fixpoint sem (e : texpr) : bool :=
  match e with
  | TAtom a => atom_sem a
  | TNot e => negb (sem e)
  | TAnd a e => atom_sem a && sem e
  | TOr a e => atom_sem a || sem e
  end.

(** The first string of a comparison must not read as an operator; integers are
    in the range of [long]. *)
Definition not_operator (s : list Z) : Prop := s <> cstr "!" /\ forall op, s <> unop_word op.

Definition atom_ok (a : atom) : Prop :=
  match a with
  | AUn _ _ => True
  | AStr _ a _ => not_operator a
  | AInt _ x y => Z.abs x <= LONG_MAX /\ Z.abs y <= LONG_MAX
  end.

Fixpoint expr_ok (e : texpr) : Prop :=
  match e with
  | TAtom a => atom_ok a
  | TNot e => expr_ok e
  | TAnd a e | TOr a e => atom_ok a /\ expr_ok e
  end.

(** ** Simple expressions evaluate to their meaning *)

Lemma test_of_error b : (test_of b =? TEST_ERROR) = false.
Proof. by destruct b. Qed.

Lemma test_of_true b : (test_of b =? TEST_TRUE) = b.
Proof. by destruct b. Qed.

Lemma unary_sem op s : unaryexpression (unop_word op) s = test_of (unop_sem op s).
Proof. unfold unaryexpression, unop_sem. by destruct op, (stat s). Qed.

Lemma unary_not_operator s a : not_operator s -> unaryexpression s a = TEST_ERROR.
Proof.
  intros [_ H]. unfold unaryexpression.
  assert (forall op k, unop_word op = cstr k -> word_is s k = false) as Hw.
  { intros op k E. apply bool_decide_eq_false. rewrite <- E. apply H. }
  by rewrite (Hw UNonempty), (Hw UEmpty), (Hw UBlk), (Hw UChr), (Hw UDir), (Hw UExists), (Hw UReg),
    (Hw UReadable), (Hw USize), (Hw UWritable).
Qed.

Lemma int_word_strtol x : Z.abs x <= LONG_MAX -> strtol (int_word x) = (x, []) /\ int_word x <> [].
Proof.
  intros Hx. unfold int_word. unfold LONG_MAX in Hx.
  assert (forall n, 0 <= n <= LONG_MAX -> strtol (decimal 10 n) = (n, []) /\
    strtol (45 :: decimal 10 n) = (- n, [])) as H.
  { intros n Hn. unfold LONG_MAX in Hn.
    apply strtol_decimal; [change (10 ^ Z.of_nat 10) with 10000000000; lia|unfold LONG_MAX; lia|lia]. }
  destruct (Z.ltb_spec x 0).
  - destruct (H (- x)) as [_ ->]; [unfold LONG_MAX; lia|]. split; [f_equal; lia|done].
  - destruct (H x) as [E _]; [unfold LONG_MAX; lia|]. split; [done|]. intros E'. rewrite E' in E. vm_compute in E. simplify_eq.
Qed.

(** Every character of a decimal number is a digit. *)
Lemma decimal_char n c : 0 <= n -> c ∈ decimal 10 n -> 48 <= c <= 57.
Proof.
  intros Hn. generalize 10%nat. intros fuel. revert n Hn.
  induction fuel as [|fuel IH]; intros n Hn; cbn [decimal]; [by intros ?%not_elem_of_nil|].
  destruct (Z.ltb_spec n 10).
  - intros ->%list_elem_of_singleton. lia.
  - pose proof (Z.mod_pos_bound n 10). intros [Hc|Hc]%elem_of_app.
    + apply (IH (n / 10)); [|done]. apply Z.div_pos; lia.
    + apply list_elem_of_singleton in Hc as ->. lia.
Qed.

Lemma int_word_not_operator x : not_operator (int_word x).
Proof.
  assert (forall w, (exists c, c ∈ w /\ ~ (48 <= c <= 57) /\ c <> 45) -> int_word x <> w) as H.
  { intros w (c & Hc & H1 & H2) <-. unfold int_word in Hc. destruct (Z.ltb_spec x 0).
    - apply elem_of_cons in Hc as [|Hc]; [done|]. apply decimal_char in Hc; lia.
    - apply decimal_char in Hc; lia. }
  split.
  - apply H. exists 33. split; [vm_compute; set_solver|lia].
  - intros op. apply H. destruct op;
      match goal with |- context [unop_word ?o] =>
        let w := eval vm_compute in (unop_word o) in
        match w with [_; ?c] => exists c; split; [vm_compute; set_solver|lia] end end.
Qed.

Lemma binary_str (eq : bool) a b :
  binaryexpression a (cstr (if eq then "=" else "!=")) b =
  test_of (if eq then bool_decide (a = b) else negb (bool_decide (a = b))).
Proof. by destruct eq. Qed.

Lemma binary_int op x y : Z.abs x <= LONG_MAX -> Z.abs y <= LONG_MAX ->
  binaryexpression (int_word x) (cmp_word op) (int_word y) = test_of (cmp_sem op x y).
Proof.
  intros [Ex Hx]%int_word_strtol [Ey Hy]%int_word_strtol. unfold binaryexpression.
  rewrite Ex, Ey, (bool_decide_eq_false_2 _ Hx), (bool_decide_eq_false_2 _ Hy). by destruct op.
Qed.

(** ** Expressions evaluate to their meaning *)

Lemma do_binary_words rec argc a0 a1 a2 t : (3 <= argc)%nat ->
  do_binary rec argc (a0 :: a1 :: a2 :: t) =
    rest_expression rec argc (a0 :: a1 :: a2 :: t) 3 (binaryexpression a0 a1 a2).
Proof. intros H. unfold do_binary. by rewrite (proj2 (Nat.ltb_ge _ _)) by lia. Qed.

Lemma expression_binary fuel argc a0 a1 a2 t : not_operator a0 -> (3 <= argc)%nat ->
  expression (S fuel) argc (a0 :: a1 :: a2 :: t) =
    rest_expression (expression fuel) argc (a0 :: a1 :: a2 :: t) 3 (binaryexpression a0 a1 a2).
Proof.
  intros Ho Hc. cbn [expression]. unfold arg. cbn [lookup list_lookup].
  replace (word_is a0 "!") with false by (symmetry; apply bool_decide_eq_false, Ho).
  rewrite (proj2 (Nat.ltb_ge _ _)) by lia. rewrite (unary_not_operator a0 a1 Ho).
  rewrite do_binary_words by done. by destruct (bool_decide _).
Qed.

Lemma expression_atom fuel argc a t : atom_ok a -> (length (atom_words a) <= argc)%nat ->
  expression (S fuel) argc (atom_words a ++ t) =
    rest_expression (expression fuel) argc (atom_words a ++ t) (length (atom_words a))
      (test_of (atom_sem a)).
Proof.
  intros Hok Hc. destruct a as [op s|eq a b|op x y]; cbn [atom_words app length atom_sem] in *.
  - cbn [expression]. unfold arg. cbn [lookup list_lookup].
    replace (word_is (unop_word op) "!") with false by by destruct op.
    replace (bool_decide (head (unop_word op) = Some 45)) with true by by destruct op.
    rewrite (proj2 (Nat.ltb_ge _ _)) by lia. by rewrite unary_sem, test_of_error.
  - by rewrite expression_binary, binary_str.
  - destruct Hok. by rewrite expression_binary, binary_int by (done || apply int_word_not_operator).
Qed.

Lemma words_length e : (0 < length (words e))%nat.
Proof. destruct e as [a| |a e|a e]; simpl; rewrite ?length_app; try (destruct a; simpl); lia. Qed.

(** An operator behind a simple expression. *)
Lemma rest_operator rec aw w ws extra b :
  rest_expression rec (length (aw ++ w :: ws)) ((aw ++ w :: ws) ++ extra) (length aw) (test_of b) =
    if word_is w "-a" then if negb b then Done TEST_FALSE else rec (length ws) (ws ++ extra)
    else if word_is w "-o" then if b then Done TEST_TRUE else rec (length ws) (ws ++ extra)
    else Done TEST_FALSE.
Proof.
  unfold rest_expression, arg. rewrite test_of_error, length_app. cbn [length].
  rewrite (proj2 (Nat.ltb_lt _ _)) by lia. rewrite <- app_assoc.
  rewrite lookup_app_r, Nat.sub_diag by lia. cbn [lookup list_lookup app]. rewrite test_of_true.
  replace (length aw + S (length ws) - S (length aw))%nat with (length ws) by lia.
  replace (drop (S (length aw)) (aw ++ w :: ws ++ extra)) with (ws ++ extra); [done|].
  rewrite <- Nat.add_1_r, <- drop_drop, drop_app_length. done.
Qed.

(** With fuel for its words, an expression evaluates to its meaning, whatever
    follows its words in [argv]. *)
Lemma expression_sem e : forall fuel extra, expr_ok e -> (length (words e) <= fuel)%nat ->
  expression fuel (length (words e)) (words e ++ extra) = Done (test_of (sem e)).
Proof.
  induction e as [a|e IH|a e IH|a e IH]; intros fuel extra Hok Hf;
    (destruct fuel as [|fuel]; [match goal with H : (length (words ?e) <= 0)%nat |- _ =>
       pose proof (words_length e); lia end|]).
  - cbn [words]. rewrite expression_atom by done. unfold rest_expression.
    rewrite test_of_error, (proj2 (Nat.ltb_ge _ _)) by lia. done.
  - cbn [words app length expression]. unfold arg. cbn [lookup list_lookup].
    change (word_is (cstr "!") "!") with true. cbv iota. pose proof (words_length e).
    rewrite (proj2 (Nat.ltb_ge _ _)) by lia. simpl in Hf.
    rewrite Nat.sub_succ, Nat.sub_0_r, skipn_cons, drop_0. rewrite IH by (done || lia).
    cbv beta iota delta [mbind run_bind]. rewrite test_of_true. cbn [sem]. by destruct (sem e).
  - destruct Hok as [Ha He]. cbn [words] in *. rewrite length_app in Hf. cbn [length] in Hf.
    rewrite <- app_assoc, expression_atom by (done || rewrite length_app; lia).
    rewrite app_assoc, rest_operator. change (word_is (cstr "-a") "-a") with true. cbn [sem].
    destruct (atom_sem a); [|done]. apply IH; [done|lia].
  - destruct Hok as [Ha He]. cbn [words] in *. rewrite length_app in Hf. cbn [length] in Hf.
    rewrite <- app_assoc, expression_atom by (done || rewrite length_app; lia).
    rewrite app_assoc, rest_operator. change (word_is (cstr "-o") "-a") with false.
    change (word_is (cstr "-o") "-o") with true. cbn [sem].
    destruct (atom_sem a); [done|]. apply IH; [done|lia].
Qed.

(** While a word is left behind the expression, every entry that is read
    exists, and the result is true or false. *)
Lemma expression_total fuel : forall argc argv,
  (argc < length argv)%nat -> (length argv <= fuel)%nat ->
  exists v, expression fuel argc argv = Done v /\ (v = TEST_TRUE \/ v = TEST_FALSE).
Proof.
  assert (forall b, test_of b = TEST_TRUE \/ test_of b = TEST_FALSE) as Hb by (intros []; auto).
  induction fuel as [|fuel IH]; intros argc argv Hc Hf; [lia|].
  assert (forall i v, v = TEST_ERROR \/ v = TEST_TRUE \/ v = TEST_FALSE ->
    exists w, rest_expression (expression fuel) argc argv i v = Done w /\ (w = TEST_TRUE \/ w = TEST_FALSE)) as Hrest.
  { intros i v Hv. unfold rest_expression, arg.
    destruct (Z.eqb_spec v TEST_ERROR); [eexists; split; [done|by right]|].
    destruct (Nat.ltb_spec i argc); [|eexists; split; [done|tauto]].
    destruct (lookup_lt_is_Some_2 argv i) as [w ->]; [lia|].
    destruct (IH (argc - S i)%nat (drop (S i) argv)) as (x & E & Hx); [rewrite length_drop; lia..|].
    destruct (word_is w "-a"); [destruct (negb _); [eexists; split; [done|by right]|by eexists]|].
    destruct (word_is w "-o"); [|eexists; split; [done|by right]].
    destruct (v =? TEST_TRUE); [eexists; split; [done|by left]|by eexists]. }
  assert (forall a0 a1 a2, binaryexpression a0 a1 a2 = TEST_ERROR \/
    binaryexpression a0 a1 a2 = TEST_TRUE \/ binaryexpression a0 a1 a2 = TEST_FALSE) as Hbin.
  { intros a0 a1 a2. unfold binaryexpression. destruct (strtol a0), (strtol a2).
    repeat (case_match; [eauto|]); eauto. }
  assert (forall a0 a1, unaryexpression a0 a1 = TEST_ERROR \/
    unaryexpression a0 a1 = TEST_TRUE \/ unaryexpression a0 a1 = TEST_FALSE) as Hun.
  { intros a0 a1. unfold unaryexpression. repeat (case_match; [eauto|]); eauto. }
  assert (exists w, do_binary (expression fuel) argc argv = Done w /\ (w = TEST_TRUE \/ w = TEST_FALSE)) as Hdo.
  { unfold do_binary. destruct (Nat.ltb_spec argc 3); [eexists; split; [done|by right]|].
    destruct argv as [|a0 [|a1 [|a2 t]]]; simpl in Hc; try lia. by apply Hrest. }
  destruct argv as [|a0 t]; [simpl in Hc; lia|]. cbn [expression]. unfold arg. cbn [lookup list_lookup].
  destruct (word_is a0 "!").
  - destruct (Nat.ltb_spec argc 2); [eexists; split; [done|by right]|].
    destruct (IH (argc - 1)%nat t) as (v & E & Hv); [simpl in Hc, Hf; lia..|].
    rewrite skipn_cons, drop_0, E. eexists. split; [done|]. destruct Hv as [-> | ->]; [by right|by left].
  - destruct (bool_decide _); [|done].
    destruct (Nat.ltb_spec argc 2); [eexists; split; [done|by right]|].
    destruct t as [|a1 t]; [simpl in Hc; lia|].
    change ((a1 :: t) !! 0%nat) with (Some a1). cbv iota zeta. destruct (unaryexpression a0 a1 =? TEST_ERROR); [exact Hdo|]. by apply Hrest.
Qed.

End test.
End NshTest.
