(* ===== verification/NshTheorems.v ===== *)
(** NSH: the properties of the shell, their witnesses, and concrete scripts on
    which the code departs from what it is meant to do. *)

From stdpp Require Import strings.
From S2P Require Import Prelude CLib NshParse NshText NshSteps NshScript NshInv NshTotal NshTest.
#[local] Open Scope Z_scope.

Module NshTheorems.
Import NshParse NshText NshSteps NshScript NshInv NshTotal NshTest.

(** ** A system for the examples *)

(** Only NSH commands exist; [no] fails, [twice] fails after it ran twice, and
    everything else succeeds. *)
Definition runs_of (w : list Z) (hist : list cmd_s) : nat :=
  length (filter (fun c => head (c_argv c) = Some w) hist).

Definition demo_os : nsh_os := {|
  start_app := fun _ _ _ => None;
  open_ok := fun _ _ => true;
  command := fun hist env c =>
    (match c_argv c with
     | w :: _ => word_is w "no" || (word_is w "twice" && (2 <=? runs_of w hist)%nat)
     | [] => true
     end, env);
|}.

Definition shell (vars : list (list Z * list Z)) : nsh_vtbl_s :=
  {| vt_np := initial_np 3; vt_env := {| env_vars := vars; env_pids := cstr "1" |}; vt_hist := [] |}.

(** A script given by its lines. *)
Definition script (ls : list string) : list Z := mjoin ((fun l => cstr l ++ [10]) <$> ls).

Definition demo_script (ignore : bool) (ls : list string) : run (Z * nsh_vtbl_s) :=
  nsh_script 3 7 80 demo_os ignore 50 3 (script ls) (shell []).

(** The command lines that were executed. *)
Definition executed (r : run (Z * nsh_vtbl_s)) : option (list (list (list Z))) :=
  match r with Done (_, vt) => Some (c_argv <$> vt_hist vt) | _ => None end.

(** ** Scripts *)

(** C3. A script with conditionals and loops runs as its structure says.  The
    programs are those with plain words (no quotation, variable, redirection
    or separator), lines that fit the line buffer and [argv], commands other
    than [break] and the control words, conditionals and loops nested less than
    NESTDEPTH deep each, and no loop directly in the body of a loop: a loop in
    a loop has to be inside a conditional, since the code executes a nested loop
    also when the body it is in is skipped ([skipped_loop_is_executed]).  For
    every such program, every behaviour of the commands and either treatment of
    failures, if the reference semantics of the program ends, then [nsh_script] on its text ends too, whatever fuel is
    left; it has executed exactly the commands the semantics prescribes, in
    that order and with that environment, and after a script that ran to its
    end no conditional or loop is left open. *)
Theorem nsh_script_refines NESTDEPTH MAXARGUMENTS LINE_MAX os ignore p fuel env go env' hist' fd :
  (5 < LINE_MAX)%nat -> (0 < NESTDEPTH)%nat -> 0 <= fd ->
  wf MAXARGUMENTS LINE_MAX (NESTDEPTH - 1) (NESTDEPTH - 1) false p ->
  eval os ignore fuel p env [] = Some (go, env', hist') ->
  exists n vt', forall m, (n <= m)%nat ->
    nsh_script NESTDEPTH MAXARGUMENTS LINE_MAX os ignore m fd (text (lines p))
      {| vt_np := initial_np NESTDEPTH; vt_env := env; vt_hist := [] |} = Done (ERROR, vt') /\
    vt_env vt' = env' /\ vt_hist vt' = hist' /\
    (go = true -> np_iendx (vt_np vt') = 0%nat /\ np_lpndx (vt_np vt') = 0%nat).
Proof. apply script_exec. Qed.

Definition demo_prog : prog :=
  PLoop false [cstr "twice"; cstr "x"]
    (PIf true [cstr "no"] (PCmd [cstr "inner"; cstr "1"] PNil) (PCmd [cstr "other"] PNil) PNil)
    (PIf false [cstr "no"] (PLoop true [cstr "never"] PNil PNil) PNil (PCmd [cstr "end"] PNil)).

Lemma nsh_script_refines_witness : exists n vt', forall m, (n <= m)%nat ->
  nsh_script 3 7 80 demo_os false m 3 (text (lines demo_prog)) (shell []) = Done (ERROR, vt') /\
  (c_argv <$> vt_hist vt') =
    [[cstr "twice"; cstr "x"]; [cstr "no"]; [cstr "inner"; cstr "1"];
     [cstr "twice"; cstr "x"]; [cstr "no"]; [cstr "inner"; cstr "1"];
     [cstr "twice"; cstr "x"]; [cstr "no"]; [cstr "end"]].
Proof.
  destruct (nsh_script_refines 3 7 80 demo_os false demo_prog 20 (vt_env (shell [])) true
    (vt_env (shell [])) (plain_cmd <$> [[cstr "twice"; cstr "x"]; [cstr "no"]; [cstr "inner"; cstr "1"];
     [cstr "twice"; cstr "x"]; [cstr "no"]; [cstr "inner"; cstr "1"];
     [cstr "twice"; cstr "x"]; [cstr "no"]; [cstr "end"]]) 3) as (n & vt' & H).
  - lia.
  - lia.
  - lia.
  - repeat split; try done; try (intros [=]); vm_compute; lia.
  - vm_compute. reflexivity.
  - exists n, vt'. intros m Hm. destruct (H m Hm) as (E & _ & Hh & _). split; [exact E|]. by rewrite Hh.
Defined.

(** C14. The parser state stays well formed, whatever the script contains,
    whatever its commands do and also in a script that never ends: in every
    state [nsh_script]'s loop reaches after any number of lines, the indices of
    both stacks are inside their arrays (also after [break], which restores a
    saved index), entry 0 is outside every conditional and loop, every loop
    below the top is in its body, and the internal errors of [done] and [fi]
    (an index below 1) cannot occur.  From each of these states the next line
    is processed in a bounded number of steps, and what it leaves is well
    formed; it is processed to its end inside [argv] if variables hold at most
    one word each.  (An expanded variable of several words can overrun [argv]:
    [variable_overflows_argv].) *)
Theorem nsh_parser_invariant NESTDEPTH MAXARGUMENTS LINE_MAX os ignore fd file vt0 vt :
  parser_ok NESTDEPTH (vt_np vt0) ->
  rtc (next_line NESTDEPTH MAXARGUMENTS os LINE_MAX ignore file) (set_np (set_fd fd 0 (vt_np vt0)) vt0) vt ->
  parser_ok NESTDEPTH (vt_np vt) /\
  (lp_is NSH_LOOP_DO (vt_np vt) = true -> (1 <= np_lpndx (vt_np vt))%nat) /\
  (ie_is NSH_ITEF_THEN (vt_np vt) || ie_is NSH_ITEF_ELSE (vt_np vt) = true ->
   (1 <= np_iendx (vt_np vt))%nat) /\
  script_line NESTDEPTH MAXARGUMENTS LINE_MAX os ignore file vt <> OutOfFuel /\
  (forall ret vt', script_line NESTDEPTH MAXARGUMENTS LINE_MAX os ignore file vt = Done (ret, vt') ->
     parser_ok NESTDEPTH (vt_np vt')) /\
  (os_one_word os -> one_word_env (vt_env vt0) ->
     exists ret vt', script_line NESTDEPTH MAXARGUMENTS LINE_MAX os ignore file vt = Done (ret, vt')).
Proof.
  intros Hok Hs. assert (parser_ok NESTDEPTH (vt_np vt)) as E by (eapply lines_keep_ok; [done|by apply ok_set_fd]).
  destruct (script_line_total NESTDEPTH MAXARGUMENTS os LINE_MAX ignore file vt) as [Hf Hd].
  split; [done|]. split; [|split; [|split; [done|split]]].
  - intros Hl%lp_is_true. destruct (decide (np_lpndx (vt_np vt) = 0%nat)) as [Hz|]; [|lia].
    apply (lp_top_normal E) in Hz. congruence.
  - intros [Hi%ie_is_true|Hi%ie_is_true]%orb_true_iff; apply (ie_top_normal E); congruence.
  - intros ret vt'. by apply ok_script_line.
  - intros Hos Hone. destruct Hd as (ret & vt' & Hl & _); [done|by eapply lines_keep_one_word|]. eauto.
Qed.

(** An endless script, after its first four lines. *)
Definition endless : list Z := script ["while a"; "do"; "if b"; "then"; "fi"; "done"]%string.
Definition line_after (vt : nsh_vtbl_s) : nsh_vtbl_s :=
  match script_line 3 7 80 demo_os false endless vt with Done (_, vt') => vt' | _ => vt end.
Definition line_goes (vt : nsh_vtbl_s) : bool :=
  match script_line 3 7 80 demo_os false endless vt with Done (ret, _) => 0 <=? ret | _ => false end.
Definition endless_0 : nsh_vtbl_s := set_np (set_fd 3 0 (vt_np (shell []))) (shell []).
Definition endless_4 : nsh_vtbl_s := line_after (line_after (line_after (line_after endless_0))).

Lemma line_goes_next vt : line_goes vt = true -> next_line 3 7 demo_os 80 false endless vt (line_after vt).
Proof.
  unfold line_goes, line_after, next_line. destruct (script_line _ _ _ _ _ _ vt) as [[ret vt']| |]; [|done..].
  intros Hr. exists ret. split; [by apply Z.leb_le|done].
Qed.

Lemma endless_reached : rtc (next_line 3 7 demo_os 80 false endless) endless_0 endless_4.
Proof.
  unfold endless_4. assert (line_goes endless_0 && line_goes (line_after endless_0) &&
    line_goes (line_after (line_after endless_0)) &&
    line_goes (line_after (line_after (line_after endless_0))) = true) as H by by vm_compute.
  rewrite !andb_true_iff in H. destruct H as [[[H1 H2] H3] H4]. generalize dependent endless_0. intros vt H1 H2 H3 H4.
  do 4 (eapply rtc_l; [by apply line_goes_next|]). apply rtc_refl.
Qed.

Lemma nsh_parser_invariant_witness :
  parser_ok 3 (vt_np endless_4) /\ (np_lpndx (vt_np endless_4), np_iendx (vt_np endless_4)) = (1%nat, 1%nat) /\
  exists ret vt', script_line 3 7 80 demo_os false endless endless_4 = Done (ret, vt').
Proof.
  destruct (nsh_parser_invariant 3 7 80 demo_os false 3 endless (shell []) endless_4) as (H1 & _ & _ & _ & _ & H2).
  - apply parser_initial_ok. lia.
  - exact endless_reached.
  - split; [exact H1|]. split; [vm_compute; reflexivity|]. apply H2.
    + intros hist env c He. split; [done|exact He].
    + split; repeat constructor.
Defined.

(** C26. Every command line is processed in a bounded number of steps, whatever
    it contains; and when the variables hold at most one word each, it is
    processed to its end without a write outside [argv], and every command it
    executes has between one and MAXARGUMENTS + 3 arguments, its name
    included. *)
Theorem nsh_parse_is_total NESTDEPTH MAXARGUMENTS os vt cmdline :
  nsh_parse NESTDEPTH MAXARGUMENTS os vt cmdline <> OutOfFuel /\
  (os_one_word os -> one_word_env (vt_env vt) ->
   exists r vt', nsh_parse NESTDEPTH MAXARGUMENTS os vt cmdline = Done (r, vt') /\
     line_result MAXARGUMENTS vt vt').
Proof. apply nsh_parse_total. Qed.

Lemma nsh_parse_is_total_witness : exists r vt',
  nsh_parse 3 7 demo_os (shell [(cstr "X", cstr "value")]) (cstr "echo $X 'a b' > out; no; last") =
    Done (r, vt') /\ line_result 7 (shell [(cstr "X", cstr "value")]) vt'.
Proof.
  apply nsh_parse_is_total.
  - intros hist env c He. split; [done|exact He].
  - split; repeat constructor.
Defined.

(** ** The test commands *)

(** C21. [test] and [[] evaluate an expression to its meaning: string
    comparison, comparison of decimal integers in the range of long, tests of
    strings and files, negation, and chains of [-a] and [-o] grouped to the
    right. *)
Theorem test_expression_correct stat e : expr_ok e ->
  cmd_test stat (cstr "test" :: words e) = Done (test_of (sem stat e)) /\
  cmd_lbracket stat (cstr "[" :: words e ++ [cstr "]"]) = Done (test_of (sem stat e)).
Proof.
  intros Hok. split.
  - unfold cmd_test. cbn [length]. rewrite Nat.sub_succ, Nat.sub_0_r, skipn_cons, drop_0.
    pose proof (expression_sem stat e (S (S (length (words e)))) [] Hok ltac:(lia)) as H.
    by rewrite app_nil_r in H.
  - unfold cmd_lbracket, arg. cbn [length]. rewrite length_app. cbn [length].
    replace (S (length (words e) + 1) - 1)%nat with (S (length (words e))) by lia.
    replace (S (length (words e) + 1) - 2)%nat with (length (words e)) by lia.
    replace ((cstr "[" :: words e ++ [cstr "]"]) !! S (length (words e))) with (Some (cstr "]"))
      by (symmetry; by apply (list_lookup_middle (cstr "[" :: words e) [])).
    change (negb (word_is (cstr "]") "]")) with false. cbv iota.
    rewrite skipn_cons, drop_0. apply expression_sem; [done|lia].
Qed.

Definition demo_stat (p : list Z) : option stat_s :=
  if word_is p "/etc" then Some {| st_isblk := false; st_ischr := false; st_isdir := true;
    st_isreg := false; st_readable := true; st_writable := false; st_size := 0 |} else None.

Lemma test_expression_correct_witness :
  cmd_lbracket demo_stat (cstr <$> ["["; "-5"; "-lt"; "3"; "-a"; "!"; "-d"; "/none"; "]"]%string) =
    Done TEST_TRUE.
Proof.
  apply (test_expression_correct demo_stat
    (TAnd (AInt CLt (-5) 3) (TNot (TAtom (AUn UDir (cstr "/none")))))).
  repeat split; vm_compute; done.
Defined.

(** The bracket form is safe on every list of arguments: it returns true or
    false and never reads behind the end of [argv]. *)
Theorem lbracket_is_total stat argv : (2 <= length argv)%nat ->
  exists v, cmd_lbracket stat argv = Done v /\ (v = TEST_TRUE \/ v = TEST_FALSE).
Proof.
  intros Hl. unfold cmd_lbracket, arg.
  destruct (lookup_lt_is_Some_2 argv (length argv - 1)) as [last ->]; [lia|].
  destruct (negb _); [exists ERROR; split; [done|by right]|].
  apply expression_total; rewrite length_drop; lia.
Qed.

Lemma lbracket_is_total_witness : exists v,
  cmd_lbracket demo_stat (cstr <$> ["["; "x"; "="; "x"; "-a"; "]"]%string) = Done v /\
  (v = TEST_TRUE \/ v = TEST_FALSE).
Proof. apply lbracket_is_total. vm_compute. lia. Defined.

(** ** Departures *)

(** [nsh_script] leaves its loop only with a negative value: a script that ran
    to its end returns EOF, so [source] always reports a failure. *)
Lemma nsh_script_never_ok NESTDEPTH MAXARGUMENTS LINE_MAX os ignore fuel fd file vt r vt' :
  nsh_script NESTDEPTH MAXARGUMENTS LINE_MAX os ignore fuel fd file vt = Done (r, vt') -> r < 0.
Proof.
  unfold nsh_script. destruct (fd <? 0); [by intros [= <- _]|].
  generalize (set_np (set_fd fd 0 (vt_np vt)) vt). induction fuel as [|fuel IH]; intros vt0; [done|].
  cbn [script_loop]. destruct (script_line _ _ _ _ _ _ _) as [[ret vt1]| |]; [|done..].
  cbv beta iota delta [mbind run_bind]. destruct (Z.leb_spec 0 ret); [apply IH|]. by intros [= <- _].
Qed.

(** A loop inside the body of a loop that is skipped is executed. *)
Example skipped_loop_is_executed :
  executed (demo_script true ["while no"; "do"; "while twice"; "do"; "body"; "done"; "done"]) =
    Some [[cstr "no"]; [cstr "twice"]; [cstr "body"]; [cstr "twice"]; [cstr "body"]; [cstr "twice"]].
Proof. vm_compute. reflexivity. Qed.

(** With a quoted word in its condition, [done] jumps behind the quotation, and
    the rest of the condition is executed as a command; the loop is gone. *)
Example quoted_condition_breaks_loop :
  executed (demo_script true ["while twice 'a' b"; "do"; "body"; "done"]) =
    Some [[cstr "twice"; cstr "a"; cstr "b"]; [cstr "body"]; [cstr "b"]; [cstr "body"]].
Proof. vm_compute. reflexivity. Qed.

(** [break] inside a conditional closes it, and its [fi] is then an error that
    ends the script. *)
Example break_in_conditional_ends_script :
  executed (demo_script false ["while a"; "do"; "if b"; "then"; "break"; "fi"; "done"; "end"]) =
    Some [[cstr "a"]; [cstr "b"]; [cstr "break"]].
Proof. vm_compute. reflexivity. Qed.

(** A script that ends at a failing command leaves its conditional open in the
    shell that ran it. *)
Example aborted_script_leaves_conditional :
  match demo_script false ["if a"; "then"; "no"; "fi"] with
  | Done (ret, vt) => (ret, np_iendx (vt_np vt)) = (ERROR, 1%nat)
  | _ => False
  end.
Proof. vm_compute. reflexivity. Qed.

(** The words of a variable that fill the last entry of [argv] make the
    terminating NULL a write behind the array. *)
Example variable_overflows_argv :
  nsh_parse_command 3 7 demo_os (shell [(cstr "X", cstr "i j")]) (cstr "echo a b c d e f g h $X") =
    OutOfBounds.
Proof. vm_compute. reflexivity. Qed.

(** Using a variable as an argument cuts its value behind the first word. *)
Example variable_is_truncated :
  match nsh_parse_command 3 7 demo_os (shell [(cstr "X", cstr "a b c")]) (cstr "echo $X") with
  | Done (_, vt) => getenv (env_vars (vt_env vt)) (cstr "X") = Some (cstr "a")
  | _ => False
  end.
Proof. vm_compute. reflexivity. Qed.

(** A loop typed at the prompt is not rejected: the descriptor of a shell that
    runs no script is 0, not negative. *)
Example interactive_loop_accepted :
  match nsh_parse 3 7 demo_os (shell []) (cstr "while a") with
  | Done (ret, vt) => (ret, np_lpndx (vt_np vt)) = (OK, 1%nat)
  | _ => False
  end.
Proof. vm_compute. reflexivity. Qed.

(** An operator without a right operand makes [test] read the NULL behind its
    arguments. *)
Example test_dangling_operator :
  cmd_test demo_stat (cstr <$> ["test"; "x"; "="; "x"; "-a"]%string) = OutOfBounds.
Proof. vm_compute. reflexivity. Qed.

(** A syntax error counts as false, so its negation is true. *)
Example test_negated_syntax_error :
  cmd_test demo_stat (cstr <$> ["test"; "!"; "x"; "y"]%string) = Done TEST_TRUE.
Proof. vm_compute. reflexivity. Qed.

End NshTheorems.
