(* ===== verification/MbCrc.v ===== *)
(** * MbCrc: the checksum of Modbus RTU frames

    [src/modbus/rtu/mbcrc.c]: the two tables and the table-driven [usMBCRC16], which keeps
    the running checksum as two bytes.  [crc16] is the reference definition, one bit at a
    time: the reflected CRC-16 with polynomial 0xa001 and initial value 0xffff.  The two are
    equal on all byte strings; a frame followed by its checksum (low byte first) has checksum
    zero; and a change confined to two neighbouring bytes changes the checksum. *)

From stdpp Require Import strings.
From S2P Require Import Prelude.
#[local] Open Scope Z_scope.

(** ** The code *)

Definition aucCRCHi : list Z :=
  [0x00; 0xc1; 0x81; 0x40; 0x01; 0xc0; 0x80; 0x41; 0x01; 0xc0; 0x80; 0x41; 0x00; 0xc1; 0x81; 0x40;
   0x01; 0xc0; 0x80; 0x41; 0x00; 0xc1; 0x81; 0x40; 0x00; 0xc1; 0x81; 0x40; 0x01; 0xc0; 0x80; 0x41;
   0x01; 0xc0; 0x80; 0x41; 0x00; 0xc1; 0x81; 0x40; 0x00; 0xc1; 0x81; 0x40; 0x01; 0xc0; 0x80; 0x41;
   0x00; 0xc1; 0x81; 0x40; 0x01; 0xc0; 0x80; 0x41; 0x01; 0xc0; 0x80; 0x41; 0x00; 0xc1; 0x81; 0x40;
   0x01; 0xc0; 0x80; 0x41; 0x00; 0xc1; 0x81; 0x40; 0x00; 0xc1; 0x81; 0x40; 0x01; 0xc0; 0x80; 0x41;
   0x00; 0xc1; 0x81; 0x40; 0x01; 0xc0; 0x80; 0x41; 0x01; 0xc0; 0x80; 0x41; 0x00; 0xc1; 0x81; 0x40;
   0x00; 0xc1; 0x81; 0x40; 0x01; 0xc0; 0x80; 0x41; 0x01; 0xc0; 0x80; 0x41; 0x00; 0xc1; 0x81; 0x40;
   0x01; 0xc0; 0x80; 0x41; 0x00; 0xc1; 0x81; 0x40; 0x00; 0xc1; 0x81; 0x40; 0x01; 0xc0; 0x80; 0x41;
   0x01; 0xc0; 0x80; 0x41; 0x00; 0xc1; 0x81; 0x40; 0x00; 0xc1; 0x81; 0x40; 0x01; 0xc0; 0x80; 0x41;
   0x00; 0xc1; 0x81; 0x40; 0x01; 0xc0; 0x80; 0x41; 0x01; 0xc0; 0x80; 0x41; 0x00; 0xc1; 0x81; 0x40;
   0x00; 0xc1; 0x81; 0x40; 0x01; 0xc0; 0x80; 0x41; 0x01; 0xc0; 0x80; 0x41; 0x00; 0xc1; 0x81; 0x40;
   0x01; 0xc0; 0x80; 0x41; 0x00; 0xc1; 0x81; 0x40; 0x00; 0xc1; 0x81; 0x40; 0x01; 0xc0; 0x80; 0x41;
   0x00; 0xc1; 0x81; 0x40; 0x01; 0xc0; 0x80; 0x41; 0x01; 0xc0; 0x80; 0x41; 0x00; 0xc1; 0x81; 0x40;
   0x01; 0xc0; 0x80; 0x41; 0x00; 0xc1; 0x81; 0x40; 0x00; 0xc1; 0x81; 0x40; 0x01; 0xc0; 0x80; 0x41;
   0x01; 0xc0; 0x80; 0x41; 0x00; 0xc1; 0x81; 0x40; 0x00; 0xc1; 0x81; 0x40; 0x01; 0xc0; 0x80; 0x41;
   0x00; 0xc1; 0x81; 0x40; 0x01; 0xc0; 0x80; 0x41; 0x01; 0xc0; 0x80; 0x41; 0x00; 0xc1; 0x81; 0x40].

Definition aucCRCLo : list Z :=
  [0x00; 0xc0; 0xc1; 0x01; 0xc3; 0x03; 0x02; 0xc2; 0xc6; 0x06; 0x07; 0xc7; 0x05; 0xc5; 0xc4; 0x04;
   0xcc; 0x0c; 0x0d; 0xcd; 0x0f; 0xcf; 0xce; 0x0e; 0x0a; 0xca; 0xcb; 0x0b; 0xc9; 0x09; 0x08; 0xc8;
   0xd8; 0x18; 0x19; 0xd9; 0x1b; 0xdb; 0xda; 0x1a; 0x1e; 0xde; 0xdf; 0x1f; 0xdd; 0x1d; 0x1c; 0xdc;
   0x14; 0xd4; 0xd5; 0x15; 0xd7; 0x17; 0x16; 0xd6; 0xd2; 0x12; 0x13; 0xd3; 0x11; 0xd1; 0xd0; 0x10;
   0xf0; 0x30; 0x31; 0xf1; 0x33; 0xf3; 0xf2; 0x32; 0x36; 0xf6; 0xf7; 0x37; 0xf5; 0x35; 0x34; 0xf4;
   0x3c; 0xfc; 0xfd; 0x3d; 0xff; 0x3f; 0x3e; 0xfe; 0xfa; 0x3a; 0x3b; 0xfb; 0x39; 0xf9; 0xf8; 0x38;
   0x28; 0xe8; 0xe9; 0x29; 0xeb; 0x2b; 0x2a; 0xea; 0xee; 0x2e; 0x2f; 0xef; 0x2d; 0xed; 0xec; 0x2c;
   0xe4; 0x24; 0x25; 0xe5; 0x27; 0xe7; 0xe6; 0x26; 0x22; 0xe2; 0xe3; 0x23; 0xe1; 0x21; 0x20; 0xe0;
   0xa0; 0x60; 0x61; 0xa1; 0x63; 0xa3; 0xa2; 0x62; 0x66; 0xa6; 0xa7; 0x67; 0xa5; 0x65; 0x64; 0xa4;
   0x6c; 0xac; 0xad; 0x6d; 0xaf; 0x6f; 0x6e; 0xae; 0xaa; 0x6a; 0x6b; 0xab; 0x69; 0xa9; 0xa8; 0x68;
   0x78; 0xb8; 0xb9; 0x79; 0xbb; 0x7b; 0x7a; 0xba; 0xbe; 0x7e; 0x7f; 0xbf; 0x7d; 0xbd; 0xbc; 0x7c;
   0xb4; 0x74; 0x75; 0xb5; 0x77; 0xb7; 0xb6; 0x76; 0x72; 0xb2; 0xb3; 0x73; 0xb1; 0x71; 0x70; 0xb0;
   0x50; 0x90; 0x91; 0x51; 0x93; 0x53; 0x52; 0x92; 0x96; 0x56; 0x57; 0x97; 0x55; 0x95; 0x94; 0x54;
   0x9c; 0x5c; 0x5d; 0x9d; 0x5f; 0x9f; 0x9e; 0x5e; 0x5a; 0x9a; 0x9b; 0x5b; 0x99; 0x59; 0x58; 0x98;
   0x88; 0x48; 0x49; 0x89; 0x4b; 0x8b; 0x8a; 0x4a; 0x4e; 0x8e; 0x8f; 0x4f; 0x8d; 0x4d; 0x4c; 0x8c;
   0x44; 0x84; 0x85; 0x45; 0x87; 0x47; 0x46; 0x86; 0x82; 0x42; 0x43; 0x83; 0x41; 0x81; 0x80; 0x40].

(** [table[i]]; the index is a byte and the tables have 256 entries. *)
Definition tab (t : list Z) (i : Z) : Z := t !!! Z.to_nat i.

(** One turn of the loop of [usMBCRC16] on [(ucCRCHi, ucCRCLo)]. *)
Definition crc_turn (s : Z * Z) (b : Z) : Z * Z :=
  let '(ucCRCHi, ucCRCLo) := s in
  let iIndex := Z.lxor ucCRCLo b in
  (tab aucCRCLo iIndex, u8 (Z.lxor ucCRCHi (tab aucCRCHi iIndex))).

Definition mbcrc_loop (pucFrame : list Z) (s : Z * Z) : Z * Z := fold_left crc_turn pucFrame s.

(** [usMBCRC16(pucFrame, usLen)]; [pucFrame] is the list of the [usLen] bytes read. *)
Definition usMBCRC16 (pucFrame : list Z) : Z :=
  let '(ucCRCHi, ucCRCLo) := mbcrc_loop pucFrame (0xff, 0xff) in
  u16 (Z.lor (Z.shiftl ucCRCHi 8) ucCRCLo).

(** ** The reference *)

(** Shift one bit out; when it is set, add the polynomial. *)
Definition crc_shift (x : Z) : Z :=
  if Z.odd x then Z.lxor (Z.shiftr x 1) 0xa001 else Z.shiftr x 1.

Definition crc_byte (x b : Z) : Z := Nat.iter 8 crc_shift (Z.lxor x b).

Definition crc16 (l : list Z) : Z := fold_left crc_byte l 0xffff.

(** ** Bytes and exclusive or *)

Lemma lxor_byte x y : is_byte x -> is_byte y -> is_byte (Z.lxor x y).
Proof. intros. apply (lxor_range 8); [lia|assumption..]. Qed.

(** The exclusive or of a word and a byte acts on the low half only. *)
Lemma lxor_low hi lo b : is_byte lo -> is_byte b ->
  Z.lxor (hi * 256 + lo) b = hi * 256 + Z.lxor lo b.
Proof.
  intros Hlo Hb. change 256 with (2 ^ 8).
  rewrite <- !lor_add; [|lia|by apply lxor_byte|lia|done].
  apply Z.bits_inj'. intros k Hk. rewrite !Z.lxor_spec, !Z.lor_spec, !Z.lxor_spec.
  destruct (Z.lt_ge_cases k 8).
  - by rewrite Z.shiftl_spec_low.
  - by rewrite !(testbit_small b 8), !xorb_false_r by done.
Qed.

(** ** The tables *)

Definition table_ok (i : Z) : bool :=
  (0 <=? tab aucCRCHi i) && (tab aucCRCHi i <? 256) &&
  (0 <=? tab aucCRCLo i) && (tab aucCRCLo i <? 256).

Lemma tables_bytes i : is_byte i -> is_byte (tab aucCRCHi i) /\ is_byte (tab aucCRCLo i).
Proof.
  intros Hi. assert (table_ok i = true) as H by
    (apply (range_sweep table_ok 256); [vm_compute; reflexivity|done]).
  unfold table_ok in H. breflect. unfold is_byte. lia.
Qed.

(** Eight shifts of a word are one table step: all words, by evaluation. *)
Definition shift8_ok (hi lo : Z) : bool :=
  Nat.iter 8 crc_shift (hi * 256 + lo) =? tab aucCRCLo lo * 256 + Z.lxor hi (tab aucCRCHi lo).

Lemma shift8_all : forallb (fun hi => forallb (shift8_ok hi) (seqZ 0 256)) (seqZ 0 256) = true.
Proof. vm_cast_no_check (eq_refl true). Qed.

Lemma shift8_turn hi lo : is_byte hi -> is_byte lo ->
  Nat.iter 8 crc_shift (hi * 256 + lo) = tab aucCRCLo lo * 256 + Z.lxor hi (tab aucCRCHi lo).
Proof.
  intros Hhi Hlo. apply Z.eqb_eq. change (shift8_ok hi lo = true).
  apply (range_sweep (shift8_ok hi) 256); [|done].
  by apply (range_sweep (fun hi => forallb (shift8_ok hi) (seqZ 0 256)) 256 shift8_all).
Qed.

Lemma turn_bytes s b : is_byte s.1 -> is_byte s.2 -> is_byte b ->
  is_byte (crc_turn s b).1 /\ is_byte (crc_turn s b).2.
Proof.
  destruct s as [hi lo]. simpl. intros Hhi Hlo Hb.
  pose proof (tables_bytes _ (lxor_byte _ _ Hlo Hb)) as [_ H]. auto with nuttx.
Qed.

Lemma turn_refines hi lo b : is_byte hi -> is_byte lo -> is_byte b ->
  let s := crc_turn (hi, lo) b in crc_byte (hi * 256 + lo) b = s.1 * 256 + s.2.
Proof.
  intros Hhi Hlo Hb. unfold crc_byte. rewrite lxor_low by done.
  rewrite shift8_turn by (done || by apply lxor_byte). simpl.
  rewrite u8_small; [done|]. apply lxor_byte; [done|]. apply tables_bytes. by apply lxor_byte.
Qed.

Lemma loop_bytes l s : Forall is_byte l -> is_byte s.1 -> is_byte s.2 ->
  is_byte (mbcrc_loop l s).1 /\ is_byte (mbcrc_loop l s).2.
Proof.
  revert s. induction l as [|b l IH]; intros s Hl H1 H2; [done|]. inv_Forall.
  simpl. apply IH; [done|..]; by apply turn_bytes.
Qed.

Lemma mbcrc_loop_bytes l : Forall is_byte l ->
  is_byte (mbcrc_loop l (0xff, 0xff)).1 /\ is_byte (mbcrc_loop l (0xff, 0xff)).2.
Proof. intros Hl. apply loop_bytes; [done|unfold is_byte; simpl; lia..]. Qed.

Lemma loop_refines l : forall hi lo, Forall is_byte l -> is_byte hi -> is_byte lo ->
  fold_left crc_byte l (hi * 256 + lo) = (mbcrc_loop l (hi, lo)).1 * 256 + (mbcrc_loop l (hi, lo)).2.
Proof.
  induction l as [|b l IH]; intros hi lo Hl Hhi Hlo; [done|]. inv_Forall.
  unfold mbcrc_loop. cbn [fold_left]. rewrite turn_refines by done.
  pose proof (turn_bytes (hi, lo) b) as [H1 H2]; [done..|].
  destruct (crc_turn (hi, lo) b) as [h' l']. by apply IH.
Qed.

Lemma usMBCRC16_pair l : Forall is_byte l -> let s := mbcrc_loop l (0xff, 0xff) in
  usMBCRC16 l = s.1 * 256 + s.2.
Proof.
  intros Hl. unfold usMBCRC16.
  pose proof (mbcrc_loop_bytes l Hl) as [H1 H2].
  destruct (mbcrc_loop l (0xff, 0xff)) as [hi lo]. simpl in *.
  rewrite (lor_add hi lo 8) by (done || lia). unfold u16, is_byte in *.
  apply Z.mod_small. lia.
Qed.

Lemma usMBCRC16_range l : Forall is_byte l -> 0 <= usMBCRC16 l < 65536.
Proof.
  intros Hl. rewrite usMBCRC16_pair by done.
  pose proof (mbcrc_loop_bytes l Hl) as H. unfold is_byte in *. simpl in *. lia.
Qed.

(** The table-driven checksum is the reference checksum. *)
Lemma usMBCRC16_crc16 l : Forall is_byte l -> usMBCRC16 l = crc16 l.
Proof.
  intros Hl. rewrite usMBCRC16_pair by done. unfold crc16. change 0xffff with (0xff * 256 + 0xff).
  rewrite loop_refines by (done || unfold is_byte; lia). done.
Qed.

(** ** A frame followed by its checksum *)

Lemma loop_app l1 l2 s : mbcrc_loop (l1 ++ l2) s = mbcrc_loop l2 (mbcrc_loop l1 s).
Proof. apply fold_left_app. Qed.

(** The two bytes a sender appends. *)
Definition crc_tail (l : list Z) : list Z := [Z.land (usMBCRC16 l) 0xff; Z.shiftr (usMBCRC16 l) 8].

Lemma crc_tail_pair l : Forall is_byte l -> let s := mbcrc_loop l (0xff, 0xff) in
  crc_tail l = [s.2; s.1].
Proof.
  intros Hl. pose proof (usMBCRC16_pair l Hl) as E. pose proof (mbcrc_loop_bytes l Hl) as [H1 H2].
  unfold crc_tail. simpl in *. rewrite E. destruct (mbcrc_loop l (0xff, 0xff)) as [hi lo].
  simpl in *. unfold is_byte in *.
  change 0xff with (2 ^ 8 - 1). rewrite land_ones_mod, Z.shiftr_div_pow2 by lia.
  change (2 ^ 8) with 256. rewrite Z.add_comm, Z.mod_add, Z.div_add by lia.
  by rewrite Z.mod_small, Z.div_small by lia.
Qed.

Lemma crc_tail_bytes l : Forall is_byte l -> Forall is_byte (crc_tail l).
Proof.
  intros Hl. rewrite crc_tail_pair by done.
  pose proof (mbcrc_loop_bytes l Hl) as [? ?].
  solve_bytes.
Qed.

Lemma tables_0 : tab aucCRCLo 0 = 0 /\ tab aucCRCHi 0 = 0.
Proof. by vm_compute. Qed.

Lemma turn_same hi lo : is_byte hi -> crc_turn (hi, lo) lo = (0, hi).
Proof.
  intros Hhi. unfold crc_turn. destruct tables_0 as [H1 H2].
  by rewrite Z.lxor_nilpotent, H1, H2, Z.lxor_0_r, u8_small.
Qed.

(** The checksum of a frame with its own checksum appended is zero. *)
Lemma crc_self l : Forall is_byte l -> usMBCRC16 (l ++ crc_tail l) = 0.
Proof.
  intros Hl. rewrite usMBCRC16_pair by (apply Forall_app; auto using crc_tail_bytes).
  cbv zeta. rewrite loop_app, (crc_tail_pair l Hl). pose proof (mbcrc_loop_bytes l Hl) as [H1 H2].
  destruct (mbcrc_loop l (0xff, 0xff)) as [hi lo]. cbn [fst snd] in *.
  unfold mbcrc_loop. cbn [fold_left]. rewrite (turn_same hi lo) by done.
  by rewrite (turn_same 0 hi) by (unfold is_byte; lia).
Qed.

(** ** Errors confined to two neighbouring bytes *)

(** The table indexed by the loop is a permutation of the bytes. *)
Lemma tab_lo_inj i j : is_byte i -> is_byte j -> tab aucCRCLo i = tab aucCRCLo j -> i = j.
Proof.
  assert (NoDup aucCRCLo) as Hnd by (apply (bool_decide_unpack _); vm_compute; reflexivity).
  unfold is_byte, tab. intros Hi Hj E.
  assert (forall k, 0 <= k < 256 -> aucCRCLo !! Z.to_nat k = Some (aucCRCLo !!! Z.to_nat k)) as Hl.
  { intros k Hk. apply list_lookup_lookup_total_lt.
    change (length aucCRCLo) with 256%nat. lia. }
  pose proof (Hl i Hi) as Ei. pose proof (Hl j Hj) as Ej. rewrite E in Ei.
  pose proof (NoDup_lookup _ _ _ _ Hnd Ei Ej). lia.
Qed.

Lemma lxor_inj_r x a b : Z.lxor x a = Z.lxor x b -> a = b.
Proof.
  intros E. rewrite <- (Z.lxor_0_l a), <- (Z.lxor_0_l b), <- (Z.lxor_nilpotent x).
  by rewrite !Z.lxor_assoc, E.
Qed.

Lemma turn_inj s t b : is_byte s.1 -> is_byte s.2 -> is_byte t.1 -> is_byte t.2 -> is_byte b ->
  crc_turn s b = crc_turn t b -> s = t.
Proof.
  destruct s as [h1 l1], t as [h2 l2]. simpl. intros H1 L1 H2 L2 Hb E. injection E as E1 E2.
  apply tab_lo_inj in E1; [|by apply lxor_byte..].
  rewrite (Z.lxor_comm l1), (Z.lxor_comm l2) in E1. apply lxor_inj_r in E1. subst l2.
  pose proof (tables_bytes _ (lxor_byte _ _ L1 Hb)) as [Ht _].
  rewrite !u8_small in E2 by (by apply lxor_byte).
  rewrite (Z.lxor_comm h1), (Z.lxor_comm h2) in E2. apply lxor_inj_r in E2. by subst.
Qed.

Lemma loop_inj l s t : Forall is_byte l ->
  is_byte s.1 -> is_byte s.2 -> is_byte t.1 -> is_byte t.2 ->
  mbcrc_loop l s = mbcrc_loop l t -> s = t.
Proof.
  revert s t. induction l as [|b l IH]; intros s t Hl; [done|]. inv_Forall. intros.
  apply (turn_inj s t b); [done..|]. apply IH; [done|by apply turn_bytes..|done].
Qed.

Lemma turn_two_inj s a b c d : is_byte s.1 -> is_byte s.2 ->
  is_byte a -> is_byte b -> is_byte c -> is_byte d ->
  crc_turn (crc_turn s a) b = crc_turn (crc_turn s c) d -> a = c /\ b = d.
Proof.
  destruct s as [h l]. simpl. intros Hh Hl Ha Hb Hc Hd E. injection E as E1 E2.
  pose proof (tables_bytes _ (lxor_byte _ _ Hl Ha)) as [Ta Ta'].
  pose proof (tables_bytes _ (lxor_byte _ _ Hl Hc)) as [Tc Tc'].
  rewrite !(u8_small (Z.lxor h _)) in E1, E2 by (by apply lxor_byte).
  apply tab_lo_inj in E1; [|by repeat apply lxor_byte..].
  rewrite E1 in E2.
  match type of E2 with u8 (Z.lxor _ (tab _ ?k)) = _ => assert (is_byte k) as Hk by
    (by repeat apply lxor_byte) end.
  pose proof (tables_bytes _ Hk) as [Tk _].
  rewrite !u8_small in E2 by (by apply lxor_byte).
  rewrite (Z.lxor_comm (tab aucCRCLo (Z.lxor l a))), (Z.lxor_comm (tab aucCRCLo (Z.lxor l c))) in E2.
  apply lxor_inj_r, tab_lo_inj in E2; [|by apply lxor_byte..].
  apply lxor_inj_r in E2. subst c. apply lxor_inj_r in E1. done.
Qed.

Lemma pair_eq_bytes s t : is_byte s.1 -> is_byte s.2 -> is_byte t.1 -> is_byte t.2 ->
  s.1 * 256 + s.2 = t.1 * 256 + t.2 -> s = t.
Proof.
  destruct s as [a b], t as [c d]. simpl. unfold is_byte. intros. f_equal; lia.
Qed.

(** Two frames that differ only in two neighbouring bytes have different checksums. *)
Lemma crc_two_bytes p q a b c d :
  Forall is_byte p -> Forall is_byte q -> Forall is_byte [a; b; c; d] ->
  usMBCRC16 (p ++ [a; b] ++ q) = usMBCRC16 (p ++ [c; d] ++ q) -> a = c /\ b = d.
Proof.
  intros Hp Hq Habcd. inv_Forall. intros E.
  rewrite !usMBCRC16_pair in E by (repeat apply Forall_app_2; (done || solve_bytes)).
  cbv zeta in E. rewrite !loop_app in E.
  pose proof (mbcrc_loop_bytes p Hp) as [P1 P2].
  set (s := mbcrc_loop p (0xff, 0xff)) in *.
  assert (forall x y, is_byte x -> is_byte y ->
    is_byte (mbcrc_loop [x; y] s).1 /\ is_byte (mbcrc_loop [x; y] s).2) as Hs.
  { intros. apply loop_bytes; [solve_bytes|done..]. }
  pose proof (Hs a b) as [A1 A2]; [done..|]. pose proof (Hs c d) as [C1 C2]; [done..|].
  apply pair_eq_bytes in E; [|apply loop_bytes; done..].
  apply loop_inj in E; [|done..]. by apply turn_two_inj in E.
Qed.
