(* ===== verification/MbPort.v ===== *)
(** * MbPort: the state of the Modbus slave and its port layer

    [src/modbus/nuttx/portevent.c], [porttimer.c] and [portserial.c] on the static variables
    of the whole slave (the record [mbs]; the variables of [rtu/mbrtu.c] and
    [ascii/mbascii.c] are declared here because the serial layer calls the frame layers back).

    The operating system is an environment: the results of [select]/[read] and of [write] are
    lists in the state ([sel_in], [wr_in]; an empty list is a silent line and a device that
    takes everything), the bytes written are appended to [line], and the n-th call of
    [gettimeofday] returns [clock n].  Since [sel_in] lists what [read] returns, bytes that
    [tcflush] throws away before they are read are not in it.  The settings written to the device by [tcsetattr] are
    not part of the state.  The frame layer is reached through three function
    pointers, arguments of the polling functions.  An access outside an array is [BadAccess];
    a failing [DEBUGASSERT] is [AssertFailed] when assertions are compiled in. *)

From stdpp Require Import strings.
From S2P Require Import Prelude.
#[local] Open Scope Z_scope.

(** ** Configuration and environment *)

Class MbConfig := {
  CONFIG_DEBUG_ASSERTIONS : bool;
  CONFIG_MB_FUNC_HANDLERS_MAX : nat;
  CONFIG_MB_ASCII_TIMEOUT_SEC : Z;
  CONFIG_MB_FUNC_OTHER_REP_SLAVEID_BUF : Z;
}.

Record timeval := { tv_sec : Z; tv_usec : Z }.

(** The result of the n-th call of [gettimeofday]; [None] when it fails. *)
Class Clock := clock : nat -> option timeval.

(** What one [select] and the [read] after it return. *)
Inductive sel :=
| SelEintr
| SelErr
| SelTimeout
| SelRead (l : list Z)
| SelReadErr.

(** What one [write] returns. *)
Inductive wr :=
| WrEintr
| WrErr
| WrSome (n : nat).

(** ** Results *)

Inductive mres (A : Type) :=
| Ret (a : A)
| BadAccess
| AssertFailed
| NoFuel.
#[global] Arguments Ret {A} a.
#[global] Arguments BadAccess {A}.
#[global] Arguments AssertFailed {A}.
#[global] Arguments NoFuel {A}.

#[export] Instance mres_ret : MRet mres := fun A a => Ret a.
#[export] Instance mres_bind : MBind mres := fun A B k m =>
  match m with
  | Ret a => k a | BadAccess => BadAccess | AssertFailed => AssertFailed | NoFuel => NoFuel
  end.

Definition DEBUGASSERT `{MbConfig} {A} (b : bool) (k : mres A) : mres A :=
  if CONFIG_DEBUG_ASSERTIONS && negb b then AssertFailed else k.

Definition fetch (mem : list Z) (i : Z) : mres Z :=
  if 0 <=? i then match mem !! Z.to_nat i with Some c => Ret c | None => BadAccess end
  else BadAccess.

Definition store (mem : list Z) (i v : Z) : mres (list Z) :=
  if (0 <=? i) && (i <? zlen mem) then Ret (<[Z.to_nat i := v]> mem) else BadAccess.

(** [n] bytes from [mem[i]] on. *)
Definition fetch_n (mem : list Z) (i n : Z) : mres (list Z) :=
  if (0 <=? i) && (0 <=? n) && (i + n <=? zlen mem) then Ret (zslice i n mem) else BadAccess.

(** Copy [d] to [mem[i]] and the bytes after it. *)
Definition store_n (mem : list Z) (i : Z) (d : list Z) : mres (list Z) :=
  if (0 <=? i) && (i + zlen d <=? zlen mem) then Ret (zwrite i d mem) else BadAccess.

(** ** Types of the headers *)

Inductive eMBErrorCode :=
| MB_ENOERR | MB_ENOREG | MB_EINVAL | MB_EPORTERR | MB_ENORES | MB_EIO | MB_EILLSTATE
| MB_ETIMEDOUT.
#[export] Instance eMBErrorCode_dec : EqDecision eMBErrorCode.
Proof. solve_decision. Defined.

Inductive eMBMode := MB_RTU | MB_ASCII | MB_TCP.
#[export] Instance eMBMode_dec : EqDecision eMBMode.
Proof. solve_decision. Defined.

Inductive eMBParity := MB_PAR_NONE | MB_PAR_ODD | MB_PAR_EVEN.

Inductive eMBEventType := EV_READY | EV_FRAME_RECEIVED | EV_EXECUTE | EV_FRAME_SENT.

(** ** The static variables *)

(** [portevent.c] *)
Record event_vars := mkEvent { xEventInQueue : bool; eQueuedEvent : eMBEventType }.

(** [porttimer.c] *)
Record timer_vars := mkTimer { ulTimeOut : Z; bTimeoutEnable : bool; xTimeLast : timeval }.

(** [portserial.c] *)
Record serial_vars := mkSerial {
  iSerialFd : Z; bRxEnabled : bool; bTxEnabled : bool; ulTimeoutMs : Z;
  ucBuffer : list Z; uiRxBufferPos : Z; uiTxBufferPos : Z }.

(** The environment: what the device will do, what was written to it, calls of the clock. *)
Record world := mkWorld { sel_in : list sel; wr_in : list wr; ticks : nat; line : list Z }.

(** [rtu/mbrtu.c]; [pucSndBufferCur] is an index into [ucRTUBuf]. *)
Inductive rtu_rcv := RX_INIT | RX_IDLE | RX_RCV | RX_ERROR.
Inductive rtu_snd := TX_IDLE | TX_XMIT.
Record rtu_vars := mkRtu {
  r_snd : rtu_snd; r_rcv : rtu_rcv; r_cur : Z; r_count : Z; r_pos : Z }.

(** [ascii/mbascii.c] *)
Inductive ascii_rcv := ARX_IDLE | ARX_RCV | ARX_WAIT_EOF.
Inductive ascii_snd := ATX_IDLE | ATX_START | ATX_DATA | ATX_END | ATX_NOTIFY.
Inductive eMBBytePos := BYTE_HIGH_NIBBLE | BYTE_LOW_NIBBLE.
Record ascii_vars := mkAscii {
  a_snd : ascii_snd; a_rcv : ascii_rcv; a_pos : Z; a_bytepos : eMBBytePos;
  a_cur : Z; a_count : Z; a_lf : Z }.

Record mbs := mkMbs {
  ev : event_vars; tm : timer_vars; ser : serial_vars; env : world;
  ucRTUBuf : list Z; rtu : rtu_vars; asc : ascii_vars }.

Definition set_ev (s : mbs) x := mkMbs x (tm s) (ser s) (env s) (ucRTUBuf s) (rtu s) (asc s).
Definition set_tm (s : mbs) x := mkMbs (ev s) x (ser s) (env s) (ucRTUBuf s) (rtu s) (asc s).
Definition set_ser (s : mbs) x := mkMbs (ev s) (tm s) x (env s) (ucRTUBuf s) (rtu s) (asc s).
Definition set_env (s : mbs) x := mkMbs (ev s) (tm s) (ser s) x (ucRTUBuf s) (rtu s) (asc s).
Definition set_buf (s : mbs) x := mkMbs (ev s) (tm s) (ser s) (env s) x (rtu s) (asc s).
Definition set_rtu (s : mbs) x := mkMbs (ev s) (tm s) (ser s) (env s) (ucRTUBuf s) x (asc s).
Definition set_asc (s : mbs) x := mkMbs (ev s) (tm s) (ser s) (env s) (ucRTUBuf s) (rtu s) x.

Definition BUF_SIZE : Z := 513.

(** ** Events: one slot *)

Definition xMBPortEventInit (s : mbs) : bool * mbs :=
  (true, set_ev s (mkEvent false (eQueuedEvent (ev s)))).

Definition xMBPortEventPost (eEvent : eMBEventType) (s : mbs) : bool * mbs :=
  (true, set_ev s (mkEvent true eEvent)).

(** ** The serial device *)

Definition vMBPortSerialEnable `{MbConfig} (bEnableRx bEnableTx : bool) (s : mbs) : mres mbs :=
  DEBUGASSERT (negb bEnableRx || negb bEnableTx)
    (let v := ser s in
     Ret (set_ser s (mkSerial (iSerialFd v) bEnableRx bEnableTx (ulTimeoutMs v) (ucBuffer v)
       (if bEnableRx then 0 else uiRxBufferPos v) (if bEnableTx then 0 else uiTxBufferPos v)))).

(** [select] and [read] until one of them returns a result other than an interruption. *)
Fixpoint prvbMBPortSerialRead (usNBytes : nat) (i : list sel) : option (list Z) * list sel :=
  match i with
  | [] => (Some [], [])
  | SelEintr :: i => prvbMBPortSerialRead usNBytes i
  | SelErr :: i | SelReadErr :: i => (None, i)
  | SelTimeout :: i => (Some [], i)
  | SelRead l :: i => (Some (take usNBytes l), i)
  end.

(** [write] until everything is written or an error other than an interruption occurs. *)
Fixpoint prvbMBPortSerialWrite (i : list wr) (left out : list Z) : bool * list wr * list Z :=
  match left with
  | [] => (true, i, out)
  | _ :: _ =>
      match i with
      | [] => (true, [], out ++ left)
      | WrEintr :: i => prvbMBPortSerialWrite i left out
      | WrErr :: i => (false, i, out)
      | WrSome n :: i => prvbMBPortSerialWrite i (drop n left) (out ++ take n left)
      end
  end.

(** Results of the calls [xMBPortSerialInit] makes on the device. *)
Record tty := { tty_open : Z; tcgetattr_ok : bool; cfsetispeed_ok : bool; tcsetattr_ok : bool }.

Definition serial_fd_to (s : mbs) (fd : Z) : mbs :=
  let v := ser s in
  set_ser s (mkSerial fd (bRxEnabled v) (bTxEnabled v) (ulTimeoutMs v) (ucBuffer v)
    (uiRxBufferPos v) (uiTxBufferPos v)).

Definition xMBPortSerialInit `{MbConfig} (t : tty) (ucDataBits : Z) (eParity : eMBParity)
    (s : mbs) : mres (bool * mbs) :=
  let s := serial_fd_to s (tty_open t) in
  if tty_open t <? 0 then Ret (false, s)
  else if negb (tcgetattr_ok t) then Ret (true, s)
  else if (ucDataBits =? 8) || (ucDataBits =? 7) then
    if negb (cfsetispeed_ok t) then Ret (true, s)
    else if negb (tcsetattr_ok t) then Ret (true, s)
    else s ← vMBPortSerialEnable false false s; Ret (true, s)
  else Ret (false, s).

Definition xMBPortSerialSetTimeout (ulNewTimeoutMs : Z) (s : mbs) : bool * mbs :=
  let v := ser s in
  (true, set_ser s (mkSerial (iSerialFd v) (bRxEnabled v) (bTxEnabled v)
    (if 0 <? ulNewTimeoutMs then ulNewTimeoutMs else 1) (ucBuffer v)
    (uiRxBufferPos v) (uiTxBufferPos v))).

Definition vMBPortClose (s : mbs) : mbs :=
  if negb (iSerialFd (ser s) =? -1) then serial_fd_to s (-1) else s.

Definition xMBPortSerialPutByte `{MbConfig} (ucByte : Z) (s : mbs) : mres mbs :=
  let v := ser s in
  DEBUGASSERT (uiTxBufferPos v <? BUF_SIZE)
    (b ← store (ucBuffer v) (uiTxBufferPos v) (u8 ucByte);
     Ret (set_ser s (mkSerial (iSerialFd v) (bRxEnabled v) (bTxEnabled v) (ulTimeoutMs v) b
       (uiRxBufferPos v) (uiTxBufferPos v + 1)))).

Definition xMBPortSerialGetByte `{MbConfig} (s : mbs) : mres (Z * mbs) :=
  let v := ser s in
  DEBUGASSERT (uiRxBufferPos v <? BUF_SIZE)
    (b ← fetch (ucBuffer v) (uiRxBufferPos v);
     Ret (b, set_ser s (mkSerial (iSerialFd v) (bRxEnabled v) (bTxEnabled v) (ulTimeoutMs v)
       (ucBuffer v) (uiRxBufferPos v + 1) (uiTxBufferPos v)))).

(** ** Timers *)

Definition xMBPortTimersInit (usTim1Timerout50us : Z) (s : mbs) : bool * mbs :=
  let t := usTim1Timerout50us / 20 in
  let t := if t =? 0 then 1 else t in
  xMBPortSerialSetTimeout t (set_tm s (mkTimer t (bTimeoutEnable (tm s)) (xTimeLast (tm s)))).

Definition gettimeofday `{Clock} (s : mbs) : option timeval * mbs :=
  let e := env s in
  (clock (ticks e), set_env s (mkWorld (sel_in e) (wr_in e) (S (ticks e)) (line e))).

Definition vMBPortTimersEnable `{MbConfig} `{Clock} (s : mbs) : mres mbs :=
  let '(res, s) := gettimeofday s in
  let last := match res with Some t => t | None => xTimeLast (tm s) end in
  DEBUGASSERT (match res with Some _ => true | None => false end)
    (Ret (set_tm s (mkTimer (ulTimeOut (tm s)) true last))).

Definition vMBPortTimersDisable (s : mbs) : mbs :=
  set_tm s (mkTimer (ulTimeOut (tm s)) false (xTimeLast (tm s))).

(** [ulDeltaMS] of [vMBPortTimerPoll]. *)
Definition ulDeltaMS (cur last : timeval) : Z :=
  u32 ((tv_sec cur - tv_sec last) * 1000 + (tv_usec cur - tv_usec last) * 1000).

Section polling.
Context `{MbConfig} `{Clock}.

(** The three function pointers. *)
Variables pxMBFrameCBByteReceived pxMBFrameCBTransmitterEmpty pxMBPortCBTimerExpired :
  mbs -> mres (bool * mbs).

Definition vMBPortTimerPoll (s : mbs) : mres mbs :=
  if bTimeoutEnable (tm s) then
    let '(res, s) := gettimeofday s in
    match res with
    | None => Ret s
    | Some xTimeCur =>
        if ulTimeOut (tm s) <? ulDeltaMS xTimeCur (xTimeLast (tm s)) then
          '(_, s) ← pxMBPortCBTimerExpired (vMBPortTimersDisable s); Ret s
        else Ret s
    end
  else Ret s.

(** The [for] loop of [xMBPortSerialPoll]. *)
Fixpoint receive_bytes (n : nat) (s : mbs) : mres mbs :=
  match n with
  | O => Ret s
  | S n => '(_, s) ← pxMBFrameCBByteReceived s; receive_bytes n s
  end.

Definition set_rxpos (s : mbs) (p : Z) : mbs :=
  let v := ser s in
  set_ser s (mkSerial (iSerialFd v) (bRxEnabled v) (bTxEnabled v) (ulTimeoutMs v) (ucBuffer v)
    p (uiTxBufferPos v)).

(** [prvbMBPortSerialRead(&ucBuffer[0], BUF_SIZE, &usBytesRead)]: the bytes go to the start of
    the buffer. *)
Definition read_buffer (s : mbs) : option nat * mbs :=
  let '(r, i) := prvbMBPortSerialRead (Z.to_nat BUF_SIZE) (sel_in (env s)) in
  let e := env s in
  let s := set_env s (mkWorld i (wr_in e) (ticks e) (line e)) in
  match r with
  | None => (None, s)
  | Some l =>
      let v := ser s in
      (Some (length l), set_ser s (mkSerial (iSerialFd v) (bRxEnabled v) (bTxEnabled v)
         (ulTimeoutMs v) (zwrite 0 l (ucBuffer v)) (uiRxBufferPos v) (uiTxBufferPos v)))
  end.

(** [while (bRxEnabled)]; every turn but the last consumes one result of the device. *)
Fixpoint rx_loop (fuel : nat) (bStatus : bool) (s : mbs) : mres (bool * mbs) :=
  if bRxEnabled (ser s) then
    match fuel with
    | O => NoFuel
    | S fuel =>
        match read_buffer s with
        | (Some O, s) => Ret (bStatus, s)
        | (Some n, s) => s ← receive_bytes n s; rx_loop fuel bStatus (set_rxpos s 0)
        | (None, s) => rx_loop fuel false s
        end
    end
  else Ret (bStatus, s).

(** [while (bTxEnabled)]: each turn fills one byte of the buffer or disables the transmitter. *)
Fixpoint tx_loop (fuel : nat) (s : mbs) : mres mbs :=
  if bTxEnabled (ser s) then
    match fuel with
    | O => NoFuel
    | S fuel => '(_, s) ← pxMBFrameCBTransmitterEmpty s; tx_loop fuel s
    end
  else Ret s.

Definition write_buffer (s : mbs) : bool * mbs :=
  let e := env s in
  let '(ok, i, out) := prvbMBPortSerialWrite (wr_in e)
    (take (Z.to_nat (u16 (uiTxBufferPos (ser s)))) (ucBuffer (ser s))) (line e) in
  (ok, set_env s (mkWorld (sel_in e) i (ticks e) out)).

Definition tx_fuel : nat := 515.

Definition xMBPortSerialPoll (s : mbs) : mres (bool * mbs) :=
  '(bStatus, s) ← rx_loop (S (length (sel_in (env s)))) true s;
  if bTxEnabled (ser s) then
    s ← tx_loop tx_fuel s;
    let '(ok, s) := write_buffer s in
    Ret (bStatus && ok, s)
  else Ret (bStatus, s).

Definition xMBPortEventGet (s : mbs) : mres (option eMBEventType * mbs) :=
  if xEventInQueue (ev s) then
    Ret (Some (eQueuedEvent (ev s)), set_ev s (mkEvent false (eQueuedEvent (ev s))))
  else
    '(_, s) ← xMBPortSerialPoll s;
    s ← vMBPortTimerPoll s;
    Ret (None, s).

End polling.
