(* ===== verification/MbLine.v ===== *)
(** * MbLine: the loops of the serial port, over any frame layer

    What [xMBPortSerialPoll] does with a receive state machine that accepts the bytes of a
    frame one by one, in whatever pieces the device delivers them, and with a transmit state
    machine that produces the bytes of a frame one by one. *)

From stdpp Require Import strings.
From S2P Require Import Prelude MbPort.
#[local] Open Scope Z_scope.

(** ** Memory accesses inside an array *)

Lemma fetch_mid pre b post i : i = zlen pre -> fetch (pre ++ b :: post) i = Ret b.
Proof.
  intros ->. unfold fetch, zlen. destruct (Z.leb_spec 0 (Z.of_nat (length pre))); [|lia].
  by rewrite Nat2Z.id, list_lookup_middle.
Qed.

Lemma store_mid pre b post v i : i = zlen pre ->
  store (pre ++ b :: post) i v = Ret (pre ++ v :: post).
Proof.
  intros ->. unfold store. rewrite zlen_app. pose proof (zlen_nonneg post).
  assert (zlen (b :: post) = 1 + zlen post) as -> by (unfold zlen; simpl; lia).
  pose proof (zlen_nonneg pre).
  destruct (Z.leb_spec 0 (zlen pre)), (Z.ltb_spec (zlen pre) (zlen pre + (1 + zlen post))); try lia.
  simpl. f_equal. unfold zlen. rewrite Nat2Z.id, insert_app_r_alt, Nat.sub_diag by lia. done.
Qed.

Lemma store_head b post v i : i = 0 -> store (b :: post) i v = Ret (v :: post).
Proof. apply (store_mid []). Qed.

Lemma fetch_n_ok mem i n : 0 <= i -> 0 <= n -> i + n <= zlen mem ->
  fetch_n mem i n = Ret (zslice i n mem).
Proof.
  intros. unfold fetch_n.
  destruct (Z.leb_spec 0 i), (Z.leb_spec 0 n), (Z.leb_spec (i + n) (zlen mem)); try lia. done.
Qed.

Lemma store_n_ok mem i d : 0 <= i -> i + zlen d <= zlen mem ->
  store_n mem i d = Ret (zwrite i d mem).
Proof.
  intros. unfold store_n.
  destruct (Z.leb_spec 0 i), (Z.leb_spec (i + zlen d) (zlen mem)); try lia. done.
Qed.

Lemma store_ok mem i v : 0 <= i < zlen mem -> store mem i v = Ret (<[Z.to_nat i := v]> mem).
Proof.
  intros. unfold store. destruct (Z.leb_spec 0 i), (Z.ltb_spec i (zlen mem)); try lia. done.
Qed.

Lemma fetch_ok mem i : 0 <= i < zlen mem -> exists c, mem !! Z.to_nat i = Some c /\ fetch mem i = Ret c.
Proof.
  intros Hi. unfold fetch, zlen in *.
  destruct (lookup_lt_is_Some_2 mem (Z.to_nat i)) as [c Hc]; [lia|]. exists c.
  destruct (Z.leb_spec 0 i); [|lia]. by rewrite Hc.
Qed.

Lemma zslice_0_app w rest : zslice 0 (zlen w) (w ++ rest) = w.
Proof. unfold zslice, zlen. rewrite Nat2Z.id. by rewrite drop_0, take_app_length. Qed.

Lemma assert_true `{MbConfig} {A} (b : bool) (k : mres A) : b = true -> DEBUGASSERT b k = k.
Proof. intros ->. unfold DEBUGASSERT. by rewrite andb_false_r. Qed.

(** ** Views of the state *)

(** What the frame layers own: everything but the device buffers and the inputs. *)
Definition core (s : mbs) := (ev s, tm s, ticks (env s), ucRTUBuf s, rtu s, asc s).

(** The environment with another number of clock readings. *)
Definition tick_to (e : world) (n : nat) : world := mkWorld (sel_in e) (wr_in e) n (line e).

Definition rxpos_to (v : serial_vars) (p : Z) : serial_vars :=
  mkSerial (iSerialFd v) (bRxEnabled v) (bTxEnabled v) (ulTimeoutMs v) (ucBuffer v) p
    (uiTxBufferPos v).

Definition put_byte (v : serial_vars) (b : Z) : serial_vars :=
  mkSerial (iSerialFd v) (bRxEnabled v) (bTxEnabled v) (ulTimeoutMs v)
    (<[Z.to_nat (uiTxBufferPos v) := b]> (ucBuffer v)) (uiRxBufferPos v) (uiTxBufferPos v + 1).

(** The serial variables between two frames: listening, nothing buffered. *)
Definition listening (v : serial_vars) : Prop :=
  bRxEnabled v = true /\ bTxEnabled v = false /\ uiRxBufferPos v = 0 /\
  length (ucBuffer v) = 513%nat.

Lemma get_byte `{MbConfig} s b : uiRxBufferPos (ser s) < 513 ->
  fetch (ucBuffer (ser s)) (uiRxBufferPos (ser s)) = Ret b ->
  xMBPortSerialGetByte s = Ret (b, set_ser s (rxpos_to (ser s) (uiRxBufferPos (ser s) + 1))).
Proof.
  intros Hp Hb. unfold xMBPortSerialGetByte. rewrite assert_true by (apply Z.ltb_lt; done).
  by rewrite Hb.
Qed.

Lemma put_byte_ok `{MbConfig} s b : is_byte b ->
  0 <= uiTxBufferPos (ser s) < 513 -> length (ucBuffer (ser s)) = 513%nat ->
  xMBPortSerialPutByte b s = Ret (set_ser s (put_byte (ser s) b)).
Proof.
  intros Hb Hp Hl. unfold xMBPortSerialPutByte, put_byte.
  rewrite assert_true by (apply Z.ltb_lt; unfold BUF_SIZE; lia).
  rewrite u8_small, store_ok by (done || unfold zlen; lia). done.
Qed.

Lemma enable_ok `{MbConfig} rx tx s : negb rx || negb tx = true ->
  vMBPortSerialEnable rx tx s = Ret (set_ser s
    (mkSerial (iSerialFd (ser s)) rx tx (ulTimeoutMs (ser s)) (ucBuffer (ser s))
       (if rx then 0 else uiRxBufferPos (ser s)) (if tx then 0 else uiTxBufferPos (ser s)))).
Proof. intros E. unfold vMBPortSerialEnable. by rewrite assert_true. Qed.

Lemma timers_enable `{MbConfig} `{Clock} s t : clock (ticks (env s)) = Some t ->
  vMBPortTimersEnable s =
  Ret (set_tm (set_env s (tick_to (env s) (S (ticks (env s))))) (mkTimer (ulTimeOut (tm s)) true t)).
Proof. intros E. unfold vMBPortTimersEnable, gettimeofday. rewrite E. by rewrite assert_true. Qed.

(** ** Receiving *)

Section receiving.
Context `{MbConfig} `{Clock}.
Variable fsm : mbs -> mres (bool * mbs).
(** [J w s]: the machine in state [s] accepts the bytes [w]. *)
Variable J : list Z -> mbs -> Prop.
Hypothesis J_core : forall w s s', core s = core s' -> J w s -> J w s'.
Hypothesis J_step : forall b w s, J (b :: w) s -> uiRxBufferPos (ser s) < 513 ->
  fetch (ucBuffer (ser s)) (uiRxBufferPos (ser s)) = Ret b ->
  exists x s', fsm s = Ret (x, s') /\ J w s' /\
    ser s' = rxpos_to (ser s) (uiRxBufferPos (ser s) + 1) /\
    env s' = tick_to (env s) (ticks (env s')).

Lemma receive_bytes_J l : forall w s pre post, J (l ++ w) s ->
  ucBuffer (ser s) = pre ++ l ++ post -> length (pre ++ l ++ post) = 513%nat ->
  uiRxBufferPos (ser s) = zlen pre ->
  exists s', receive_bytes fsm (length l) s = Ret s' /\ J w s' /\
    ser s' = rxpos_to (ser s) (zlen (pre ++ l)) /\ env s' = tick_to (env s) (ticks (env s')).
Proof using J_step.
  induction l as [|b l IH]; intros w s pre post HJ Hbuf Hlen Hpos.
  - exists s. repeat split; try done; rewrite ?app_nil_r, <- ?Hpos; by destruct s as [? ? [] []].
  - destruct (J_step b (l ++ w) s) as (x & s1 & E & HJ1 & Hser & Henv); [done|..].
    + rewrite !length_app in Hlen. simpl in Hlen. unfold zlen in Hpos. lia.
    + rewrite Hbuf. by apply fetch_mid.
    + destruct (IH w s1 (pre ++ [b]) post) as (s2 & E2 & HJ2 & Hser2 & Henv2); [done|..].
      * rewrite Hser. simpl. rewrite Hbuf. by rewrite <- (assoc_L (++)).
      * by rewrite <- (assoc_L (++)).
      * rewrite Hser. simpl. rewrite Hpos, zlen_app. done.
      * exists s2. simpl. rewrite E. simpl. split; [done|]. split; [done|].
        rewrite Hser2, Hser, Henv2, Henv. rewrite <- (assoc_L (++)). done.
Qed.

(** The pieces of a frame, then a time-out. *)
Definition pieces (l : list (list Z)) (rest : list sel) : list sel :=
  (SelRead <$> l) ++ SelTimeout :: rest.

Definition piece_ok (c : list Z) : Prop := c <> [] /\ (length c <= 513)%nat.

Definition with_inputs (s : mbs) (i : list sel) (b : list Z) : mbs :=
  set_ser (set_env s (mkWorld i (wr_in (env s)) (ticks (env s)) (line (env s))))
    (mkSerial (iSerialFd (ser s)) (bRxEnabled (ser s)) (bTxEnabled (ser s)) (ulTimeoutMs (ser s))
       b (uiRxBufferPos (ser s)) (uiTxBufferPos (ser s))).

Lemma read_piece s c i : sel_in (env s) = SelRead c :: i -> (length c <= 513)%nat ->
  read_buffer s = (Some (length c), with_inputs s i (zwrite 0 c (ucBuffer (ser s)))).
Proof using Type.
  intros E Hc. unfold read_buffer. rewrite E. simpl. rewrite take_ge by done. done.
Qed.

Lemma rx_loop_J cs : forall s rest fuel, J (concat cs) s -> Forall piece_ok cs ->
  sel_in (env s) = pieces cs rest -> listening (ser s) -> (length cs < fuel)%nat ->
  exists s', rx_loop fsm fuel true s = Ret (true, s') /\ J [] s' /\ listening (ser s') /\
    sel_in (env s') = rest /\ wr_in (env s') = wr_in (env s) /\ line (env s') = line (env s).
Proof using J_step J_core.
  induction cs as [|c cs IH]; intros s rest fuel HJ Hok Hsel (Hrx & Htx & Hpos & Hlen) Hfuel.
  - destruct fuel as [|fuel]; [simpl in Hfuel; lia|]. cbn [rx_loop]. rewrite Hrx.
    unfold read_buffer. rewrite Hsel. cbn. rewrite zwrite_nil.
    eexists. split; [done|]. split; [by apply (J_core _ s)|]. done.
  - destruct fuel as [|fuel]; [simpl in Hfuel; lia|]. cbn [rx_loop]. rewrite Hrx.
    inv_Forall. destruct H1 as [Hne Hc].
    rewrite (read_piece s c (pieces cs rest)) by done.
    destruct c as [|b c']; [done|]. set (c := b :: c') in *. change (length c) with (S (length c')).
    cbv iota. change (S (length c')) with (length c).
    set (s1 := with_inputs s (pieces cs rest) (zwrite 0 c (ucBuffer (ser s)))).
    destruct (receive_bytes_J c (concat cs) s1 [] (drop (length c) (ucBuffer (ser s))))
      as (s2 & E2 & HJ2 & Hser2 & Henv2).
    + by apply (J_core _ s).
    + simpl. by rewrite zwrite_0 by lia.
    + rewrite !length_app, length_drop, Hlen. cbn [length]. lia.
    + done.
    + rewrite E2. cbn [mbind mres_bind].
      destruct (IH (set_rxpos s2 0) rest fuel) as (s3 & E3 & HJ3 & Hl3 & Hi3 & Hw3 & Ho3).
      * by apply (J_core _ s2).
      * done.
      * simpl. by rewrite Henv2.
      * simpl. rewrite Hser2. unfold listening. simpl. rewrite length_zwrite. done.
      * simpl in Hfuel. lia.
      * exists s3. repeat (split; [done|]). rewrite Hw3, Ho3. simpl. by rewrite Henv2.
Qed.

End receiving.

(** ** Transmitting *)

Section transmitting.
Context `{MbConfig}.
Variable fsm : mbs -> mres (bool * mbs).
(** [K w s]: the machine has the bytes [w] left; [Q]: it has finished. *)
Variable K : list Z -> mbs -> Prop.
Variable Q : mbs -> Prop.

Definition tx_done (v : serial_vars) : serial_vars :=
  mkSerial (iSerialFd v) true false (ulTimeoutMs v) (ucBuffer v) 0 (uiTxBufferPos v).

Hypothesis K_step : forall b w s, K (b :: w) s -> 0 <= uiTxBufferPos (ser s) < 513 ->
  length (ucBuffer (ser s)) = 513%nat ->
  exists x s', fsm s = Ret (x, s') /\ K w s' /\ ser s' = put_byte (ser s) b /\ env s' = env s.
Hypothesis K_last : forall s, K [] s ->
  exists x s', fsm s = Ret (x, s') /\ Q s' /\ ser s' = tx_done (ser s) /\ env s' = env s.

Lemma tx_loop_K w : forall s sent post fuel, K w s -> bTxEnabled (ser s) = true ->
  ucBuffer (ser s) = sent ++ post -> length (sent ++ post) = 513%nat ->
  uiTxBufferPos (ser s) = zlen sent -> (length w <= length post)%nat -> (length w < fuel)%nat ->
  exists s', tx_loop fsm fuel s = Ret s' /\ Q s' /\ listening (ser s') /\
    take (Z.to_nat (uiTxBufferPos (ser s'))) (ucBuffer (ser s')) = sent ++ w /\
    uiTxBufferPos (ser s') = zlen (sent ++ w) /\ env s' = env s.
Proof using K_step K_last.
  induction w as [|b w IH]; intros s sent post fuel HK Htx Hbuf Hlen Hpos Hw Hfuel.
  - destruct fuel as [|fuel]; [simpl in Hfuel; lia|]. cbn [tx_loop]. rewrite Htx.
    destruct (K_last s HK) as (x & s' & E & HQ & Hser & Henv). rewrite E. cbn [mbind mres_bind].
    exists s'. rewrite Hser, app_nil_r. split; [by destruct fuel; simpl; rewrite Hser|].
    split; [done|]. unfold listening. simpl. rewrite Hbuf, Hpos.
    unfold zlen. rewrite Nat2Z.id, take_app_length. done.
  - destruct fuel as [|fuel]; [simpl in Hfuel; lia|]. cbn [tx_loop]. rewrite Htx.
    destruct post as [|b0 post]; [simpl in Hw; lia|].
    destruct (K_step b w s) as (x & s1 & E & HK1 & Hser & Henv); [done|..].
    { rewrite length_app in Hlen. simpl in Hlen. unfold zlen in Hpos. lia. }
    { by rewrite Hbuf. }
    rewrite E. cbn [mbind mres_bind].
    assert (ucBuffer (ser s1) = (sent ++ [b]) ++ post) as Hbuf1.
    { rewrite Hser. simpl. rewrite Hbuf, Hpos. unfold zlen. rewrite Nat2Z.id.
      rewrite insert_app_r_alt, Nat.sub_diag by lia. by rewrite <- (assoc_L (++)). }
    destruct (IH s1 (sent ++ [b]) post fuel) as (s2 & E2 & R); [done|by rewrite Hser|done|..].
    { rewrite !length_app in *. simpl in *. lia. }
    { rewrite Hser. simpl. rewrite Hpos, zlen_app. done. }
    { simpl in Hw. lia. } { simpl in Hfuel. lia. }
    exists s2. rewrite E2. rewrite <- (assoc_L (++)), Henv in R. done.
Qed.

End transmitting.
