(* ===== verification/MbRtu.v ===== *)
(** * MbRtu: the RTU frame layer

    [src/modbus/rtu/mbrtu.c]: the receive and transmit state machines over the 256-byte frame
    buffer, and the functions that take a received frame out of it and start sending one. *)

From stdpp Require Import strings.
From S2P Require Import Prelude MbCrc MbPort.
#[local] Open Scope Z_scope.

Definition MB_SER_PDU_SIZE_MIN : Z := 4.
Definition MB_SER_PDU_SIZE_MAX : Z := 256.
Definition MB_SER_PDU_SIZE_CRC : Z := 2.
Definition MB_SER_PDU_ADDR_OFF : Z := 0.
Definition MB_SER_PDU_PDU_OFF : Z := 1.

(** Field updates. *)
Definition rtu_rcv_to (s : mbs) (x : rtu_rcv) : mbs :=
  let r := rtu s in set_rtu s (mkRtu (r_snd r) x (r_cur r) (r_count r) (r_pos r)).
Definition rtu_snd_to (s : mbs) (x : rtu_snd) : mbs :=
  let r := rtu s in set_rtu s (mkRtu x (r_rcv r) (r_cur r) (r_count r) (r_pos r)).
Definition rtu_cur_to (s : mbs) (p n : Z) : mbs :=
  let r := rtu s in set_rtu s (mkRtu (r_snd r) (r_rcv r) p n (r_pos r)).
Definition rtu_pos_to (s : mbs) (p : Z) : mbs :=
  let r := rtu s in set_rtu s (mkRtu (r_snd r) (r_rcv r) (r_cur r) (r_count r) p).

Section rtu.
Context `{MbConfig} `{Clock}.

Definition rx_state_is (x y : rtu_rcv) : bool :=
  match x, y with
  | RX_INIT, RX_INIT | RX_IDLE, RX_IDLE | RX_RCV, RX_RCV | RX_ERROR, RX_ERROR => true
  | _, _ => false
  end.

Definition eMBRTUInit (t : tty) (ulBaudRate : Z) (eParity : eMBParity) (s : mbs) :
    mres (eMBErrorCode * mbs) :=
  '(ok, s) ← xMBPortSerialInit t 8 eParity s;
  if negb ok then Ret (MB_EPORTERR, s)
  else
    let usTimerT35_50us :=
      if 19200 <? ulBaudRate then 35 else u32 ((7 * 220000) / (2 * ulBaudRate)) in
    let '(ok, s) := xMBPortTimersInit (u16 usTimerT35_50us) s in
    Ret (if negb ok then MB_EPORTERR else MB_ENOERR, s).

Definition eMBRTUStart (s : mbs) : mres mbs :=
  s ← vMBPortSerialEnable true false (rtu_rcv_to s RX_INIT);
  vMBPortTimersEnable s.

Definition eMBRTUStop (s : mbs) : mres mbs :=
  s ← vMBPortSerialEnable false false s;
  Ret (vMBPortTimersDisable s).

(** The address, the frame as an index into [ucRTUBuf] and the length, or [MB_EIO]. *)
Definition eMBRTUReceive (s : mbs) : mres (eMBErrorCode * option (Z * Z * Z)) :=
  DEBUGASSERT (r_pos (rtu s) <? MB_SER_PDU_SIZE_MAX)
    (if MB_SER_PDU_SIZE_MIN <=? r_pos (rtu s) then
       l ← fetch_n (ucRTUBuf s) 0 (r_pos (rtu s));
       if usMBCRC16 l =? 0 then
         pucRcvAddress ← fetch (ucRTUBuf s) MB_SER_PDU_ADDR_OFF;
         Ret (MB_ENOERR, Some (pucRcvAddress, MB_SER_PDU_PDU_OFF,
           u16 (r_pos (rtu s) - MB_SER_PDU_PDU_OFF - MB_SER_PDU_SIZE_CRC)))
       else Ret (MB_EIO, None)
     else Ret (MB_EIO, None)).

Definition eMBRTUSend (ucSlaveAddress pucFrame usLength : Z) (s : mbs) :
    mres (eMBErrorCode * mbs) :=
  if rx_state_is (r_rcv (rtu s)) RX_IDLE then
    let cur := pucFrame - 1 in
    b ← store (ucRTUBuf s) (cur + MB_SER_PDU_ADDR_OFF) ucSlaveAddress;
    let count := u16 (1 + usLength) in
    l ← fetch_n b cur count;
    let usCRC16 := usMBCRC16 l in
    b ← store b count (Z.land usCRC16 0xff);
    b ← store b (u16 (count + 1)) (Z.shiftr usCRC16 8);
    let s := rtu_cur_to (set_buf s b) cur (u16 (u16 (count + 1) + 1)) in
    s ← vMBPortSerialEnable false true (rtu_snd_to s TX_XMIT);
    Ret (MB_ENOERR, s)
  else Ret (MB_EIO, s).

Definition snd_idle (s : mbs) : bool :=
  match r_snd (rtu s) with TX_IDLE => true | TX_XMIT => false end.

Definition xMBRTUReceiveFSM (s : mbs) : mres (bool * mbs) :=
  DEBUGASSERT (snd_idle s)
    ('(ucByte, s) ← xMBPortSerialGetByte s;
     match r_rcv (rtu s) with
     | RX_INIT | RX_ERROR => s ← vMBPortTimersEnable s; Ret (false, s)
     | RX_IDLE =>
         b ← store (ucRTUBuf s) 0 ucByte;
         s ← vMBPortTimersEnable (rtu_rcv_to (rtu_pos_to (set_buf s b) 1) RX_RCV);
         Ret (false, s)
     | RX_RCV =>
         s ← (if r_pos (rtu s) <? MB_SER_PDU_SIZE_MAX then
                b ← store (ucRTUBuf s) (r_pos (rtu s)) ucByte;
                Ret (rtu_pos_to (set_buf s b) (u16 (r_pos (rtu s) + 1)))
              else Ret (rtu_rcv_to s RX_ERROR));
         s ← vMBPortTimersEnable s;
         Ret (false, s)
     end).

Definition xMBRTUTransmitFSM (s : mbs) : mres (bool * mbs) :=
  DEBUGASSERT (rx_state_is (r_rcv (rtu s)) RX_IDLE)
    match r_snd (rtu s) with
    | TX_IDLE => s ← vMBPortSerialEnable true false s; Ret (false, s)
    | TX_XMIT =>
        if negb (r_count (rtu s) =? 0) then
          c ← fetch (ucRTUBuf s) (r_cur (rtu s));
          s ← xMBPortSerialPutByte c s;
          Ret (false, rtu_cur_to s (r_cur (rtu s) + 1) (r_count (rtu s) - 1))
        else
          let '(xNeedPoll, s) := xMBPortEventPost EV_FRAME_SENT s in
          s ← vMBPortSerialEnable true false s;
          Ret (xNeedPoll, rtu_snd_to s TX_IDLE)
    end.

Definition xMBRTUTimerT35Expired (s : mbs) : mres (bool * mbs) :=
  '(xNeedPoll, s) ← match r_rcv (rtu s) with
                    | RX_INIT => Ret (xMBPortEventPost EV_READY s)
                    | RX_RCV => Ret (xMBPortEventPost EV_FRAME_RECEIVED s)
                    | RX_ERROR => Ret (false, s)
                    | RX_IDLE => DEBUGASSERT false (Ret (false, s))
                    end;
  Ret (xNeedPoll, rtu_rcv_to (vMBPortTimersDisable s) RX_IDLE).

End rtu.
