(* ===== verification/MbAscii.v ===== *)
(** * MbAscii: the ASCII frame layer

    [src/modbus/ascii/mbascii.c]: frames as hexadecimal characters between a colon and CR LF,
    with a one-byte checksum, in the frame buffer it shares with the RTU layer. *)

From stdpp Require Import strings.
From S2P Require Import Prelude MbPort.
#[local] Open Scope Z_scope.

Definition MB_ASCII_DEFAULT_CR : Z := 13.
Definition MB_ASCII_DEFAULT_LF : Z := 10.
Definition ASCII_COLON : Z := 58.
Definition ASCII_PDU_SIZE_MIN : Z := 3.
Definition ASCII_PDU_SIZE_MAX : Z := 256.
Definition ASCII_PDU_SIZE_LRC : Z := 1.

(** Field updates. *)
Definition asc_rcv_to (s : mbs) (x : ascii_rcv) : mbs :=
  let a := asc s in
  set_asc s (mkAscii (a_snd a) x (a_pos a) (a_bytepos a) (a_cur a) (a_count a) (a_lf a)).
Definition asc_snd_to (s : mbs) (x : ascii_snd) : mbs :=
  let a := asc s in
  set_asc s (mkAscii x (a_rcv a) (a_pos a) (a_bytepos a) (a_cur a) (a_count a) (a_lf a)).
Definition asc_pos_to (s : mbs) (p : Z) : mbs :=
  let a := asc s in
  set_asc s (mkAscii (a_snd a) (a_rcv a) p (a_bytepos a) (a_cur a) (a_count a) (a_lf a)).
Definition asc_nib_to (s : mbs) (x : eMBBytePos) : mbs :=
  let a := asc s in
  set_asc s (mkAscii (a_snd a) (a_rcv a) (a_pos a) x (a_cur a) (a_count a) (a_lf a)).
Definition asc_cur_to (s : mbs) (p n : Z) : mbs :=
  let a := asc s in
  set_asc s (mkAscii (a_snd a) (a_rcv a) (a_pos a) (a_bytepos a) p n (a_lf a)).
Definition asc_lf_to (s : mbs) (c : Z) : mbs :=
  let a := asc s in
  set_asc s (mkAscii (a_snd a) (a_rcv a) (a_pos a) (a_bytepos a) (a_cur a) (a_count a) c).

(** ** Characters and checksum *)

Definition prvucMBint8_t2BIN (ucCharacter : Z) : Z :=
  if (48 <=? ucCharacter) && (ucCharacter <=? 57) then u8 (ucCharacter - 48)
  else if (65 <=? ucCharacter) && (ucCharacter <=? 70) then u8 (ucCharacter - 65 + 0x0a)
  else 0xff.

Definition prvucMBBIN2int8_t `{MbConfig} (ucByte : Z) : mres Z :=
  if ucByte <=? 0x09 then Ret (u8 (48 + ucByte))
  else if (0x0a <=? ucByte) && (ucByte <=? 0x0f) then Ret (u8 (ucByte - 0x0a + 65))
  else DEBUGASSERT false (Ret 48).

Definition prvucMBLRC (pucFrame : list Z) : Z :=
  u8 (- fold_left (fun ucLocalLRC b => u8 (ucLocalLRC + b)) pucFrame 0).

Section ascii.
Context `{MbConfig} `{Clock}.

Definition eMBASCIIInit (t : tty) (eParity : eMBParity) (s : mbs) : mres (eMBErrorCode * mbs) :=
  '(ok, s) ← xMBPortSerialInit t 7 eParity (asc_lf_to s MB_ASCII_DEFAULT_LF);
  if negb ok then Ret (MB_EPORTERR, s)
  else
    let '(ok, s) := xMBPortTimersInit (u16 (CONFIG_MB_ASCII_TIMEOUT_SEC * 20000)) s in
    Ret (if negb ok then MB_EPORTERR else MB_ENOERR, s).

Definition eMBASCIIStart (s : mbs) : mres mbs :=
  s ← vMBPortSerialEnable true false s;
  Ret (xMBPortEventPost EV_READY (asc_rcv_to s ARX_IDLE)).2.

Definition eMBASCIIStop (s : mbs) : mres mbs :=
  s ← vMBPortSerialEnable false false s;
  Ret (vMBPortTimersDisable s).

Definition eMBASCIIReceive (s : mbs) : mres (eMBErrorCode * option (Z * Z * Z)) :=
  DEBUGASSERT (a_pos (asc s) <? ASCII_PDU_SIZE_MAX)
    (if ASCII_PDU_SIZE_MIN <=? a_pos (asc s) then
       l ← fetch_n (ucRTUBuf s) 0 (a_pos (asc s));
       if prvucMBLRC l =? 0 then
         pucRcvAddress ← fetch (ucRTUBuf s) 0;
         Ret (MB_ENOERR, Some (pucRcvAddress, 1, u16 (a_pos (asc s) - 1 - ASCII_PDU_SIZE_LRC)))
       else Ret (MB_EIO, None)
     else Ret (MB_EIO, None)).

Definition asc_idle (s : mbs) : bool :=
  match a_rcv (asc s) with ARX_IDLE => true | _ => false end.

Definition eMBASCIISend (ucSlaveAddress pucFrame usLength : Z) (s : mbs) :
    mres (eMBErrorCode * mbs) :=
  if asc_idle s then
    let cur := pucFrame - 1 in
    b ← store (ucRTUBuf s) cur ucSlaveAddress;
    let count := u16 (1 + usLength) in
    l ← fetch_n b cur count;
    b ← store b count (prvucMBLRC l);
    let s := asc_cur_to (set_buf s b) cur (u16 (count + 1)) in
    s ← vMBPortSerialEnable false true (asc_snd_to s ATX_START);
    Ret (MB_ENOERR, s)
  else Ret (MB_EIO, s).

Definition asc_snd_idle (s : mbs) : bool :=
  match a_snd (asc s) with ATX_IDLE => true | _ => false end.

(** The branch of a data character in [STATE_RX_RCV]. *)
Definition ascii_data (ucByte : Z) (s : mbs) : mres mbs :=
  let ucResult := prvucMBint8_t2BIN ucByte in
  match a_bytepos (asc s) with
  | BYTE_HIGH_NIBBLE =>
      if a_pos (asc s) <? ASCII_PDU_SIZE_MAX then
        b ← store (ucRTUBuf s) (a_pos (asc s)) (u8 (Z.shiftl ucResult 4));
        Ret (asc_nib_to (set_buf s b) BYTE_LOW_NIBBLE)
      else Ret (vMBPortTimersDisable (asc_rcv_to s ARX_IDLE))
  | BYTE_LOW_NIBBLE =>
      c ← fetch (ucRTUBuf s) (a_pos (asc s));
      b ← store (ucRTUBuf s) (a_pos (asc s)) (u8 (Z.lor c ucResult));
      Ret (asc_nib_to (asc_pos_to (set_buf s b) (u16 (a_pos (asc s) + 1))) BYTE_HIGH_NIBBLE)
  end.

Definition xMBASCIIReceiveFSM (s : mbs) : mres (bool * mbs) :=
  DEBUGASSERT (asc_snd_idle s)
    ('(ucByte, s) ← xMBPortSerialGetByte s;
     match a_rcv (asc s) with
     | ARX_RCV =>
         s ← vMBPortTimersEnable s;
         if ucByte =? ASCII_COLON then Ret (false, asc_pos_to (asc_nib_to s BYTE_HIGH_NIBBLE) 0)
         else if ucByte =? MB_ASCII_DEFAULT_CR then Ret (false, asc_rcv_to s ARX_WAIT_EOF)
         else s ← ascii_data ucByte s; Ret (false, s)
     | ARX_WAIT_EOF =>
         if ucByte =? a_lf (asc s) then
           Ret (xMBPortEventPost EV_FRAME_RECEIVED (asc_rcv_to (vMBPortTimersDisable s) ARX_IDLE))
         else if ucByte =? ASCII_COLON then
           s ← vMBPortTimersEnable (asc_rcv_to (asc_pos_to (asc_nib_to s BYTE_HIGH_NIBBLE) 0) ARX_RCV);
           Ret (false, s)
         else Ret (false, asc_rcv_to s ARX_IDLE)
     | ARX_IDLE =>
         if ucByte =? ASCII_COLON then
           s ← vMBPortTimersEnable s;
           Ret (false, asc_rcv_to (asc_nib_to (asc_pos_to s 0) BYTE_HIGH_NIBBLE) ARX_RCV)
         else Ret (false, s)
     end).

Definition xMBASCIITransmitFSM (s : mbs) : mres (bool * mbs) :=
  DEBUGASSERT (asc_idle s)
    match a_snd (asc s) with
    | ATX_START =>
        s ← xMBPortSerialPutByte ASCII_COLON s;
        Ret (false, asc_nib_to (asc_snd_to s ATX_DATA) BYTE_HIGH_NIBBLE)
    | ATX_DATA =>
        if 0 <? a_count (asc s) then
          c ← fetch (ucRTUBuf s) (a_cur (asc s));
          match a_bytepos (asc s) with
          | BYTE_HIGH_NIBBLE =>
              ucByte ← prvucMBBIN2int8_t (Z.shiftr c 4);
              s ← xMBPortSerialPutByte ucByte s;
              Ret (false, asc_nib_to s BYTE_LOW_NIBBLE)
          | BYTE_LOW_NIBBLE =>
              ucByte ← prvucMBBIN2int8_t (Z.land c 0x0f);
              s ← xMBPortSerialPutByte ucByte s;
              Ret (false, asc_cur_to (asc_nib_to s BYTE_HIGH_NIBBLE)
                            (a_cur (asc s) + 1) (a_count (asc s) - 1))
          end
        else
          s ← xMBPortSerialPutByte MB_ASCII_DEFAULT_CR s;
          Ret (false, asc_snd_to s ATX_END)
    | ATX_END =>
        s ← xMBPortSerialPutByte (a_lf (asc s)) s;
        Ret (false, asc_snd_to s ATX_NOTIFY)
    | ATX_NOTIFY =>
        let '(xNeedPoll, s) := xMBPortEventPost EV_FRAME_SENT (asc_snd_to s ATX_IDLE) in
        s ← vMBPortSerialEnable true false s;
        Ret (xNeedPoll, asc_snd_to s ATX_IDLE)
    | ATX_IDLE => s ← vMBPortSerialEnable true false s; Ret (false, s)
    end.

Definition xMBASCIITimerT1SExpired (s : mbs) : mres (bool * mbs) :=
  s ← match a_rcv (asc s) with
      | ARX_RCV | ARX_WAIT_EOF => Ret (asc_rcv_to s ARX_IDLE)
      | ARX_IDLE => DEBUGASSERT false (Ret s)
      end;
  Ret (false, vMBPortTimersDisable s).

End ascii.
