(* ===== verification/MbFunc.v ===== *)
(** * MbFunc: the Modbus function handlers

    [src/modbus/functions/]: the ten handlers of the slave, the bit utilities and the slave
    identification.  A handler works in place on the frame buffer: it gets the buffer, the
    index of the function code in it and the length of the request, and leaves the reply and
    its length there.  The application supplies the registers and coils through callbacks
    ([App]); what a callback writes through the buffer pointer is its second result. *)

From stdpp Require Import strings.
From S2P Require Import Prelude MbPort.
#[local] Open Scope Z_scope.

Definition MB_PDU_SIZE_MAX : Z := 253.
Definition MB_PDU_SIZE_MIN : Z := 1.
Definition MB_PDU_FUNC_OFF : Z := 0.
Definition MB_PDU_DATA_OFF : Z := 1.

Definition MB_FUNC_READ_COILS : Z := 1.
Definition MB_FUNC_READ_DISCRETE_INPUTS : Z := 2.
Definition MB_FUNC_READ_HOLDING_REGISTER : Z := 3.
Definition MB_FUNC_READ_INPUT_REGISTER : Z := 4.
Definition MB_FUNC_WRITE_SINGLE_COIL : Z := 5.
Definition MB_FUNC_WRITE_REGISTER : Z := 6.
Definition MB_FUNC_WRITE_MULTIPLE_COILS : Z := 15.
Definition MB_FUNC_WRITE_MULTIPLE_REGISTERS : Z := 16.
Definition MB_FUNC_OTHER_REPORT_SLAVEID : Z := 17.
Definition MB_FUNC_READWRITE_MULTIPLE_REGISTERS : Z := 23.
Definition MB_FUNC_ERROR : Z := 128.

Inductive eMBException :=
| MB_EX_NONE | MB_EX_ILLEGAL_FUNCTION | MB_EX_ILLEGAL_DATA_ADDRESS | MB_EX_ILLEGAL_DATA_VALUE
| MB_EX_SLAVE_DEVICE_FAILURE | MB_EX_ACKNOWLEDGE | MB_EX_SLAVE_BUSY | MB_EX_MEMORY_PARITY_ERROR
| MB_EX_GATEWAY_PATH_FAILED | MB_EX_GATEWAY_TGT_FAILED.
#[export] Instance eMBException_dec : EqDecision eMBException.
Proof. solve_decision. Defined.

(** The value of the enumeration constant. *)
Definition exception_code (e : eMBException) : Z :=
  match e with
  | MB_EX_NONE => 0x00 | MB_EX_ILLEGAL_FUNCTION => 0x01 | MB_EX_ILLEGAL_DATA_ADDRESS => 0x02
  | MB_EX_ILLEGAL_DATA_VALUE => 0x03 | MB_EX_SLAVE_DEVICE_FAILURE => 0x04
  | MB_EX_ACKNOWLEDGE => 0x05 | MB_EX_SLAVE_BUSY => 0x06 | MB_EX_MEMORY_PARITY_ERROR => 0x08
  | MB_EX_GATEWAY_PATH_FAILED => 0x0a | MB_EX_GATEWAY_TGT_FAILED => 0x0b
  end.

(** ** [mbutils.c] *)

Definition prveMBError2Exception (eErrorCode : eMBErrorCode) : eMBException :=
  match eErrorCode with
  | MB_ENOERR => MB_EX_NONE
  | MB_ENOREG => MB_EX_ILLEGAL_DATA_ADDRESS
  | MB_ETIMEDOUT => MB_EX_SLAVE_BUSY
  | _ => MB_EX_SLAVE_DEVICE_FAILURE
  end.

Definition xMBUtilSetBits `{MbConfig} (ucByteBuf : list Z) (usBitOffset ucNBits ucValue : Z) :
    mres (list Z) :=
  DEBUGASSERT (ucNBits <=? 8)
    (let usByteOffset := u16 (usBitOffset / 8) in
     let usNPreBits := u16 (usBitOffset - usByteOffset * 8) in
     let usValue := u16 (Z.shiftl ucValue usNPreBits) in
     let usMask := u16 (Z.shiftl 1 ucNBits - 1) in
     let usMask := u16 (Z.shiftl usMask (usBitOffset - usByteOffset * 8)) in
     b0 ← fetch ucByteBuf usByteOffset;
     b1 ← fetch ucByteBuf (usByteOffset + 1);
     let usWordBuf := u16 (Z.lor b0 (Z.shiftl b1 8)) in
     let usWordBuf := u16 (Z.lor (Z.land usWordBuf (Z.lnot usMask)) usValue) in
     l ← store ucByteBuf usByteOffset (u8 (Z.land usWordBuf 0xff));
     store l (usByteOffset + 1) (u8 (Z.shiftr usWordBuf 8))).

Definition xMBUtilGetBits (ucByteBuf : list Z) (usBitOffset ucNBits : Z) : mres Z :=
  let usByteOffset := u16 (usBitOffset / 8) in
  let usNPreBits := u16 (usBitOffset - usByteOffset * 8) in
  let usMask := u16 (Z.shiftl 1 ucNBits - 1) in
  b0 ← fetch ucByteBuf usByteOffset;
  b1 ← fetch ucByteBuf (usByteOffset + 1);
  let usWordBuf := u16 (Z.lor b0 (Z.shiftl b1 8)) in
  let usWordBuf := Z.shiftr usWordBuf usNPreBits in
  Ret (u8 (Z.land usWordBuf usMask)).

(** ** The application *)

(** The register callbacks.  Reading: the code returned and the bytes written to the buffer.
    Writing: the bytes of the buffer are an argument. *)
Class App (A : Type) := {
  eMBRegInputCB : A -> Z -> Z -> eMBErrorCode * list Z * A;
  eMBRegHoldingCB_read : A -> Z -> Z -> eMBErrorCode * list Z * A;
  eMBRegHoldingCB_write : A -> list Z -> Z -> Z -> eMBErrorCode * A;
  eMBRegCoilsCB_read : A -> Z -> Z -> eMBErrorCode * list Z * A;
  eMBRegCoilsCB_write : A -> list Z -> Z -> Z -> eMBErrorCode * A;
  eMBRegDiscreteCB : A -> Z -> Z -> eMBErrorCode * list Z * A;
}.

(** Bytes of [n] coils. *)
Definition coil_bytes (n : Z) : Z :=
  u8 (if negb (Z.land n 0x0007 =? 0) then n / 8 + 1 else n / 8).

(** [(uint16_t)(pucFrame[o] << 8) | pucFrame[o + 1]] *)
Definition frame16 (b : list Z) (i : Z) : mres Z :=
  h ← fetch b i;
  l ← fetch b (i + 1);
  Ret (Z.lor (u16 (Z.shiftl h 8)) l).

(** The slave identification of [mbfuncother.c]. *)
Record slave_id := mkSlaveId { ucMBSlaveID : list Z; usMBSlaveIDLen : Z }.

Definition eMBSetSlaveID `{MbConfig} (ucSlaveID : Z) (xIsRunning : bool) (pucAdditional : list Z)
    (d : slave_id) : mres (eMBErrorCode * slave_id) :=
  let usAdditionalLen := zlen pucAdditional in
  if usAdditionalLen + 2 <? CONFIG_MB_FUNC_OTHER_REP_SLAVEID_BUF then
    l ← store (ucMBSlaveID d) 0 ucSlaveID;
    l ← store l 1 (if xIsRunning then 0xff else 0x00);
    if 0 <? usAdditionalLen then
      l ← store_n l 2 pucAdditional;
      Ret (MB_ENOERR, mkSlaveId l (u16 (2 + usAdditionalLen)))
    else Ret (MB_ENOERR, mkSlaveId l 2)
  else Ret (MB_ENORES, d).

Section handlers.
Context `{MbConfig} {A : Type} `{App A}.

(** The result of a handler: exception, frame buffer, [*usLen], application. *)
Definition hres : Type := mres (eMBException * list Z * Z * A).

Definition eMBFuncReportSlaveID (d : slave_id) (b : list Z) (pucFrame usLen : Z) (a : A) : hres :=
  l ← fetch_n (ucMBSlaveID d) 0 (usMBSlaveIDLen d);
  b ← store_n b (pucFrame + MB_PDU_DATA_OFF) l;
  Ret (MB_EX_NONE, b, u16 (MB_PDU_DATA_OFF + usMBSlaveIDLen d), a).

Definition eMBFuncReadInputRegister (b : list Z) (pucFrame usLen : Z) (a : A) : hres :=
  if usLen =? 4 + MB_PDU_SIZE_MIN then
    usRegAddress ← frame16 b (pucFrame + MB_PDU_DATA_OFF);
    let usRegAddress := u16 (usRegAddress + 1) in
    usRegCount ← frame16 b (pucFrame + MB_PDU_DATA_OFF + 2);
    if (1 <=? usRegCount) && (usRegCount <? 0x007d) then
      b ← store b (pucFrame + MB_PDU_FUNC_OFF) MB_FUNC_READ_INPUT_REGISTER;
      b ← store b (pucFrame + 1) (u8 (usRegCount * 2));
      let '(eRegStatus, l, a) := eMBRegInputCB a usRegAddress usRegCount in
      b ← store_n b (pucFrame + 2) l;
      if bool_decide (eRegStatus = MB_ENOERR) then Ret (MB_EX_NONE, b, u16 (2 + usRegCount * 2), a)
      else Ret (prveMBError2Exception eRegStatus, b, 2, a)
    else Ret (MB_EX_ILLEGAL_DATA_VALUE, b, usLen, a)
  else Ret (MB_EX_ILLEGAL_DATA_VALUE, b, usLen, a).

Definition eMBFuncWriteHoldingRegister (b : list Z) (pucFrame usLen : Z) (a : A) : hres :=
  if usLen =? 4 + MB_PDU_SIZE_MIN then
    usRegAddress ← frame16 b (pucFrame + MB_PDU_DATA_OFF);
    let usRegAddress := u16 (usRegAddress + 1) in
    l ← fetch_n b (pucFrame + MB_PDU_DATA_OFF + 2) 2;
    let '(eRegStatus, a) := eMBRegHoldingCB_write a l usRegAddress 1 in
    Ret (prveMBError2Exception eRegStatus, b, usLen, a)
  else Ret (MB_EX_ILLEGAL_DATA_VALUE, b, usLen, a).

Definition eMBFuncWriteMultipleHoldingRegister (b : list Z) (pucFrame usLen : Z) (a : A) : hres :=
  if 5 + MB_PDU_SIZE_MIN <=? usLen then
    usRegAddress ← frame16 b (pucFrame + MB_PDU_DATA_OFF);
    let usRegAddress := u16 (usRegAddress + 1) in
    usRegCount ← frame16 b (pucFrame + MB_PDU_DATA_OFF + 2);
    ucRegByteCount ← fetch b (pucFrame + MB_PDU_DATA_OFF + 4);
    if (1 <=? usRegCount) && (usRegCount <=? 0x0078) && (ucRegByteCount =? u8 (2 * usRegCount)) then
      l ← fetch_n b (pucFrame + MB_PDU_DATA_OFF + 5) (2 * usRegCount);
      let '(eRegStatus, a) := eMBRegHoldingCB_write a l usRegAddress usRegCount in
      if bool_decide (eRegStatus = MB_ENOERR) then Ret (MB_EX_NONE, b, MB_PDU_DATA_OFF + 4, a)
      else Ret (prveMBError2Exception eRegStatus, b, usLen, a)
    else Ret (MB_EX_ILLEGAL_DATA_VALUE, b, usLen, a)
  else Ret (MB_EX_ILLEGAL_DATA_VALUE, b, usLen, a).

Definition eMBFuncReadHoldingRegister (b : list Z) (pucFrame usLen : Z) (a : A) : hres :=
  if usLen =? 4 + MB_PDU_SIZE_MIN then
    usRegAddress ← frame16 b (pucFrame + MB_PDU_DATA_OFF);
    let usRegAddress := u16 (usRegAddress + 1) in
    usRegCount ← frame16 b (pucFrame + MB_PDU_DATA_OFF + 2);
    if (1 <=? usRegCount) && (usRegCount <=? 0x007d) then
      b ← store b (pucFrame + MB_PDU_FUNC_OFF) MB_FUNC_READ_HOLDING_REGISTER;
      b ← store b (pucFrame + 1) (u8 (usRegCount * 2));
      let '(eRegStatus, l, a) := eMBRegHoldingCB_read a usRegAddress usRegCount in
      b ← store_n b (pucFrame + 2) l;
      if bool_decide (eRegStatus = MB_ENOERR) then Ret (MB_EX_NONE, b, u16 (2 + usRegCount * 2), a)
      else Ret (prveMBError2Exception eRegStatus, b, 2, a)
    else Ret (MB_EX_ILLEGAL_DATA_VALUE, b, usLen, a)
  else Ret (MB_EX_ILLEGAL_DATA_VALUE, b, usLen, a).

Definition eMBFuncReadWriteMultipleHoldingRegister (b : list Z) (pucFrame usLen : Z) (a : A) :
    hres :=
  if 9 + MB_PDU_SIZE_MIN <=? usLen then
    usRegReadAddress ← frame16 b (pucFrame + MB_PDU_DATA_OFF);
    let usRegReadAddress := u16 (usRegReadAddress + 1) in
    usRegReadCount ← frame16 b (pucFrame + MB_PDU_DATA_OFF + 2);
    usRegWriteAddress ← frame16 b (pucFrame + MB_PDU_DATA_OFF + 4);
    let usRegWriteAddress := u16 (usRegWriteAddress + 1) in
    usRegWriteCount ← frame16 b (pucFrame + MB_PDU_DATA_OFF + 6);
    ucRegWriteByteCount ← fetch b (pucFrame + MB_PDU_DATA_OFF + 8);
    if (1 <=? usRegReadCount) && (usRegReadCount <=? 0x7d) &&
       (1 <=? usRegWriteCount) && (usRegWriteCount <=? 0x79) &&
       (2 * usRegWriteCount =? ucRegWriteByteCount) then
      l ← fetch_n b (pucFrame + MB_PDU_DATA_OFF + 9) (2 * usRegWriteCount);
      let '(eRegStatus, a) := eMBRegHoldingCB_write a l usRegWriteAddress usRegWriteCount in
      if bool_decide (eRegStatus = MB_ENOERR) then
        b ← store b (pucFrame + MB_PDU_FUNC_OFF) MB_FUNC_READWRITE_MULTIPLE_REGISTERS;
        b ← store b (pucFrame + 1) (u8 (usRegReadCount * 2));
        let '(eRegStatus, l, a) := eMBRegHoldingCB_read a usRegReadAddress usRegReadCount in
        b ← store_n b (pucFrame + 2) l;
        if bool_decide (eRegStatus = MB_ENOERR) then
          Ret (MB_EX_NONE, b, u16 (2 + 2 * usRegReadCount), a)
        else Ret (prveMBError2Exception eRegStatus, b, 2, a)
      else Ret (prveMBError2Exception eRegStatus, b, usLen, a)
    else Ret (MB_EX_ILLEGAL_DATA_VALUE, b, usLen, a)
  else Ret (MB_EX_NONE, b, usLen, a).

Definition eMBFuncReadCoils (b : list Z) (pucFrame usLen : Z) (a : A) : hres :=
  if usLen =? 4 + MB_PDU_SIZE_MIN then
    usRegAddress ← frame16 b (pucFrame + MB_PDU_DATA_OFF);
    let usRegAddress := u16 (usRegAddress + 1) in
    usCoilCount ← frame16 b (pucFrame + MB_PDU_DATA_OFF + 2);
    if (1 <=? usCoilCount) && (usCoilCount <? 0x07d0) then
      b ← store b (pucFrame + MB_PDU_FUNC_OFF) MB_FUNC_READ_COILS;
      let ucNBytes := coil_bytes usCoilCount in
      b ← store b (pucFrame + 1) ucNBytes;
      let '(eRegStatus, l, a) := eMBRegCoilsCB_read a usRegAddress usCoilCount in
      b ← store_n b (pucFrame + 2) l;
      if bool_decide (eRegStatus = MB_ENOERR) then Ret (MB_EX_NONE, b, u16 (2 + ucNBytes), a)
      else Ret (prveMBError2Exception eRegStatus, b, 2, a)
    else Ret (MB_EX_ILLEGAL_DATA_VALUE, b, usLen, a)
  else Ret (MB_EX_ILLEGAL_DATA_VALUE, b, usLen, a).

Definition eMBFuncWriteCoil (b : list Z) (pucFrame usLen : Z) (a : A) : hres :=
  if usLen =? 4 + MB_PDU_SIZE_MIN then
    usRegAddress ← frame16 b (pucFrame + MB_PDU_DATA_OFF);
    let usRegAddress := u16 (usRegAddress + 1) in
    vh ← fetch b (pucFrame + MB_PDU_DATA_OFF + 2);
    vl ← fetch b (pucFrame + MB_PDU_DATA_OFF + 2 + 1);
    if (vl =? 0x00) && ((vh =? 0xff) || (vh =? 0x00)) then
      let ucBuf := [if vh =? 0xff then 1 else 0; 0] in
      let '(eRegStatus, a) := eMBRegCoilsCB_write a ucBuf usRegAddress 1 in
      Ret (prveMBError2Exception eRegStatus, b, usLen, a)
    else Ret (MB_EX_ILLEGAL_DATA_VALUE, b, usLen, a)
  else Ret (MB_EX_ILLEGAL_DATA_VALUE, b, usLen, a).

Definition eMBFuncWriteMultipleCoils (b : list Z) (pucFrame usLen : Z) (a : A) : hres :=
  if 4 + MB_PDU_SIZE_MIN <? usLen then
    usRegAddress ← frame16 b (pucFrame + MB_PDU_DATA_OFF);
    let usRegAddress := u16 (usRegAddress + 1) in
    usCoilCnt ← frame16 b (pucFrame + MB_PDU_DATA_OFF + 2);
    ucByteCount ← fetch b (pucFrame + MB_PDU_DATA_OFF + 4);
    let ucByteCountVerify := coil_bytes usCoilCnt in
    if (1 <=? usCoilCnt) && (usCoilCnt <=? 0x07b0) && (ucByteCountVerify =? ucByteCount) then
      l ← fetch_n b (pucFrame + MB_PDU_DATA_OFF + 5) ucByteCountVerify;
      let '(eRegStatus, a) := eMBRegCoilsCB_write a l usRegAddress usCoilCnt in
      if bool_decide (eRegStatus = MB_ENOERR) then Ret (MB_EX_NONE, b, MB_PDU_DATA_OFF + 4, a)
      else Ret (prveMBError2Exception eRegStatus, b, usLen, a)
    else Ret (MB_EX_ILLEGAL_DATA_VALUE, b, usLen, a)
  else Ret (MB_EX_ILLEGAL_DATA_VALUE, b, usLen, a).

Definition eMBFuncReadDiscreteInputs (b : list Z) (pucFrame usLen : Z) (a : A) : hres :=
  if usLen =? 4 + MB_PDU_SIZE_MIN then
    usRegAddress ← frame16 b (pucFrame + MB_PDU_DATA_OFF);
    let usRegAddress := u16 (usRegAddress + 1) in
    usDiscreteCnt ← frame16 b (pucFrame + MB_PDU_DATA_OFF + 2);
    if (1 <=? usDiscreteCnt) && (usDiscreteCnt <? 0x07d0) then
      b ← store b (pucFrame + MB_PDU_FUNC_OFF) MB_FUNC_READ_DISCRETE_INPUTS;
      let ucNBytes := coil_bytes usDiscreteCnt in
      b ← store b (pucFrame + 1) ucNBytes;
      let '(eRegStatus, l, a) := eMBRegDiscreteCB a usRegAddress usDiscreteCnt in
      b ← store_n b (pucFrame + 2) l;
      if bool_decide (eRegStatus = MB_ENOERR) then Ret (MB_EX_NONE, b, u16 (2 + ucNBytes), a)
      else Ret (prveMBError2Exception eRegStatus, b, 2, a)
    else Ret (MB_EX_ILLEGAL_DATA_VALUE, b, usLen, a)
  else Ret (MB_EX_ILLEGAL_DATA_VALUE, b, usLen, a).

End handlers.
