(* ===== verification/MbSpec.v ===== *)
(** * MbSpec: requests and replies of a Modbus slave

    The abstract specification of the function handlers: a PDU is parsed into a typed request,
    the request is served by the application, and the reply is a PDU.  No buffer, no lengths to
    keep, no reuse of the request bytes.  [MbReply] proves that the handlers implement it. *)

From stdpp Require Import strings.
From S2P Require Import Prelude MbPort MbFunc.
#[local] Open Scope Z_scope.

Inductive request :=
| RqReadCoils (addr n : Z)
| RqReadDiscreteInputs (addr n : Z)
| RqReadHolding (addr n : Z)
| RqReadInput (addr n : Z)
| RqWriteCoil (addr : Z) (on : bool)
| RqWriteRegister (addr : Z) (value : list Z)
| RqWriteCoils (addr n : Z) (values : list Z)
| RqWriteRegisters (addr n : Z) (values : list Z)
| RqReadWrite (raddr rn waddr wn : Z) (values : list Z)
| RqReportSlaveID.

Definition word (h l : Z) : Z := h * 256 + l.
Definition be16 (n : Z) : list Z := [n / 256; n mod 256].

(** Bytes that hold [n] bits. *)
Definition bit_bytes (n : Z) : Z := (n + 7) / 8.

Definition within (lo n hi : Z) : bool := (lo <=? n) && (n <=? hi).

(** A request or the exception it causes.  The limits are those of the code. *)
Definition parse_request (pdu : list Z) : eMBException + request :=
  let bad := inl MB_EX_ILLEGAL_DATA_VALUE in
  match pdu with
  | [] => inl MB_EX_ILLEGAL_FUNCTION
  | fc :: d =>
      if fc =? MB_FUNC_OTHER_REPORT_SLAVEID then inr RqReportSlaveID
      else if fc =? MB_FUNC_READ_COILS then
        match d with
        | [ah; al; nh; nl] =>
            if within 1 (word nh nl) 1999 then inr (RqReadCoils (word ah al) (word nh nl)) else bad
        | _ => bad
        end
      else if fc =? MB_FUNC_READ_DISCRETE_INPUTS then
        match d with
        | [ah; al; nh; nl] =>
            if within 1 (word nh nl) 1999 then inr (RqReadDiscreteInputs (word ah al) (word nh nl))
            else bad
        | _ => bad
        end
      else if fc =? MB_FUNC_READ_HOLDING_REGISTER then
        match d with
        | [ah; al; nh; nl] =>
            if within 1 (word nh nl) 125 then inr (RqReadHolding (word ah al) (word nh nl)) else bad
        | _ => bad
        end
      else if fc =? MB_FUNC_READ_INPUT_REGISTER then
        match d with
        | [ah; al; nh; nl] =>
            if within 1 (word nh nl) 124 then inr (RqReadInput (word ah al) (word nh nl)) else bad
        | _ => bad
        end
      else if fc =? MB_FUNC_WRITE_SINGLE_COIL then
        match d with
        | [ah; al; vh; vl] =>
            if (vl =? 0) && ((vh =? 0xff) || (vh =? 0)) then inr (RqWriteCoil (word ah al) (vh =? 0xff))
            else bad
        | _ => bad
        end
      else if fc =? MB_FUNC_WRITE_REGISTER then
        match d with
        | [ah; al; vh; vl] => inr (RqWriteRegister (word ah al) [vh; vl])
        | _ => bad
        end
      else if fc =? MB_FUNC_WRITE_MULTIPLE_COILS then
        match d with
        | ah :: al :: nh :: nl :: bc :: values =>
            if within 1 (word nh nl) 1968 && (bc =? bit_bytes (word nh nl)) then
              inr (RqWriteCoils (word ah al) (word nh nl) (take (Z.to_nat bc) values))
            else bad
        | _ => bad
        end
      else if fc =? MB_FUNC_WRITE_MULTIPLE_REGISTERS then
        match d with
        | ah :: al :: nh :: nl :: bc :: values =>
            if within 1 (word nh nl) 120 && (bc =? 2 * word nh nl) then
              inr (RqWriteRegisters (word ah al) (word nh nl) (take (Z.to_nat bc) values))
            else bad
        | _ => bad
        end
      else if fc =? MB_FUNC_READWRITE_MULTIPLE_REGISTERS then
        match d with
        | rah :: ral :: rnh :: rnl :: wah :: wal :: wnh :: wnl :: bc :: values =>
            if within 1 (word rnh rnl) 125 && within 1 (word wnh wnl) 121 &&
               (bc =? 2 * word wnh wnl) then
              inr (RqReadWrite (word rah ral) (word rnh rnl) (word wah wal) (word wnh wnl)
                     (take (Z.to_nat bc) values))
            else bad
        | _ => bad
        end
      else inl MB_EX_ILLEGAL_FUNCTION
  end.

(** The byte count of a request with data is not larger than the data received. *)
Definition complete (pdu : list Z) : bool :=
  match pdu with
  | fc :: d =>
      if (fc =? MB_FUNC_WRITE_MULTIPLE_COILS) || (fc =? MB_FUNC_WRITE_MULTIPLE_REGISTERS) then
        match d with
        | _ :: _ :: _ :: _ :: bc :: values => bc <=? zlen values
        | _ => true
        end
      else if fc =? MB_FUNC_READWRITE_MULTIPLE_REGISTERS then
        match d with
        | _ :: _ :: _ :: _ :: _ :: _ :: _ :: _ :: bc :: values => bc <=? zlen values
        | _ => false
        end
      else true
  | [] => true
  end.

(** ** The application *)

(** A reading callback writes bytes, at most [k] of them and exactly [k] when it succeeds. *)
Definition fills {A} (k : Z) (r : eMBErrorCode * list Z * A) : Prop :=
  Forall is_byte r.1.2 /\ zlen r.1.2 <= k /\ (r.1.1 = MB_ENOERR -> zlen r.1.2 = k).

Class AppLaws (A : Type) `{App A} := {
  input_fills : forall a addr n, 1 <= n <= 125 -> fills (2 * n) (eMBRegInputCB a addr n);
  holding_fills : forall a addr n, 1 <= n <= 125 -> fills (2 * n) (eMBRegHoldingCB_read a addr n);
  coils_fills : forall a addr n, 1 <= n <= 2000 -> fills (bit_bytes n) (eMBRegCoilsCB_read a addr n);
  discrete_fills : forall a addr n, 1 <= n <= 2000 -> fills (bit_bytes n) (eMBRegDiscreteCB a addr n);
}.

Section serve.
Context {A : Type} `{App A}.

(** Registers and coils are numbered from 1 in the callbacks, modulo 2^16. *)
Definition reg (addr : Z) : Z := u16 (addr + 1).

Definition read_reply (fc k : Z) (r : eMBErrorCode * list Z * A) : (eMBException + list Z) * A :=
  let '(st, l, a) := r in
  (if bool_decide (st = MB_ENOERR) then inr (fc :: k :: l) else inl (prveMBError2Exception st), a).

Definition write_reply (echo : list Z) (r : eMBErrorCode * A) : (eMBException + list Z) * A :=
  let '(st, a) := r in
  (if bool_decide (st = MB_ENOERR) then inr echo else inl (prveMBError2Exception st), a).

Definition serve (d : slave_id) (rq : request) (a : A) : (eMBException + list Z) * A :=
  match rq with
  | RqReadCoils addr n =>
      read_reply MB_FUNC_READ_COILS (bit_bytes n) (eMBRegCoilsCB_read a (reg addr) n)
  | RqReadDiscreteInputs addr n =>
      read_reply MB_FUNC_READ_DISCRETE_INPUTS (bit_bytes n) (eMBRegDiscreteCB a (reg addr) n)
  | RqReadHolding addr n =>
      read_reply MB_FUNC_READ_HOLDING_REGISTER (2 * n) (eMBRegHoldingCB_read a (reg addr) n)
  | RqReadInput addr n =>
      read_reply MB_FUNC_READ_INPUT_REGISTER (2 * n) (eMBRegInputCB a (reg addr) n)
  | RqWriteCoil addr on =>
      write_reply (MB_FUNC_WRITE_SINGLE_COIL :: be16 addr ++ [if on then 0xff else 0; 0])
        (eMBRegCoilsCB_write a [if on then 1 else 0; 0] (reg addr) 1)
  | RqWriteRegister addr value =>
      write_reply (MB_FUNC_WRITE_REGISTER :: be16 addr ++ value)
        (eMBRegHoldingCB_write a value (reg addr) 1)
  | RqWriteCoils addr n values =>
      write_reply (MB_FUNC_WRITE_MULTIPLE_COILS :: be16 addr ++ be16 n)
        (eMBRegCoilsCB_write a values (reg addr) n)
  | RqWriteRegisters addr n values =>
      write_reply (MB_FUNC_WRITE_MULTIPLE_REGISTERS :: be16 addr ++ be16 n)
        (eMBRegHoldingCB_write a values (reg addr) n)
  | RqReadWrite raddr rn waddr wn values =>
      let '(st, a) := eMBRegHoldingCB_write a values (reg waddr) wn in
      if bool_decide (st = MB_ENOERR) then
        read_reply MB_FUNC_READWRITE_MULTIPLE_REGISTERS (2 * rn)
          (eMBRegHoldingCB_read a (reg raddr) rn)
      else (inl (prveMBError2Exception st), a)
  | RqReportSlaveID =>
      (inr (MB_FUNC_OTHER_REPORT_SLAVEID :: zslice 0 (usMBSlaveIDLen d) (ucMBSlaveID d)), a)
  end.

(** Parse and serve. *)
Definition respond (d : slave_id) (pdu : list Z) (a : A) : (eMBException + list Z) * A :=
  match parse_request pdu with
  | inl e => (inl e, a)
  | inr rq => serve d rq a
  end.

(** The PDU that answers a PDU: an exception is the function code with its top bit set and the
    exception code. *)
Definition answer (d : slave_id) (pdu : list Z) (a : A) : list Z * A :=
  let '(r, a) := respond d pdu a in
  (match r with
   | inr reply => reply
   | inl e => [Z.lor (hd 0 pdu) MB_FUNC_ERROR; exception_code e]
   end, a).

End serve.
