(* ===== verification/Mb.v ===== *)
(** * Mb: the Modbus slave

    [src/modbus/mb.c]: initialisation, the table of function handlers, enabling and disabling,
    and [eMBPoll], which takes one event at a time from the port layer and drives the frame
    layer and the handlers.  The function pointers set by [eMBInit] are the record [frame_fns]
    chosen by the mode. *)

From stdpp Require Import strings.
From S2P Require Import Prelude MbPort MbRtu MbAscii MbFunc.
#[local] Open Scope Z_scope.

Definition MB_ADDRESS_BROADCAST : Z := 0.
Definition MB_ADDRESS_MIN : Z := 1.
Definition MB_ADDRESS_MAX : Z := 247.

(** ** Data *)

Inductive eMBState_t := STATE_ENABLED | STATE_DISABLED | STATE_NOT_INITIALIZED.
#[export] Instance eMBState_dec : EqDecision eMBState_t.
Proof. solve_decision. Defined.

(** Handler functions: the ten of [functions/] and those of the application. *)
Inductive handler :=
| H_ReportSlaveID | H_ReadInputRegister | H_ReadHoldingRegister | H_WriteMultipleHoldingRegister
| H_WriteHoldingRegister | H_ReadWriteMultipleHoldingRegister | H_ReadCoils | H_WriteCoil
| H_WriteMultipleCoils | H_ReadDiscreteInputs
| H_User (n : nat).
#[export] Instance handler_dec : EqDecision handler.
Proof. solve_decision. Defined.

(** One entry of the table; [None] is the null pointer. *)
Record xMBFunctionHandler := mkHandler { ucFunctionCode : Z; pxHandler : option handler }.

(** The function pointers of [mb.c]. *)
Record frame_fns := {
  pvMBFrameStartCur : mbs -> mres mbs;
  pvMBFrameStopCur : mbs -> mres mbs;
  peMBFrameSendCur : Z -> Z -> Z -> mbs -> mres (eMBErrorCode * mbs);
  peMBFrameReceiveCur : mbs -> mres (eMBErrorCode * option (Z * Z * Z));
  pvMBFrameCloseCur : option (mbs -> mbs);
  pxMBFrameCBByteReceived : mbs -> mres (bool * mbs);
  pxMBFrameCBTransmitterEmpty : mbs -> mres (bool * mbs);
  pxMBPortCBTimerExpired : mbs -> mres (bool * mbs);
}.

(** The pointers before [eMBInit]. *)
Definition null_fns : frame_fns :=
  Build_frame_fns (fun _ => BadAccess) (fun _ => BadAccess) (fun _ _ _ _ => BadAccess)
    (fun _ => BadAccess) None (fun _ => BadAccess) (fun _ => BadAccess) (fun _ => BadAccess).

Definition rtu_fns `{MbConfig} `{Clock} : frame_fns :=
  Build_frame_fns eMBRTUStart eMBRTUStop eMBRTUSend eMBRTUReceive (Some vMBPortClose)
    xMBRTUReceiveFSM xMBRTUTransmitFSM xMBRTUTimerT35Expired.

Definition ascii_fns `{MbConfig} `{Clock} : frame_fns :=
  Build_frame_fns eMBASCIIStart eMBASCIIStop eMBASCIISend eMBASCIIReceive (Some vMBPortClose)
    xMBASCIIReceiveFSM xMBASCIITransmitFSM xMBASCIITimerT1SExpired.

Definition fns_of `{MbConfig} `{Clock} (m : option eMBMode) : frame_fns :=
  match m with
  | Some MB_RTU => rtu_fns
  | Some MB_ASCII => ascii_fns
  | _ => null_fns
  end.

(** The static variables of [mb.c], [eMBPoll] included, with the layers below and the
    application.  [fns] names the frame layer the function pointers belong to; [ucMBFrame] is
    an index into the frame buffer, [None] before the first frame. *)
Record slave (A : Type) := mkSlave {
  mb : mbs; ucMBAddress : Z; eMBCurrentMode : eMBMode; eMBState : eMBState_t;
  fns : option eMBMode; xFuncHandlers : list xMBFunctionHandler; sid : slave_id; app : A;
  ucMBFrame : option Z; ucRcvAddress : Z; p_ucFunctionCode : Z; usLength : Z;
  eException : eMBException }.
#[global] Arguments mkSlave {A}.
#[global] Arguments mb {A}. #[global] Arguments ucMBAddress {A}.
#[global] Arguments eMBCurrentMode {A}. #[global] Arguments eMBState {A}.
#[global] Arguments fns {A}. #[global] Arguments xFuncHandlers {A}.
#[global] Arguments sid {A}. #[global] Arguments app {A}.
#[global] Arguments ucMBFrame {A}. #[global] Arguments ucRcvAddress {A}.
#[global] Arguments p_ucFunctionCode {A}. #[global] Arguments usLength {A}.
#[global] Arguments eException {A}.

(** Handlers registered by the application. *)
Class UserHandlers (A : Type) := user_handler : nat -> list Z -> Z -> Z -> A -> hres (A := A).

(** The initial value of [xFuncHandlers]. *)
Definition initial_handlers : list xMBFunctionHandler :=
  [mkHandler MB_FUNC_OTHER_REPORT_SLAVEID (Some H_ReportSlaveID);
   mkHandler MB_FUNC_READ_INPUT_REGISTER (Some H_ReadInputRegister);
   mkHandler MB_FUNC_READ_HOLDING_REGISTER (Some H_ReadHoldingRegister);
   mkHandler MB_FUNC_WRITE_MULTIPLE_REGISTERS (Some H_WriteMultipleHoldingRegister);
   mkHandler MB_FUNC_WRITE_REGISTER (Some H_WriteHoldingRegister);
   mkHandler MB_FUNC_READWRITE_MULTIPLE_REGISTERS (Some H_ReadWriteMultipleHoldingRegister);
   mkHandler MB_FUNC_READ_COILS (Some H_ReadCoils);
   mkHandler MB_FUNC_WRITE_SINGLE_COIL (Some H_WriteCoil);
   mkHandler MB_FUNC_WRITE_MULTIPLE_COILS (Some H_WriteMultipleCoils);
   mkHandler MB_FUNC_READ_DISCRETE_INPUTS (Some H_ReadDiscreteInputs)].

Definition empty_entry : xMBFunctionHandler := mkHandler 0 None.

Section slave.
Context `{MbConfig} `{Clock} {A : Type} `{App A} `{UserHandlers A}.

Definition xFuncHandlers_init : list xMBFunctionHandler :=
  initial_handlers ++
  replicate (CONFIG_MB_FUNC_HANDLERS_MAX - length initial_handlers) empty_entry.

Definition on_mb (v : slave A) (s : mbs) : slave A :=
  mkSlave s (ucMBAddress v) (eMBCurrentMode v) (eMBState v) (fns v) (xFuncHandlers v) (sid v)
    (app v) (ucMBFrame v) (ucRcvAddress v) (p_ucFunctionCode v) (usLength v) (eException v).
Definition to_state (v : slave A) (x : eMBState_t) : slave A :=
  mkSlave (mb v) (ucMBAddress v) (eMBCurrentMode v) x (fns v) (xFuncHandlers v) (sid v)
    (app v) (ucMBFrame v) (ucRcvAddress v) (p_ucFunctionCode v) (usLength v) (eException v).
Definition with_handlers (v : slave A) (t : list xMBFunctionHandler) : slave A :=
  mkSlave (mb v) (ucMBAddress v) (eMBCurrentMode v) (eMBState v) (fns v) t (sid v)
    (app v) (ucMBFrame v) (ucRcvAddress v) (p_ucFunctionCode v) (usLength v) (eException v).

(** ** Initialisation *)

Definition eMBInit (eMode : eMBMode) (ucSlaveAddress ulBaudRate : Z) (eParity : eMBParity)
    (t : tty) (v : slave A) : mres (eMBErrorCode * slave A) :=
  if (ucSlaveAddress =? MB_ADDRESS_BROADCAST) || (ucSlaveAddress <? MB_ADDRESS_MIN) ||
     (MB_ADDRESS_MAX <? ucSlaveAddress) then Ret (MB_EINVAL, v)
  else
    let set s cur :=
      mkSlave s ucSlaveAddress (eMBCurrentMode v) (eMBState v) cur (xFuncHandlers v) (sid v)
        (app v) (ucMBFrame v) (ucRcvAddress v) (p_ucFunctionCode v) (usLength v) (eException v) in
    '(eStatus, v) ← match eMode with
                    | MB_RTU =>
                        '(e, s) ← eMBRTUInit t ulBaudRate eParity (mb v);
                        Ret (e, set s (Some MB_RTU))
                    | MB_ASCII =>
                        '(e, s) ← eMBASCIIInit t eParity (mb v);
                        Ret (e, set s (Some MB_ASCII))
                    | MB_TCP => Ret (MB_EINVAL, set (mb v) (fns v))
                    end;
    if bool_decide (eStatus = MB_ENOERR) then
      let '(ok, s) := xMBPortEventInit (mb v) in
      let v := on_mb v s in
      if negb ok then Ret (MB_EPORTERR, v)
      else Ret (MB_ENOERR,
        mkSlave (mb v) (ucMBAddress v) eMode STATE_DISABLED (fns v) (xFuncHandlers v) (sid v)
          (app v) (ucMBFrame v) (ucRcvAddress v) (p_ucFunctionCode v) (usLength v) (eException v))
    else Ret (eStatus, v).

(** ** The table of handlers *)

(** Replace the first entry that satisfies [p]; [None] when there is none. *)
Fixpoint replace_first (p : xMBFunctionHandler -> bool) (e : xMBFunctionHandler)
    (t : list xMBFunctionHandler) : option (list xMBFunctionHandler) :=
  match t with
  | [] => None
  | x :: t => if p x then Some (e :: t) else (fun t => x :: t) <$> replace_first p e t
  end.

Definition eMBRegisterCB (ucFunctionCode_ : Z) (pxHandler_ : option handler) (v : slave A) :
    eMBErrorCode * slave A :=
  if (0 <? ucFunctionCode_) && (ucFunctionCode_ <=? 127) then
    match pxHandler_ with
    | Some h =>
        match replace_first (fun e => bool_decide (pxHandler e = None \/ pxHandler e = Some h))
                (mkHandler ucFunctionCode_ (Some h)) (xFuncHandlers v) with
        | Some t => (MB_ENOERR, with_handlers v t)
        | None => (MB_ENORES, v)
        end
    | None =>
        match replace_first (fun e => ucFunctionCode e =? ucFunctionCode_) empty_entry
                (xFuncHandlers v) with
        | Some t => (MB_ENOERR, with_handlers v t)
        | None => (MB_ENOERR, v)
        end
    end
  else (MB_EINVAL, v).

(** ** Enabling *)

Definition eMBClose (v : slave A) : mres (eMBErrorCode * slave A) :=
  if bool_decide (eMBState v = STATE_DISABLED) then
    match pvMBFrameCloseCur (fns_of (fns v)) with
    | Some f => Ret (MB_ENOERR, on_mb v (f (mb v)))
    | None => Ret (MB_ENOERR, v)
    end
  else Ret (MB_EILLSTATE, v).

Definition eMBEnable (v : slave A) : mres (eMBErrorCode * slave A) :=
  if bool_decide (eMBState v = STATE_DISABLED) then
    s ← pvMBFrameStartCur (fns_of (fns v)) (mb v);
    Ret (MB_ENOERR, to_state (on_mb v s) STATE_ENABLED)
  else Ret (MB_EILLSTATE, v).

Definition eMBDisable (v : slave A) : mres (eMBErrorCode * slave A) :=
  match eMBState v with
  | STATE_ENABLED =>
      s ← pvMBFrameStopCur (fns_of (fns v)) (mb v);
      Ret (MB_ENOERR, to_state (on_mb v s) STATE_DISABLED)
  | STATE_DISABLED => Ret (MB_ENOERR, v)
  | STATE_NOT_INITIALIZED => Ret (MB_EILLSTATE, v)
  end.

(** ** Polling *)

Definition run_handler (h : handler) (d : slave_id) (b : list Z) (f n : Z) (a : A) :
    hres (A := A) :=
  match h with
  | H_ReportSlaveID => eMBFuncReportSlaveID d b f n a
  | H_ReadInputRegister => eMBFuncReadInputRegister b f n a
  | H_ReadHoldingRegister => eMBFuncReadHoldingRegister b f n a
  | H_WriteMultipleHoldingRegister => eMBFuncWriteMultipleHoldingRegister b f n a
  | H_WriteHoldingRegister => eMBFuncWriteHoldingRegister b f n a
  | H_ReadWriteMultipleHoldingRegister => eMBFuncReadWriteMultipleHoldingRegister b f n a
  | H_ReadCoils => eMBFuncReadCoils b f n a
  | H_WriteCoil => eMBFuncWriteCoil b f n a
  | H_WriteMultipleCoils => eMBFuncWriteMultipleCoils b f n a
  | H_ReadDiscreteInputs => eMBFuncReadDiscreteInputs b f n a
  | H_User k => user_handler k b f n a
  end.

(** The search of [EV_EXECUTE]: it ends at the first entry with function code 0. *)
Fixpoint find_handler (t : list xMBFunctionHandler) (fc : Z) : option (option handler) :=
  match t with
  | [] => None
  | e :: t =>
      if ucFunctionCode e =? 0 then None
      else if ucFunctionCode e =? fc then Some (pxHandler e)
      else find_handler t fc
  end.

(** [EV_EXECUTE] up to the reply: function code, exception, buffer, length, application. *)
Definition dispatch (v : slave A) (f : Z) : mres (Z * (eMBException * list Z * Z * A)) :=
  fc ← fetch (ucRTUBuf (mb v)) (f + MB_PDU_FUNC_OFF);
  r ← match find_handler (xFuncHandlers v) fc with
      | None => Ret (MB_EX_ILLEGAL_FUNCTION, ucRTUBuf (mb v), usLength v, app v)
      | Some None => BadAccess
      | Some (Some h) => run_handler h (sid v) (ucRTUBuf (mb v)) f (usLength v) (app v)
      end;
  Ret (fc, r).

(** The exception frame that replaces the reply. *)
Definition exception_frame (b : list Z) (f fc : Z) (e : eMBException) (n : Z) :
    mres (list Z * Z) :=
  if bool_decide (e = MB_EX_NONE) then Ret (b, n)
  else
    b ← store b f (u8 (Z.lor fc MB_FUNC_ERROR));
    b ← store b (f + 1) (u8 (exception_code e));
    Ret (b, 2).

Definition execute (v : slave A) : mres (slave A) :=
  match ucMBFrame v with
  | None => BadAccess
  | Some f =>
      '(fc, (e, b, n, a)) ← dispatch v f;
      let upd s n :=
        mkSlave s (ucMBAddress v) (eMBCurrentMode v) (eMBState v) (fns v) (xFuncHandlers v)
          (sid v) a (ucMBFrame v) (ucRcvAddress v) fc n e in
      if negb (ucRcvAddress v =? MB_ADDRESS_BROADCAST) then
        '(b, n) ← exception_frame b f fc e n;
        '(_, s) ← peMBFrameSendCur (fns_of (fns v)) (ucMBAddress v) f n (set_buf (mb v) b);
        Ret (upd s n)
      else Ret (upd (set_buf (mb v) b) n)
  end.

(** [EV_FRAME_RECEIVED] *)
Definition frame_received (v : slave A) : mres (slave A) :=
  '(eStatus, r) ← peMBFrameReceiveCur (fns_of (fns v)) (mb v);
  match eStatus, r with
  | MB_ENOERR, Some (addr, f, n) =>
      let v :=
        mkSlave (mb v) (ucMBAddress v) (eMBCurrentMode v) (eMBState v) (fns v) (xFuncHandlers v)
          (sid v) (app v) (Some f) addr (p_ucFunctionCode v) n (eException v) in
      if (addr =? ucMBAddress v) || (addr =? MB_ADDRESS_BROADCAST) then
        Ret (on_mb v (xMBPortEventPost EV_EXECUTE (mb v)).2)
      else Ret v
  | _, _ => Ret v
  end.

Definition eMBPoll (v : slave A) : mres (eMBErrorCode * slave A) :=
  if negb (bool_decide (eMBState v = STATE_ENABLED)) then Ret (MB_EILLSTATE, v)
  else
    let f := fns_of (fns v) in
    '(eEvent, s) ← xMBPortEventGet (pxMBFrameCBByteReceived f) (pxMBFrameCBTransmitterEmpty f)
                     (pxMBPortCBTimerExpired f) (mb v);
    let v := on_mb v s in
    match eEvent with
    | Some EV_FRAME_RECEIVED => v ← frame_received v; Ret (MB_ENOERR, v)
    | Some EV_EXECUTE => v ← execute v; Ret (MB_ENOERR, v)
    | Some EV_READY | Some EV_FRAME_SENT | None => Ret (MB_ENOERR, v)
    end.

(** [n] calls of [eMBPoll]. *)
Fixpoint polls (n : nat) (v : slave A) : mres (slave A) :=
  match n with
  | O => Ret v
  | S n => '(_, v) ← eMBPoll v; polls n v
  end.

End slave.
