(* ===== verification/MbFrame.v ===== *)
(** * MbFrame: what a frame layer promises to the slave

    The interface between [mb.c] and the two frame layers, as laws of the function pointers:
    from its idle state a layer takes the bytes of a frame from the line in any pieces and
    hands the address and the PDU out, and it puts the bytes of a reply on the line. *)

From stdpp Require Import strings.
From S2P Require Import Prelude MbPort MbLine Mb.
#[local] Open Scope Z_scope.

(** The time between the [k]-th byte and the next poll is longer than the time-out. *)
Definition line_gap `{Clock} (s : mbs) (k : nat) : Prop :=
  exists t t', clock (pred (ticks (env s) + k)) = Some t /\
    clock (ticks (env s) + k) = Some t' /\ ulTimeOut (tm s) < ulDeltaMS t' t.

Definition clock_ok `{Clock} : Prop := forall n, exists t, clock n = Some t.

(** No [write] of the device fails. *)
Definition writes_ok (s : mbs) : Prop := Forall (fun w => w <> WrErr) (wr_in (env s)).

(** The poll of the port with the callbacks of a frame layer. *)
Definition port_get `{MbConfig} `{Clock} (f : frame_fns) (s : mbs) :
    mres (option eMBEventType * mbs) :=
  xMBPortEventGet (pxMBFrameCBByteReceived f) (pxMBFrameCBTransmitterEmpty f)
    (pxMBPortCBTimerExpired f) s.

Class FrameLayer `{MbConfig} `{Clock} (f : frame_fns) := {
  (** the bytes on the line of a PDU sent to or by an address *)
  fl_encode : Z -> list Z -> list Z;
  (** the longest PDU received *)
  fl_max : Z;
  (** a frame ends by silence on the line *)
  fl_timed : bool;
  (** how often the clock is read for a frame of that many bytes *)
  fl_ticks : nat -> nat;
  fl_idle : mbs -> Prop;
  (** a frame has been received and not yet taken *)
  fl_holds : Z -> list Z -> mbs -> Prop;
  fl_encode_ne : forall addr pdu, fl_encode addr pdu <> [];
  fl_idle_ev : forall s e, fl_idle s -> fl_idle (set_ev s e);
  fl_idle_buf : forall s b, fl_idle s -> length b = 256%nat -> fl_idle (set_buf s b);
  fl_idle_env : forall s e, fl_idle s -> fl_idle (set_env s e);
  fl_idle_256 : forall s, fl_idle s -> length (ucRTUBuf s) = 256%nat;
  fl_holds_idle : forall addr pdu s, fl_holds addr pdu s -> fl_idle s;
  fl_holds_ev : forall addr pdu s e, fl_holds addr pdu s -> fl_holds addr pdu (set_ev s e);
  fl_take : forall addr pdu s, fl_holds addr pdu s ->
    peMBFrameReceiveCur f s = Ret (MB_ENOERR, Some (addr, 1, zlen pdu)) /\
    exists rest, ucRTUBuf s = addr :: pdu ++ rest;
  fl_receive : forall addr pdu s cs rest, clock_ok -> fl_idle s -> xEventInQueue (ev s) = false ->
    is_byte addr -> Forall is_byte pdu -> 1 <= zlen pdu <= fl_max ->
    concat cs = fl_encode addr pdu -> Forall piece_ok cs -> sel_in (env s) = pieces cs rest ->
    (fl_timed = true -> line_gap s (length (concat cs))) ->
    exists s', port_get f s = Ret (None, s') /\ fl_holds addr pdu s' /\
      ticks (env s') = (ticks (env s) + fl_ticks (length (concat cs)))%nat /\
      ev s' = mkEvent true EV_FRAME_RECEIVED /\ ulTimeOut (tm s') = ulTimeOut (tm s) /\
      sel_in (env s') = rest /\ wr_in (env s') = wr_in (env s) /\ line (env s') = line (env s);
  fl_send : forall addr a0 pdu rest s, fl_idle s -> xEventInQueue (ev s) = false -> writes_ok s ->
    ucRTUBuf s = a0 :: pdu ++ rest -> is_byte addr -> Forall is_byte pdu -> 1 <= zlen pdu <= 253 ->
    exists s1 s2, peMBFrameSendCur f addr 1 (zlen pdu) s = Ret (MB_ENOERR, s1) /\
      ev s1 = ev s /\ env s1 = env s /\ port_get f s1 = Ret (None, s2) /\ fl_idle s2 /\
      ev s2 = mkEvent true EV_FRAME_SENT /\ ulTimeOut (tm s2) = ulTimeOut (tm s) /\
      line (env s2) = line (env s) ++ fl_encode addr pdu /\ sel_in (env s2) = sel_in (env s) /\
      writes_ok s2 /\ ticks (env s2) = ticks (env s);
}.

(** ** Polls of the port *)

Section port_get.
Context `{MbConfig} `{Clock}.

(** Writing to a device that does not fail puts everything on the line. *)
Lemma write_all i : Forall (fun w => w <> WrErr) i -> forall l out,
  exists i', prvbMBPortSerialWrite i l out = (true, i', out ++ l) /\ Forall (fun w => w <> WrErr) i'.
Proof using Type.
  induction 1 as [|w i Hw Hi IH]; intros l out.
  - destruct l; simpl; rewrite ?app_nil_r; eauto.
  - destruct l as [|b l]; simpl; [rewrite app_nil_r; eauto|].
    destruct w as [| |n]; [apply (IH (b :: l))|done|]. destruct (IH (drop n (b :: l)) (out ++ take n (b :: l)))
      as [i' [E Hi']]. exists i'. rewrite E, <- (assoc_L (++)), take_drop. done.
Qed.

(** A poll that receives: the machine accepts the bytes, then the timers are looked at. *)
Lemma port_get_receive (f : frame_fns) (J : list Z -> mbs -> Prop) s cs rest :
  (forall w s s', core s = core s' -> J w s -> J w s') ->
  (forall b w s, J (b :: w) s -> uiRxBufferPos (ser s) < 513 ->
    fetch (ucBuffer (ser s)) (uiRxBufferPos (ser s)) = Ret b ->
    exists x s', pxMBFrameCBByteReceived f s = Ret (x, s') /\ J w s' /\
      ser s' = rxpos_to (ser s) (uiRxBufferPos (ser s) + 1) /\
      env s' = tick_to (env s) (ticks (env s'))) ->
  J (concat cs) s -> Forall piece_ok cs -> sel_in (env s) = pieces cs rest ->
  listening (ser s) -> xEventInQueue (ev s) = false ->
  exists s', port_get f s = (s ← vMBPortTimerPoll (pxMBPortCBTimerExpired f) s'; Ret (None, s)) /\
    J [] s' /\ listening (ser s') /\ sel_in (env s') = rest /\
    wr_in (env s') = wr_in (env s) /\ line (env s') = line (env s).
Proof using Type.
  intros Hcore Hstep HJ Hok Hsel Hl Hev.
  destruct (rx_loop_J (pxMBFrameCBByteReceived f) J Hcore Hstep cs s rest
    (S (length (sel_in (env s))))) as (s' & E & HJ' & Hl' & Hi & Hw & Ho); [done..| |].
  { rewrite Hsel. unfold pieces. rewrite length_app, length_fmap. simpl. lia. }
  exists s'. split; [|done]. unfold port_get, xMBPortEventGet, xMBPortSerialPoll.
  rewrite Hev, E. cbn [mbind mres_bind]. destruct Hl' as (_ & -> & _). done.
Qed.

(** A poll that transmits. *)
Lemma port_get_transmit (f : frame_fns) (K : list Z -> mbs -> Prop) (Q : mbs -> Prop) s w :
  (forall b w s, K (b :: w) s -> 0 <= uiTxBufferPos (ser s) < 513 ->
    length (ucBuffer (ser s)) = 513%nat ->
    exists x s', pxMBFrameCBTransmitterEmpty f s = Ret (x, s') /\ K w s' /\
      ser s' = put_byte (ser s) b /\ env s' = env s) ->
  (forall s, K [] s -> exists x s', pxMBFrameCBTransmitterEmpty f s = Ret (x, s') /\ Q s' /\
      ser s' = tx_done (ser s) /\ env s' = env s) ->
  (forall s e, Q s -> Q (set_env s e)) ->
  (forall s, Q s -> bTimeoutEnable (tm s) = false) ->
  K w s -> (length w <= 513)%nat -> writes_ok s -> xEventInQueue (ev s) = false ->
  bRxEnabled (ser s) = false -> bTxEnabled (ser s) = true -> uiTxBufferPos (ser s) = 0 ->
  length (ucBuffer (ser s)) = 513%nat ->
  exists s', port_get f s = Ret (None, s') /\ Q s' /\ listening (ser s') /\
    line (env s') = line (env s) ++ w /\ sel_in (env s') = sel_in (env s) /\ writes_ok s' /\
    ticks (env s') = ticks (env s).
Proof using Type.
  intros Hstep Hlast HQ HQt HK Hw Hwr Hev Hrx Htx Hpos Hlen.
  destruct (tx_loop_K _ K Q Hstep Hlast w s [] (ucBuffer (ser s)) tx_fuel)
    as (s1 & E & HQ1 & Hl1 & Htake & Hpos1 & Henv1); [done..|rewrite Hlen; lia| |].
  { unfold tx_fuel. lia. }
  unfold port_get, xMBPortEventGet, xMBPortSerialPoll. rewrite Hev. cbn [rx_loop]. rewrite Hrx.
  cbn [mbind mres_bind]. rewrite Htx, E. cbn [mbind mres_bind]. unfold write_buffer.
  assert (u16 (uiTxBufferPos (ser s1)) = uiTxBufferPos (ser s1)) as ->.
  { rewrite Hpos1. unfold u16, zlen. simpl. apply Z.mod_small. lia. }
  rewrite Htake, Henv1. destruct (write_all (wr_in (env s)) Hwr ([] ++ w) (line (env s))) as [i' [-> Hi']].
  cbn [mbind mres_bind]. unfold vMBPortTimerPoll.
  match goal with |- context [set_env s1 ?e] => assert (Q (set_env s1 e)) as HQ2 by auto end.
  rewrite (HQt _ HQ2). cbn [mbind mres_bind]. eexists. split; [done|]. done.
Qed.

(** A poll of a silent line only looks at the timers. *)
Lemma port_get_silent (f : frame_fns) s : sel_in (env s) = [] -> listening (ser s) ->
  xEventInQueue (ev s) = false ->
  port_get f s = (s ← vMBPortTimerPoll (pxMBPortCBTimerExpired f) s; Ret (None, s)).
Proof using Type.
  intros Hsel (Hrx & Htx & Hp & Hl) Hev. unfold port_get, xMBPortEventGet, xMBPortSerialPoll.
  rewrite Hev, Hsel. cbn [length rx_loop]. rewrite Hrx.
  assert (read_buffer s = (Some O, s)) as ->.
  { unfold read_buffer. rewrite Hsel. cbn. rewrite zwrite_nil.
    destruct s as [? ? [] []]; simpl in *. by subst. }
  cbn [mbind mres_bind]. by rewrite Htx.
Qed.

End port_get.
