(* ===== verification/MbRtuFrame.v ===== *)
(** * MbRtuFrame: the RTU layer is a frame layer

    On the line a PDU is preceded by the address and followed by the checksum, low byte first.
    The end of a frame is the silence that makes the timer expire. *)

From stdpp Require Import strings.
From S2P Require Import Prelude MbCrc MbPort MbLine MbRtu Mb MbFrame.
#[local] Open Scope Z_scope.

Definition rtu_encode (addr : Z) (pdu : list Z) : list Z := addr :: pdu ++ crc_tail (addr :: pdu).

Definition rtu_idle (s : mbs) : Prop :=
  listening (ser s) /\ length (ucRTUBuf s) = 256%nat /\ r_snd (rtu s) = TX_IDLE /\
  r_rcv (rtu s) = RX_IDLE /\ bTimeoutEnable (tm s) = false.

(** A frame of any content is in the buffer and the layer is idle again. *)
Definition rtu_got (w : list Z) (s : mbs) : Prop :=
  rtu_idle s /\ r_pos (rtu s) = zlen w /\ exists rest, ucRTUBuf s = w ++ rest.

Section rtu_frame.
Context `{MbConfig} `{Clock}.

(** ** Receiving *)

(** The machine has taken [got] of the frame since the clock was at [t0]. *)
Definition rtu_taken (t0 : nat) (tout : Z) (e0 : event_vars) (got : list Z) (s : mbs) : Prop :=
  r_snd (rtu s) = TX_IDLE /\ length (ucRTUBuf s) = 256%nat /\
  ticks (env s) = (t0 + length got)%nat /\ ulTimeOut (tm s) = tout /\ ev s = e0 /\
  (exists rest, ucRTUBuf s = got ++ rest) /\
  match got with
  | [] => r_rcv (rtu s) = RX_IDLE
  | _ => r_rcv (rtu s) = RX_RCV /\ r_pos (rtu s) = zlen got /\ bTimeoutEnable (tm s) = true /\
         clock (pred (ticks (env s))) = Some (xTimeLast (tm s))
  end.

Definition rtu_J (frame : list Z) (t0 : nat) (tout : Z) (e0 : event_vars) (w : list Z) (s : mbs) :
    Prop :=
  zlen frame <= 256 /\ exists got, frame = got ++ w /\ rtu_taken t0 tout e0 got s.

Lemma rtu_J_core frame t0 tout e0 w s s' : core s = core s' ->
  rtu_J frame t0 tout e0 w s -> rtu_J frame t0 tout e0 w s'.
Proof using Type.
  unfold core. intros E. injection E as E1 E2 E3 E4 E5 E6.
  unfold rtu_J, rtu_taken. rewrite E1, E2, E3, E4, E5. done.
Qed.

Lemma rtu_J_step (Hclk : clock_ok) frame t0 tout e0 b w s :
  rtu_J frame t0 tout e0 (b :: w) s -> uiRxBufferPos (ser s) < 513 ->
  fetch (ucBuffer (ser s)) (uiRxBufferPos (ser s)) = Ret b ->
  exists x s', xMBRTUReceiveFSM s = Ret (x, s') /\ rtu_J frame t0 tout e0 w s' /\
    ser s' = rxpos_to (ser s) (uiRxBufferPos (ser s) + 1) /\
    env s' = tick_to (env s) (ticks (env s')).
Proof using Type.
  intros (Hmax & got & -> & Hsnd & Hlen & Ht & Hto & Hev & [rest Hbuf] & Hst) Hpos Hb.
  unfold xMBRTUReceiveFSM, snd_idle. rewrite Hsnd, assert_true, (get_byte s b) by done.
  cbn [mbind mres_bind]. cbn [set_ser rtu ucRTUBuf].
  destruct (Hclk (ticks (env s))) as [t Hclk0].
  assert (length got < 256)%nat as Hgot.
  { rewrite zlen_app in Hmax. unfold zlen in Hmax. simpl in Hmax. lia. }
  destruct rest as [|r0 rest].
  { rewrite app_nil_r in Hbuf. rewrite Hbuf in Hlen. lia. }
  assert (forall x y, r_snd y = TX_IDLE -> r_rcv y = RX_RCV -> r_pos y = zlen (got ++ [b]) ->
    rtu_J (got ++ b :: w) t0 tout e0 w (mkMbs (ev s) (mkTimer (ulTimeOut (tm s)) true t) x
      (tick_to (env s) (S (ticks (env s)))) (got ++ b :: rest) y (asc s))) as Hgoal.
  { intros x y Hy1 Hy2 Hy3. split; [done|]. exists (got ++ [b]). rewrite <- (assoc_L (++)).
    split; [done|]. unfold rtu_taken. simpl. rewrite <- Hlen, Hbuf, Ht, !length_app. simpl.
    repeat (split; [done || lia|]). split; [exists rest; by rewrite <- (assoc_L (++))|].
    destruct (got ++ [b]) eqn:E; [by destruct got|]. rewrite <- Ht. done. }
  destruct got as [|g got].
  - rewrite Hst, Hbuf. rewrite (store_mid [] r0 rest b 0) by done. cbn [mbind mres_bind].
    rewrite (timers_enable _ t) by done. cbn [mbind mres_bind].
    do 2 eexists. split; [done|]. split; [by apply Hgoal|done].
  - destruct Hst as (Hrcv & Hp & Hen & Hlast). rewrite Hrcv, Hp.
    destruct (Z.ltb_spec (zlen (g :: got)) MB_SER_PDU_SIZE_MAX) as [_|];
      [|unfold MB_SER_PDU_SIZE_MAX, zlen in *; lia].
    rewrite Hbuf, store_mid by done. cbn [mbind mres_bind].
    rewrite (timers_enable _ t) by done. cbn [mbind mres_bind].
    do 2 eexists. split; [done|]. split; [|done]. apply Hgoal; [done..|].
    rewrite zlen_app. simpl. unfold u16. apply Z.mod_small. unfold zlen in *. simpl in *. lia.
Qed.

(** Any bytes followed by silence end up in the buffer, with the event posted. *)
Lemma rtu_receive_any s cs rest : clock_ok -> rtu_idle s -> xEventInQueue (ev s) = false ->
  1 <= zlen (concat cs) <= 256 -> Forall piece_ok cs -> sel_in (env s) = pieces cs rest ->
  line_gap s (length (concat cs)) ->
  exists s', port_get rtu_fns s = Ret (None, s') /\ rtu_got (concat cs) s' /\
    ticks (env s') = (ticks (env s) + S (length (concat cs)))%nat /\
    ev s' = mkEvent true EV_FRAME_RECEIVED /\ ulTimeOut (tm s') = ulTimeOut (tm s) /\
    sel_in (env s') = rest /\ wr_in (env s') = wr_in (env s) /\ line (env s') = line (env s).
Proof using Type.
  intros Hclk (Hl & Hlen & Hsnd & Hrcv & Hen) Hev Hn Hok Hsel (t & t' & Ht & Ht' & Hgap).
  destruct (port_get_receive rtu_fns
    (rtu_J (concat cs) (ticks (env s)) (ulTimeOut (tm s)) (ev s)) s cs rest)
    as (s1 & E & (_ & got & Hgot & Hs1) & Hl1 & Hi & Hw & Ho); try done.
  { intros. by eapply rtu_J_core. }
  { intros. by eapply rtu_J_step. }
  { split; [lia|]. exists []. split; [done|]. unfold rtu_taken. simpl. rewrite Hrcv.
    repeat (split; [done || lia|]). split; [by exists (ucRTUBuf s)|done]. }
  rewrite app_nil_r in Hgot. subst got. rewrite E. clear E.
  destruct Hs1 as (Hsnd1 & Hlen1 & Htk & Hto & Hev1 & [r Hbuf] & Hst).
  destruct (concat cs) as [|g got] eqn:Ecs; [unfold zlen in Hn; simpl in Hn; lia|].
  rewrite <- Ecs in *. destruct Hst as (Hrcv1 & Hp & Hen1 & Hlast).
  unfold vMBPortTimerPoll. rewrite Hen1. unfold gettimeofday. rewrite Htk, Ht' in *.
  cbn [set_env tm]. rewrite Hto.
  assert (xTimeLast (tm s1) = t) as -> by congruence.
  destruct (Z.ltb_spec (ulTimeOut (tm s)) (ulDeltaMS t' t)); [|lia].
  cbn [pxMBPortCBTimerExpired rtu_fns]. unfold xMBRTUTimerT35Expired.
  cbn [rtu vMBPortTimersDisable set_tm set_env r_rcv]. rewrite Hrcv1. cbn [mbind mres_bind].
  eexists. split; [done|]. split; [|split; [simpl; lia|done]].
  split; [|by split; [|exists r]]. by repeat (split; [done|]).
Qed.

(** ** Taking a frame out *)

Lemma rtu_take w s : rtu_got w s -> 4 <= zlen w <= 255 ->
  eMBRTUReceive s =
  (if usMBCRC16 w =? 0 then
     match w with
     | a :: _ => Ret (MB_ENOERR, Some (a, 1, zlen w - 3))
     | [] => BadAccess
     end
   else Ret (MB_EIO, None)).
Proof using Type.
  intros ((Hl & Hlen & _) & Hp & [rest Hbuf]) Hw. unfold eMBRTUReceive. rewrite Hp.
  rewrite assert_true by (apply Z.ltb_lt; unfold MB_SER_PDU_SIZE_MAX; lia).
  destruct (Z.leb_spec MB_SER_PDU_SIZE_MIN (zlen w)); [|unfold MB_SER_PDU_SIZE_MIN in *; lia].
  rewrite fetch_n_ok by (rewrite ?Hbuf, ?zlen_app; pose proof (zlen_nonneg rest); lia).
  cbn [mbind mres_bind].
  assert (zslice 0 (zlen w) (ucRTUBuf s) = w) as ->.
  { rewrite Hbuf. apply zslice_0_app. }
  destruct (Z.eqb_spec (usMBCRC16 w) 0); [|done]. rewrite Hbuf.
  destruct w as [|a w]; [unfold zlen in Hw; simpl in Hw; lia|].
  change ((a :: w) ++ rest) with ([] ++ a :: (w ++ rest)). rewrite fetch_mid by done.
  cbn [mbind mres_bind]. unfold MB_SER_PDU_PDU_OFF, MB_SER_PDU_SIZE_CRC, u16.
  rewrite Z.mod_small by lia. do 4 f_equal. lia.
Qed.

(** ** Sending *)

Definition rtu_K (tout : Z) (w : list Z) (s : mbs) : Prop :=
  ulTimeOut (tm s) = tout /\
  r_rcv (rtu s) = RX_IDLE /\ r_snd (rtu s) = TX_XMIT /\ length (ucRTUBuf s) = 256%nat /\
  bTimeoutEnable (tm s) = false /\ Forall is_byte w /\ r_count (rtu s) = zlen w /\
  0 <= r_cur (rtu s) /\ exists pre post, ucRTUBuf s = pre ++ w ++ post /\ r_cur (rtu s) = zlen pre.

Definition rtu_Q (tout : Z) (s : mbs) : Prop :=
  ulTimeOut (tm s) = tout /\
  length (ucRTUBuf s) = 256%nat /\ r_snd (rtu s) = TX_IDLE /\
  r_rcv (rtu s) = RX_IDLE /\ bTimeoutEnable (tm s) = false /\ ev s = mkEvent true EV_FRAME_SENT.

Lemma rtu_K_step tout b w s : rtu_K tout (b :: w) s -> 0 <= uiTxBufferPos (ser s) < 513 ->
  length (ucBuffer (ser s)) = 513%nat ->
  exists x s', xMBRTUTransmitFSM s = Ret (x, s') /\ rtu_K tout w s' /\
    ser s' = put_byte (ser s) b /\ env s' = env s.
Proof using Type.
  intros (Hto & Hrcv & Hsnd & Hlen & Hen & Hw & Hcnt & Hcur & pre & post & Hbuf & Hpre) Hp Hl.
  inv_Forall. unfold xMBRTUTransmitFSM. rewrite Hrcv, Hsnd, assert_true by done.
  assert (zlen (b :: w) = 1 + zlen w) as Hz by (unfold zlen; simpl; lia).
  pose proof (zlen_nonneg w).
  destruct (Z.eqb_spec (r_count (rtu s)) 0); [lia|]. cbn [negb].
  rewrite Hbuf. change ((b :: w) ++ post) with (b :: (w ++ post)).
  rewrite fetch_mid by done. cbn [mbind mres_bind].
  rewrite put_byte_ok by done. cbn [mbind mres_bind].
  do 2 eexists. split; [done|]. split; [|done].
  unfold rtu_K. simpl. repeat (split; [done || lia|]).
  exists (pre ++ [b]), post. rewrite <- (assoc_L (++)), zlen_app. split; [done|]. by rewrite Hpre.
Qed.

Lemma rtu_K_last tout s : rtu_K tout [] s ->
  exists x s', xMBRTUTransmitFSM s = Ret (x, s') /\ rtu_Q tout s' /\
    ser s' = tx_done (ser s) /\ env s' = env s.
Proof using Type.
  intros (Hto & Hrcv & Hsnd & Hlen & Hen & _ & Hcnt & _). unfold xMBRTUTransmitFSM.
  rewrite Hrcv, Hsnd, assert_true by done. rewrite Hcnt. cbn [zlen length negb].
  simpl. rewrite enable_ok by done. cbn [mbind mres_bind].
  do 2 eexists. split; [done|]. by repeat (split; [done|]).
Qed.

(** The buffer after [eMBRTUSend] has put the address and the checksum around the PDU. *)
Lemma rtu_send_buffer a0 addr pdu rest : is_byte addr -> Forall is_byte pdu ->
  length (a0 :: pdu ++ rest) = 256%nat -> zlen pdu <= 253 ->
  exists rest', length (rtu_encode addr pdu ++ rest') = 256%nat /\
  forall s, ucRTUBuf s = a0 :: pdu ++ rest -> r_rcv (rtu s) = RX_IDLE ->
  eMBRTUSend addr 1 (zlen pdu) s =
  (s ← vMBPortSerialEnable false true
         (set_rtu (set_buf s (rtu_encode addr pdu ++ rest'))
            (mkRtu TX_XMIT RX_IDLE 0 (zlen (rtu_encode addr pdu)) (r_pos (rtu s))));
   Ret (MB_ENOERR, s)).
Proof using Type.
  intros Haddr Hpdu Hlen Hn. pose proof (zlen_nonneg pdu) as Hpos.
  destruct rest as [|r0 [|r1 rest]]; try (unfold zlen in Hn; simpl in Hlen;
    rewrite length_app in Hlen; simpl in Hlen; lia).
  exists rest. set (crc := usMBCRC16 (addr :: pdu)).
  unfold rtu_encode, crc_tail. fold crc. split.
  { simpl in *. rewrite !length_app in *. simpl in *. lia. }
  intros s Hbuf Hrcv. unfold eMBRTUSend. rewrite Hrcv, Hbuf. cbn [rx_state_is].
  rewrite store_head by done. cbn [mbind mres_bind].
  assert (u16 (1 + zlen pdu) = zlen (addr :: pdu)) as ->.
  { unfold u16. rewrite Z.mod_small by lia. unfold zlen. simpl. lia. }
  rewrite fetch_n_ok; [|lia|unfold zlen; lia|unfold zlen; simpl; rewrite length_app; lia].
  cbn [mbind mres_bind].
  assert (zslice (1 - 1) (zlen (addr :: pdu)) (addr :: pdu ++ r0 :: r1 :: rest) = addr :: pdu) as ->.
  { apply (zslice_0_app (addr :: pdu)). }
  fold crc. change (addr :: pdu ++ r0 :: r1 :: rest) with ((addr :: pdu) ++ r0 :: r1 :: rest).
  rewrite store_mid by done. cbn [mbind mres_bind].
  assert (forall k, 0 <= k <= 2 -> u16 (zlen (addr :: pdu) + k) = zlen (addr :: pdu) + k) as Hk.
  { intros k Hk. unfold u16, zlen in *. simpl length in *. apply Z.mod_small. lia. }
  rewrite Hk by lia.
  change ((addr :: pdu) ++ Z.land crc 255 :: r1 :: rest)
    with ((addr :: pdu) ++ [Z.land crc 255] ++ r1 :: rest).
  rewrite (assoc_L (++)), store_mid by (rewrite zlen_app; done). cbn [mbind mres_bind].
  rewrite <- Z.add_assoc, Hk by lia.
  assert (zlen (addr :: pdu ++ [Z.land crc 255; Z.shiftr crc 8]) = zlen (addr :: pdu) + (1 + 1)) as ->.
  { change (addr :: pdu ++ ?x) with ((addr :: pdu) ++ x). by rewrite zlen_app. }
  unfold rtu_snd_to, rtu_cur_to. cbn [set_rtu set_buf rtu r_snd r_rcv r_cur r_count r_pos].
  rewrite Hrcv. rewrite <- !(assoc_L (++)). simpl. rewrite <- !(assoc_L (++)). done.
Qed.

Lemma rtu_encode_bytes addr pdu : is_byte addr -> Forall is_byte pdu ->
  Forall is_byte (rtu_encode addr pdu).
Proof using Type.
  intros Ha Hp. unfold rtu_encode. constructor; [done|]. apply Forall_app. split; [done|].
  apply crc_tail_bytes. by constructor.
Qed.

Lemma rtu_encode_len addr pdu : zlen (rtu_encode addr pdu) = zlen pdu + 3.
Proof using Type. unfold rtu_encode, zlen. simpl. rewrite length_app. simpl. lia. Qed.

Lemma rtu_send_ok addr a0 pdu rest s : rtu_idle s -> xEventInQueue (ev s) = false -> writes_ok s ->
  ucRTUBuf s = a0 :: pdu ++ rest -> is_byte addr -> Forall is_byte pdu -> 1 <= zlen pdu <= 253 ->
  exists s1 s2, eMBRTUSend addr 1 (zlen pdu) s = Ret (MB_ENOERR, s1) /\
    ev s1 = ev s /\ env s1 = env s /\ port_get rtu_fns s1 = Ret (None, s2) /\ rtu_idle s2 /\
    ev s2 = mkEvent true EV_FRAME_SENT /\ ulTimeOut (tm s2) = ulTimeOut (tm s) /\
    line (env s2) = line (env s) ++ rtu_encode addr pdu /\ sel_in (env s2) = sel_in (env s) /\
    writes_ok s2 /\ ticks (env s2) = ticks (env s).
Proof using Type.
  intros ((Hrx & Htx & Hrp & Hlb) & Hlen & Hsnd & Hrcv & Hen) Hev Hwr Hbuf Haddr Hpdu Hn.
  rewrite Hbuf in Hlen.
  destruct (rtu_send_buffer a0 addr pdu rest) as (rest' & Hlen' & E); [done..|lia|].
  rewrite (E s Hbuf Hrcv), enable_ok by done. cbn [mbind mres_bind].
  eexists. match goal with |- context [Ret (MB_ENOERR, ?x)] => set (s1 := x) end.
  destruct (port_get_transmit rtu_fns (rtu_K (ulTimeOut (tm s))) (rtu_Q (ulTimeOut (tm s))) s1 (rtu_encode addr pdu))
    as (s2 & E2 & HQ & Hl2 & Ho & Hi & Hwr2 & Htk2).
  { apply rtu_K_step. } { apply rtu_K_last. } { intros ? ? HQ. exact HQ. } { by intros ? (_ & _ & _ & _ & ? & _). }
  { unfold rtu_K. simpl. repeat (split; [done|]). split; [by apply rtu_encode_bytes|].
    repeat (split; [done|]). by exists [], rest'. }
  { pose proof (rtu_encode_len addr pdu) as Hz. unfold zlen in *. lia. }
  { done. } { done. } { done. } { done. } { done. } { done. }
  exists s2. repeat (split; [done|]). destruct HQ as (? & ? & ? & ? & ? & ?).
  by repeat (split; [done|]).
Qed.

#[export] Program Instance rtu_frame_layer : FrameLayer rtu_fns := {|
  fl_encode := rtu_encode;
  fl_max := 252;
  fl_timed := true;
  fl_ticks := S;
  fl_idle := rtu_idle;
  fl_holds := fun addr pdu s => is_byte addr /\ Forall is_byte pdu /\ 1 <= zlen pdu <= 252 /\
    rtu_got (rtu_encode addr pdu) s;
  fl_send := rtu_send_ok;
|}.
Next Obligation. done. Qed.
Next Obligation. intros s e Hs. exact Hs. Qed.
Next Obligation. intros s b (? & ? & ? & ? & ?) Hb. by repeat (split; [done|]). Qed.
Next Obligation. intros s e Hs. exact Hs. Qed.
Next Obligation. by intros s (? & ? & ?). Qed.
Next Obligation. by intros addr pdu s (? & ? & ? & ? & ?). Qed.
Next Obligation. intros addr pdu s e Hs. exact Hs. Qed.
Next Obligation.
  intros addr pdu s (Haddr & Hpdu & Hn & Hgot). pose proof (rtu_encode_len addr pdu) as Hz.
  cbn [peMBFrameReceiveCur rtu_fns]. rewrite (rtu_take (rtu_encode addr pdu) s Hgot) by lia.
  assert (usMBCRC16 (rtu_encode addr pdu) = 0) as ->.
  { unfold rtu_encode. apply (crc_self (addr :: pdu)). by constructor. }
  cbn [Z.eqb]. rewrite Hz. unfold rtu_encode. split; [do 4 f_equal; lia|].
  destruct Hgot as (_ & _ & rest & ->). unfold rtu_encode. simpl. rewrite <- (assoc_L (++)). eauto.
Qed.
Next Obligation.
  intros addr pdu s cs rest Hclk Hs Hev Ha Hp Hn Hcs Hok Hsel Hgap.
  pose proof (rtu_encode_len addr pdu) as Hz.
  destruct (rtu_receive_any s cs rest) as (s' & E & Hg & R); try done; [rewrite Hcs; lia|by apply Hgap|].
  exists s'. rewrite Hcs in Hg. done.
Qed.

End rtu_frame.
