(* ===== verification/MbAsciiFrame.v ===== *)
(** * MbAsciiFrame: the ASCII layer is a frame layer

    On the line every byte of address, PDU and checksum is two hexadecimal characters, between
    a colon and CR LF; the line feed ends the frame. *)

From stdpp Require Import strings.
From S2P Require Import Prelude MbPort MbLine MbAscii Mb MbFrame.
#[local] Open Scope Z_scope.
#[local] Ltac Zify.zify_post_hook ::= Z.to_euclidean_division_equations.

(** ** Characters *)

Definition hex (n : Z) : Z := if n <=? 9 then 48 + n else n + 55.

Definition hexes (l : list Z) : list Z := flat_map (fun b => [hex (b / 16); hex (b mod 16)]) l.

Definition ascii_frame (addr : Z) (pdu : list Z) : list Z :=
  addr :: pdu ++ [prvucMBLRC (addr :: pdu)].

Definition ascii_encode (addr : Z) (pdu : list Z) : list Z :=
  ASCII_COLON :: hexes (ascii_frame addr pdu) ++ [MB_ASCII_DEFAULT_CR; MB_ASCII_DEFAULT_LF].

Lemma hex_value n : 0 <= n < 16 -> prvucMBint8_t2BIN (hex n) = n /\ is_byte (hex n) /\
  hex n <> ASCII_COLON /\ hex n <> MB_ASCII_DEFAULT_CR.
Proof.
  intros Hn. unfold hex, prvucMBint8_t2BIN, is_byte, ASCII_COLON, MB_ASCII_DEFAULT_CR.
  destruct (Z.leb_spec n 9).
  - destruct (Z.leb_spec 48 (48 + n)), (Z.leb_spec (48 + n) 57); try lia. simpl.
    rewrite u8_small by (unfold is_byte; lia). lia.
  - destruct (Z.leb_spec (n + 55) 57); try lia. rewrite andb_false_r.
    destruct (Z.leb_spec 65 (n + 55)), (Z.leb_spec (n + 55) 70); try lia. simpl.
    rewrite u8_small by (unfold is_byte; lia). lia.
Qed.

Lemma hex_char `{MbConfig} n : 0 <= n < 16 -> prvucMBBIN2int8_t n = Ret (hex n).
Proof.
  intros Hn. unfold prvucMBBIN2int8_t, hex. destruct (Z.leb_spec n 9).
  - rewrite u8_small by (unfold is_byte; lia). done.
  - destruct (Z.leb_spec 10 n), (Z.leb_spec n 15); try lia. simpl.
    rewrite u8_small by (unfold is_byte; lia). f_equal. lia.
Qed.

Lemma nibbles b : is_byte b -> 0 <= b / 16 < 16 /\ 0 <= b mod 16 < 16 /\
  Z.shiftr b 4 = b / 16 /\ Z.land b 0x0f = b mod 16 /\
  u8 (Z.shiftl (b / 16) 4) = 16 * (b / 16) /\ u8 (Z.lor (16 * (b / 16)) (b mod 16)) = b.
Proof.
  intros Hb. unfold is_byte in Hb. split; [lia|]. split; [lia|].
  split; [by rewrite Z.shiftr_div_pow2|]. split; [by apply (land_ones_mod b 4)|].
  rewrite Z.shiftl_mul_pow2 by lia. change (2 ^ 4) with 16.
  rewrite (Z.mul_comm 16), u8_small by (unfold is_byte; lia). split; [done|].
  replace (b / 16 * 16) with (Z.shiftl (b / 16) 4) by (by rewrite Z.shiftl_mul_pow2).
  rewrite lor_add by lia. change (2 ^ 4) with 16. rewrite u8_small by (unfold is_byte; lia). lia.
Qed.

(** ** The checksum *)

Definition sum8 (l : list Z) (x : Z) : Z := fold_left (fun a b => u8 (a + b)) l x.

Lemma sum8_range l x : is_byte x -> is_byte (sum8 l x).
Proof. revert x. induction l as [|b l IH]; intros x Hx; [done|]. simpl. auto with nuttx. Qed.

Lemma lrc_byte l : is_byte (prvucMBLRC l).
Proof. apply u8_range. Qed.

(** A frame followed by its checksum sums to zero. *)
Lemma lrc_self l : prvucMBLRC (l ++ [prvucMBLRC l]) = 0.
Proof.
  unfold prvucMBLRC. rewrite fold_left_app. simpl. fold (sum8 l 0).
  pose proof (sum8_range l 0 ltac:(unfold is_byte; lia)) as Hs.
  unfold u8, is_byte in *. change (2 ^ 8) with 256 in *. lia.
Qed.

(** ** The laws *)

Definition ascii_idle (s : mbs) : Prop :=
  listening (ser s) /\ length (ucRTUBuf s) = 256%nat /\ a_snd (asc s) = ATX_IDLE /\
  a_rcv (asc s) = ARX_IDLE /\ bTimeoutEnable (tm s) = false /\ a_lf (asc s) = MB_ASCII_DEFAULT_LF.

Definition crlf : list Z := [MB_ASCII_DEFAULT_CR; MB_ASCII_DEFAULT_LF].

(** What the receiver still accepts, by its state. *)
Definition ascii_phase (frame w : list Z) (s : mbs) : Prop :=
  (w = ASCII_COLON :: hexes frame ++ crlf /\ a_rcv (asc s) = ARX_IDLE) \/
  (exists got todo rest, frame = got ++ todo /\ w = hexes todo ++ crlf /\
    a_rcv (asc s) = ARX_RCV /\ a_bytepos (asc s) = BYTE_HIGH_NIBBLE /\ a_pos (asc s) = zlen got /\
    ucRTUBuf s = got ++ rest) \/
  (exists got b todo rest, frame = got ++ b :: todo /\ w = hex (b mod 16) :: hexes todo ++ crlf /\
    a_rcv (asc s) = ARX_RCV /\ a_bytepos (asc s) = BYTE_LOW_NIBBLE /\ a_pos (asc s) = zlen got /\
    ucRTUBuf s = got ++ 16 * (b / 16) :: rest) \/
  (exists rest, w = [MB_ASCII_DEFAULT_LF] /\ a_rcv (asc s) = ARX_WAIT_EOF /\
    a_pos (asc s) = zlen frame /\ ucRTUBuf s = frame ++ rest) \/
  (exists rest, w = [] /\ a_rcv (asc s) = ARX_IDLE /\ a_pos (asc s) = zlen frame /\
    ucRTUBuf s = frame ++ rest /\ ev s = mkEvent true EV_FRAME_RECEIVED /\
    bTimeoutEnable (tm s) = false).

Definition ascii_J (tout : Z) (frame w : list Z) (s : mbs) : Prop :=
  ulTimeOut (tm s) = tout /\
  a_snd (asc s) = ATX_IDLE /\ a_lf (asc s) = MB_ASCII_DEFAULT_LF /\
  length (ucRTUBuf s) = 256%nat /\ zlen frame <= 255 /\ Forall is_byte frame /\
  ascii_phase frame w s.

Lemma ascii_J_core tout frame w s s' : core s = core s' ->
  ascii_J tout frame w s -> ascii_J tout frame w s'.
Proof.
  unfold core. intros E. injection E as E1 E2 E3 E4 E5 E6.
  unfold ascii_J, ascii_phase. by rewrite E1, E2, E4, E6.
Qed.

Section ascii_frame.
Context `{MbConfig} `{Clock}.

(** The conclusion of a step of the receiver. *)
Definition rx_post (tout : Z) (frame w : list Z) (s : mbs) (r : mres (bool * mbs)) : Prop :=
  exists x s', r = Ret (x, s') /\ ascii_J tout frame w s' /\
    ser s' = rxpos_to (ser s) (uiRxBufferPos (ser s) + 1) /\
    env s' = tick_to (env s) (ticks (env s')) /\
    ticks (env s') = match w with [] => ticks (env s) | _ => S (ticks (env s)) end.

Lemma crlf_behind (w : list Z) {B} (x y : B) : match w ++ crlf with [] => x | _ => y end = y.
Proof. by destruct w. Qed.

Lemma ascii_rx_high (Hclk : clock_ok) tout frame s got b todo rest :
  let b' := hex (b / 16) in let w := hex (b mod 16) :: hexes todo ++ crlf in
  ulTimeOut (tm s) = tout -> a_snd (asc s) = ATX_IDLE -> a_lf (asc s) = MB_ASCII_DEFAULT_LF ->
  length (ucRTUBuf s) = 256%nat -> zlen frame <= 255 -> Forall is_byte frame ->
  frame = got ++ b :: todo -> a_rcv (asc s) = ARX_RCV -> a_bytepos (asc s) = BYTE_HIGH_NIBBLE ->
  a_pos (asc s) = zlen got -> ucRTUBuf s = got ++ rest -> uiRxBufferPos (ser s) < 513 ->
  fetch (ucBuffer (ser s)) (uiRxBufferPos (ser s)) = Ret b' ->
  rx_post tout frame w s (xMBASCIIReceiveFSM s).
Proof using Type.
  intros b' w Hto Hsnd Hlf Hlen Hmax Hby Hf Hrcv Hnib Hpos Hbuf Hp Hb.
  assert (is_byte b) as Hbb by (subst frame; apply Forall_app in Hby as [_ Hby]; by inv_Forall).
  destruct (nibbles b Hbb) as (Hh & Hl & _ & _ & Hsh & _).
  destruct (hex_value (b / 16) Hh) as (Hv & _ & Hc & Hcr).
  unfold xMBASCIIReceiveFSM, asc_snd_idle. rewrite Hsnd, assert_true, (get_byte s b') by done.
  cbn [mbind mres_bind set_ser asc]. rewrite Hrcv. destruct (Hclk (ticks (env s))) as [t Ht].
  rewrite (timers_enable _ t) by done. cbn [mbind mres_bind].
  destruct (Z.eqb_spec b' ASCII_COLON); [done|].
  destruct (Z.eqb_spec b' MB_ASCII_DEFAULT_CR); [done|].
  unfold ascii_data. cbn [set_tm set_env set_ser asc ucRTUBuf]. rewrite Hnib, Hpos. unfold b'.
  rewrite Hv, Hsh.
  destruct (Z.ltb_spec (zlen got) ASCII_PDU_SIZE_MAX) as [_|];
    [|subst frame; rewrite zlen_app in Hmax; unfold ASCII_PDU_SIZE_MAX, zlen in *; lia].
  destruct rest as [|r0 rest].
  { rewrite app_nil_r in Hbuf. subst frame. rewrite zlen_app in Hmax. rewrite Hbuf in Hlen.
    unfold zlen in Hmax. simpl in Hmax. lia. }
  rewrite Hbuf, store_mid by done. cbn [mbind mres_bind].
  do 2 eexists. split; [done|]. split; [|done]. unfold ascii_J. simpl.
  rewrite <- Hlen, Hbuf, !length_app. repeat (split; [done|]). right. right. left.
  exists got, b, todo, rest. done.
Qed.

Lemma ascii_rx_low (Hclk : clock_ok) tout frame s got b todo rest :
  let b' := hex (b mod 16) in let w := hexes todo ++ crlf in
  ulTimeOut (tm s) = tout -> a_snd (asc s) = ATX_IDLE -> a_lf (asc s) = MB_ASCII_DEFAULT_LF ->
  length (ucRTUBuf s) = 256%nat -> zlen frame <= 255 -> Forall is_byte frame ->
  frame = got ++ b :: todo -> a_rcv (asc s) = ARX_RCV -> a_bytepos (asc s) = BYTE_LOW_NIBBLE ->
  a_pos (asc s) = zlen got -> ucRTUBuf s = got ++ 16 * (b / 16) :: rest ->
  uiRxBufferPos (ser s) < 513 ->
  fetch (ucBuffer (ser s)) (uiRxBufferPos (ser s)) = Ret b' ->
  rx_post tout frame w s (xMBASCIIReceiveFSM s).
Proof using Type.
  intros b' w Hto Hsnd Hlf Hlen Hmax Hby Hf Hrcv Hnib Hpos Hbuf Hp Hb.
  assert (is_byte b) as Hbb by (subst frame; apply Forall_app in Hby as [_ Hby]; by inv_Forall).
  destruct (nibbles b Hbb) as (Hh & Hl & _ & _ & _ & Hor).
  destruct (hex_value (b mod 16) Hl) as (Hv & _ & Hc & Hcr).
  unfold xMBASCIIReceiveFSM, asc_snd_idle. rewrite Hsnd, assert_true, (get_byte s b') by done.
  cbn [mbind mres_bind set_ser asc]. rewrite Hrcv. destruct (Hclk (ticks (env s))) as [t Ht].
  rewrite (timers_enable _ t) by done. cbn [mbind mres_bind].
  destruct (Z.eqb_spec b' ASCII_COLON); [done|].
  destruct (Z.eqb_spec b' MB_ASCII_DEFAULT_CR); [done|].
  unfold ascii_data. cbn [set_tm set_env set_ser asc ucRTUBuf]. rewrite Hnib, Hpos. unfold b'.
  rewrite Hv, Hbuf, fetch_mid by done. cbn [mbind mres_bind]. rewrite Hor, store_mid by done.
  cbn [mbind mres_bind].
  assert (u16 (zlen got + 1) = zlen (got ++ [b])) as ->.
  { rewrite zlen_app. unfold u16. subst frame. rewrite zlen_app in Hmax.
    unfold zlen in *. simpl in *. change (2 ^ 16) with 65536. lia. }
  do 2 eexists. split; [done|]. split; [|by unfold w; rewrite crlf_behind]. unfold ascii_J. simpl.
  rewrite <- Hlen, Hbuf, !length_app. repeat (split; [done|]). right. left.
  exists (got ++ [b]), todo, rest. rewrite <- !(assoc_L (++)). done.
Qed.

(** The receiver with the reading of the clock at which the frame will be complete. *)
Definition ascii_timed_J (tout : Z) (t1 : nat) (frame w : list Z) (s : mbs) : Prop :=
  ascii_J tout frame w s /\ (ticks (env s) + pred (length w))%nat = t1.

Lemma ascii_J_step (Hclk : clock_ok) tout frame b w s :
  ascii_J tout frame (b :: w) s -> uiRxBufferPos (ser s) < 513 ->
  fetch (ucBuffer (ser s)) (uiRxBufferPos (ser s)) = Ret b ->
  rx_post tout frame w s (xMBASCIIReceiveFSM s).
Proof using Type.
  intros (Hto & Hsnd & Hlf & Hlen & Hmax & Hby & Hph) Hp Hb.
  destruct Hph as [[E Hrcv]|[(got & todo & rest & Hf & E & Hrcv & Hnib & Hpos & Hbuf)|
    [(got & c & todo & rest & Hf & E & Hrcv & Hnib & Hpos & Hbuf)|
    [(rest & E & Hrcv & Hpos & Hbuf)|(rest & E & _)]]]]; [| | | |done].
  - injection E as -> ->. unfold xMBASCIIReceiveFSM, asc_snd_idle.
    rewrite Hsnd, assert_true, (get_byte s ASCII_COLON) by done.
    cbn [mbind mres_bind set_ser asc]. rewrite Hrcv. destruct (Hclk (ticks (env s))) as [t Ht].
    rewrite Z.eqb_refl, (timers_enable _ t) by done. cbn [mbind mres_bind].
    do 2 eexists. split; [done|]. split; [|by rewrite crlf_behind]. unfold ascii_J. simpl.
    repeat (split; [done|]). right. left. exists [], frame, (ucRTUBuf s). done.
  - destruct todo as [|c todo].
    + injection E as -> ->. unfold xMBASCIIReceiveFSM, asc_snd_idle.
      rewrite Hsnd, assert_true, (get_byte s MB_ASCII_DEFAULT_CR) by done.
      cbn [mbind mres_bind set_ser asc]. rewrite Hrcv. destruct (Hclk (ticks (env s))) as [t Ht].
      rewrite (timers_enable _ t) by done. cbn [mbind mres_bind].
      do 2 eexists. split; [done|]. split; [|done]. unfold ascii_J. simpl.
      repeat (split; [done|]). right. right. right. left. exists rest.
      rewrite app_nil_r in Hf. subst got. done.
    + simpl in E. injection E as -> ->. by eapply (ascii_rx_high Hclk tout frame s got c todo).
  - injection E as -> ->. by eapply (ascii_rx_low Hclk tout frame s got c todo).
  - injection E as -> ->. unfold xMBASCIIReceiveFSM, asc_snd_idle.
    rewrite Hsnd, assert_true, (get_byte s MB_ASCII_DEFAULT_LF) by done.
    cbn [mbind mres_bind set_ser asc]. rewrite Hrcv, Hlf. cbn [Z.eqb MB_ASCII_DEFAULT_LF Pos.eqb].
    do 2 eexists. split; [done|]. split; [|by destruct s as [? ? ? []]]. unfold ascii_J. simpl.
    repeat (split; [done|]). do 4 right. exists rest. done.
Qed.

Lemma ascii_timed_step (Hclk : clock_ok) tout t1 frame b w s :
  ascii_timed_J tout t1 frame (b :: w) s -> uiRxBufferPos (ser s) < 513 ->
  fetch (ucBuffer (ser s)) (uiRxBufferPos (ser s)) = Ret b ->
  exists x s', xMBASCIIReceiveFSM s = Ret (x, s') /\ ascii_timed_J tout t1 frame w s' /\
    ser s' = rxpos_to (ser s) (uiRxBufferPos (ser s) + 1) /\ env s' = tick_to (env s) (ticks (env s')).
Proof using Type.
  intros [HJ Ht] Hp Hb. destruct (ascii_J_step Hclk tout frame b w s HJ Hp Hb) as (x & s' & E & HJ' & Hs & He & Hk).
  exists x, s'. split; [done|]. split; [|done]. split; [done|]. rewrite Hk. destruct w; simpl in *; lia.
Qed.

(** A frame followed by anything on the line ends up in the buffer, with the event posted. *)
Lemma ascii_receive_frame frame s cs rest : clock_ok -> ascii_idle s ->
  xEventInQueue (ev s) = false -> zlen frame <= 255 -> Forall is_byte frame ->
  concat cs = ASCII_COLON :: hexes frame ++ crlf -> Forall piece_ok cs ->
  sel_in (env s) = pieces cs rest ->
  exists s', port_get ascii_fns s = Ret (None, s') /\ ascii_idle s' /\
    (a_pos (asc s') = zlen frame /\ exists r, ucRTUBuf s' = frame ++ r) /\
    ticks (env s') = (ticks (env s) + pred (length (concat cs)))%nat /\
    ev s' = mkEvent true EV_FRAME_RECEIVED /\ ulTimeOut (tm s') = ulTimeOut (tm s) /\
    sel_in (env s') = rest /\ wr_in (env s') = wr_in (env s) /\ line (env s') = line (env s).
Proof using Type.
  intros Hclk (Hl & Hlen & Hsnd & Hrcv & Hen & Hlf) Hev Hn Hby Hcs Hok Hsel.
  destruct (port_get_receive ascii_fns (ascii_timed_J (ulTimeOut (tm s))
    (ticks (env s) + pred (length (concat cs))) frame) s cs rest)
    as (s1 & E & [HJ Htk] & Hl1 & Hi & Hw & Ho); try done.
  { intros w x y Exy [Hj Hk]. split; [by eapply ascii_J_core|].
    assert (ticks (env x) = ticks (env y)) as <- by (unfold core in Exy; congruence). done. }
  { intros. by eapply ascii_timed_step. }
  { split; [|done]. unfold ascii_J. repeat (split; [done|]). left. by rewrite Hcs. }
  cbn [length pred] in Htk. rewrite Nat.add_0_r in Htk.
  destruct HJ as (Hto1 & Hsnd1 & Hlf1 & Hlen1 & _ & _ & Hph).
  assert (forall x, x ++ crlf <> []) as Hne by (by destruct x).
  destruct Hph as [[E1 _]|[(? & ? & ? & _ & E1 & _)|[(? & ? & ? & ? & _ & E1 & _)|
    [(? & E1 & _)|(r & _ & Hrcv1 & Hpos & Hbuf & Hev1 & Hen1)]]]];
    try done; [by symmetry in E1; apply Hne in E1|].
  rewrite E. unfold vMBPortTimerPoll. rewrite Hen1. cbn [mbind mres_bind].
  exists s1. split; [done|]. split; [by repeat (split; [done|])|]. by repeat (split; [by eauto|]).
Qed.

Lemma ascii_take frame s : ascii_idle s -> a_pos (asc s) = zlen frame ->
  (exists r, ucRTUBuf s = frame ++ r) -> 3 <= zlen frame <= 255 ->
  eMBASCIIReceive s =
  (if prvucMBLRC frame =? 0 then
     match frame with
     | a :: _ => Ret (MB_ENOERR, Some (a, 1, zlen frame - 2))
     | [] => BadAccess
     end
   else Ret (MB_EIO, None)).
Proof using Type.
  intros (_ & Hlen & _) Hp [rest Hbuf] Hw. unfold eMBASCIIReceive. rewrite Hp.
  rewrite assert_true by (apply Z.ltb_lt; unfold ASCII_PDU_SIZE_MAX; lia).
  destruct (Z.leb_spec ASCII_PDU_SIZE_MIN (zlen frame)); [|unfold ASCII_PDU_SIZE_MIN in *; lia].
  rewrite fetch_n_ok by (rewrite ?Hbuf, ?zlen_app; pose proof (zlen_nonneg rest); lia).
  cbn [mbind mres_bind]. rewrite Hbuf, zslice_0_app.
  destruct (Z.eqb_spec (prvucMBLRC frame) 0); [|done].
  destruct frame as [|a w]; [unfold zlen in Hw; simpl in Hw; lia|].
  change ((a :: w) ++ rest) with ([] ++ a :: (w ++ rest)). rewrite fetch_mid by done.
  cbn [mbind mres_bind]. unfold ASCII_PDU_SIZE_LRC, u16.
  rewrite Z.mod_small by lia. do 4 f_equal. lia.
Qed.

(** ** Sending *)

Definition ascii_tx_phase (w : list Z) (s : mbs) : Prop :=
  (exists todo pre post, w = ASCII_COLON :: hexes todo ++ crlf /\ a_snd (asc s) = ATX_START /\
    Forall is_byte todo /\ ucRTUBuf s = pre ++ todo ++ post /\ a_cur (asc s) = zlen pre /\
    a_count (asc s) = zlen todo) \/
  (exists todo pre post, w = hexes todo ++ crlf /\ a_snd (asc s) = ATX_DATA /\
    a_bytepos (asc s) = BYTE_HIGH_NIBBLE /\
    Forall is_byte todo /\ ucRTUBuf s = pre ++ todo ++ post /\ a_cur (asc s) = zlen pre /\
    a_count (asc s) = zlen todo) \/
  (exists b todo pre post, w = hex (b mod 16) :: hexes todo ++ crlf /\ a_snd (asc s) = ATX_DATA /\
    a_bytepos (asc s) = BYTE_LOW_NIBBLE /\
    Forall is_byte (b :: todo) /\ ucRTUBuf s = pre ++ (b :: todo) ++ post /\
    a_cur (asc s) = zlen pre /\ a_count (asc s) = zlen (b :: todo)) \/
  (w = [MB_ASCII_DEFAULT_LF] /\ a_snd (asc s) = ATX_END) \/
  (w = [] /\ a_snd (asc s) = ATX_NOTIFY).

Definition ascii_K (tout : Z) (w : list Z) (s : mbs) : Prop :=
  ulTimeOut (tm s) = tout /\
  a_rcv (asc s) = ARX_IDLE /\ a_lf (asc s) = MB_ASCII_DEFAULT_LF /\
  length (ucRTUBuf s) = 256%nat /\ bTimeoutEnable (tm s) = false /\ ascii_tx_phase w s.

Definition ascii_Q (tout : Z) (s : mbs) : Prop :=
  ulTimeOut (tm s) = tout /\
  length (ucRTUBuf s) = 256%nat /\ a_snd (asc s) = ATX_IDLE /\ a_rcv (asc s) = ARX_IDLE /\
  bTimeoutEnable (tm s) = false /\ a_lf (asc s) = MB_ASCII_DEFAULT_LF /\
  ev s = mkEvent true EV_FRAME_SENT.

Lemma ascii_K_step tout b w s : ascii_K tout (b :: w) s -> 0 <= uiTxBufferPos (ser s) < 513 ->
  length (ucBuffer (ser s)) = 513%nat ->
  exists x s', xMBASCIITransmitFSM s = Ret (x, s') /\ ascii_K tout w s' /\
    ser s' = put_byte (ser s) b /\ env s' = env s.
Proof using Type.
  intros (Hto & Hrcv & Hlf & Hlen & Hen & Hph) Hp Hl. unfold xMBASCIITransmitFSM, asc_idle.
  rewrite Hrcv, assert_true by done.
  destruct Hph as [(todo & pre & post & E & Hsnd & Hby & Hbuf & Hcur & Hcnt)|
    [(todo & pre & post & E & Hsnd & Hnib & Hby & Hbuf & Hcur & Hcnt)|
    [(c & todo & pre & post & E & Hsnd & Hnib & Hby & Hbuf & Hcur & Hcnt)|
    [(E & Hsnd)|(E & _)]]]]; [| | | |done]; rewrite Hsnd.
  - injection E as -> ->. rewrite put_byte_ok by (done || unfold ASCII_COLON, is_byte; lia).
    do 2 eexists. split; [done|]. split; [|done]. unfold ascii_K. simpl.
    repeat (split; [done|]). right. left. by exists todo, pre, post.
  - rewrite Hcnt. destruct todo as [|c todo].
    + injection E as -> ->. cbn [zlen length].
      rewrite put_byte_ok by (done || unfold MB_ASCII_DEFAULT_CR, is_byte; lia).
      do 2 eexists. split; [done|]. split; [|done]. unfold ascii_K. simpl.
      repeat (split; [done|]). do 3 right. by left.
    + simpl in E. injection E as -> ->. inv_Forall.
      destruct (nibbles c) as (Hh & _ & Hsh & _); [done|].
      destruct (Z.ltb_spec 0 (zlen (c :: todo))); [|unfold zlen in *; simpl in *; lia].
      rewrite Hbuf. change ((c :: todo) ++ post) with (c :: (todo ++ post)).
      rewrite fetch_mid by done. cbn [mbind mres_bind]. rewrite Hnib, Hsh, hex_char by done.
      cbn [mbind mres_bind]. destruct (hex_value (c / 16) Hh) as (_ & Hb & _).
      rewrite put_byte_ok by done.
      do 2 eexists. split; [done|]. split; [|done]. unfold ascii_K. simpl.
      repeat (split; [done|]). do 2 right. left. exists c, todo, pre, post.
      repeat (split; [done|]). split; [by constructor|]. done.
  - injection E as -> ->. inv_Forall. destruct (nibbles c) as (_ & Hh & _ & Hsh & _); [done|].
    rewrite Hcnt, Hnib. destruct (Z.ltb_spec 0 (zlen (c :: todo))); [|unfold zlen in *; simpl in *; lia].
    rewrite Hbuf. change ((c :: todo) ++ post) with (c :: (todo ++ post)).
    rewrite fetch_mid by done. cbn [mbind mres_bind]. rewrite Hsh, hex_char by done.
    cbn [mbind mres_bind]. destruct (hex_value (c mod 16) Hh) as (_ & Hb & _).
    rewrite put_byte_ok by done.
    do 2 eexists. split; [done|]. split; [|done]. unfold ascii_K. simpl.
    repeat (split; [done|]). right. left. exists todo, (pre ++ [c]), post.
    rewrite <- (assoc_L (++)), zlen_app, Hcur, Hcnt. repeat (split; [done|]).
    unfold zlen. simpl. lia.
  - injection E as -> ->. rewrite Hlf, put_byte_ok by (done || unfold MB_ASCII_DEFAULT_LF, is_byte; lia).
    do 2 eexists. split; [done|]. split; [|done]. unfold ascii_K. simpl.
    repeat (split; [done|]). do 4 right. done.
Qed.

Lemma ascii_K_last tout s : ascii_K tout [] s ->
  exists x s', xMBASCIITransmitFSM s = Ret (x, s') /\ ascii_Q tout s' /\
    ser s' = tx_done (ser s) /\ env s' = env s.
Proof using Type.
  intros (Hto & Hrcv & Hlf & Hlen & Hen & Hph). unfold xMBASCIITransmitFSM, asc_idle.
  rewrite Hrcv, assert_true by done.
  destruct Hph as [(? & ? & ? & E & _)|[(todo & ? & ? & E & _)|[(? & ? & ? & ? & E & _)|
    [(E & _)|(_ & Hsnd)]]]]; try done; [by destruct todo|].
  rewrite Hsnd. cbn [xMBPortEventPost]. rewrite enable_ok by done. cbn [mbind mres_bind].
  do 2 eexists. split; [done|]. by repeat (split; [done|]).
Qed.

Lemma ascii_frame_bytes addr pdu : is_byte addr -> Forall is_byte pdu ->
  Forall is_byte (ascii_frame addr pdu).
Proof using Type.
  intros Ha Hp. constructor; [done|]. apply Forall_app. split; [done|].
  constructor; [apply lrc_byte|done].
Qed.

Lemma ascii_frame_len addr pdu : zlen (ascii_frame addr pdu) = zlen pdu + 2.
Proof using Type. unfold ascii_frame, zlen. simpl. rewrite length_app. simpl. lia. Qed.

Lemma length_hexes l : length (hexes l) = (2 * length l)%nat.
Proof using Type. induction l as [|b l IH]; [done|]. simpl. rewrite IH. lia. Qed.

(** The buffer after [eMBASCIISend] has put the address and the checksum around the PDU. *)
Lemma ascii_send_buffer a0 addr pdu rest :
  length (a0 :: pdu ++ rest) = 256%nat -> zlen pdu <= 253 ->
  exists rest', length (ascii_frame addr pdu ++ rest') = 256%nat /\
  forall s, ucRTUBuf s = a0 :: pdu ++ rest -> a_rcv (asc s) = ARX_IDLE ->
  eMBASCIISend addr 1 (zlen pdu) s =
  (s ← vMBPortSerialEnable false true
         (set_asc (set_buf s (ascii_frame addr pdu ++ rest'))
            (mkAscii ATX_START ARX_IDLE (a_pos (asc s)) (a_bytepos (asc s)) 0
               (zlen (ascii_frame addr pdu)) (a_lf (asc s))));
   Ret (MB_ENOERR, s)).
Proof using Type.
  intros Hlen Hn. pose proof (zlen_nonneg pdu) as Hpos.
  destruct rest as [|r0 rest]; [unfold zlen in Hn; simpl in Hlen;
    rewrite length_app in Hlen; simpl in Hlen; lia|].
  exists rest. set (lrc := prvucMBLRC (addr :: pdu)). unfold ascii_frame. fold lrc. split.
  { simpl in *. rewrite !length_app in *. simpl in *. lia. }
  intros s Hbuf Hrcv. unfold eMBASCIISend, asc_idle. rewrite Hrcv, Hbuf.
  rewrite store_head by done. cbn [mbind mres_bind].
  assert (u16 (1 + zlen pdu) = zlen (addr :: pdu)) as ->.
  { unfold u16. rewrite Z.mod_small by lia. unfold zlen. simpl. lia. }
  rewrite fetch_n_ok; [|lia|unfold zlen; lia|unfold zlen; simpl; rewrite length_app; lia].
  cbn [mbind mres_bind].
  assert (zslice (1 - 1) (zlen (addr :: pdu)) (addr :: pdu ++ r0 :: rest) = addr :: pdu) as ->.
  { apply (zslice_0_app (addr :: pdu)). }
  fold lrc. change (addr :: pdu ++ r0 :: rest) with ((addr :: pdu) ++ r0 :: rest).
  rewrite store_mid by done. cbn [mbind mres_bind].
  assert (u16 (zlen (addr :: pdu) + 1) = zlen (addr :: pdu ++ [lrc])) as ->.
  { change (addr :: pdu ++ [lrc]) with ((addr :: pdu) ++ [lrc]). rewrite zlen_app.
    unfold u16. rewrite Z.mod_small; [done|]. unfold zlen in *. simpl. lia. }
  unfold asc_snd_to, asc_cur_to. cbn [set_asc set_buf asc a_snd a_rcv a_pos a_bytepos a_lf a_cur a_count].
  rewrite Hrcv. simpl. rewrite <- !(assoc_L (++)). done.
Qed.

Lemma ascii_send_ok addr a0 pdu rest s : ascii_idle s -> xEventInQueue (ev s) = false ->
  writes_ok s -> ucRTUBuf s = a0 :: pdu ++ rest -> is_byte addr -> Forall is_byte pdu ->
  1 <= zlen pdu <= 253 ->
  exists s1 s2, eMBASCIISend addr 1 (zlen pdu) s = Ret (MB_ENOERR, s1) /\
    ev s1 = ev s /\ env s1 = env s /\ port_get ascii_fns s1 = Ret (None, s2) /\ ascii_idle s2 /\
    ev s2 = mkEvent true EV_FRAME_SENT /\ ulTimeOut (tm s2) = ulTimeOut (tm s) /\
    line (env s2) = line (env s) ++ ascii_encode addr pdu /\ sel_in (env s2) = sel_in (env s) /\
    writes_ok s2 /\ ticks (env s2) = ticks (env s).
Proof using Type.
  intros ((Hrx & Htx & Hrp & Hlb) & Hlen & Hsnd & Hrcv & Hen & Hlf) Hev Hwr Hbuf Haddr Hpdu Hn.
  rewrite Hbuf in Hlen.
  destruct (ascii_send_buffer a0 addr pdu rest) as (rest' & Hlen' & E); [done|lia|].
  rewrite (E s Hbuf Hrcv), enable_ok by done. cbn [mbind mres_bind].
  eexists. match goal with |- context [Ret (MB_ENOERR, ?x)] => set (s1 := x) end.
  destruct (port_get_transmit ascii_fns (ascii_K (ulTimeOut (tm s))) (ascii_Q (ulTimeOut (tm s))) s1 (ascii_encode addr pdu))
    as (s2 & E2 & HQ & Hl2 & Ho & Hi & Hwr2 & Htk2).
  { apply ascii_K_step. } { apply ascii_K_last. } { intros ? ? HQ. exact HQ. }
  { by intros ? (_ & _ & _ & _ & ? & _). }
  { unfold ascii_K. simpl. repeat (split; [done|]). left. exists (ascii_frame addr pdu), [], rest'.
    repeat (split; [done|]). split; [by apply ascii_frame_bytes|done]. }
  { pose proof (ascii_frame_len addr pdu) as Hz. unfold ascii_encode, zlen in *. cbn [length].
    rewrite length_app, length_hexes. cbn [length]. lia. }
  { done. } { done. } { done. } { done. } { done. } { done. }
  exists s2. repeat (split; [done|]). destruct HQ as (? & ? & ? & ? & ? & ? & ?).
  by repeat (split; [done|]).
Qed.

#[export] Program Instance ascii_frame_layer : FrameLayer ascii_fns := {|
  fl_encode := ascii_encode;
  fl_max := 253;
  fl_timed := false;
  fl_ticks := pred;
  fl_idle := ascii_idle;
  fl_holds := fun addr pdu s => is_byte addr /\ Forall is_byte pdu /\ 1 <= zlen pdu <= 253 /\
    ascii_idle s /\ a_pos (asc s) = zlen (ascii_frame addr pdu) /\
    exists r, ucRTUBuf s = ascii_frame addr pdu ++ r;
  fl_send := ascii_send_ok;
|}.
Next Obligation. done. Qed.
Next Obligation. intros s e Hs. exact Hs. Qed.
Next Obligation. intros s b (? & ? & ? & ? & ?) Hb. by repeat (split; [done|]). Qed.
Next Obligation. intros s e Hs. exact Hs. Qed.
Next Obligation. by intros s (? & ? & ?). Qed.
Next Obligation. by intros addr pdu s (? & ? & ? & ? & ?). Qed.
Next Obligation. intros addr pdu s e Hs. exact Hs. Qed.
Next Obligation.
  intros addr pdu s (Haddr & Hpdu & Hn & Hidle & Hpos & Hbuf).
  pose proof (ascii_frame_len addr pdu) as Hz. cbn [peMBFrameReceiveCur ascii_fns].
  rewrite (ascii_take (ascii_frame addr pdu) s) by (done || lia).
  assert (prvucMBLRC (ascii_frame addr pdu) = 0) as -> by apply (lrc_self (addr :: pdu)).
  cbn [Z.eqb]. rewrite Hz. unfold ascii_frame in *. split; [do 4 f_equal; lia|].
  destruct Hbuf as [rest ->]. simpl. rewrite <- (assoc_L (++)). eauto.
Qed.
Next Obligation.
  intros addr pdu s cs rest Hclk Hs Hev Ha Hp Hn Hcs Hok Hsel _.
  pose proof (ascii_frame_len addr pdu) as Hz.
  destruct (ascii_receive_frame (ascii_frame addr pdu) s cs rest)
    as (s' & E & Hi & (Hpos & Hb) & R); try done; [lia|by apply ascii_frame_bytes|].
  exists s'. done.
Qed.

End ascii_frame.
