(* ===== verification/MbReply.v ===== *)
(** * MbReply: the handlers implement the specification

    Each handler, run on a frame buffer whose bytes after the address are the request, leaves
    there the reply [serve] gives, or returns the exception. *)

From stdpp Require Import strings.
From S2P Require Import Prelude MbPort MbLine MbFunc MbSpec Mb.
#[local] Open Scope Z_scope.
#[local] Ltac Zify.zify_post_hook ::= Z.to_euclidean_division_equations.

(** ** Words and bits *)

Lemma frame16_ok b i h l : is_byte h -> is_byte l -> fetch b i = Ret h -> fetch b (i + 1) = Ret l ->
  frame16 b i = Ret (word h l).
Proof.
  intros Hh Hl E1 E2. unfold frame16. rewrite E1, E2. cbn [mbind mres_bind]. f_equal.
  unfold u16, is_byte, word in *. rewrite Z.mod_small.
  - apply (lor_add h l 8); lia.
  - rewrite Z.shiftl_mul_pow2 by lia. lia.
Qed.

Lemma be16_word h l : is_byte h -> is_byte l -> be16 (word h l) = [h; l].
Proof. unfold be16, word, is_byte. intros. repeat f_equal; lia. Qed.

Lemma word_range h l : is_byte h -> is_byte l -> 0 <= word h l < 65536.
Proof. unfold word, is_byte. lia. Qed.

Lemma coil_bytes_eq n : 0 <= n <= 2040 -> coil_bytes n = bit_bytes n.
Proof.
  intros Hn. unfold coil_bytes, bit_bytes. change 7 with (2 ^ 3 - 1) at 1.
  rewrite land_ones_mod by lia. change (2 ^ 3) with 8.
  destruct (Z.eqb_spec (n mod 8) 0); simpl; unfold u8; change (2 ^ 8) with 256; lia.
Qed.

Lemma exception_not_none st : st <> MB_ENOERR -> prveMBError2Exception st <> MB_EX_NONE.
Proof. by destruct st. Qed.

(** Evaluate the reads of a literal prefix of the buffer. *)
#[local] Ltac read_word :=
  match goal with
  | |- context [frame16 ?b ?i] =>
      erewrite (frame16_ok b i); [| | |reflexivity|reflexivity]; [|done..]; cbn [mbind mres_bind]
  end.
#[local] Ltac read_byte :=
  match goal with
  | |- context [fetch ?b ?i] =>
      let r := eval vm_compute in (fetch b i) in
      replace (fetch b i) with r by reflexivity; cbn [mbind mres_bind]
  end.

Section handlers.
Context `{MbConfig} {A : Type} `{App A} `{!AppLaws A} `{UserHandlers A}.

(** What a handler leaves in the buffer, against what the specification says. *)
Definition implements (a0 : Z) (r : hres (A := A)) (out : (eMBException + list Z) * A) : Prop :=
  match out with
  | (inl e, a) => e <> MB_EX_NONE /\
      exists b n, r = Ret (e, a0 :: b, n, a) /\ length (a0 :: b) = 256%nat
  | (inr reply, a) => Forall is_byte reply /\ 1 <= zlen reply <= 253 /\
      exists rest, r = Ret (MB_EX_NONE, a0 :: reply ++ rest, zlen reply, a) /\
        length (a0 :: reply ++ rest) = 256%nat
  end.

Lemma reject a0 b n (a : A) : length (a0 :: b) = 256%nat ->
  implements a0 (Ret (MB_EX_ILLEGAL_DATA_VALUE, a0 :: b, n, a)) (inl MB_EX_ILLEGAL_DATA_VALUE, a).
Proof using Type. intros. split; [done|]. by exists b, n. Qed.

(** The second half of the reading handlers. *)
Lemma read_half a0 p0 p1 rest fc k n (r : eMBErrorCode * list Z * A) :
  length (a0 :: p0 :: p1 :: rest) = 256%nat -> is_byte fc -> 0 <= k <= 251 -> n = k -> fills k r ->
  implements a0
    (b ← store (a0 :: p0 :: p1 :: rest) (1 + MB_PDU_FUNC_OFF) fc;
     b ← store b (1 + 1) k;
     let '(st, l, a) := r in
     b ← store_n b (1 + 2) l;
     if bool_decide (st = MB_ENOERR) then Ret (MB_EX_NONE, b, u16 (2 + n), a)
     else Ret (prveMBError2Exception st, b, 2, a))
    (read_reply fc k r).
Proof using Type.
  intros Hlen Hfc Hk -> Hf. destruct r as [[st l] a]. destruct Hf as (Hby & Hle & Heq). simpl in *.
  rewrite (store_mid [a0] p0 (p1 :: rest) fc) by done. cbn [mbind mres_bind].
  rewrite (store_mid [a0; fc] p1 rest k) by done. cbn [mbind mres_bind].
  rewrite store_n_ok by (unfold zlen in *; simpl length; lia). cbn [mbind mres_bind].
  assert (zwrite (1 + 2) l ([a0; fc] ++ k :: rest) = a0 :: fc :: k :: l ++ drop (length l) rest) as ->.
  { apply (zwrite_at [a0; fc; k] l rest). unfold zlen in *. lia. }
  case_bool_decide as Hst.
  - specialize (Heq Hst). split; [|split].
    + constructor; [done|]. constructor; [unfold is_byte; lia|done].
    + unfold zlen in *. simpl. lia.
    + exists (drop (length l) rest). simpl. split.
      * do 3 f_equal. unfold u16, zlen in *. simpl length. rewrite Z.mod_small by lia. lia.
      * rewrite length_app, length_drop. unfold zlen in *. lia.
  - split; [by apply exception_not_none|]. do 2 eexists. split; [done|].
    simpl. rewrite length_app, length_drop. unfold zlen in *. lia.
Qed.

(** A reply that repeats the first five bytes of the request. *)
Lemma echo_half a0 c0 c1 c2 c3 c4 rest (st : eMBErrorCode) (a : A) n0 :
  length (a0 :: [c0; c1; c2; c3; c4] ++ rest) = 256%nat -> Forall is_byte [c0; c1; c2; c3; c4] ->
  implements a0
    (if bool_decide (st = MB_ENOERR) then
       Ret (MB_EX_NONE, a0 :: [c0; c1; c2; c3; c4] ++ rest, 5, a)
     else Ret (prveMBError2Exception st, a0 :: [c0; c1; c2; c3; c4] ++ rest, n0, a))
    (write_reply [c0; c1; c2; c3; c4] (st, a)).
Proof using Type.
  intros Hlen Hby. unfold write_reply. case_bool_decide as Hst.
  - split; [done|]. split; [done|]. by exists rest.
  - split; [by apply exception_not_none|]. do 2 eexists. by split.
Qed.

Definition request_frame (a0 : Z) (pdu rest : list Z) : Prop :=
  length (a0 :: pdu ++ rest) = 256%nat /\ Forall is_byte pdu.

(** The length test of the fixed-size requests, on a request of the wrong or the right size. *)
#[local] Ltac split_fixed d :=
  destruct d as [|ah [|al [|nh [|nl [|x d]]]]];
  [by apply reject|by apply reject|by apply reject|by apply reject| |
   match goal with |- context [?n =? 4 + MB_PDU_SIZE_MIN] =>
     destruct (Z.eqb_spec n (4 + MB_PDU_SIZE_MIN));
     [unfold zlen, MB_PDU_SIZE_MIN in *; simpl length in *; lia|by apply reject] end];
  inv_Forall;
  match goal with |- context [?n =? 4 + MB_PDU_SIZE_MIN] =>
    change (n =? 4 + MB_PDU_SIZE_MIN) with true; cbv iota end.

Lemma within_lt lo n hi : (lo <=? n) && (n <? hi + 1) = within lo n hi.
Proof using Type. unfold within. f_equal. destruct (Z.ltb_spec n (hi + 1)), (Z.leb_spec n hi); lia. Qed.

Lemma within_spec lo n hi : within lo n hi = true -> lo <= n <= hi.
Proof using Type. unfold within. intros. breflect. lia. Qed.

(** Evaluate the tests on the function code. *)
#[local] Ltac eval_code :=
  cbn [Z.eqb Pos.eqb MB_FUNC_READ_COILS MB_FUNC_READ_DISCRETE_INPUTS MB_FUNC_READ_HOLDING_REGISTER
       MB_FUNC_READ_INPUT_REGISTER MB_FUNC_WRITE_SINGLE_COIL MB_FUNC_WRITE_REGISTER
       MB_FUNC_WRITE_MULTIPLE_COILS MB_FUNC_WRITE_MULTIPLE_REGISTERS MB_FUNC_OTHER_REPORT_SLAVEID
       MB_FUNC_READWRITE_MULTIPLE_REGISTERS].

Lemma read_input_ok d a0 l rest (a : A) :
  let pdu := MB_FUNC_READ_INPUT_REGISTER :: l in request_frame a0 pdu rest ->
  implements a0 (eMBFuncReadInputRegister (a0 :: pdu ++ rest) 1 (zlen pdu) a) (respond d pdu a).
Proof using AppLaws0.
  intros pdu [Hlen Hby]. subst pdu. unfold eMBFuncReadInputRegister, respond, parse_request.
  eval_code. split_fixed l. do 2 read_word. rewrite (within_lt 1 _ 124).
  destruct (within 1 (word nh nl) 124) eqn:Hn; cbn [andb]; [|by apply reject]. apply within_spec in Hn.
  rewrite (Z.mul_comm _ 2), u8_small by (unfold is_byte; lia).
  apply read_half; [done|done|lia|done|]. apply input_fills. lia.
Qed.

Lemma read_holding_ok d a0 l rest (a : A) :
  let pdu := MB_FUNC_READ_HOLDING_REGISTER :: l in request_frame a0 pdu rest ->
  implements a0 (eMBFuncReadHoldingRegister (a0 :: pdu ++ rest) 1 (zlen pdu) a) (respond d pdu a).
Proof using AppLaws0.
  intros pdu [Hlen Hby]. subst pdu. unfold eMBFuncReadHoldingRegister, respond, parse_request.
  eval_code. split_fixed l. do 2 read_word. fold (within 1 (word nh nl) 125).
  destruct (within 1 (word nh nl) 125) eqn:Hn; cbn [andb]; [|by apply reject]. apply within_spec in Hn.
  rewrite (Z.mul_comm _ 2), u8_small by (unfold is_byte; lia).
  apply read_half; [done|done|lia|done|]. apply holding_fills. lia.
Qed.

Lemma read_coils_ok d a0 l rest (a : A) :
  let pdu := MB_FUNC_READ_COILS :: l in request_frame a0 pdu rest ->
  implements a0 (eMBFuncReadCoils (a0 :: pdu ++ rest) 1 (zlen pdu) a) (respond d pdu a).
Proof using AppLaws0.
  intros pdu [Hlen Hby]. subst pdu. unfold eMBFuncReadCoils, respond, parse_request.
  eval_code. split_fixed l. do 2 read_word. rewrite (within_lt 1 _ 1999).
  destruct (within 1 (word nh nl) 1999) eqn:Hn; cbn [andb]; [|by apply reject]. apply within_spec in Hn.
  rewrite coil_bytes_eq by lia.
  apply read_half; [done|done|unfold bit_bytes; lia|done|]. apply coils_fills. lia.
Qed.

Lemma read_discrete_ok d a0 l rest (a : A) :
  let pdu := MB_FUNC_READ_DISCRETE_INPUTS :: l in request_frame a0 pdu rest ->
  implements a0 (eMBFuncReadDiscreteInputs (a0 :: pdu ++ rest) 1 (zlen pdu) a) (respond d pdu a).
Proof using AppLaws0.
  intros pdu [Hlen Hby]. subst pdu. unfold eMBFuncReadDiscreteInputs, respond, parse_request.
  eval_code. split_fixed l. do 2 read_word. rewrite (within_lt 1 _ 1999).
  destruct (within 1 (word nh nl) 1999) eqn:Hn; cbn [andb]; [|by apply reject]. apply within_spec in Hn.
  rewrite coil_bytes_eq by lia.
  apply read_half; [done|done|unfold bit_bytes; lia|done|]. apply discrete_fills. lia.
Qed.

Lemma write_result (st : eMBErrorCode) (b : list Z) n (a : A) :
  @Ret (eMBException * list Z * Z * A) (prveMBError2Exception st, b, n, a) =
  if bool_decide (st = MB_ENOERR) then Ret (MB_EX_NONE, b, n, a)
  else Ret (prveMBError2Exception st, b, n, a).
Proof using Type. by destruct st. Qed.

Lemma write_register_ok d a0 l rest (a : A) :
  let pdu := MB_FUNC_WRITE_REGISTER :: l in request_frame a0 pdu rest ->
  implements a0 (eMBFuncWriteHoldingRegister (a0 :: pdu ++ rest) 1 (zlen pdu) a) (respond d pdu a).
Proof using Type.
  intros pdu [Hlen Hby]. subst pdu. unfold eMBFuncWriteHoldingRegister, respond, parse_request.
  eval_code. split_fixed l. read_word.
  rewrite fetch_n_ok by (unfold MB_PDU_DATA_OFF, zlen in *; simpl length in *; lia).
  cbn [mbind mres_bind].
  change (zslice (1 + MB_PDU_DATA_OFF + 2) 2 _) with [nh; nl].
  cbn [serve]. rewrite be16_word by done. unfold reg.
  destruct (eMBRegHoldingCB_write a [nh; nl] (u16 (word ah al + 1)) 1) as [st a'].
  rewrite write_result. apply echo_half; [done|]. solve_bytes.
Qed.

Lemma write_coil_ok d a0 l rest (a : A) :
  let pdu := MB_FUNC_WRITE_SINGLE_COIL :: l in request_frame a0 pdu rest ->
  implements a0 (eMBFuncWriteCoil (a0 :: pdu ++ rest) 1 (zlen pdu) a) (respond d pdu a).
Proof using Type.
  intros pdu [Hlen Hby]. subst pdu. unfold eMBFuncWriteCoil, respond, parse_request.
  eval_code. split_fixed l. read_word. do 2 read_byte.
  destruct (Z.eqb_spec nl 0) as [->|]; cbn [andb]; [|by apply reject].
  destruct ((nh =? 0xff) || (nh =? 0)) eqn:Hv; [|by apply reject].
  cbn [serve]. rewrite be16_word by done. unfold reg.
  match goal with |- context [eMBRegCoilsCB_write ?x ?y ?z ?n] =>
    destruct (eMBRegCoilsCB_write x y z n) as [st a'] end.
  rewrite write_result.
  assert ((if nh =? 0xff then 0xff else 0) = nh) as ->.
  { apply orb_true_iff in Hv. destruct (Z.eqb_spec nh 0xff); [done|]. destruct Hv; [done|].
    by breflect. }
  apply echo_half; [done|]. solve_bytes.
Qed.

(** The data of a request that holds all of it. *)
Lemma fetch_values pre values rest n : 0 <= n <= zlen values -> forall i, i = zlen pre ->
  fetch_n (pre ++ values ++ rest) i n = Ret (take (Z.to_nat n) values).
Proof using Type.
  intros Hn i ->. pose proof (zlen_nonneg pre). pose proof (zlen_nonneg rest).
  rewrite fetch_n_ok by (rewrite ?zlen_app; lia). f_equal.
  unfold zslice, zlen. rewrite Nat2Z.id, drop_app_length, take_app_le; [done|].
  unfold zlen in Hn. lia.
Qed.

(** The header of the requests with data: present, or the request is rejected. *)
#[local] Ltac short_reject :=
  match goal with |- context [if ?c then _ else _] =>
    change c with false; cbv iota; by apply reject end.

Lemma write_registers_ok d a0 l rest (a : A) :
  let pdu := MB_FUNC_WRITE_MULTIPLE_REGISTERS :: l in request_frame a0 pdu rest ->
  complete pdu = true ->
  implements a0 (eMBFuncWriteMultipleHoldingRegister (a0 :: pdu ++ rest) 1 (zlen pdu) a)
    (respond d pdu a).
Proof using Type.
  intros pdu [Hlen Hby] Hc. subst pdu.
  unfold eMBFuncWriteMultipleHoldingRegister, respond, parse_request. eval_code.
  destruct l as [|ah [|al [|nh [|nl [|bc values]]]]]; try short_reject. inv_Forall.
  simpl in Hc. apply Z.leb_le in Hc.
  destruct (Z.leb_spec (5 + MB_PDU_SIZE_MIN)
    (zlen (MB_FUNC_WRITE_MULTIPLE_REGISTERS :: ah :: al :: nh :: nl :: bc :: values)));
    [|unfold MB_PDU_SIZE_MIN, zlen in *; simpl length in *; lia].
  do 2 read_word. read_byte. fold (within 1 (word nh nl) 120).
  destruct (within 1 (word nh nl) 120) eqn:Hn; cbn [andb]; [|by apply reject]. apply within_spec in Hn.
  rewrite u8_small by (unfold is_byte; lia).
  destruct (Z.eqb_spec bc (2 * word nh nl)) as [->|]; cbn [andb]; [|by apply reject].
  match goal with |- context [a0 :: (?p1 :: ?p2 :: ?p3 :: ?p4 :: ?p5 :: ?p6 :: ?v) ++ ?r] =>
    change (a0 :: (p1 :: p2 :: p3 :: p4 :: p5 :: p6 :: v) ++ r)
      with ([a0; p1; p2; p3; p4; p5; p6] ++ v ++ r) end.
  rewrite fetch_values by (done || lia). cbn [mbind mres_bind serve].
  rewrite !be16_word by done. unfold reg.
  match goal with |- context [eMBRegHoldingCB_write ?x ?y ?z ?n] =>
    destruct (eMBRegHoldingCB_write x y z n) as [st a'] end.
  apply (echo_half a0 _ ah al nh nl (2 * word nh nl :: values ++ rest)); [done|]. solve_bytes.
Qed.

Lemma write_coils_ok d a0 l rest (a : A) :
  let pdu := MB_FUNC_WRITE_MULTIPLE_COILS :: l in request_frame a0 pdu rest ->
  complete pdu = true ->
  implements a0 (eMBFuncWriteMultipleCoils (a0 :: pdu ++ rest) 1 (zlen pdu) a) (respond d pdu a).
Proof using Type.
  intros pdu [Hlen Hby] Hc. subst pdu.
  unfold eMBFuncWriteMultipleCoils, respond, parse_request. eval_code.
  destruct l as [|ah [|al [|nh [|nl [|bc values]]]]]; try short_reject. inv_Forall.
  simpl in Hc. apply Z.leb_le in Hc.
  destruct (Z.ltb_spec (4 + MB_PDU_SIZE_MIN)
    (zlen (MB_FUNC_WRITE_MULTIPLE_COILS :: ah :: al :: nh :: nl :: bc :: values)));
    [|unfold MB_PDU_SIZE_MIN, zlen in *; simpl length in *; lia].
  do 2 read_word. read_byte. fold (within 1 (word nh nl) 1968).
  destruct (within 1 (word nh nl) 1968) eqn:Hn; cbn [andb]; [|by apply reject]. apply within_spec in Hn.
  rewrite coil_bytes_eq, Z.eqb_sym by lia.
  destruct (Z.eqb_spec bc (bit_bytes (word nh nl))) as [->|]; cbn [andb]; [|by apply reject].
  match goal with |- context [a0 :: (?p1 :: ?p2 :: ?p3 :: ?p4 :: ?p5 :: ?p6 :: ?v) ++ ?r] =>
    change (a0 :: (p1 :: p2 :: p3 :: p4 :: p5 :: p6 :: v) ++ r)
      with ([a0; p1; p2; p3; p4; p5; p6] ++ v ++ r) end.
  rewrite fetch_values by (done || unfold bit_bytes in *; lia). cbn [mbind mres_bind serve].
  rewrite !be16_word by done. unfold reg.
  match goal with |- context [eMBRegCoilsCB_write ?x ?y ?z ?n] =>
    destruct (eMBRegCoilsCB_write x y z n) as [st a'] end.
  apply (echo_half a0 _ ah al nh nl (bit_bytes (word nh nl) :: values ++ rest)); [done|]. solve_bytes.
Qed.

Lemma read_write_ok d a0 l rest (a : A) :
  let pdu := MB_FUNC_READWRITE_MULTIPLE_REGISTERS :: l in request_frame a0 pdu rest ->
  complete pdu = true ->
  implements a0 (eMBFuncReadWriteMultipleHoldingRegister (a0 :: pdu ++ rest) 1 (zlen pdu) a)
    (respond d pdu a).
Proof using AppLaws0.
  intros pdu [Hlen Hby] Hc. subst pdu.
  unfold eMBFuncReadWriteMultipleHoldingRegister, respond, parse_request. eval_code.
  destruct l as [|rah [|ral [|rnh [|rnl [|wah [|wal [|wnh [|wnl [|bc values]]]]]]]]]; try done.
  inv_Forall. simpl in Hc. apply Z.leb_le in Hc.
  match goal with |- context [9 + MB_PDU_SIZE_MIN <=? ?n] =>
    destruct (Z.leb_spec (9 + MB_PDU_SIZE_MIN) n);
    [|unfold MB_PDU_SIZE_MIN, zlen in *; simpl length in *; lia] end.
  do 4 read_word. read_byte.
  fold (within 1 (word rnh rnl) 0x7d).
  rewrite <- (andb_assoc _ (1 <=? word wnh wnl)). fold (within 1 (word wnh wnl) 0x79).
  destruct (within 1 (word rnh rnl) 0x7d) eqn:Hr; cbn [andb]; [|by apply reject]. apply within_spec in Hr.
  destruct (within 1 (word wnh wnl) 0x79) eqn:Hn; cbn [andb]; [|by apply reject]. apply within_spec in Hn.
  rewrite Z.eqb_sym.
  destruct (Z.eqb_spec bc (2 * word wnh wnl)) as [->|]; cbn [andb]; [|by apply reject].
  match goal with |- context [a0 :: (?p1 :: ?p2 :: ?p3 :: ?p4 :: ?p5 :: ?p6 :: ?p7 :: ?p8 :: ?p9 ::
      ?p10 :: ?v) ++ ?r] =>
    change (a0 :: (p1 :: p2 :: p3 :: p4 :: p5 :: p6 :: p7 :: p8 :: p9 :: p10 :: v) ++ r)
      with ([a0; p1; p2; p3; p4; p5; p6; p7; p8; p9; p10] ++ v ++ r) in * end.
  rewrite fetch_values by (done || lia). cbn [mbind mres_bind serve]. unfold reg.
  match goal with |- context [eMBRegHoldingCB_write ?x ?y ?z ?n] =>
    destruct (eMBRegHoldingCB_write x y z n) as [st a'] end.
  case_bool_decide as Hst.
  - rewrite (Z.mul_comm _ 2), u8_small by (unfold is_byte; lia).
    apply (read_half a0); [done|done|lia|done|]. apply holding_fills. lia.
  - split; [by apply exception_not_none|]. do 2 eexists. by split.
Qed.

(** The slave identification fits a PDU. *)
Definition id_ok (d : slave_id) : Prop :=
  Forall is_byte (ucMBSlaveID d) /\ 0 <= usMBSlaveIDLen d <= 252 /\
  usMBSlaveIDLen d <= zlen (ucMBSlaveID d).

Lemma report_ok d a0 l rest (a : A) : id_ok d ->
  let pdu := MB_FUNC_OTHER_REPORT_SLAVEID :: l in request_frame a0 pdu rest ->
  implements a0 (eMBFuncReportSlaveID d (a0 :: pdu ++ rest) 1 (zlen pdu) a) (respond d pdu a).
Proof using Type.
  intros (Hby & Hlen & Hle) pdu [H256 _]. unfold eMBFuncReportSlaveID, respond, parse_request.
  subst pdu. eval_code. cbn [serve]. rewrite fetch_n_ok by lia. cbn [mbind mres_bind].
  set (id := zslice 0 (usMBSlaveIDLen d) (ucMBSlaveID d)).
  assert (zlen id = usMBSlaveIDLen d) as Hid by (apply zlen_zslice; lia).
  change (a0 :: (MB_FUNC_OTHER_REPORT_SLAVEID :: l) ++ rest)
    with ([a0; MB_FUNC_OTHER_REPORT_SLAVEID] ++ l ++ rest) in *.
  rewrite length_app in H256. cbn [length] in H256.
  assert (zlen (l ++ rest) = 254) as Hz by (unfold zlen; lia).
  rewrite store_n_ok; [|unfold MB_PDU_DATA_OFF; lia|rewrite zlen_app, Hid, Hz; unfold MB_PDU_DATA_OFF, zlen; simpl; lia].
  cbn [mbind mres_bind].
  rewrite (zwrite_at [a0; MB_FUNC_OTHER_REPORT_SLAVEID] id) by (unfold zlen in *; lia).
  split; [constructor; [unfold MB_FUNC_OTHER_REPORT_SLAVEID, is_byte; lia|by apply Forall_zslice]|].
  assert (zlen (MB_FUNC_OTHER_REPORT_SLAVEID :: id) = 1 + usMBSlaveIDLen d) as ->
    by (rewrite <- Hid; unfold zlen; simpl; lia).
  split; [lia|]. eexists. unfold MB_PDU_DATA_OFF, u16. rewrite Z.mod_small by lia. split; [done|].
  simpl. rewrite length_app, length_drop. unfold zlen in *. lia.
Qed.

(** The handler of each function code of the table. *)
Definition std_handler (fc : Z) : option handler :=
  if fc =? MB_FUNC_OTHER_REPORT_SLAVEID then Some H_ReportSlaveID
  else if fc =? MB_FUNC_READ_INPUT_REGISTER then Some H_ReadInputRegister
  else if fc =? MB_FUNC_READ_HOLDING_REGISTER then Some H_ReadHoldingRegister
  else if fc =? MB_FUNC_WRITE_MULTIPLE_REGISTERS then Some H_WriteMultipleHoldingRegister
  else if fc =? MB_FUNC_WRITE_REGISTER then Some H_WriteHoldingRegister
  else if fc =? MB_FUNC_READWRITE_MULTIPLE_REGISTERS then Some H_ReadWriteMultipleHoldingRegister
  else if fc =? MB_FUNC_READ_COILS then Some H_ReadCoils
  else if fc =? MB_FUNC_WRITE_SINGLE_COIL then Some H_WriteCoil
  else if fc =? MB_FUNC_WRITE_MULTIPLE_COILS then Some H_WriteMultipleCoils
  else if fc =? MB_FUNC_READ_DISCRETE_INPUTS then Some H_ReadDiscreteInputs
  else None.

Lemma find_cons c h t fc : c <> 0 ->
  find_handler (mkHandler c h :: t) fc = if fc =? c then Some h else find_handler t fc.
Proof using Type.
  intros Hc. cbn [find_handler ucFunctionCode pxHandler]. rewrite (Z.eqb_sym fc).
  by destruct (Z.eqb_spec c 0).
Qed.

Lemma find_init fc : find_handler xFuncHandlers_init fc = Some <$> std_handler fc.
Proof using Type.
  unfold xFuncHandlers_init, std_handler.
  generalize (CONFIG_MB_FUNC_HANDLERS_MAX - length initial_handlers)%nat. intros k.
  unfold initial_handlers. rewrite <- !app_comm_cons, app_nil_l. rewrite !find_cons by done.
  repeat match goal with |- context [fc =? ?c] => destruct (fc =? c); [done|] end.
  by destruct k.
Qed.

(** A PDU served by the handler of its function code. *)
Lemma std_handler_ok d a0 fc l rest (a : A) h : id_ok d -> request_frame a0 (fc :: l) rest ->
  complete (fc :: l) = true -> std_handler fc = Some h ->
  implements a0 (run_handler h d (a0 :: (fc :: l) ++ rest) 1 (zlen (fc :: l)) a)
    (respond d (fc :: l) a).
Proof using AppLaws0.
  intros Hd Hf Hc Hh. unfold std_handler in Hh.
  repeat match type of Hh with context [fc =? ?c] =>
    destruct (Z.eqb_spec fc c) as [->|]; [injection Hh as <-|] end; [..|done];
  cbn [run_handler];
  eauto using report_ok, read_input_ok, read_holding_ok, write_registers_ok, write_register_ok,
    read_write_ok, read_coils_ok, write_coil_ok, write_coils_ok, read_discrete_ok.
Qed.

Lemma no_handler_respond d fc l (a : A) : std_handler fc = None ->
  respond d (fc :: l) a = (inl MB_EX_ILLEGAL_FUNCTION, a).
Proof using Type.
  unfold std_handler, respond, parse_request. intros Hh.
  repeat match type of Hh with context [fc =? ?c] =>
    destruct (Z.eqb_spec fc c); [done|] end.
  repeat match goal with |- context [fc =? ?c] => destruct (Z.eqb_spec fc c); [done|] end. done.
Qed.

End handlers.
