(* ===== verification/MbExchange.v ===== *)
(** * MbExchange: requests on the line, replies on the line

    The slave over any frame layer: what [eMBPoll] makes of a frame addressed to the slave, of
    a broadcast and of a frame for another slave, and of a whole sequence of frames. *)

From stdpp Require Import strings.
From S2P Require Import Prelude MbCrc MbPort MbLine MbFunc MbSpec Mb MbFrame MbReply.
#[local] Open Scope Z_scope.

Lemma lor_error_byte fc : is_byte fc -> u8 (Z.lor fc MB_FUNC_ERROR) = Z.lor fc MB_FUNC_ERROR.
Proof.
  intros Hfc. apply u8_small. unfold MB_FUNC_ERROR.
  pose proof (range_sweep (fun x => (0 <=? Z.lor x 128) && (Z.lor x 128 <? 256)) 256) as Hs.
  specialize (Hs ltac:(vm_compute; reflexivity) fc Hfc). cbv beta in Hs. breflect.
  unfold is_byte. lia.
Qed.

Lemma exception_code_byte e : is_byte (exception_code e).
Proof. destruct e; unfold is_byte; simpl; lia. Qed.

Section exchange.
Context `{MbConfig} `{Clock} {A : Type} `{App A} `{!AppLaws A} `{UserHandlers A}.

(** ** One execution *)

(** The handlers and the exception frame together leave the answer in the buffer. *)
Lemma dispatch_answer (v : slave A) a0 fc l rest :
  xFuncHandlers v = xFuncHandlers_init -> id_ok (sid v) -> complete (fc :: l) = true ->
  ucRTUBuf (mb v) = a0 :: (fc :: l) ++ rest -> request_frame a0 (fc :: l) rest ->
  usLength v = zlen (fc :: l) ->
  let r := answer (sid v) (fc :: l) (app v) in
  Forall is_byte r.1 /\ 1 <= zlen r.1 <= 253 /\
  exists e b n rest', dispatch v 1 = Ret (fc, (e, b, n, r.2)) /\ length b = 256%nat /\
    exception_frame b 1 fc e n = Ret (a0 :: r.1 ++ rest', zlen r.1) /\
    length (a0 :: r.1 ++ rest') = 256%nat.
Proof using AppLaws0.
  intros Hh Hid Hc Hbuf Hrf Hlen r. assert (is_byte fc) as Hfc by (destruct Hrf; by inv_Forall).
  assert (exists X, dispatch v 1 = (r ← X; Ret (fc, r)) /\
    implements a0 X (respond (sid v) (fc :: l) (app v))) as (X & -> & Himp).
  { assert (fetch (ucRTUBuf (mb v)) (1 + MB_PDU_FUNC_OFF) = Ret fc) as Hfetch.
    { rewrite Hbuf. by apply (fetch_mid [a0] fc (l ++ rest)). }
    eexists. split; [unfold dispatch; rewrite Hfetch; reflexivity|].
    rewrite Hh, find_init, Hbuf, Hlen. destruct (std_handler fc) as [h|] eqn:E; simpl.
    - by apply std_handler_ok.
    - rewrite no_handler_respond by done. split; [done|]. do 2 eexists. split; [done|]. apply Hrf. }
  unfold r, answer. destruct (respond (sid v) (fc :: l) (app v)) as [[e|reply] a']; simpl in Himp.
  - destruct Himp as (He & b & n & -> & Hb). cbn [mbind mres_bind fst snd hd].
    destruct b as [|b0 [|b1 b]]; [done..|]. rewrite <- lor_error_byte by done. split.
    { constructor; [apply u8_range|]. constructor; [apply exception_code_byte|done]. }
    split; [unfold zlen; simpl; lia|].
    exists e, (a0 :: b0 :: b1 :: b), n, b. split; [done|]. split; [done|].
    unfold exception_frame. rewrite bool_decide_false by done.
    rewrite (store_mid [a0] b0 (b1 :: b)) by done. cbn [mbind mres_bind].
    rewrite (store_mid [a0; u8 (Z.lor fc MB_FUNC_ERROR)] b1 b) by done. cbn [mbind mres_bind].
    rewrite (u8_small (exception_code e)) by apply exception_code_byte. done.
  - destruct Himp as (Hby & Hn & rest' & -> & Hb). cbn [mbind mres_bind fst snd].
    split; [done|]. split; [done|]. exists MB_EX_NONE, (a0 :: reply ++ rest'), (zlen reply), rest'.
    done.
Qed.

(** ** States between two exchanges *)

Section layer.
Variable m : eMBMode.
Context `{FL : !FrameLayer (fns_of (Some m))}.

(** Enabled, idle, no event pending, the table of handlers as built. *)
Definition ready (v : slave A) : Prop :=
  eMBState v = STATE_ENABLED /\ fns v = Some m /\ fl_idle (mb v) /\
  xEventInQueue (ev (mb v)) = false /\ xFuncHandlers v = xFuncHandlers_init /\ id_ok (sid v) /\
  is_byte (ucMBAddress v) /\ ucMBAddress v <> MB_ADDRESS_BROADCAST /\ writes_ok (mb v).

(** What an exchange with a frame of [k] bytes does not change, and the clock. *)
Definition same_setup (k : nat) (v v' : slave A) : Prop :=
  ucMBAddress v' = ucMBAddress v /\ sid v' = sid v /\
  ulTimeOut (tm (mb v')) = ulTimeOut (tm (mb v)) /\
  ticks (env (mb v')) = (ticks (env (mb v)) + fl_ticks k)%nat.

(** A frame for [addr] arrives in pieces, followed by silence. *)
Definition arrives (v : slave A) (addr : Z) (pdu : list Z) (cs : list (list Z)) (rest : list sel) :
    Prop :=
  is_byte addr /\ Forall is_byte pdu /\ 1 <= zlen pdu <= fl_max /\
  concat cs = fl_encode addr pdu /\ Forall piece_ok cs /\
  sel_in (env (mb v)) = pieces cs rest /\ (fl_timed = true -> line_gap (mb v) (length (concat cs))).

Lemma poll_enabled v k : eMBState v = STATE_ENABLED -> fns v = Some m ->
  polls (S k) v =
  ('(e, s) ← port_get (fns_of (Some m)) (mb v);
   v ← match e with
       | Some EV_FRAME_RECEIVED => frame_received (on_mb v s)
       | Some EV_EXECUTE => execute (on_mb v s)
       | _ => Ret (on_mb v s)
       end;
   polls k v).
Proof using Type.
  intros Hst Hf. cbn [polls]. unfold eMBPoll. rewrite bool_decide_true by done. cbn [negb].
  rewrite Hf. unfold port_get. destruct (xMBPortEventGet _ _ _ _) as [[e s]| | |]; [|done..].
  cbn [mbind mres_bind]. destruct e as [[]|]; cbn [mbind mres_bind]; try done.
  - by destruct (frame_received _).
  - by destruct (execute _).
Qed.

Lemma port_get_event f s e : ev s = mkEvent true e ->
  port_get f s = Ret (Some e, set_ev s (mkEvent false e)).
Proof using Type. intros E. unfold port_get, xMBPortEventGet. by rewrite E. Qed.

(** The slave after a frame has been taken. *)
Definition got_frame (v : slave A) (s : mbs) (addr n : Z) : slave A :=
  mkSlave s (ucMBAddress v) (eMBCurrentMode v) (eMBState v) (fns v) (xFuncHandlers v) (sid v)
    (app v) (Some 1) addr (p_ucFunctionCode v) n (eException v).

(** Two polls: the frame is received, then looked at. *)
Lemma polls_receive v addr pdu cs rest : clock_ok -> ready v -> arrives v addr pdu cs rest ->
  exists s, fl_holds addr pdu s /\ ticks (env s) = (ticks (env (mb v)) + fl_ticks (length (concat cs)))%nat /\
    ulTimeOut (tm s) = ulTimeOut (tm (mb v)) /\
    sel_in (env s) = rest /\ wr_in (env s) = wr_in (env (mb v)) /\
    line (env s) = line (env (mb v)) /\
    forall k, polls (S (S k)) v =
      polls k (got_frame v
        (set_ev s (if (addr =? ucMBAddress v) || (addr =? MB_ADDRESS_BROADCAST)
                   then mkEvent true EV_EXECUTE else mkEvent false EV_FRAME_RECEIVED))
        addr (zlen pdu)).
Proof using Type.
  intros Hclk (Hst & Hf & Hidle & Hev & _) (Ha & Hp & Hn & Hcs & Hok & Hsel & Hgap).
  destruct (fl_receive addr pdu (mb v) cs rest) as (s & E & Hh & Htk & Hev1 & Hto & Hi & Hw & Ho); try done.
  exists s. repeat (split; [done|]). intros k. rewrite poll_enabled, E by done.
  cbn [mbind mres_bind]. rewrite poll_enabled by done. cbn [on_mb mb].
  rewrite (port_get_event _ s EV_FRAME_RECEIVED) by done. cbn [mbind mres_bind].
  unfold frame_received. cbn [on_mb mb fns]. rewrite Hf.
  destruct (fl_take addr pdu (set_ev s (mkEvent false EV_FRAME_RECEIVED))) as [-> _];
    [by apply fl_holds_ev|].
  cbn [mbind mres_bind ucMBAddress]. unfold got_frame. rewrite Hf.
  by destruct ((addr =? _) || _).
Qed.

(** The state the handlers work on. *)
Lemma taken_frame v s addr fc l e :
  fl_holds addr (fc :: l) s -> xFuncHandlers v = xFuncHandlers_init -> id_ok (sid v) ->
  Forall is_byte (fc :: l) -> complete (fc :: l) = true ->
  let g := got_frame v (set_ev s e) addr (zlen (fc :: l)) in
  let r := answer (sid v) (fc :: l) (app v) in
  Forall is_byte r.1 /\ 1 <= zlen r.1 <= 253 /\
  exists ex b n rest', dispatch g 1 = Ret (fc, (ex, b, n, r.2)) /\ length b = 256%nat /\
    exception_frame b 1 fc ex n = Ret (addr :: r.1 ++ rest', zlen r.1) /\
    length (addr :: r.1 ++ rest') = 256%nat.
Proof using AppLaws0.
  intros Hh Hhd Hid Hby Hc g r. destruct (fl_take addr (fc :: l) s Hh) as [_ [rest Hbuf]].
  pose proof (fl_idle_256 s (fl_holds_idle _ _ _ Hh)) as Hlen. rewrite Hbuf in Hlen.
  by apply (dispatch_answer g addr fc l rest).
Qed.

(** ** A request to the slave *)

Lemma exchange_own v pdu cs rest : clock_ok -> ready v -> complete pdu = true ->
  arrives v (ucMBAddress v) pdu cs rest ->
  exists v', polls 5 v = Ret v' /\ ready v' /\ same_setup (length (concat cs)) v v' /\
    sel_in (env (mb v')) = rest /\
    app v' = (answer (sid v) pdu (app v)).2 /\
    line (env (mb v')) =
      line (env (mb v)) ++ fl_encode (ucMBAddress v) (answer (sid v) pdu (app v)).1.
Proof using AppLaws0.
  intros Hclk Hr Hc Harr. pose proof Hr as (Hst & Hf & Hidle & Hev & Hhd & Hid & Hub & Hnb & Hwr).
  destruct (polls_receive _ _ _ _ _ Hclk Hr Harr) as (s & Hh & Htk & Hto & Hi & Hw & Ho & E).
  rewrite (E 3%nat), Z.eqb_refl. cbn [orb]. clear E. destruct Harr as (_ & Hby & Hn & _).
  destruct pdu as [|fc l]; [unfold zlen in Hn; simpl in Hn; lia|].
  rewrite poll_enabled by done. cbn [got_frame mb]. rewrite (port_get_event _ _ EV_EXECUTE) by done.
  cbn [mbind mres_bind]. set (s3 := set_ev s (mkEvent false EV_EXECUTE)).
  destruct (taken_frame v s (ucMBAddress v) fc l (mkEvent false EV_EXECUTE))
    as (Hrb & Hrn & ex & b & n & rest' & Ed & Hb & Ee & Hb'); try done.
  unfold execute. cbn [on_mb ucMBFrame got_frame].
  change (on_mb _ _) with (got_frame v s3 (ucMBAddress v) (zlen (fc :: l))).
  fold s3 in Ed. rewrite Ed. cbn [mbind mres_bind ucRcvAddress got_frame].
  destruct (Z.eqb_spec (ucMBAddress v) MB_ADDRESS_BROADCAST) as [|_]; [done|]. cbn [negb].
  rewrite Ee. unfold got_frame. cbn [mbind mres_bind fns mb ucMBAddress eMBCurrentMode eMBState
    xFuncHandlers sid]. rewrite Hf.
  set (r := answer (sid v) (fc :: l) (app v)) in *.
  destruct (fl_send (ucMBAddress v) (ucMBAddress v) r.1 rest' (set_buf s3 (ucMBAddress v :: r.1 ++ rest')))
    as (s4 & s5 & E4 & Hev4 & Henv4 & E5 & Hi5 & Hev5 & Hto5 & Ho5 & Hs5 & Hw5 & Htk5); try done.
  { apply fl_idle_buf; [|done]. by eapply fl_idle_ev, fl_holds_idle. }
  { unfold writes_ok. simpl. by rewrite Hw. }
  rewrite E4. cbn [mbind mres_bind]. rewrite poll_enabled by done. cbn [mb]. rewrite E5.
  cbn [mbind mres_bind]. rewrite poll_enabled by done. cbn [on_mb mb].
  rewrite (port_get_event _ s5 EV_FRAME_SENT) by done. cbn [mbind mres_bind].
  eexists. split; [done|]. split; [|split; [|split; [|split]]].
  - unfold ready. simpl. repeat (split; [done || by apply fl_idle_ev|]). done.
  - split; [done|]. split; [done|]. simpl. rewrite Hto5, Htk5. done.
  - simpl. rewrite Hs5. done.
  - done.
  - simpl. rewrite Ho5. simpl. by rewrite Ho.
Qed.

(** ** A broadcast *)

Lemma exchange_broadcast v pdu cs rest : clock_ok -> ready v -> complete pdu = true ->
  arrives v MB_ADDRESS_BROADCAST pdu cs rest ->
  exists v', polls 3 v = Ret v' /\ ready v' /\ same_setup (length (concat cs)) v v' /\
    sel_in (env (mb v')) = rest /\
    app v' = (answer (sid v) pdu (app v)).2 /\ line (env (mb v')) = line (env (mb v)).
Proof using AppLaws0.
  intros Hclk Hr Hc Harr. pose proof Hr as (Hst & Hf & Hidle & Hev & Hhd & Hid & Hub & Hnb & Hwr).
  destruct (polls_receive _ _ _ _ _ Hclk Hr Harr) as (s & Hh & Htk & Hto & Hi & Hw & Ho & E).
  rewrite (E 1%nat), Z.eqb_refl, orb_true_r. clear E. destruct Harr as (_ & Hby & Hn & _).
  destruct pdu as [|fc l]; [unfold zlen in Hn; simpl in Hn; lia|].
  rewrite poll_enabled by done. cbn [got_frame mb]. rewrite (port_get_event _ _ EV_EXECUTE) by done.
  cbn [mbind mres_bind]. set (s3 := set_ev s (mkEvent false EV_EXECUTE)).
  destruct (taken_frame v s MB_ADDRESS_BROADCAST fc l (mkEvent false EV_EXECUTE))
    as (_ & _ & ex & b & n & rest' & Ed & Hb & _ & _); try done.
  unfold execute. cbn [on_mb ucMBFrame got_frame].
  change (on_mb _ _) with (got_frame v s3 MB_ADDRESS_BROADCAST (zlen (fc :: l))).
  fold s3 in Ed. rewrite Ed. cbn [mbind mres_bind ucRcvAddress got_frame polls].
  rewrite Z.eqb_refl. cbn [negb mbind mres_bind].
  eexists. split; [done|]. split; [|by repeat split].
  unfold ready. simpl. repeat (split; [done|]).
  split; [apply fl_idle_buf; [|done]; by eapply fl_idle_ev, fl_holds_idle|].
  repeat (split; [done|]). unfold writes_ok. simpl. by rewrite Hw.
Qed.

(** ** A frame for another slave *)

Lemma exchange_other v addr pdu cs rest : clock_ok -> ready v ->
  addr <> ucMBAddress v -> addr <> MB_ADDRESS_BROADCAST -> arrives v addr pdu cs rest ->
  exists v', polls 2 v = Ret v' /\ ready v' /\ same_setup (length (concat cs)) v v' /\
    sel_in (env (mb v')) = rest /\
    app v' = app v /\ line (env (mb v')) = line (env (mb v)).
Proof using Type.
  intros Hclk Hr Ha Hab Harr. pose proof Hr as (Hst & Hf & Hidle & Hev & Hhd & Hid & Hub & Hnb & Hwr).
  destruct (polls_receive _ _ _ _ _ Hclk Hr Harr) as (s & Hh & Htk & Hto & Hi & Hw & Ho & E).
  rewrite (E 0%nat). destruct (Z.eqb_spec addr (ucMBAddress v)); [done|].
  destruct (Z.eqb_spec addr MB_ADDRESS_BROADCAST); [done|]. cbn [orb polls].
  eexists. split; [done|]. split; [|by repeat split].
  unfold ready. simpl. repeat (split; [done|]). split; [by eapply fl_idle_ev, fl_holds_idle|].
  repeat (split; [done|]). unfold writes_ok. simpl. by rewrite Hw.
Qed.

(** ** A sequence of frames *)

(** What the slave at address [own] answers to a sequence of frames on the bus. *)
Fixpoint session (own : Z) (d : slave_id) (fs : list (Z * list Z)) (a : A) : list (list Z) * A :=
  match fs with
  | [] => ([], a)
  | (addr, pdu) :: fs =>
      if addr =? own then
        let '(r, a) := answer d pdu a in
        let '(rs, a) := session own d fs a in (r :: rs, a)
      else if addr =? MB_ADDRESS_BROADCAST then session own d fs (answer d pdu a).2
      else session own d fs a
  end.

(** A frame with the pieces it arrives in; what the slave at address [own] is to execute has all
    the data it announces. *)
Definition frame_ok (own : Z) (f : Z * list Z * list (list Z)) : Prop :=
  let '(addr, pdu, cs) := f in
  is_byte addr /\ Forall is_byte pdu /\ 1 <= zlen pdu <= fl_max /\
  (addr = own \/ addr = MB_ADDRESS_BROADCAST -> complete pdu = true) /\
  concat cs = fl_encode addr pdu /\ Forall piece_ok cs.

(** In a layer whose frames end by silence, the clock passes the time-out between the last byte of
    each frame and the poll after it.  [t] readings were taken before; [ks] are the lengths of the
    frames.  Nothing is asked of the readings taken at the bytes of a frame. *)
Fixpoint silences (tout : Z) (t : nat) (ks : list nat) : Prop :=
  match ks with
  | [] => True
  | k :: ks =>
      (fl_timed = true -> exists c c', clock (pred (t + k)) = Some c /\ clock (t + k)%nat = Some c' /\ tout < ulDeltaMS c' c) /\
      silences tout (t + fl_ticks k) ks
  end.

(** Two readings of the clock are further apart than the time-out. *)
Definition steady (tout : Z) : Prop :=
  forall n, exists t t', clock n = Some t /\ clock (S n) = Some t' /\ tout < ulDeltaMS t' t.

Lemma steady_gap s k : steady (ulTimeOut (tm s)) -> (0 < k)%nat -> line_gap s k.
Proof using Type.
  intros Hs Hk. destruct (Hs (pred (ticks (env s) + k))) as (t & t' & E & E' & Hlt).
  exists t, t'. replace (S (pred (ticks (env s) + k))) with (ticks (env s) + k)%nat in E' by lia. done.
Qed.

Lemma polls_plus n k v v' : polls n v = Ret v' -> polls (n + k) v = polls k v'.
Proof using Type.
  revert v. induction n as [|n IH]; intros v E; [by injection E as ->|].
  cbn [polls Nat.add] in *. destruct (eMBPoll v) as [[e w]| | |]; [|done..].
  cbn [mbind mres_bind] in *. by apply IH.
Qed.

Lemma session_polls (Hclk : clock_ok) fs : forall v tail, ready v -> Forall (frame_ok (ucMBAddress v)) fs ->
  silences (ulTimeOut (tm (mb v))) (ticks (env (mb v))) ((fun f => length (concat f.2)) <$> fs) ->
  sel_in (env (mb v)) = foldr (fun f rest => pieces f.2 rest) tail fs ->
  let r := session (ucMBAddress v) (sid v) (fst <$> fs) (app v) in
  exists n v', polls n v = Ret v' /\ ready v' /\ app v' = r.2 /\
    line (env (mb v')) = line (env (mb v)) ++ concat (fl_encode (ucMBAddress v) <$> r.1) /\
    sel_in (env (mb v')) = tail.
Proof using AppLaws0.
  induction fs as [|[[addr pdu] cs] fs IH]; intros v tail Hr Hok Hs Hsel.
  { exists 0%nat, v. simpl. by rewrite app_nil_r. }
  apply Forall_cons_1 in Hok as [(Ha & Hp & Hn & Hc & Hcs & Hpc) Hok]. destruct Hs as [Hs Hnext_s].
  assert (arrives v addr pdu cs (foldr (fun f rest => pieces f.2 rest) tail fs)) as Harr.
  { repeat (split; [done|]). exact Hs. }
  assert (forall v1 k, ready v1 -> same_setup (length (concat cs)) v v1 ->
    sel_in (env (mb v1)) = foldr (fun f rest => pieces f.2 rest) tail fs -> polls k v = Ret v1 ->
    let r := session (ucMBAddress v) (sid v) (fst <$> fs) (app v1) in
    exists n v', polls n v = Ret v' /\ ready v' /\ app v' = r.2 /\
      line (env (mb v')) = line (env (mb v1)) ++ concat (fl_encode (ucMBAddress v) <$> r.1) /\
      sel_in (env (mb v')) = tail) as Hnext.
  { intros v1 k Hr1 (Hua & Hd & Hto & Htk) Hsel1 Ek. cbn [snd] in Hnext_s. rewrite <- Hto, <- Htk in Hnext_s. rewrite <- Hua in Hok.
    destruct (IH v1 tail Hr1 Hok Hnext_s Hsel1) as (n & v' & En & R). rewrite Hua, Hd in R.
    exists (k + n)%nat, v'. split; [|done]. by rewrite (polls_plus k n v v1). }
  cbn [fmap list_fmap fst session].
  destruct (Z.eqb_spec addr (ucMBAddress v)) as [->|Hown].
  - destruct (exchange_own v pdu cs _ Hclk Hr (Hc (or_introl eq_refl)) Harr) as (v1 & E & Hr1 & Hss & Hi & Happ & Hl).
    destruct (Hnext v1 5%nat Hr1 Hss Hi E) as (n & v' & En & Hr' & Ha' & Hl' & Hi').
    destruct (answer (sid v) pdu (app v)) as [reply a1]. cbn [fst snd] in *. rewrite Happ in *.
    destruct (session (ucMBAddress v) (sid v) (fst <$> fs) a1) as [rs a2] eqn:Es.
    exists n, v'. repeat (split; [done|]). split; [|done].
    simpl. by rewrite Hl', Hl, <- (assoc_L (++)).
  - destruct (Z.eqb_spec addr MB_ADDRESS_BROADCAST) as [->|Hb].
    + destruct (exchange_broadcast v pdu cs _ Hclk Hr (Hc (or_intror eq_refl)) Harr) as (v1 & E & Hr1 & Hss & Hi & Happ & Hl).
      rewrite <- Hl, <- Happ. by apply (Hnext v1 3%nat).
    + destruct (exchange_other v addr pdu cs _ Hclk Hr Hown Hb Harr) as (v1 & E & Hr1 & Hss & Hi & Happ & Hl).
      rewrite <- Hl, <- Happ. by apply (Hnext v1 2%nat).
Qed.

End layer.
End exchange.
