(* ===== verification/MbSafe.v ===== *)
(** * MbSafe: no access outside the buffers, whatever the line delivers

    The invariant of the port and frame layers and its preservation by every state machine,
    for arbitrary bytes, arbitrary results of the device and an arbitrary clock.  A function is
    [safe] when it returns with its postcondition; in a build with assertions a [DEBUGASSERT]
    may stop it instead, but it never accesses memory outside an array and never loops. *)

From stdpp Require Import strings.
From S2P Require Import Prelude MbCrc MbPort MbLine MbRtu MbAscii Mb MbFrame.
#[local] Open Scope Z_scope.

Definition safe `{MbConfig} {A} (P : A -> Prop) (r : mres A) : Prop :=
  match r with
  | Ret a => P a
  | AssertFailed => CONFIG_DEBUG_ASSERTIONS = true
  | BadAccess | NoFuel => False
  end.

Section safe.
Context `{MbConfig}.

Lemma safe_ret {A} (P : A -> Prop) a : P a -> safe P (Ret a).
Proof using Type. done. Qed.

Lemma safe_bind {A B} (P : A -> Prop) (Q : B -> Prop) (m : mres A) (k : A -> mres B) :
  safe P m -> (forall a, P a -> safe Q (k a)) -> safe Q (m ≫= k).
Proof using Type. intros Hm Hk. destruct m; try done. by apply Hk. Qed.

Lemma safe_assert {A} (P : A -> Prop) (b : bool) (k : mres A) : safe P k -> safe P (DEBUGASSERT b k).
Proof using Type.
  intros Hk. unfold DEBUGASSERT. destruct CONFIG_DEBUG_ASSERTIONS eqn:E; [|done].
  destruct b; done.
Qed.

Lemma safe_mono {A} (P Q : A -> Prop) (m : mres A) : safe P m -> (forall a, P a -> Q a) -> safe Q m.
Proof using Type. intros Hm HPQ. destruct m; simpl in *; auto. Qed.

Lemma safe_fetch mem i : 0 <= i < zlen mem -> safe (fun _ => True) (fetch mem i).
Proof using Type. intros Hi. destruct (fetch_ok mem i Hi) as (c & _ & ->). done. Qed.

Lemma safe_store mem i v : 0 <= i < zlen mem -> safe (fun l => length l = length mem) (store mem i v).
Proof using Type. intros Hi. rewrite store_ok by done. simpl. by rewrite length_insert. Qed.

Lemma safe_fetch_n mem i n : 0 <= i -> 0 <= n -> i + n <= zlen mem ->
  safe (fun _ => True) (fetch_n mem i n).
Proof using Type. intros. by rewrite fetch_n_ok. Qed.

Lemma safe_store_n mem i d : 0 <= i -> i + zlen d <= zlen mem ->
  safe (fun l => length l = length mem) (store_n mem i d).
Proof using Type. intros. rewrite store_n_ok by done. simpl. by rewrite length_zwrite. Qed.

End safe.

(** ** The invariant *)

Definition rtu_inv (s : mbs) : Prop := 0 <= r_pos (rtu s) <= 256.

(** A pending low nibble has a byte of the buffer to go to. *)
Definition ascii_inv (s : mbs) : Prop :=
  0 <= a_pos (asc s) <= 256 /\
  (a_rcv (asc s) = ARX_RCV -> a_bytepos (asc s) = BYTE_LOW_NIBBLE -> a_pos (asc s) < 256).

Definition bufs_ok (s : mbs) : Prop :=
  length (ucRTUBuf s) = 256%nat /\ length (ucBuffer (ser s)) = 513%nat /\ rtu_inv s /\ ascii_inv s.

(** Characters the transmitter still puts into the device buffer. *)
Definition tx_left (m : eMBMode) (s : mbs) : Z :=
  match m with
  | MB_RTU => match r_snd (rtu s) with TX_IDLE => 0 | TX_XMIT => r_count (rtu s) end
  | _ =>
      match a_snd (asc s) with
      | ATX_START => 2 * a_count (asc s) + 3
      | ATX_DATA =>
          match a_bytepos (asc s) with
          | BYTE_HIGH_NIBBLE => 2 * a_count (asc s) + 2
          | BYTE_LOW_NIBBLE => 2 * a_count (asc s) + 1
          end
      | ATX_END => 1
      | ATX_NOTIFY | ATX_IDLE => 0
      end
  end.

(** What is sent lies in the frame buffer. *)
Definition tx_window (m : eMBMode) (s : mbs) : Prop :=
  match m with
  | MB_RTU => 0 <= r_cur (rtu s) /\ 0 <= r_count (rtu s) /\ r_cur (rtu s) + r_count (rtu s) <= 256
  | MB_ASCII =>
      a_rcv (asc s) = ARX_IDLE /\ 0 <= a_cur (asc s) /\ 0 <= a_count (asc s) /\
      a_cur (asc s) + a_count (asc s) <= 256 /\
      (a_snd (asc s) = ATX_DATA -> a_bytepos (asc s) = BYTE_LOW_NIBBLE -> 0 < a_count (asc s))
  | MB_TCP => False
  end.

Definition tx_inv (m : eMBMode) (s : mbs) : Prop :=
  tx_window m s /\ 0 <= uiTxBufferPos (ser s) /\ uiTxBufferPos (ser s) + tx_left m s <= 513 /\
  0 <= tx_left m s.

(** Between two polls. *)
Definition mbs_inv (m : eMBMode) (s : mbs) : Prop :=
  bufs_ok s /\ (bRxEnabled (ser s) = true -> bTxEnabled (ser s) = false /\ uiRxBufferPos (ser s) = 0) /\
  (bTxEnabled (ser s) = true -> tx_inv m s).

Definition executing (s : mbs) : Prop := ev s = mkEvent true EV_EXECUTE.

Definition serial_mode (m : eMBMode) : Prop := m = MB_RTU \/ m = MB_ASCII.

Section machines.
Context `{MbConfig} `{Clock}.

(** Fields a receive machine leaves alone. *)
Definition rx_frame (s s' : mbs) : Prop :=
  ser s' = rxpos_to (ser s) (uiRxBufferPos (ser s) + 1) /\ sel_in (env s') = sel_in (env s).

Lemma safe_timers_enable s (P : mbs -> Prop) :
  (forall t n, P (set_tm (set_env s (tick_to (env s) n)) t)) -> safe P (vMBPortTimersEnable s).
Proof using Type.
  intros HP. unfold vMBPortTimersEnable, gettimeofday.
  destruct (clock (ticks (env s))); apply safe_assert, safe_ret; apply HP.
Qed.

Lemma safe_get_byte s (P : Z * mbs -> Prop) :
  0 <= uiRxBufferPos (ser s) < 513 -> length (ucBuffer (ser s)) = 513%nat ->
  (forall b, P (b, set_ser s (rxpos_to (ser s) (uiRxBufferPos (ser s) + 1)))) ->
  safe P (xMBPortSerialGetByte s).
Proof using Type.
  intros Hp Hl HP. unfold xMBPortSerialGetByte. apply safe_assert.
  eapply safe_bind; [apply safe_fetch; unfold zlen; lia|]. intros b _. apply HP.
Qed.

Lemma safe_put_byte s b : 0 <= uiTxBufferPos (ser s) < 513 -> length (ucBuffer (ser s)) = 513%nat ->
  safe (fun s' => exists l, length l = 513%nat /\
    s' = set_ser s (mkSerial (iSerialFd (ser s)) (bRxEnabled (ser s)) (bTxEnabled (ser s))
      (ulTimeoutMs (ser s)) l (uiRxBufferPos (ser s)) (uiTxBufferPos (ser s) + 1)))
    (xMBPortSerialPutByte b s).
Proof using Type.
  intros Hp Hl. unfold xMBPortSerialPutByte. apply safe_assert.
  eapply safe_bind; [apply safe_store; unfold zlen; lia|]. intros l El; simpl in El. apply safe_ret.
  exists l. split; [congruence|done].
Qed.

(** ** Receiving *)

(** The postcondition of a receive machine. *)
Definition rx_ok (s s' : mbs) : Prop := bufs_ok s' /\ ~ executing s' /\ rx_frame s s'.

Definition rx_safe (fsm : mbs -> mres (bool * mbs)) : Prop :=
  forall s, bufs_ok s -> ~ executing s -> 0 <= uiRxBufferPos (ser s) < 513 ->
    safe (fun r => rx_ok s r.2) (fsm s).

(** Enabling the timer and returning keeps the postcondition. *)
Lemma enable_return s s1 : rx_ok s s1 ->
  safe (fun r => rx_ok s r.2) (s ← vMBPortTimersEnable s1; Ret (false, s)).
Proof using Type.
  intros Hs. eapply safe_bind; [by apply (safe_timers_enable s1 (rx_ok s))|]. done.
Qed.

(** The byte taken from the device buffer. *)
Lemma with_byte s (k : Z * mbs -> mres (bool * mbs)) :
  bufs_ok s -> 0 <= uiRxBufferPos (ser s) < 513 ->
  (forall b, safe (fun r => rx_ok s r.2)
     (k (b, set_ser s (rxpos_to (ser s) (uiRxBufferPos (ser s) + 1))))) ->
  safe (fun r => rx_ok s r.2) (xMBPortSerialGetByte s ≫= k).
Proof using Type.
  intros (_ & Hl & _) Hp Hk. eapply safe_bind; [|intros r Hr; exact Hr].
  apply (safe_get_byte s (fun r => safe (fun r => rx_ok s r.2) (k r))); done.
Qed.

Lemma rtu_rx_safe : rx_safe xMBRTUReceiveFSM.
Proof using Type.
  intros s Hok Hex Hp. unfold xMBRTUReceiveFSM. apply safe_assert, with_byte; [done..|]. intros b.
  pose proof Hok as (Hlen & Hl & Hr & Ha). cbn [set_ser rtu ucRTUBuf]. unfold rtu_inv in Hr.
  destruct (r_rcv (rtu s)); [by apply enable_return| | |by apply enable_return].
  - eapply safe_bind; [apply safe_store; unfold zlen; lia|]. intros l El; simpl in El.
    apply enable_return. split; [|done]. unfold bufs_ok, rtu_inv. simpl.
    split; [congruence|]. split; [done|]. split; [lia|done].
  - eapply safe_bind with (P := rx_ok s); [|apply enable_return].
    destruct (Z.ltb_spec (r_pos (rtu s)) MB_SER_PDU_SIZE_MAX) as [Hlt|]; [|done].
    unfold MB_SER_PDU_SIZE_MAX in Hlt.
    eapply safe_bind; [apply safe_store; unfold zlen; lia|]. intros l El; simpl in El. apply safe_ret.
    split; [|done]. unfold bufs_ok, rtu_inv. simpl. split; [congruence|]. split; [done|].
    split; [|done]. unfold u16. rewrite Z.mod_small by lia. lia.
Qed.

Lemma ascii_data_safe s s1 b : rx_ok s s1 -> a_rcv (asc s1) = ARX_RCV ->
  safe (rx_ok s) (ascii_data b s1).
Proof using Type.
  intros Hok Hrcv. pose proof Hok as ((Hlen & Hl & Hr & Ha & Hlow) & Hex & Hfr).
  unfold ascii_data. destruct (a_bytepos (asc s1)) eqn:Hnib.
  - destruct (Z.ltb_spec (a_pos (asc s1)) ASCII_PDU_SIZE_MAX) as [Hlt|].
    + unfold ASCII_PDU_SIZE_MAX in Hlt.
      eapply safe_bind; [apply safe_store; unfold zlen; lia|]. intros l El; simpl in El.
      apply safe_ret. split; [|done]. unfold bufs_ok, ascii_inv. simpl. split; [congruence|].
      do 2 (split; [done|]). split; [lia|]. intros; lia.
    + apply safe_ret. split; [|done]. unfold bufs_ok, ascii_inv. simpl. done.
  - specialize (Hlow Hrcv eq_refl).
    eapply safe_bind; [apply safe_fetch; unfold zlen; lia|]. intros c _.
    eapply safe_bind; [apply safe_store; unfold zlen; lia|]. intros l El; simpl in El.
    apply safe_ret. split; [|done]. unfold bufs_ok, ascii_inv. simpl. split; [congruence|].
    split; [done|]. split; [done|]. unfold u16. rewrite Z.mod_small by lia. split; [lia|done].
Qed.

Lemma ascii_rx_safe : rx_safe xMBASCIIReceiveFSM.
Proof using Type.
  intros s Hok Hex Hp. unfold xMBASCIIReceiveFSM. apply safe_assert, with_byte; [done..|]. intros b.
  set (s1 := set_ser s _). assert (rx_ok s s1) as Hok1 by done.
  pose proof Hok as (Hlen & Hl & Hr & Ha & Hlow). change (asc s1) with (asc s).
  destruct (a_rcv (asc s)) eqn:Hrcv.
  - destruct (b =? ASCII_COLON); [|done].
    eapply safe_bind; [apply (safe_timers_enable s1 (fun x => rx_ok s x /\ asc x = asc s)); done|].
    intros s2 [((? & ? & ? & ?) & ? & ?) Ea]. apply safe_ret. split; [|done].
    unfold bufs_ok, ascii_inv. simpl. do 3 (split; [done|]). split; [lia|done].
  - eapply safe_bind; [apply (safe_timers_enable s1 (fun x => rx_ok s x /\ asc x = asc s)); done|].
    intros s2 [Hok2 Ea]. pose proof Hok2 as ((? & ? & ? & ? & ?) & ? & ?).
    destruct (b =? ASCII_COLON).
    { apply safe_ret. split; [|done]. unfold bufs_ok, ascii_inv. simpl. do 3 (split; [done|]).
      split; [lia|done]. }
    destruct (b =? MB_ASCII_DEFAULT_CR).
    { apply safe_ret. split; [|done]. unfold bufs_ok, ascii_inv. simpl. done. }
    eapply safe_bind; [apply ascii_data_safe; [done|congruence]|]. done.
  - destruct (b =? a_lf (asc s)).
    { apply safe_ret. split; [|split; done]. unfold bufs_ok, ascii_inv. simpl. done. }
    destruct (b =? ASCII_COLON).
    { apply enable_return. split; [|done]. unfold bufs_ok, ascii_inv. simpl. do 3 (split; [done|]).
      split; [lia|done]. }
    apply safe_ret. split; [|done]. unfold bufs_ok, ascii_inv. simpl. done.
Qed.

Lemma receive_bytes_safe fsm n : rx_safe fsm -> forall s, bufs_ok s -> ~ executing s ->
  0 <= uiRxBufferPos (ser s) -> uiRxBufferPos (ser s) + Z.of_nat n <= 513 ->
  safe (fun s' => bufs_ok s' /\ ~ executing s' /\ sel_in (env s') = sel_in (env s) /\
    exists p, ser s' = rxpos_to (ser s) p) (receive_bytes fsm n s).
Proof using Type.
  intros Hfsm. induction n as [|n IH]; intros s Hok Hex Hp Hn; cbn [receive_bytes].
  { apply safe_ret. repeat (split; [done|]). exists (uiRxBufferPos (ser s)). by destruct (ser s). }
  eapply safe_bind; [apply Hfsm; [done|done|lia]|]. intros [x s1] (Hok1 & Hex1 & Hser & Hsel).
  simpl in *. eapply safe_mono.
  - apply IH; [done..| |]; rewrite Hser; simpl; lia.
  - intros s2 (? & ? & ? & p & Ep). repeat (split; [congruence || done|]).
    exists p. by rewrite Ep, Hser.
Qed.

Lemma read_shrinks n i r i' : prvbMBPortSerialRead n i = (r, i') ->
  r = Some [] \/ (length i' < length i)%nat.
Proof using Type.
  revert r i'. induction i as [|e i IH]; intros r i' E; simpl in E; [by injection E as <- _; left|].
  destruct e; try (injection E as <- <-; simpl; auto with lia).
  destruct (IH r i' E); [by left|right; simpl; lia].
Qed.

Lemma read_bounded n i l i' : prvbMBPortSerialRead n i = (Some l, i') -> (length l <= n)%nat.
Proof using Type.
  revert l i'. induction i as [|e i IH]; intros l i' E; simpl in E; [injection E as <- _; simpl; lia|].
  destruct e; try done; [by apply (IH l i')|injection E as <- _; simpl; lia|].
  injection E as <- _. rewrite length_take. lia.
Qed.

(** The state while listening. *)
Definition rx_state (s : mbs) : Prop :=
  bufs_ok s /\ ~ executing s /\ bRxEnabled (ser s) = true /\ bTxEnabled (ser s) = false /\
  uiRxBufferPos (ser s) = 0.

Lemma read_buffer_safe s o s' : rx_state s -> read_buffer s = (o, s') -> rx_state s' /\
  match o with
  | Some n => (n <= 513)%nat
  | None => True
  end /\ (o = Some O \/ (length (sel_in (env s')) < length (sel_in (env s)))%nat).
Proof using Type.
  intros ((Hlen & Hl & Hr & Ha) & Hex & Hrx & Htx & Hp) E. unfold read_buffer in E.
  destruct (prvbMBPortSerialRead _ _) as [r i'] eqn:Er. pose proof (read_shrinks _ _ _ _ Er) as Hs.
  destruct r as [l|]; injection E as <- <-.
  - pose proof (read_bounded _ _ _ _ Er) as Hb. split; [|split; [exact Hb|]].
    + split; [|done]. unfold bufs_ok. simpl. by rewrite length_zwrite.
    + destruct Hs as [[= ->]|Hs]; [by left|by right].
  - split; [done|]. split; [done|]. destruct Hs as [|Hs]; [done|by right].
Qed.

Lemma rx_loop_safe fsm : rx_safe fsm -> forall fuel st s, rx_state s ->
  (length (sel_in (env s)) < fuel)%nat -> safe (fun r => rx_state r.2) (rx_loop fsm fuel st s).
Proof using Type.
  intros Hfsm. induction fuel as [|fuel IH]; intros st s Hs Hf; [lia|]. cbn [rx_loop].
  pose proof Hs as (_ & _ & -> & _). destruct (read_buffer s) as [o s1] eqn:E.
  destruct (read_buffer_safe s o s1 Hs E) as (Hs1 & Ho & Hlt).
  pose proof Hs1 as (Hok1 & Hex1 & Hrx1 & Htx1 & Hp1).
  destruct o as [[|n]|]; [done| |].
  - destruct Hlt as [|Hlt]; [done|].
    eapply safe_bind; [apply (receive_bytes_safe fsm (S n) Hfsm s1); [done|done|lia|lia]|].
    intros s2 (Hok2 & Hex2 & Hsel & p & Hser). apply IH; [|simpl; rewrite Hsel; lia].
    split; [exact Hok2|]. split; [exact Hex2|]. simpl. rewrite Hser. done.
  - destruct Hlt as [|Hlt]; [done|]. apply IH; [done|lia].
Qed.

(** ** Timers *)

Definition timer_safe (fsm : mbs -> mres (bool * mbs)) : Prop :=
  forall s, bufs_ok s -> ~ executing s ->
    safe (fun r => bufs_ok r.2 /\ ~ executing r.2 /\ ser r.2 = ser s) (fsm s).

Lemma rtu_timer_safe : timer_safe xMBRTUTimerT35Expired.
Proof using Type.
  intros s Hok Hex. unfold xMBRTUTimerT35Expired.
  eapply safe_bind with (P := fun r => bufs_ok r.2 /\ ~ executing r.2 /\ ser r.2 = ser s).
  - destruct (r_rcv (rtu s)); [done|by apply safe_assert|done|done].
  - intros [x s1] (? & ? & ?). done.
Qed.

Lemma ascii_timer_safe : timer_safe xMBASCIITimerT1SExpired.
Proof using Type.
  intros s (Hlen & Hl & Hr & Ha & Hlow) Hex. unfold xMBASCIITimerT1SExpired.
  eapply safe_bind with (P := fun s1 => bufs_ok s1 /\ ~ executing s1 /\ ser s1 = ser s).
  - destruct (a_rcv (asc s)) eqn:E; [apply safe_assert|..]; (split; [|done]);
      unfold bufs_ok, ascii_inv; simpl; rewrite ?E; done.
  - done.
Qed.

Lemma timer_poll_safe fsm s : timer_safe fsm -> bufs_ok s -> ~ executing s ->
  safe (fun s' => bufs_ok s' /\ ~ executing s' /\ ser s' = ser s) (vMBPortTimerPoll fsm s).
Proof using Type.
  intros Hfsm Hok Hex. unfold vMBPortTimerPoll. destruct (bTimeoutEnable (tm s)); [|done].
  unfold gettimeofday. destruct (clock (ticks (env s))) as [t|]; [|done].
  destruct (_ <? _); [|done]. eapply safe_bind; [by apply Hfsm|]. intros [x s1] Hs1. exact Hs1.
Qed.

(** ** Transmitting *)

Definition tx_state (m : eMBMode) (s : mbs) : Prop :=
  bufs_ok s /\ ~ executing s /\ bTxEnabled (ser s) = true /\ bRxEnabled (ser s) = false /\
  tx_inv m s.

Definition tx_post (m : eMBMode) (s s' : mbs) : Prop :=
  rx_state s' \/ (tx_state m s' /\ tx_left m s' < tx_left m s).

Definition tx_safe (m : eMBMode) (fsm : mbs -> mres (bool * mbs)) : Prop :=
  forall s, tx_state m s -> safe (fun r => tx_post m s r.2) (fsm s).

Lemma tx_to_rx s : bufs_ok s -> ~ executing s ->
  safe (fun s' => exists v, s' = set_ser s v /\ length (ucBuffer v) = 513%nat /\
    bRxEnabled v = true /\ bTxEnabled v = false /\ uiRxBufferPos v = 0)
    (vMBPortSerialEnable true false s).
Proof using Type.
  intros (_ & Hl & _) Hex. rewrite enable_ok by done. simpl. eexists. split; [done|]. done.
Qed.

Lemma rtu_tx_safe : tx_safe MB_RTU xMBRTUTransmitFSM.
Proof using Type.
  intros s (Hok & Hex & Htx & Hrx & (Hcur & Hcnt & Hwin) & Hp & Hleft & Hnn).
  pose proof Hok as (Hlen & Hl & Hr & Ha). unfold xMBRTUTransmitFSM. apply safe_assert.
  unfold tx_left in Hleft. destruct (r_snd (rtu s)) eqn:Hsnd.
  - eapply safe_bind; [by apply tx_to_rx|]. intros s1 (v & -> & Hv & Hv1 & Hv2 & Hv3). left.
    split; [|done]. by split; [|split].
  - destruct (Z.eqb_spec (r_count (rtu s)) 0) as [Hz|Hz]; cbn [negb].
    + unfold xMBPortEventPost. eapply safe_bind; [by apply tx_to_rx|].
      intros s1 (v & -> & Hv & Hv1 & Hv2 & Hv3). left. split; [|done]. by split; [|split].
    + eapply safe_bind; [apply safe_fetch; unfold zlen; lia|]. intros c _.
      eapply safe_bind; [apply safe_put_byte; [lia|done]|]. intros s1 (l & Hl1 & ->). apply safe_ret.
      right. unfold tx_state, tx_inv, tx_left. simpl. rewrite Hsnd. split; [|lia].
      repeat (split; [done || lia|]). lia.
Qed.

Lemma safe_bin2char n : safe (fun _ => True) (prvucMBBIN2int8_t n).
Proof using Type.
  unfold prvucMBBIN2int8_t. destruct (n <=? 9); [done|]. destruct (_ && _); [done|].
  by apply safe_assert.
Qed.

(** One character more in the device buffer. *)
Lemma ascii_put s c (k : mbs -> mbs) :
  tx_state MB_ASCII s -> 0 < tx_left MB_ASCII s ->
  (forall v, bTxEnabled v = true -> bRxEnabled v = false -> length (ucBuffer v) = 513%nat ->
     uiTxBufferPos v = uiTxBufferPos (ser s) + 1 -> tx_post MB_ASCII s (k (set_ser s v))) ->
  safe (fun r => tx_post MB_ASCII s r.2) (s ← xMBPortSerialPutByte c s; Ret (false, k s)).
Proof using Type.
  intros ((_ & Hl & _) & _ & Htx & Hrx & _ & Hp & Hleft & _) Hnn Hk.
  eapply safe_bind; [apply safe_put_byte; [lia|done]|]. intros s1 (l & Hl1 & ->). apply safe_ret.
  by apply Hk.
Qed.

Lemma ascii_tx_safe : tx_safe MB_ASCII xMBASCIITransmitFSM.
Proof using Type.
  intros s Hs. pose proof Hs as (Hok & Hex & Htx & Hrx & (Hidle & Hcur & Hcnt & Hwin & Hlow) & Hp & Hleft & Hnn).
  pose proof Hok as (Hlen & Hl & Hr & Ha). unfold xMBASCIITransmitFSM. apply safe_assert.
  assert (forall k c, 0 < tx_left MB_ASCII s ->
    (forall v, uiTxBufferPos v = uiTxBufferPos (ser s) + 1 ->
       tx_window MB_ASCII (k (set_ser s v)) /\ ascii_inv (k (set_ser s v)) /\
       0 <= tx_left MB_ASCII (k (set_ser s v)) < tx_left MB_ASCII s /\
       ser (k (set_ser s v)) = v /\ ucRTUBuf (k (set_ser s v)) = ucRTUBuf s /\
       rtu (k (set_ser s v)) = rtu s /\ ev (k (set_ser s v)) = ev s) ->
    safe (fun r => tx_post MB_ASCII s r.2) (s ← xMBPortSerialPutByte c s; Ret (false, k s))) as Hput.
  { intros k c Hpos Hk. apply ascii_put; [done..|]. intros v Hv1 Hv2 Hv3 Hv4.
    destruct (Hk v Hv4) as (Kw & Ka & Kl & Ks & Kb & Kr & Ke). right.
    unfold tx_state, tx_inv, bufs_ok, rtu_inv, executing. rewrite Ks, Kb, Kr, Ke. split; [|lia].
    repeat (split; [done || lia|]). lia. }
  unfold tx_left in Hput, Hleft, Hnn. unfold ascii_inv in *.
  destruct (a_snd (asc s)) eqn:Hsnd.
  - eapply safe_bind; [by apply tx_to_rx|]. intros s1 (v & -> & Hv & Hv1 & Hv2 & Hv3). left.
    split; [|done]. by split; [|split].
  - apply Hput; [lia|]. intros v Hv. simpl. rewrite Hidle. repeat split; intros; (done || lia || tauto).
  - destruct (Z.ltb_spec 0 (a_count (asc s))) as [Hc|Hc].
    + eapply safe_bind; [apply safe_fetch; unfold zlen; lia|]. intros c _.
      destruct (a_bytepos (asc s)) eqn:Hnib.
      * eapply safe_bind; [apply safe_bin2char|]. intros ch _. apply Hput; [lia|]. intros v Hv.
        simpl. rewrite Hidle, Hsnd. repeat split; intros; (done || lia || tauto).
      * eapply safe_bind; [apply safe_bin2char|]. intros ch _.
        apply (Hput (fun s => asc_cur_to (asc_nib_to s BYTE_HIGH_NIBBLE) (a_cur (asc s) + 1)
          (a_count (asc s) - 1))); [lia|]. intros v Hv.
        simpl. rewrite Hidle, Hsnd. repeat split; intros; (done || lia || tauto).
    + assert (a_bytepos (asc s) = BYTE_HIGH_NIBBLE) as Hhigh.
      { destruct (a_bytepos (asc s)); [done|]. specialize (Hlow eq_refl eq_refl). lia. }
      rewrite Hhigh in *. apply Hput; [lia|]. intros v Hv. simpl. rewrite Hidle.
      repeat split; intros; (done || lia || tauto).
  - apply Hput; [lia|]. intros v Hv. simpl. rewrite Hidle. repeat split; intros; (done || lia || tauto).
  - unfold xMBPortEventPost. eapply safe_bind; [apply tx_to_rx; [|done]; by split|].
    intros s1 (v & -> & Hv & Hv1 & Hv2 & Hv3). left. split; [|done]. by split; [|split].
Qed.

Lemma tx_loop_safe m fsm : tx_safe m fsm -> forall fuel s, tx_state m s ->
  tx_left m s < Z.of_nat fuel -> safe rx_state (tx_loop fsm fuel s).
Proof using Type.
  intros Hfsm. induction fuel as [|fuel IH]; intros s Hs Hf.
  { destruct Hs as (_ & _ & _ & _ & _ & _ & _ & ?). lia. }
  cbn [tx_loop]. pose proof Hs as (_ & _ & -> & _). eapply safe_bind; [by apply Hfsm|].
  intros [x s1] [Hrx|[Hs1 Hlt]]; simpl in *.
  - pose proof Hrx as (_ & _ & _ & Htx & _). destruct fuel; simpl; by rewrite Htx.
  - apply IH; [done|lia].
Qed.

(** ** A poll of the port *)

Definition fns_safe (m : eMBMode) (f : frame_fns) : Prop :=
  rx_safe (pxMBFrameCBByteReceived f) /\ tx_safe m (pxMBFrameCBTransmitterEmpty f) /\
  timer_safe (pxMBPortCBTimerExpired f).

Lemma rtu_fns_safe : fns_safe MB_RTU rtu_fns.
Proof using Type. repeat split; [apply rtu_rx_safe|apply rtu_tx_safe|apply rtu_timer_safe]. Qed.

Lemma ascii_fns_safe : fns_safe MB_ASCII ascii_fns.
Proof using Type. repeat split; [apply ascii_rx_safe|apply ascii_tx_safe|apply ascii_timer_safe]. Qed.

(** After a poll of the device the transmitter is off. *)
Definition quiet (s : mbs) : Prop :=
  bufs_ok s /\ ~ executing s /\ bTxEnabled (ser s) = false /\
  (bRxEnabled (ser s) = true -> uiRxBufferPos (ser s) = 0).

Lemma rx_state_quiet s : rx_state s -> quiet s.
Proof using Type. by intros (? & ? & ? & ? & ?). Qed.

Lemma quiet_env s e : quiet s -> quiet (set_env s e).
Proof using Type. done. Qed.

Lemma serial_poll_safe m f s : fns_safe m f -> mbs_inv m s -> ~ executing s ->
  safe (fun r => quiet r.2)
    (xMBPortSerialPoll (pxMBFrameCBByteReceived f) (pxMBFrameCBTransmitterEmpty f) s).
Proof using Type.
  intros (Hrx & Htx & _) (Hok & Hr & Ht) Hex. unfold xMBPortSerialPoll.
  destruct (bRxEnabled (ser s)) eqn:Erx.
  - destruct (Hr eq_refl) as [Etx Hp].
    eapply safe_bind; [apply rx_loop_safe; [done|done|lia]|]. intros [st s1] Hs1. simpl in Hs1.
    pose proof Hs1 as (_ & _ & _ & -> & _). by apply rx_state_quiet.
  - cbn [rx_loop]. rewrite Erx. cbn [mbind mres_bind]. destruct (bTxEnabled (ser s)) eqn:Etx.
    + eapply safe_bind; [apply (tx_loop_safe m _ Htx tx_fuel s); [by repeat (split; [by auto|]); auto|]|].
      { destruct (Ht eq_refl) as (_ & ? & ? & ?). unfold tx_fuel. lia. }
      intros s1 Hs1. unfold write_buffer. destruct (prvbMBPortSerialWrite _ _ _) as [[ok i] out].
      by apply quiet_env, rx_state_quiet.
    + apply safe_ret. repeat (split; [done|]). simpl. congruence.
Qed.

Lemma port_get_safe m f s : fns_safe m f -> mbs_inv m s ->
  safe (fun r => mbs_inv m r.2 /\ ~ executing r.2 /\ (r.1 = Some EV_EXECUTE -> executing s))
    (port_get f s).
Proof using Type.
  intros Hf Hinv. unfold port_get, xMBPortEventGet. destruct (xEventInQueue (ev s)) eqn:E.
  - apply safe_ret. split; [exact Hinv|]. split; [done|]. simpl. intros [= Eq]. unfold executing.
    destruct (ev s); simpl in *. congruence.
  - assert (~ executing s) as Hex by (unfold executing; intros Eq; by rewrite Eq in E).
    eapply safe_bind; [by apply (serial_poll_safe m)|]. intros [st s1] (Hok1 & Hex1 & Htx1 & Hp1).
    simpl in *. eapply safe_bind; [by apply timer_poll_safe; [apply Hf|..]|].
    intros s2 (Hok2 & Hex2 & Hser2). apply safe_ret. split; [|done]. split; [done|]. simpl.
    rewrite Hser2, Htx1. split; [by intros; auto|done].
Qed.

End machines.
