(* ===== verification/MbInv.v ===== *)
(** * MbInv: the invariant of the slave

    Every state the slave can reach by calls of its interface, over any line, keeps the
    invariant of [MbSafe] together with what [mb.c] adds: the table of handlers, the slave
    identification and the frame taken from the buffer.  The handlers stay inside the frame
    buffer for every request, well formed or not. *)

From stdpp Require Import strings.
From S2P Require Import Prelude MbCrc MbPort MbLine MbRtu MbAscii MbFunc MbSpec Mb MbFrame MbReply MbSafe.
#[local] Open Scope Z_scope.

Section inv.
Context `{MbConfig} `{Clock} {A : Type} `{App A} `{!AppLaws A} `{UserHandlers A}.

(** ** Handlers *)

(** The buffer keeps its size and a reply fits a PDU. *)
Definition reply_fits (r : eMBException * list Z * Z * A) : Prop :=
  length r.1.1.2 = 256%nat /\ (r.1.1.1 = MB_EX_NONE -> 0 <= r.1.2 <= 253).

Definition handler_safe (f : list Z -> Z -> Z -> A -> hres (A := A)) : Prop :=
  forall b n a, length b = 256%nat -> 0 <= n <= 254 -> safe reply_fits (f b 1 n a).

Lemma safe_frame16 b i : 0 <= i -> i + 2 <= zlen b -> safe (fun _ => True) (frame16 b i).
Proof using Type.
  intros. unfold frame16. eapply safe_bind; [apply safe_fetch; lia|]. intros h _.
  eapply safe_bind; [apply safe_fetch; lia|]. done.
Qed.

(** Skip a read of the buffer whose value does not matter. *)
#[local] Ltac skip_read :=
  eapply safe_bind;
  [first [apply safe_frame16 | apply safe_fetch | apply safe_fetch_n];
   unfold MB_PDU_DATA_OFF, zlen; lia|]; intros ? _.

Lemma reject_safe e b n (a : A) : e <> MB_EX_NONE -> length b = 256%nat ->
  safe reply_fits (Ret (e, b, n, a)).
Proof using Type. intros. by split. Qed.

Lemma read_half_safe b fc c k (r : eMBErrorCode * list Z * A) :
  length b = 256%nat -> 0 <= k <= 251 -> fills k r ->
  safe reply_fits
    (b ← store b (1 + MB_PDU_FUNC_OFF) fc;
     b ← store b (1 + 1) c;
     let '(st, l, a) := r in
     b ← store_n b (1 + 2) l;
     if bool_decide (st = MB_ENOERR) then Ret (MB_EX_NONE, b, u16 (2 + k), a)
     else Ret (prveMBError2Exception st, b, 2, a)).
Proof using Type.
  intros Hb Hk (_ & Hl & _). destruct r as [[st l] a]. simpl in Hl.
  eapply safe_bind; [apply safe_store; unfold MB_PDU_FUNC_OFF, zlen; lia|]. intros b1 E1; simpl in E1.
  eapply safe_bind; [apply safe_store; unfold zlen; lia|]. intros b2 E2; simpl in E2.
  eapply safe_bind; [apply safe_store_n; unfold zlen in *; lia|]. intros b3 E3; simpl in E3.
  case_bool_decide as Hst.
  - split; simpl; [congruence|]. unfold u16. rewrite Z.mod_small by lia. lia.
  - apply reject_safe; [by apply exception_not_none|congruence].
Qed.

Lemma read_input_safe : handler_safe eMBFuncReadInputRegister.
Proof using AppLaws0.
  intros b n a Hb Hn. unfold eMBFuncReadInputRegister. destruct (n =? _); [|by apply reject_safe].
  skip_read. eapply safe_bind; [apply safe_frame16; unfold MB_PDU_DATA_OFF, zlen; lia|]. intros cnt _.
  destruct ((1 <=? cnt) && _) eqn:E; [|by apply reject_safe].
  breflect. rewrite (Z.mul_comm cnt 2). apply read_half_safe; [done|lia|]. apply input_fills. lia.
Qed.

Lemma read_holding_safe : handler_safe eMBFuncReadHoldingRegister.
Proof using AppLaws0.
  intros b n a Hb Hn. unfold eMBFuncReadHoldingRegister. destruct (n =? _); [|by apply reject_safe].
  skip_read. eapply safe_bind; [apply safe_frame16; unfold MB_PDU_DATA_OFF, zlen; lia|]. intros cnt _.
  destruct ((1 <=? cnt) && _) eqn:E; [|by apply reject_safe].
  breflect. rewrite (Z.mul_comm cnt 2). apply read_half_safe; [done|lia|]. apply holding_fills. lia.
Qed.

Lemma bit_bytes_le n : 1 <= n <= 2000 -> 0 <= bit_bytes n <= 250.
Proof using Type.
  intros Hn. unfold bit_bytes. split; [apply Z.div_pos; lia|].
  apply Z.lt_succ_r, Z.div_lt_upper_bound; lia.
Qed.

Lemma read_coils_safe : handler_safe eMBFuncReadCoils.
Proof using AppLaws0.
  intros b n a Hb Hn. unfold eMBFuncReadCoils. destruct (n =? _); [|by apply reject_safe].
  skip_read. eapply safe_bind; [apply safe_frame16; unfold MB_PDU_DATA_OFF, zlen; lia|]. intros cnt _.
  destruct ((1 <=? cnt) && _) eqn:E; [|by apply reject_safe]. breflect. rewrite coil_bytes_eq by lia.
  pose proof (bit_bytes_le cnt). apply read_half_safe; [done|lia|]. apply coils_fills. lia.
Qed.

Lemma read_discrete_safe : handler_safe eMBFuncReadDiscreteInputs.
Proof using AppLaws0.
  intros b n a Hb Hn. unfold eMBFuncReadDiscreteInputs. destruct (n =? _); [|by apply reject_safe].
  skip_read. eapply safe_bind; [apply safe_frame16; unfold MB_PDU_DATA_OFF, zlen; lia|]. intros cnt _.
  destruct ((1 <=? cnt) && _) eqn:E; [|by apply reject_safe]. breflect. rewrite coil_bytes_eq by lia.
  pose proof (bit_bytes_le cnt). apply read_half_safe; [done|lia|]. apply discrete_fills. lia.
Qed.

(** The end of the writing handlers. *)
Lemma write_end_safe (st : eMBErrorCode) b n n' (a : A) : length b = 256%nat -> 0 <= n <= 253 ->
  safe reply_fits (if bool_decide (st = MB_ENOERR) then Ret (MB_EX_NONE, b, n, a)
                   else Ret (prveMBError2Exception st, b, n', a)).
Proof using Type.
  intros Hb Hn. case_bool_decide; [by split|]. apply reject_safe; [by apply exception_not_none|done].
Qed.

Lemma write_register_safe : handler_safe eMBFuncWriteHoldingRegister.
Proof using Type.
  intros b n a Hb Hn. unfold eMBFuncWriteHoldingRegister.
  destruct (Z.eqb_spec n (4 + MB_PDU_SIZE_MIN)) as [E|]; [|by apply reject_safe].
  skip_read. eapply safe_bind; [apply safe_fetch_n; unfold MB_PDU_DATA_OFF, zlen; lia|]. intros l _.
  destruct (eMBRegHoldingCB_write _ _ _ _) as [st a']. rewrite write_result.
  apply write_end_safe; [done|]. unfold MB_PDU_SIZE_MIN in E. lia.
Qed.

Lemma write_coil_safe : handler_safe eMBFuncWriteCoil.
Proof using Type.
  intros b n a Hb Hn. unfold eMBFuncWriteCoil.
  destruct (Z.eqb_spec n (4 + MB_PDU_SIZE_MIN)) as [E|]; [|by apply reject_safe].
  do 3 skip_read. destruct (_ && _); [|by apply reject_safe].
  destruct (eMBRegCoilsCB_write _ _ _ _) as [st a']. rewrite write_result.
  apply write_end_safe; [done|]. unfold MB_PDU_SIZE_MIN in E. lia.
Qed.

Lemma write_registers_safe : handler_safe eMBFuncWriteMultipleHoldingRegister.
Proof using Type.
  intros b n a Hb Hn. unfold eMBFuncWriteMultipleHoldingRegister.
  destruct (_ <=? n); [|by apply reject_safe].
  skip_read. eapply safe_bind; [apply safe_frame16; unfold MB_PDU_DATA_OFF, zlen; lia|]. intros cnt _.
  skip_read. destruct ((1 <=? cnt) && _ && _) eqn:E; [|by apply reject_safe]. breflect.
  eapply safe_bind; [apply safe_fetch_n; unfold MB_PDU_DATA_OFF, zlen; lia|]. intros l _.
  destruct (eMBRegHoldingCB_write _ _ _ _) as [st a'].
  apply write_end_safe; [done|]. unfold MB_PDU_DATA_OFF. lia.
Qed.

Lemma write_coils_safe : handler_safe eMBFuncWriteMultipleCoils.
Proof using Type.
  intros b n a Hb Hn. unfold eMBFuncWriteMultipleCoils. destruct (_ <? n); [|by apply reject_safe].
  skip_read. eapply safe_bind; [apply safe_frame16; unfold MB_PDU_DATA_OFF, zlen; lia|]. intros cnt _.
  skip_read. destruct ((1 <=? cnt) && _ && _) eqn:E; [|by apply reject_safe]. breflect.
  assert (0 <= coil_bytes cnt <= 246) as Hcb.
  { rewrite coil_bytes_eq by lia. unfold bit_bytes. split; [apply Z.div_pos; lia|].
    apply Z.lt_succ_r, Z.div_lt_upper_bound; lia. }
  eapply safe_bind; [apply safe_fetch_n; unfold MB_PDU_DATA_OFF, zlen; lia|]. intros l _.
  destruct (eMBRegCoilsCB_write _ _ _ _) as [st a'].
  apply write_end_safe; [done|]. unfold MB_PDU_DATA_OFF. lia.
Qed.

Lemma read_write_safe : handler_safe eMBFuncReadWriteMultipleHoldingRegister.
Proof using AppLaws0.
  intros b n a Hb Hn. unfold eMBFuncReadWriteMultipleHoldingRegister.
  destruct (Z.leb_spec (9 + MB_PDU_SIZE_MIN) n) as [_|Hs];
    [|split; simpl; [done|unfold MB_PDU_SIZE_MIN in Hs; lia]].
  skip_read. eapply safe_bind; [apply safe_frame16; unfold MB_PDU_DATA_OFF, zlen; lia|]. intros rc _.
  skip_read. eapply safe_bind; [apply safe_frame16; unfold MB_PDU_DATA_OFF, zlen; lia|]. intros wc _.
  skip_read. destruct ((1 <=? rc) && _ && _ && _ && _) eqn:E; [|by apply reject_safe]. breflect.
  eapply safe_bind; [apply safe_fetch_n; unfold MB_PDU_DATA_OFF, zlen; lia|]. intros l _.
  destruct (eMBRegHoldingCB_write _ _ _ _) as [st a']. case_bool_decide as Hst.
  - apply read_half_safe; [done|lia|]. apply holding_fills. lia.
  - apply reject_safe; [by apply exception_not_none|done].
Qed.

Lemma report_safe d : 0 <= usMBSlaveIDLen d <= 252 -> usMBSlaveIDLen d <= zlen (ucMBSlaveID d) ->
  handler_safe (eMBFuncReportSlaveID d).
Proof using Type.
  intros Hd Hl b n a Hb Hn. unfold eMBFuncReportSlaveID. rewrite fetch_n_ok by lia.
  cbn [mbind mres_bind]. eapply safe_bind; [apply safe_store_n|].
  - unfold MB_PDU_DATA_OFF. lia.
  - rewrite zlen_zslice by lia. unfold MB_PDU_DATA_OFF, zlen. lia.
  - intros b1 E1; simpl in E1. split; simpl; [congruence|]. unfold MB_PDU_DATA_OFF, u16.
    rewrite Z.mod_small by lia. lia.
Qed.

(** ** The slave *)

(** Handlers of the application keep to the buffer too. *)
Definition users_safe : Prop := forall k, handler_safe (user_handler k).

Definition handlers_ok (t : list xMBFunctionHandler) : Prop :=
  Forall (fun e => ucFunctionCode e <> 0 -> pxHandler e <> None) t.

Definition id_inv (d : slave_id) : Prop :=
  zlen (ucMBSlaveID d) = CONFIG_MB_FUNC_OTHER_REP_SLAVEID_BUF /\ 0 <= usMBSlaveIDLen d <= 252 /\
  usMBSlaveIDLen d <= zlen (ucMBSlaveID d).

Definition off (s : mbs) : Prop := bTxEnabled (ser s) = false /\ bRxEnabled (ser s) = false.

Definition layer_inv (v : slave A) : Prop :=
  match fns v with
  | Some m => serial_mode m /\ mbs_inv m (mb v)
  | None => bufs_ok (mb v) /\ eMBState v = STATE_NOT_INITIALIZED
  end.

Definition slave_inv (v : slave A) : Prop :=
  handlers_ok (xFuncHandlers v) /\ id_inv (sid v) /\
  (executing (mb v) -> ucMBFrame v = Some 1 /\ 0 <= usLength v <= 254) /\ layer_inv v /\
  (eMBState v <> STATE_ENABLED -> off (mb v)).

Lemma find_not_null t fc h : handlers_ok t -> find_handler t fc = Some h -> h <> None.
Proof using Type.
  induction 1 as [|e t He Ht IH]; [done|]. cbn [find_handler].
  destruct (Z.eqb_spec (ucFunctionCode e) 0); [done|].
  destruct (ucFunctionCode e =? fc); [intros [= <-]; auto|auto].
Qed.

Lemma run_handler_safe h d : users_safe -> id_inv d -> handler_safe (run_handler h d).
Proof using AppLaws0.
  intros Hu (_ & Hd1 & Hd2). destruct h; cbn [run_handler];
    auto using read_input_safe, read_holding_safe, write_registers_safe, write_register_safe,
      read_write_safe, read_coils_safe, write_coil_safe, write_coils_safe, read_discrete_safe.
  - by apply report_safe.
  - intros b k a. by apply Hu.
Qed.

Lemma dispatch_safe v : users_safe -> slave_inv v -> length (ucRTUBuf (mb v)) = 256%nat ->
  0 <= usLength v <= 254 ->
  safe (fun r => reply_fits r.2) (dispatch v 1).
Proof using AppLaws0.
  intros Hu (Hh & Hid & _) Hb Hn. unfold dispatch.
  eapply safe_bind; [apply safe_fetch; unfold MB_PDU_FUNC_OFF, zlen; lia|]. intros fc _.
  eapply safe_bind with (P := reply_fits); [|done].
  destruct (find_handler (xFuncHandlers v) fc) as [[h|]|] eqn:E.
  - by apply run_handler_safe.
  - by apply find_not_null in E.
  - by apply reject_safe.
Qed.

Lemma exception_frame_safe b fc e n : length b = 256%nat -> (e = MB_EX_NONE -> 0 <= n <= 253) ->
  safe (fun r => length r.1 = 256%nat /\ 0 <= r.2 <= 253) (exception_frame b 1 fc e n).
Proof using Type.
  intros Hb Hn. unfold exception_frame. case_bool_decide as He; [by split; [|auto]|].
  eapply safe_bind; [apply safe_store; unfold zlen; lia|]. intros b1 E1; simpl in E1.
  eapply safe_bind; [apply safe_store; unfold zlen; lia|]. intros b2 E2; simpl in E2.
  split; simpl; [congruence|lia].
Qed.

(** ** Sending *)

Definition send_safe (m : eMBMode) (f : frame_fns) : Prop :=
  forall addr n s, mbs_inv m s -> 0 <= n <= 253 -> ~ executing s ->
    safe (fun r => mbs_inv m r.2 /\ ev r.2 = ev s) (peMBFrameSendCur f addr 1 n s).

Lemma rtu_send_safe : send_safe MB_RTU rtu_fns.
Proof using Type.
  intros addr n s Hinv Hn Hex. pose proof Hinv as ((Hlen & Hl & Hr & Ha) & _). cbn [peMBFrameSendCur rtu_fns].
  unfold eMBRTUSend. destruct (rx_state_is _ _); [|by split].
  eapply safe_bind; [apply safe_store; unfold MB_SER_PDU_ADDR_OFF, zlen; lia|]. intros b1 E1; simpl in E1.
  assert (u16 (1 + n) = 1 + n) as -> by (unfold u16; apply Z.mod_small; lia).
  eapply safe_bind; [apply safe_fetch_n; unfold zlen; lia|]. intros l _.
  eapply safe_bind; [apply safe_store; unfold zlen; lia|]. intros b2 E2; simpl in E2.
  assert (u16 (1 + n + 1) = 2 + n) as -> by (unfold u16; rewrite Z.mod_small; lia).
  eapply safe_bind; [apply safe_store; unfold zlen; lia|]. intros b3 E3; simpl in E3.
  assert (u16 (2 + n + 1) = 3 + n) as -> by (unfold u16; rewrite Z.mod_small; lia).
  rewrite enable_ok by done. cbn [mbind mres_bind]. split; [|done].
  unfold mbs_inv, tx_inv, bufs_ok. simpl. split; [by repeat (split; [congruence || done|])|].
  split; [done|]. intros _. repeat split; lia.
Qed.

Lemma ascii_send_safe : send_safe MB_ASCII ascii_fns.
Proof using Type.
  intros addr n s Hinv Hn Hex. pose proof Hinv as ((Hlen & Hl & Hr & Ha) & _).
  cbn [peMBFrameSendCur ascii_fns]. unfold eMBASCIISend, asc_idle.
  destruct (a_rcv (asc s)) eqn:Hrcv; [|by split|by split].
  eapply safe_bind; [apply safe_store; unfold zlen; lia|]. intros b1 E1; simpl in E1.
  assert (u16 (1 + n) = 1 + n) as -> by (unfold u16; apply Z.mod_small; lia).
  eapply safe_bind; [apply safe_fetch_n; unfold zlen; lia|]. intros l _.
  eapply safe_bind; [apply safe_store; unfold zlen; lia|]. intros b2 E2; simpl in E2.
  assert (u16 (1 + n + 1) = 2 + n) as -> by (unfold u16; rewrite Z.mod_small; lia).
  rewrite enable_ok by done. cbn [mbind mres_bind]. split; [|done].
  unfold mbs_inv, tx_inv, bufs_ok, ascii_inv. simpl. rewrite Hrcv. unfold ascii_inv in Ha.
  split; [repeat (split; [congruence || done || lia|]); done|].
  split; [done|]. intros _. repeat split; (done || lia).
Qed.

(** ** Taking a frame *)

Definition receive_safe (m : eMBMode) (f : frame_fns) : Prop :=
  forall s, bufs_ok s ->
    safe (fun r => match r.2 with Some (_, p, n) => p = 1 /\ 0 <= n <= 254 | None => True end)
      (peMBFrameReceiveCur f s).

Lemma rtu_receive_safe : receive_safe MB_RTU rtu_fns.
Proof using Type.
  intros s (Hlen & _ & Hr & _). unfold rtu_inv in Hr. cbn [peMBFrameReceiveCur rtu_fns].
  unfold eMBRTUReceive. apply safe_assert.
  destruct (Z.leb_spec MB_SER_PDU_SIZE_MIN (r_pos (rtu s))) as [Hp|]; [|done].
  eapply safe_bind; [apply safe_fetch_n; unfold zlen; lia|]. intros l _.
  destruct (usMBCRC16 l =? 0); [|done].
  eapply safe_bind; [apply safe_fetch; unfold MB_SER_PDU_ADDR_OFF, zlen; lia|]. intros c _.
  split; [done|]. unfold MB_SER_PDU_PDU_OFF, MB_SER_PDU_SIZE_CRC, MB_SER_PDU_SIZE_MIN, u16 in *.
  rewrite Z.mod_small; lia.
Qed.

Lemma ascii_receive_safe : receive_safe MB_ASCII ascii_fns.
Proof using Type.
  intros s (Hlen & _ & _ & Ha & _). cbn [peMBFrameReceiveCur ascii_fns].
  unfold eMBASCIIReceive. apply safe_assert.
  destruct (Z.leb_spec ASCII_PDU_SIZE_MIN (a_pos (asc s))) as [Hp|]; [|done].
  eapply safe_bind; [apply safe_fetch_n; unfold zlen; lia|]. intros l _.
  destruct (prvucMBLRC l =? 0); [|done].
  eapply safe_bind; [apply safe_fetch; unfold zlen; lia|]. intros c _.
  split; [done|]. unfold ASCII_PDU_SIZE_LRC, ASCII_PDU_SIZE_MIN, u16 in *. rewrite Z.mod_small; lia.
Qed.

(** ** Polling *)

Lemma fns_of_safe m : serial_mode m ->
  let f := fns_of (Some m) in fns_safe m f /\ send_safe m f /\ receive_safe m f.
Proof using Type.
  intros [->| ->]; cbn [fns_of];
    auto using rtu_fns_safe, rtu_send_safe, rtu_receive_safe, ascii_fns_safe, ascii_send_safe,
      ascii_receive_safe.
Qed.

Lemma frame_received_safe v m : eMBState v = STATE_ENABLED -> fns v = Some m -> slave_inv v ->
  ~ executing (mb v) -> safe slave_inv (frame_received v).
Proof using Type.
  intros Hst Hf (Hh & Hid & Hex & Hl & _) Hne. unfold layer_inv in Hl. rewrite Hf in Hl.
  destruct Hl as [Hm Hinv]. destruct (fns_of_safe m Hm) as (_ & _ & Hrcv).
  unfold frame_received. rewrite Hf. eapply safe_bind; [apply Hrcv; apply Hinv|].
  assert (slave_inv v) as Hv by (unfold slave_inv, layer_inv; rewrite Hf; by repeat (split; [done|])).
  intros [st r] Hr. simpl in Hr. destruct st, r as [[[addr f] n]|]; try exact Hv.
  destruct Hr as [-> Hn'].
  destruct (_ || _); apply safe_ret; unfold slave_inv, layer_inv; simpl; rewrite ?Hf;
    by repeat (split; [done|]).
Qed.

Lemma execute_safe v m : users_safe -> eMBState v = STATE_ENABLED -> fns v = Some m -> slave_inv v ->
  ~ executing (mb v) -> ucMBFrame v = Some 1 -> 0 <= usLength v <= 254 ->
  safe slave_inv (execute v).
Proof using AppLaws0.
  intros Hu Hst Hf Hv Hne Hfr Hn. pose proof Hv as (Hh & Hid & Hex & Hl & _).
  unfold layer_inv in Hl. rewrite Hf in Hl.
  destruct Hl as [Hm Hinv]. destruct (fns_of_safe m Hm) as (_ & Hsend & _).
  pose proof Hinv as ((Hlen & Hbuf & Hr & Ha) & Hrx & Htx).
  unfold execute. rewrite Hfr, Hf. eapply safe_bind; [by apply dispatch_safe|].
  intros [fc [[[e b] n] a]] [Hb Hfit]. simpl in Hb, Hfit.
  assert (forall b, length b = 256%nat -> mbs_inv m (set_buf (mb v) b)) as Hset.
  { intros b' Hb'. split; [|split; [exact Hrx|exact Htx]]. by repeat (split; [done|]). }
  assert (forall s' n' x, mbs_inv m s' -> ev s' = ev (mb v) ->
    slave_inv (mkSlave s' (ucMBAddress v) (eMBCurrentMode v) (eMBState v) (Some m) (xFuncHandlers v)
      (sid v) a (Some 1) (ucRcvAddress v) fc n' x)) as Hend.
  { intros s' n' x Hs' Hev'. unfold slave_inv, layer_inv, executing. simpl. rewrite Hev', Hst.
    by repeat (split; [done|]). }
  destruct (negb _); [|by apply Hend; [apply Hset|]].
  eapply safe_bind; [by apply exception_frame_safe|]. intros [b' n'] [Hb' Hn']. simpl in Hb', Hn'.
  eapply safe_bind; [by apply Hsend; [apply Hset|..]|]. intros [c s'] [Hs' Hev]. simpl in *.
  by apply Hend.
Qed.

Lemma poll_safe v : users_safe -> slave_inv v -> safe (fun r => slave_inv r.2) (eMBPoll v).
Proof using AppLaws0.
  intros Hu Hv. unfold eMBPoll. case_bool_decide as Hst; [|done]. cbn [negb].
  pose proof Hv as (Hh & Hid & Hex & Hl & _). unfold layer_inv in Hl.
  destruct (fns v) as [m|] eqn:Hf; [|by destruct Hl; congruence]. destruct Hl as [Hm Hinv].
  destruct (fns_of_safe m Hm) as (Hfs & _). eapply safe_bind; [by apply (port_get_safe m)|].
  intros [e s'] (Hs' & Hne & Hee). simpl in Hs', Hne, Hee.
  assert (slave_inv (on_mb v s')) as Hv'.
  { unfold slave_inv, layer_inv. simpl. rewrite Hf, Hst. by repeat (split; [done|]). }
  destruct e as [[]|]; try done.
  - eapply safe_bind; [by apply (frame_received_safe (on_mb v s') m)|]. done.
  - destruct (Hex (Hee eq_refl)) as [Hfr Hn].
    eapply safe_bind; [by apply (execute_safe (on_mb v s') m)|]. done.
Qed.

(** ** The other calls *)

Lemma start_safe m s : serial_mode m -> mbs_inv m s ->
  safe (fun s' => mbs_inv m s' /\ (executing s' -> executing s)) (pvMBFrameStartCur (fns_of (Some m)) s).
Proof using Type.
  intros [->| ->] ((Hlen & Hl & Hr & Ha) & _ & _); cbn [fns_of pvMBFrameStartCur rtu_fns ascii_fns].
  - unfold eMBRTUStart. rewrite enable_ok by done. cbn [mbind mres_bind].
    apply safe_timers_enable. intros t n. split; [|done]. by repeat (split; [done|]).
  - unfold eMBASCIIStart. rewrite enable_ok by done. cbn [mbind mres_bind]. split; [|done].
    destruct Ha as [Ha Hlow]. by repeat (split; [done|]).
Qed.

Lemma stop_safe m s : serial_mode m -> mbs_inv m s ->
  safe (fun s' => mbs_inv m s' /\ off s' /\ (executing s' -> executing s))
    (pvMBFrameStopCur (fns_of (Some m)) s).
Proof using Type.
  intros [->| ->] ((Hlen & Hl & Hr & Ha) & _ & _); cbn [fns_of pvMBFrameStopCur rtu_fns ascii_fns];
    unfold eMBRTUStop, eMBASCIIStop; rewrite enable_ok by done; cbn [mbind mres_bind];
    (split; [|done]); by repeat (split; [done|]).
Qed.

Lemma enable_safe v : slave_inv v -> safe (fun r => slave_inv r.2) (eMBEnable v).
Proof using Type.
  intros Hv. pose proof Hv as (Hh & Hid & Hex & Hl & _). unfold eMBEnable.
  case_bool_decide as Hst; [|done]. unfold layer_inv in Hl.
  destruct (fns v) as [m|] eqn:Hf; [|by destruct Hl; congruence]. destruct Hl as [Hm Hinv].
  eapply safe_bind; [by apply start_safe|]. intros s' [Hs' He]. apply safe_ret.
  unfold slave_inv, layer_inv. simpl. rewrite Hf. repeat (split; [by auto|]). done.
Qed.

Lemma disable_safe v : slave_inv v -> safe (fun r => slave_inv r.2) (eMBDisable v).
Proof using Type.
  intros Hv. pose proof Hv as (Hh & Hid & Hex & Hl & _). unfold eMBDisable.
  destruct (eMBState v) eqn:Hst; [|done..]. unfold layer_inv in Hl.
  destruct (fns v) as [m|] eqn:Hf; [|by destruct Hl; congruence]. destruct Hl as [Hm Hinv].
  eapply safe_bind; [by apply stop_safe|]. intros s' (Hs' & Hoff & He). apply safe_ret.
  unfold slave_inv, layer_inv. simpl. rewrite Hf. repeat (split; [by auto|]). done.
Qed.

(** The initialisation of the port and of a frame layer on a device that is switched off. *)
Lemma layer_init_safe (s : mbs) (k : Z) t par lf : bufs_ok s -> off s ->
  safe (fun r => bufs_ok r.2 /\ off r.2 /\ ev r.2 = ev s)
    (xMBPortSerialInit t k par (asc_lf_to s lf)) /\
  safe (fun r => bufs_ok r.2 /\ off r.2 /\ ev r.2 = ev s) (xMBPortSerialInit t k par s).
Proof using Type.
  intros Hok Hoff. pose proof Hok as (Hlen & Hl & Hr & Ha). unfold xMBPortSerialInit.
  split; (destruct (_ <? 0); [done|]; destruct (negb _); [done|]; destruct (_ || _); [|done];
    destruct (negb _); [done|]; destruct (negb _); [done|]; rewrite enable_ok by done;
    split; [by repeat (split; [done|])|done]).
Qed.

Definition init_post (s s' : mbs) : Prop := bufs_ok s' /\ off s' /\ ev s' = ev s.

Lemma rtu_init_safe t baud par s : bufs_ok s -> off s ->
  safe (fun r => init_post s r.2) (eMBRTUInit t baud par s).
Proof using Type.
  intros Hok Hoff. unfold eMBRTUInit.
  eapply safe_bind; [by apply (layer_init_safe s 8 t par 0)|]. intros [ok s1] (Hok1 & Hoff1 & Hev).
  destruct (negb ok); [done|]. by repeat (split; [done|]).
Qed.

Lemma ascii_init_safe t par s : bufs_ok s -> off s ->
  safe (fun r => init_post s r.2) (eMBASCIIInit t par s).
Proof using Type.
  intros Hok Hoff. unfold eMBASCIIInit.
  eapply safe_bind; [by apply (layer_init_safe s 7 t par MB_ASCII_DEFAULT_LF)|].
  intros [ok s1] (Hok1 & Hoff1 & Hev).
  destruct (negb ok); [done|]. by repeat (split; [done|]).
Qed.

Lemma off_inv m s : bufs_ok s -> off s -> mbs_inv m s.
Proof using Type.
  intros Hok [Ht Hr]. split; [done|]. rewrite Ht, Hr. done.
Qed.

Lemma layer_bufs v : layer_inv v -> bufs_ok (mb v).
Proof using Type. unfold layer_inv. destruct (fns v); [by intros [_ [? _]]|by intros [? _]]. Qed.

(** The end of [eMBInit], after the frame layer. *)
Lemma init_end m e (v' : slave A) : serial_mode m -> handlers_ok (xFuncHandlers v') ->
  id_inv (sid v') -> fns v' = Some m -> bufs_ok (mb v') -> off (mb v') ->
  (executing (mb v') -> ucMBFrame v' = Some 1 /\ 0 <= usLength v' <= 254) ->
  forall mode, safe (fun r => slave_inv r.2)
    (if bool_decide (e = MB_ENOERR) then
       let '(ok, s) := xMBPortEventInit (mb v') in
       let v := on_mb v' s in
       if negb ok then Ret (MB_EPORTERR, v)
       else Ret (MB_ENOERR,
         mkSlave (mb v) (ucMBAddress v) mode STATE_DISABLED (fns v) (xFuncHandlers v) (sid v)
           (app v) (ucMBFrame v) (ucRcvAddress v) (p_ucFunctionCode v) (usLength v) (eException v))
     else Ret (e, v')).
Proof using Type.
  intros Hm Hh Hid Hf Hok Hoff Hex mode. case_bool_decide; apply safe_ret;
    unfold slave_inv, layer_inv; simpl; rewrite Hf; repeat (split; [done|]);
    (split; [split; [done|apply off_inv; [exact Hok|exact Hoff]]|intros _; exact Hoff]).
Qed.

Lemma init_safe mode addr baud par t v : slave_inv v -> eMBState v <> STATE_ENABLED ->
  safe (fun r => slave_inv r.2) (eMBInit mode addr baud par t v).
Proof using Type.
  intros Hv Hst. pose proof Hv as (Hh & Hid & Hex & Hl & Hoff). pose proof (layer_bufs v Hl) as Hok.
  specialize (Hoff Hst). unfold eMBInit. destruct (_ || _); [done|]. destruct mode.
  - destruct (eMBRTUInit t baud par (mb v)) as [[e s]| | |] eqn:E;
      pose proof (rtu_init_safe t baud par (mb v) Hok Hoff) as Hs; rewrite E in Hs; try done.
    destruct Hs as (Hok1 & Hoff1 & Hev). simpl in Hok1, Hoff1, Hev. cbn [mbind mres_bind].
    apply (init_end MB_RTU); try done; [by left|]. unfold executing. simpl. by rewrite Hev.
  - destruct (eMBASCIIInit t par (mb v)) as [[e s]| | |] eqn:E;
      pose proof (ascii_init_safe t par (mb v) Hok Hoff) as Hs; rewrite E in Hs; try done.
    destruct Hs as (Hok1 & Hoff1 & Hev). simpl in Hok1, Hoff1, Hev. cbn [mbind mres_bind].
    apply (init_end MB_ASCII); try done; [by right|]. unfold executing. simpl. by rewrite Hev.
  - cbn [mbind mres_bind]. rewrite bool_decide_false by done. exact Hv.
Qed.

Lemma close_safe v : slave_inv v -> safe (fun r => slave_inv r.2) (eMBClose v).
Proof using Type.
  intros Hv. unfold eMBClose. case_bool_decide as Hst; [|done].
  assert (slave_inv (on_mb v (vMBPortClose (mb v)))) as Hc.
  { unfold vMBPortClose. destruct (negb _); [|by destruct v]. exact Hv. }
  by destruct (fns v) as [[]|].
Qed.

Lemma replace_first_ok p e t t' : handlers_ok t -> (ucFunctionCode e <> 0 -> pxHandler e <> None) ->
  replace_first p e t = Some t' -> handlers_ok t'.
Proof using Type.
  intros Ht He. revert t'. induction Ht as [|x t Hx Ht IH]; [done|]. intros t'. simpl.
  destruct (p x); [intros [= <-]; by constructor|].
  destruct (replace_first p e t) as [t1|]; [|done]. intros [= <-]. constructor; [done|]. by apply IH.
Qed.

Lemma register_inv fc h v : slave_inv v -> slave_inv (eMBRegisterCB fc h v).2.
Proof using Type.
  intros Hv. pose proof Hv as (Hh & Hrest). unfold eMBRegisterCB. destruct (_ && _); [|done].
  destruct h as [h|]; destruct (replace_first _ _ _) as [t|] eqn:E; try done;
    (split; [|exact Hrest]); (eapply replace_first_ok; [exact Hh| |exact E]); done.
Qed.

Lemma set_id_safe id running extra d : CONFIG_MB_FUNC_OTHER_REP_SLAVEID_BUF <= 253 -> id_inv d ->
  safe (fun r => id_inv r.2) (eMBSetSlaveID id running extra d).
Proof using Type.
  intros Hcfg Hd. pose proof Hd as (Hz & Hn & Hle). unfold eMBSetSlaveID.
  destruct (Z.ltb_spec (zlen extra + 2) CONFIG_MB_FUNC_OTHER_REP_SLAVEID_BUF) as [Hlt|]; [|done].
  pose proof (zlen_nonneg extra).
  eapply safe_bind; [apply safe_store; lia|]. intros l1 E1; simpl in E1.
  eapply safe_bind; [apply safe_store; unfold zlen in *; lia|]. intros l2 E2; simpl in E2.
  destruct (0 <? zlen extra).
  - eapply safe_bind; [apply safe_store_n; unfold zlen in *; lia|]. intros l3 E3; simpl in E3.
    unfold id_inv, u16, zlen in *. simpl. rewrite Z.mod_small by lia. lia.
  - unfold id_inv, zlen in *. simpl. lia.
Qed.

(** ** Reachable states *)

(** The static variables before the first call. *)
Definition boot_mbs : mbs :=
  mkMbs (mkEvent false EV_READY) (mkTimer 0 false {| tv_sec := 0; tv_usec := 0 |})
    (mkSerial (-1) false false 0 (replicate 513 0) 0 0) (mkWorld [] [] 0 []) (replicate 256 0)
    (mkRtu TX_IDLE RX_INIT 0 0 0) (mkAscii ATX_IDLE ARX_IDLE 0 BYTE_HIGH_NIBBLE 0 0 0).

Definition boot_slave (a : A) : slave A :=
  mkSlave boot_mbs 0 MB_RTU STATE_NOT_INITIALIZED None xFuncHandlers_init
    (mkSlaveId (replicate (Z.to_nat CONFIG_MB_FUNC_OTHER_REP_SLAVEID_BUF) 0) 0) a None 0 0 0 MB_EX_NONE.

(** One call of the interface, or something new on the line. *)
Inductive api_step : slave A -> slave A -> Prop :=
| step_init mode addr baud par t v e v' : eMBState v <> STATE_ENABLED ->
    eMBInit mode addr baud par t v = Ret (e, v') -> api_step v v'
| step_enable v e v' : eMBEnable v = Ret (e, v') -> api_step v v'
| step_disable v e v' : eMBDisable v = Ret (e, v') -> api_step v v'
| step_close v e v' : eMBClose v = Ret (e, v') -> api_step v v'
| step_register fc h v : api_step v (eMBRegisterCB fc h v).2
| step_set_id id running extra v e d : eMBSetSlaveID id running extra (sid v) = Ret (e, d) ->
    api_step v (mkSlave (mb v) (ucMBAddress v) (eMBCurrentMode v) (eMBState v) (fns v)
      (xFuncHandlers v) d (app v) (ucMBFrame v) (ucRcvAddress v) (p_ucFunctionCode v) (usLength v)
      (eException v))
| step_poll v e v' : eMBPoll v = Ret (e, v') -> api_step v v'
| step_world v w : api_step v (on_mb v (set_env (mb v) w)).

Definition reachable (a : A) (v : slave A) : Prop := rtc api_step (boot_slave a) v.

Lemma safe_ret_inv {X} (P : X -> Prop) (r : mres X) x : safe P r -> r = Ret x -> P x.
Proof using Type. intros Hs ->. done. Qed.

Lemma step_inv v v' : users_safe -> CONFIG_MB_FUNC_OTHER_REP_SLAVEID_BUF <= 253 ->
  slave_inv v -> api_step v v' -> slave_inv v'.
Proof using AppLaws0.
  intros Hu Hcfg Hv Hstep. destruct Hstep as [mode addr baud par t v e v' Hst E|v e v' E|v e v' E|
    v e v' E|fc h v|id running extra v e d E|v e v' E|v w].
  - exact (safe_ret_inv _ _ _ (init_safe mode addr baud par t v Hv Hst) E).
  - exact (safe_ret_inv _ _ _ (enable_safe v Hv) E).
  - exact (safe_ret_inv _ _ _ (disable_safe v Hv) E).
  - exact (safe_ret_inv _ _ _ (close_safe v Hv) E).
  - by apply register_inv.
  - destruct Hv as (Hh & Hid & Hrest). split; [exact Hh|]. split; [|exact Hrest].
    exact (safe_ret_inv _ _ _ (set_id_safe id running extra (sid v) Hcfg Hid) E).
  - exact (safe_ret_inv _ _ _ (poll_safe v Hu Hv) E).
  - exact Hv.
Qed.

Lemma boot_inv a : 0 <= CONFIG_MB_FUNC_OTHER_REP_SLAVEID_BUF -> slave_inv (boot_slave a).
Proof using Type.
  intros Hcfg. unfold slave_inv, layer_inv. simpl. split; [|split; [|split; [done|split; [|done]]]].
  - unfold handlers_ok, xFuncHandlers_init. apply Forall_app. split.
    + unfold initial_handlers. by repeat constructor.
    + apply Forall_replicate. done.
  - unfold id_inv, zlen. simpl. rewrite length_replicate. lia.
  - split; [|done]. unfold bufs_ok, rtu_inv, ascii_inv. simpl. repeat split; (done || lia).
Qed.

Lemma reachable_inv a v : users_safe -> 0 <= CONFIG_MB_FUNC_OTHER_REP_SLAVEID_BUF <= 253 ->
  reachable a v -> slave_inv v.
Proof using AppLaws0.
  intros Hu Hcfg Hr. apply (rtc_ind_r slave_inv (boot_slave a)) in Hr; [done| |].
  - apply boot_inv. lia.
  - intros x y _ Hstep Hx. eapply step_inv; [done|lia|exact Hx|exact Hstep].
Qed.

End inv.
