(* ===== verification/MbBits.v ===== *)
(** * MbBits: the bit utilities of the Modbus library

    [xMBUtilSetBits] and [xMBUtilGetBits] of [src/modbus/functions/mbutils.c] work on two bytes
    of the buffer at a time; here they are compared with the bits of the buffer, numbered from
    the lowest bit of its first byte. *)

From stdpp Require Import strings.
From S2P Require Import Prelude MbCrc MbPort MbLine MbFunc.
#[local] Open Scope Z_scope.

Definition buf_bit (l : list Z) (k : Z) : bool := Z.testbit (l !!! Z.to_nat (k / 8)) (k mod 8).

(** The two bytes as a word. *)
Definition pair_word (b0 b1 : Z) : Z := u16 (Z.lor b0 (Z.shiftl b1 8)).

Lemma mod_bit x n k : 0 <= n -> 0 <= k -> Z.testbit (x mod 2 ^ n) k = (k <? n) && Z.testbit x k.
Proof.
  intros Hn Hk. destruct (Z.ltb_spec k n); simpl.
  - apply Z.mod_pow2_bits_low. lia.
  - apply Z.mod_pow2_bits_high. lia.
Qed.

Lemma ones_bit n k : 0 <= n <= 8 -> 0 <= k -> Z.testbit (u16 (Z.shiftl 1 n - 1)) k = (k <? n).
Proof.
  intros Hn Hk. assert (Z.shiftl 1 n - 1 = Z.ones n) as ->.
  { rewrite Z.shiftl_mul_pow2 by lia. rewrite Z.ones_equiv. lia. }
  unfold u16. rewrite mod_bit by lia. destruct (Z.ltb_spec k n).
  - rewrite Z.ones_spec_low by lia. destruct (Z.ltb_spec k 16); [done|lia].
  - rewrite Z.ones_spec_high by lia. apply andb_false_r.
Qed.

Lemma pair_word_bit b0 b1 k : is_byte b0 -> is_byte b1 -> 0 <= k < 16 ->
  Z.testbit (pair_word b0 b1) k = if k <? 8 then Z.testbit b0 k else Z.testbit b1 (k - 8).
Proof.
  intros Hb0 Hb1 Hk. unfold pair_word, u16. rewrite mod_bit, Z.lor_spec by lia.
  destruct (Z.ltb_spec k 16); [|lia]. simpl. destruct (Z.ltb_spec k 8).
  - rewrite Z.shiftl_spec_low by lia. apply orb_false_r.
  - rewrite Z.shiftl_spec by lia. by rewrite (testbit_small b0 8) by (done || lia).
Qed.

(** Writing a word back as two bytes and reading it again. *)
Lemma pair_word_split w : 0 <= w < 2 ^ 16 ->
  pair_word (u8 (Z.land w 0xff)) (u8 (Z.shiftr w 8)) = w.
Proof.
  intros Hw. apply Z.bits_inj'. intros k Hk. destruct (Z.lt_ge_cases k 16).
  - rewrite pair_word_bit by (apply u8_range || lia). unfold u8. destruct (Z.ltb_spec k 8).
    + rewrite mod_bit, Z.land_spec by lia. change 0xff with (Z.ones 8).
      rewrite Z.ones_spec_low, andb_true_r by lia. by destruct (Z.ltb_spec k 8); [|lia].
    + rewrite mod_bit, Z.shiftr_spec by lia. destruct (Z.ltb_spec (k - 8) 8); [|lia].
      simpl. f_equal. lia.
  - rewrite (testbit_small w 16) by (done || lia). unfold pair_word, u16. rewrite mod_bit by lia.
    by destruct (Z.ltb_spec k 16); [lia|].
Qed.

(** The word with the field at [r] replaced. *)
Definition field_word (w r n v : Z) : Z :=
  u16 (Z.lor (Z.land w (Z.lnot (u16 (Z.shiftl (u16 (Z.shiftl 1 n - 1)) r)))) (u16 (Z.shiftl v r))).

Lemma field_word_bit w r n v k : 0 <= r < 8 -> 0 <= n <= 8 -> 0 <= v < 2 ^ n -> 0 <= k < 16 ->
  Z.testbit (field_word w r n v) k =
  if (r <=? k) && (k <? r + n) then Z.testbit v (k - r) else Z.testbit w k.
Proof.
  intros Hr Hn Hv Hk. unfold field_word, u16 at 1. rewrite mod_bit by lia.
  destruct (Z.ltb_spec k 16) as [_|]; [|lia]. cbn [andb].
  rewrite Z.lor_spec, Z.land_spec, Z.lnot_spec by lia. unfold u16 at 1 3. rewrite !mod_bit by lia.
  destruct (Z.ltb_spec k 16) as [_|]; [|lia]. cbn [andb].
  destruct (Z.leb_spec r k).
  - rewrite !Z.shiftl_spec, ones_bit by lia. destruct (Z.ltb_spec k (r + n)), (Z.ltb_spec (k - r) n); try lia.
    + by rewrite andb_false_r.
    + rewrite andb_true_r, (testbit_small v n) by lia. apply orb_false_r.
  - rewrite !Z.shiftl_spec_low by lia. rewrite andb_true_r. apply orb_false_r.
Qed.

Lemma field_word_range w r n v : 0 <= field_word w r n v < 2 ^ 16.
Proof. apply Z.mod_pos_bound. lia. Qed.

(** Reading the field back. *)
Lemma field_read w r n v : 0 <= r < 8 -> 0 <= n <= 8 -> 0 <= v < 2 ^ n ->
  u8 (Z.land (Z.shiftr (field_word w r n v) r) (u16 (Z.shiftl 1 n - 1))) = v.
Proof.
  intros Hr Hn Hv. apply Z.bits_inj'. intros k Hk. unfold u8. rewrite mod_bit, Z.land_spec by lia.
  rewrite ones_bit, Z.shiftr_spec by lia. destruct (Z.ltb_spec k n).
  - destruct (Z.ltb_spec k 8); [|lia]. rewrite andb_true_r. cbn [andb].
    rewrite field_word_bit by lia. destruct (Z.leb_spec r (k + r)), (Z.ltb_spec (k + r) (r + n)); try lia.
    cbn [andb]. f_equal. lia.
  - rewrite !andb_false_r. symmetry. apply (testbit_small v n); lia.
Qed.

Section bits.
Context `{MbConfig}.

(** The offsets both functions compute. *)
Lemma bit_offsets o : 0 <= o < 65536 ->
  u16 (o / 8) = o / 8 /\ u16 (o - u16 (o / 8) * 8) = o mod 8 /\ o - u16 (o / 8) * 8 = o mod 8.
Proof using Type.
  intros Ho. assert (0 <= o / 8 < 2 ^ 16) as Hq.
  { split; [apply Z.div_pos; lia|apply Z.div_lt_upper_bound; lia]. }
  pose proof (Z.mod_pos_bound o 8). pose proof (Z.div_mod o 8).
  unfold u16. rewrite (Z.mod_small (o / 8)) by done. split; [done|].
  assert (o - o / 8 * 8 = o mod 8) as -> by lia. split; [apply Z.mod_small; lia|done].
Qed.

Lemma set_bits_word l b0 b1 o n v : 0 <= o < 65536 -> 0 <= n <= 8 ->
  l !! Z.to_nat (o / 8) = Some b0 -> l !! S (Z.to_nat (o / 8)) = Some b1 ->
  let w := field_word (pair_word b0 b1) (o mod 8) n v in
  xMBUtilSetBits l o n v =
  Ret (<[S (Z.to_nat (o / 8)) := u8 (Z.shiftr w 8)]> (<[Z.to_nat (o / 8) := u8 (Z.land w 0xff)]> l)).
Proof using Type.
  intros Ho Hn E0 E1 w. destruct (bit_offsets o Ho) as (Hq & Hp & Hp').
  assert (0 <= o / 8) as Hq0 by (apply Z.div_pos; lia).
  assert (Z.to_nat (o / 8 + 1) = S (Z.to_nat (o / 8))) as Hs by lia.
  pose proof (lookup_lt_Some _ _ _ E1) as Hlen.
  unfold xMBUtilSetBits. rewrite assert_true by (apply Z.leb_le; lia).
  rewrite Hp, Hp', Hq. unfold fetch. destruct (Z.leb_spec 0 (o / 8)); [|lia].
  destruct (Z.leb_spec 0 (o / 8 + 1)); [|lia]. rewrite Hs, E0, E1. cbn [mbind mres_bind].
  rewrite store_ok by (unfold zlen; lia). cbn [mbind mres_bind].
  rewrite store_ok by (unfold zlen; rewrite length_insert; lia). rewrite Hs. done.
Qed.

Lemma get_bits_word l b0 b1 o n : 0 <= o < 65536 ->
  l !! Z.to_nat (o / 8) = Some b0 -> l !! S (Z.to_nat (o / 8)) = Some b1 ->
  xMBUtilGetBits l o n =
  Ret (u8 (Z.land (Z.shiftr (pair_word b0 b1) (o mod 8)) (u16 (Z.shiftl 1 n - 1)))).
Proof using Type.
  intros Ho E0 E1. destruct (bit_offsets o Ho) as (Hq & Hp & _).
  assert (0 <= o / 8) as Hq0 by (apply Z.div_pos; lia).
  assert (Z.to_nat (o / 8 + 1) = S (Z.to_nat (o / 8))) as Hs by lia.
  unfold xMBUtilGetBits. rewrite Hp, Hq. unfold fetch. destruct (Z.leb_spec 0 (o / 8)); [|lia].
  destruct (Z.leb_spec 0 (o / 8 + 1)); [|lia]. rewrite Hs, E0, E1. done.
Qed.

(** A bit outside the field keeps its value. *)
Lemma other_bits (l : list Z) b0 b1 o n v k : 0 <= o < 65536 -> 0 <= n <= 8 -> 0 <= v < 2 ^ n ->
  is_byte b0 -> is_byte b1 ->
  l !! Z.to_nat (o / 8) = Some b0 -> l !! S (Z.to_nat (o / 8)) = Some b1 ->
  0 <= k -> k < o \/ o + n <= k ->
  let w := field_word (pair_word b0 b1) (o mod 8) n v in
  Z.testbit ((<[S (Z.to_nat (o / 8)) := u8 (Z.shiftr w 8)]>
              (<[Z.to_nat (o / 8) := u8 (Z.land w 0xff)]> l)) !!! Z.to_nat (k / 8)) (k mod 8) =
  Z.testbit (l !!! Z.to_nat (k / 8)) (k mod 8).
Proof using Type.
  intros Ho Hn Hv Hb0 Hb1 E0 E1 Hk Hout w. assert (0 <= o / 8) as Hq by (apply Z.div_pos; lia).
  assert (0 <= k / 8) as Hkq by (apply Z.div_pos; lia).
  pose proof (Z.div_mod o 8). pose proof (Z.div_mod k 8).
  pose proof (Z.mod_pos_bound o 8). pose proof (Z.mod_pos_bound k 8).
  pose proof (lookup_lt_Some _ _ _ E1) as Hlen.
  destruct (decide (k / 8 = o / 8)) as [Ek|Nk].
  - rewrite Ek, list_lookup_total_insert_ne, list_lookup_total_insert_eq by lia.
    rewrite (list_lookup_total_correct _ _ _ E0). unfold u8. rewrite mod_bit, Z.land_spec by lia.
    change 0xff with (Z.ones 8). rewrite Z.ones_spec_low, andb_true_r by lia.
    destruct (Z.ltb_spec (k mod 8) 8); [|lia]. cbn [andb]. unfold w. rewrite field_word_bit by lia.
    destruct (Z.leb_spec (o mod 8) (k mod 8)), (Z.ltb_spec (k mod 8) (o mod 8 + n)); try lia;
      cbn [andb]; rewrite pair_word_bit by (done || lia); by destruct (Z.ltb_spec (k mod 8) 8); [|lia].
  - destruct (decide (k / 8 = o / 8 + 1)) as [Ek|Nk'].
    + assert (Z.to_nat (k / 8) = S (Z.to_nat (o / 8))) as -> by lia.
      rewrite list_lookup_total_insert_eq by (rewrite length_insert; lia).
      rewrite (list_lookup_total_correct _ _ _ E1). unfold u8. rewrite mod_bit, Z.shiftr_spec by lia.
      destruct (Z.ltb_spec (k mod 8) 8); [|lia]. cbn [andb]. unfold w. rewrite field_word_bit by lia.
      destruct (Z.leb_spec (o mod 8) (k mod 8 + 8)), (Z.ltb_spec (k mod 8 + 8) (o mod 8 + n)); try lia;
        cbn [andb]; rewrite pair_word_bit by (done || lia);
        destruct (Z.ltb_spec (k mod 8 + 8) 8); try lia; f_equal; lia.
    + by rewrite !list_lookup_total_insert_ne by lia.
Qed.

End bits.
