(* ===== verification/MbTheorems.v ===== *)
(** * MbTheorems: correctness of the Modbus slave

    The theorems about the slave as a whole, with an application of a few registers to evaluate
    them on. *)

From stdpp Require Import strings.
From S2P Require Import Prelude MbCrc MbPort MbLine MbRtu MbAscii MbFunc MbSpec Mb MbFrame MbRtuFrame.
From S2P Require Import MbAsciiFrame MbReply MbExchange MbSafe MbInv MbBits.
#[local] Open Scope Z_scope.

(** ** An application with a bank of registers *)

Definition in_bank (a : list Z) (addr n : Z) : bool := (1 <=? addr) && (addr - 1 + n <=? zlen a / 2).

Definition bank_read (a : list Z) (addr n : Z) : eMBErrorCode * list Z * list Z :=
  if in_bank a addr n then (MB_ENOERR, u8 <$> zslice (2 * (addr - 1)) (2 * n) a, a)
  else (MB_ENOREG, [], a).

Definition bank_write (a l : list Z) (addr n : Z) : eMBErrorCode * list Z :=
  if in_bank a addr n then (MB_ENOERR, zwrite (2 * (addr - 1)) l a) else (MB_ENOREG, a).

(** No coil is set. *)
Definition bank_bits (a : list Z) (addr n : Z) : eMBErrorCode * list Z * list Z :=
  (MB_ENOERR, replicate (Z.to_nat (bit_bytes n)) 0, a).

#[export] Instance bank_app : App (list Z) :=
  Build_App _ bank_read bank_read bank_write bank_bits bank_write bank_bits.

#[export] Instance bank_users : UserHandlers (list Z) :=
  fun _ b _ n a => Ret (MB_EX_ILLEGAL_FUNCTION, b, n, a).

Lemma bank_read_fills a addr n : 1 <= n <= 125 -> fills (2 * n) (bank_read a addr n).
Proof.
  intros Hn. unfold bank_read. destruct (in_bank a addr n) eqn:E.
  - unfold in_bank in E. breflect. pose proof (Z.div_mod (zlen a) 2).
    pose proof (Z.mod_pos_bound (zlen a) 2).
    assert (zlen (u8 <$> zslice (2 * (addr - 1)) (2 * n) a) = 2 * n) as Hz.
    { unfold zlen at 1. rewrite length_fmap. apply zlen_zslice; lia. }
    split; [apply Forall_fmap, Forall_true; intros; apply u8_range|]. simpl. rewrite Hz. split; [lia|done].
  - repeat split; [by constructor|unfold zlen; simpl; lia|done].
Qed.

Lemma bank_bits_fills a addr n : 1 <= n <= 2000 -> fills (bit_bytes n) (bank_bits a addr n).
Proof.
  intros Hn. pose proof (bit_bytes_le n). unfold bank_bits, fills, zlen. simpl.
  rewrite length_replicate, Z2Nat.id by lia. split; [|lia]. apply Forall_replicate. unfold is_byte. lia.
Qed.

#[export] Instance bank_laws : AppLaws (list Z).
Proof. constructor; intros; (by apply bank_read_fills) || (by apply bank_bits_fills). Qed.

Lemma bank_users_safe `{MbConfig} : users_safe (A := list Z).
Proof. intros k b n a Hb Hn. by apply reject_safe. Qed.

Module Demo.
#[export] Instance cfg : MbConfig := Build_MbConfig true 16 1 32.
(** One second between two readings. *)
#[export] Instance clk : Clock := fun n => Some {| tv_sec := Z.of_nat n; tv_usec := 0 |}.

Lemma clk_steady tout : tout < 1000 -> steady tout.
Proof.
  intros Ht n. do 2 eexists. split; [done|]. split; [done|]. unfold ulDeltaMS. simpl.
  replace ((Z.of_nat (S n) - Z.of_nat n) * 1000 + (0 - 0) * 1000) with 1000 by lia. exact Ht.
Qed.

Definition good_tty : tty :=
  {| tty_open := 3; tcgetattr_ok := true; cfsetispeed_ok := true; tcsetattr_ok := true |}.

Definition bank0 : list Z := [0; 10; 0; 20; 0; 30; 0; 40].
End Demo.

(** ** Both serial modes *)

Definition serial (ascii : bool) : eMBMode := if ascii then MB_ASCII else MB_RTU.

#[export] Instance serial_layer `{MbConfig} `{Clock} (ascii : bool) :
  FrameLayer (fns_of (Some (serial ascii))) :=
  match ascii with true => ascii_frame_layer | false => rtu_frame_layer end.

(** ** The checksum *)

(** C36. The table-driven checksum of RTU frames equals the reflected CRC-16 with polynomial
    0xa001 computed bit by bit, and a frame followed by its checksum, low byte first, has
    checksum zero. *)
Theorem crc_reference l : Forall is_byte l ->
  usMBCRC16 l = crc16 l /\ usMBCRC16 (l ++ crc_tail l) = 0.
Proof. intros Hl. split; [by apply usMBCRC16_crc16|by apply crc_self]. Qed.

Lemma crc_reference_witness : usMBCRC16 [0x11; 0x03; 0x00; 0x6b; 0x00; 0x03] = 0x8776 /\
  usMBCRC16 [0x11; 0x03; 0x00; 0x6b; 0x00; 0x03; 0x76; 0x87] = 0.
Proof.
  pose proof (crc_reference [0x11; 0x03; 0x00; 0x6b; 0x00; 0x03]) as [E1 E2].
  - solve_bytes.
  - split; [rewrite E1; vm_compute; reflexivity|exact E2].
Defined.

Section theorems.
Context `{MbConfig} `{Clock} {A : Type} `{App A} `{!AppLaws A} `{UserHandlers A}.

(** ** Frames on the line *)

(** C18. In either mode, what the transmitter puts on the line for an address and a PDU is
    received by another station, in whatever pieces its device delivers the bytes, as that
    address and that PDU; the transmitter is idle again and has posted [EV_FRAME_SENT]. *)
Theorem frame_roundtrip ascii addr a0 pdu rest s r : clock_ok ->
  fl_idle (f := fns_of (Some (serial ascii))) s -> xEventInQueue (ev s) = false -> writes_ok s ->
  fl_idle (f := fns_of (Some (serial ascii))) r -> xEventInQueue (ev r) = false ->
  ucRTUBuf s = a0 :: pdu ++ rest -> is_byte addr -> Forall is_byte pdu -> 1 <= zlen pdu <= 252 ->
  let f := fns_of (Some (serial ascii)) in
  exists s1 s2 wire, peMBFrameSendCur f addr 1 (zlen pdu) s = Ret (MB_ENOERR, s1) /\
    port_get f s1 = Ret (None, s2) /\ ev s2 = mkEvent true EV_FRAME_SENT /\ fl_idle (f := f) s2 /\
    line (env s2) = line (env s) ++ wire /\
    forall cs tail, concat cs = wire -> Forall piece_ok cs -> sel_in (env r) = pieces cs tail ->
      line_gap r (length wire) ->
      exists r' b, port_get f r = Ret (None, r') /\ ev r' = mkEvent true EV_FRAME_RECEIVED /\
        peMBFrameReceiveCur f r' = Ret (MB_ENOERR, Some (addr, 1, zlen pdu)) /\
        ucRTUBuf r' = addr :: pdu ++ b.
Proof using Type.
  intros Hclk Hs Hes Hws Hr Her Hbuf Ha Hp Hn f.
  assert (252 <= fl_max (f := f)) as Hmax by (by destruct ascii).
  destruct (fl_send (f := f) addr a0 pdu rest s) as (s1 & s2 & E1 & _ & _ & E2 & Hi2 & He2 & _ & Ho2 & _);
    [done..|lia|].
  exists s1, s2, (fl_encode (f := f) addr pdu). repeat (split; [done|]).
  intros cs tail Hcs Hok Hsel Hgap. rewrite <- Hcs in Hgap.
  destruct (fl_receive (f := f) addr pdu r cs tail) as (r' & E & Hh & _ & He & _); try done; [lia|].
  destruct (fl_take (f := f) addr pdu r' Hh) as [Et [b Hb]]. by exists r', b.
Qed.

(** C20. A frame damaged in at most two neighbouring bytes is dropped: two polls later the slave
    waits for the next frame, has not called the application and has sent nothing. *)
Theorem damaged_frame_ignored v addr pdu p a b c d q cs rest : clock_ok ->
  ready (A := A) (serial false) v -> is_byte addr -> Forall is_byte pdu -> 1 <= zlen pdu <= 252 ->
  rtu_encode addr pdu = p ++ [a; b] ++ q -> Forall is_byte [c; d] -> [c; d] <> [a; b] ->
  concat cs = p ++ [c; d] ++ q -> Forall piece_ok cs -> sel_in (env (mb v)) = pieces cs rest ->
  line_gap (mb v) (length (concat cs)) ->
  exists v', polls 2 v = Ret v' /\ ready (serial false) v' /\ app v' = app v /\
    line (env (mb v')) = line (env (mb v)) /\ sel_in (env (mb v')) = rest.
Proof using Type.
  intros Hclk Hr Ha Hp Hn Henc Hcd Hne Hcs Hok Hsel Hgap.
  pose proof Hr as (Hst & Hf & Hidle & Hev & Hhd & Hid & Hub & Hnb & Hwr).
  pose proof (rtu_encode_len addr pdu) as Hz. pose proof (rtu_encode_bytes addr pdu Ha Hp) as Hby.
  rewrite Henc in Hz, Hby. apply Forall_app in Hby as [Hbp Hby]. apply Forall_app in Hby as [Hab Hbq].
  assert (zlen (concat cs) = zlen pdu + 3) as Hzc by (rewrite Hcs, <- Hz, !zlen_app; done).
  destruct (rtu_receive_any (mb v) cs rest) as (s & E & Hg & _ & He & _ & Hi & Hw & Ho); try done; [lia|].
  assert (usMBCRC16 (concat cs) <> 0) as Hcrc.
  { assert (usMBCRC16 (p ++ [a; b] ++ q) = 0) as H0'.
    { rewrite <- Henc. unfold rtu_encode. apply (crc_self (addr :: pdu)). by constructor. }
    rewrite Hcs. intros E0. inv_Forall.
    destruct (crc_two_bytes p q c d a b) as [-> ->]; [done|done|solve_bytes|congruence|done]. }
  rewrite (poll_enabled (serial false)) by done.
  change (port_get (fns_of (Some (serial false))) (mb v)) with (port_get rtu_fns (mb v)). rewrite E.
  cbn [mbind mres_bind]. rewrite (poll_enabled (serial false)) by done. cbn [on_mb mb].
  rewrite (port_get_event _ s EV_FRAME_RECEIVED) by done. cbn [mbind mres_bind polls].
  unfold frame_received. cbn [fns mb on_mb]. rewrite Hf. cbn [fns_of serial peMBFrameReceiveCur rtu_fns].
  rewrite (rtu_take (concat cs)) by (exact Hg || lia).
  destruct (Z.eqb_spec (usMBCRC16 (concat cs)) 0) as [|_]; [done|]. cbn [mbind mres_bind].
  eexists. split; [done|]. split; [|by split].
  unfold ready. simpl. repeat (split; [done|]). split; [apply Hg|]. repeat (split; [done|]).
  unfold writes_ok. simpl. by rewrite Hw.
Qed.

(** C13. For every request whose data are complete, the handlers and the exception frame leave in
    the frame buffer exactly the reply PDU of the specification (parse the request, serve it by
    the application, encode the reply or the exception), of 1 to 253 bytes, and the application
    in the state the specification gives. *)
Theorem handlers_refine_spec (v : slave A) a0 pdu rest :
  xFuncHandlers v = xFuncHandlers_init -> id_ok (sid v) -> complete pdu = true -> pdu <> [] ->
  ucRTUBuf (mb v) = a0 :: pdu ++ rest -> request_frame a0 pdu rest -> usLength v = zlen pdu ->
  let r := answer (sid v) pdu (app v) in
  Forall is_byte r.1 /\ 1 <= zlen r.1 <= 253 /\
  exists fc e b n rest', dispatch v 1 = Ret (fc, (e, b, n, r.2)) /\ hd 0 pdu = fc /\
    exception_frame b 1 fc e n = Ret (a0 :: r.1 ++ rest', zlen r.1) /\
    length (a0 :: r.1 ++ rest') = 256%nat.
Proof using AppLaws0.
  intros Hh Hid Hc Hne Hbuf Hrf Hlen r. destruct pdu as [|fc l]; [done|].
  destruct (dispatch_answer v a0 fc l rest) as (Hb & Hn & e & b & n & rest' & E & _ & Ee & Hl); try done.
  split; [done|]. split; [done|]. by exists fc, e, b, n, rest'.
Qed.

(** C4. In either mode, a slave that is ready (enabled, idle, the standard handlers, no write of the
    device fails) answers a sequence of well-formed frames on the bus as specified: requests to
    its address are served in order and their replies appear on the line, broadcasts are executed
    without a reply, frames for other slaves change nothing; it takes finitely many polls and the
    slave is ready again.  Each frame arrives in any pieces followed by silence; requests the slave
    executes have all the data they announce (with fewer, bytes of earlier frames are written:
    [MbFindings.stale_bytes_written]).  [gettimeofday] succeeds, and in RTU mode its readings at
    the last byte of a frame and at the poll after it are further apart than the time-out. *)
Theorem slave_serves_session ascii v fs tail : clock_ok -> ready (A := A) (serial ascii) v ->
  Forall (frame_ok (serial ascii) (ucMBAddress v)) fs ->
  silences (serial ascii) (ulTimeOut (tm (mb v))) (ticks (env (mb v))) ((fun f => length (concat f.2)) <$> fs) ->
  sel_in (env (mb v)) = foldr (fun f rest => pieces f.2 rest) tail fs ->
  let r := session (ucMBAddress v) (sid v) (fst <$> fs) (app v) in
  exists n v', polls n v = Ret v' /\ ready (serial ascii) v' /\ app v' = r.2 /\
    line (env (mb v')) = line (env (mb v)) ++
      concat (fl_encode (f := fns_of (Some (serial ascii))) (ucMBAddress v) <$> r.1) /\
    sel_in (env (mb v')) = tail.
Proof using AppLaws0. intros. by apply session_polls. Qed.

(** C5. In every state reachable by any sequence of calls of the interface, the invariant of the
    buffers, positions and tables holds, and the next call of [eMBPoll] does not access memory
    outside an array: it returns, or, in a build with assertions only, stops at a failed
    [DEBUGASSERT] ([MbFindings.full_frame_asserts]).  The device delivers any finite sequence of
    bytes, errors and time-outs and is silent afterwards; that [eMBPoll] returns is claimed for
    such a device only, since one that fails for ever keeps it in its loop
    ([MbFindings.failing_device_spins]). *)
Theorem slave_memory_safe a v : users_safe (A := A) ->
  0 <= CONFIG_MB_FUNC_OTHER_REP_SLAVEID_BUF <= 253 -> reachable a v ->
  slave_inv v /\
  match eMBPoll v with
  | Ret (_, v') => reachable a v'
  | AssertFailed => CONFIG_DEBUG_ASSERTIONS = true
  | BadAccess | NoFuel => False
  end.
Proof using AppLaws0.
  intros Hu Hcfg Hr. pose proof (reachable_inv a v Hu Hcfg Hr) as Hv. split; [done|].
  pose proof (poll_safe v Hu Hv) as Hs. destruct (eMBPoll v) as [[e v']| | |] eqn:E; try done.
  eapply rtc_r; [exact Hr|]. by eapply step_poll.
Qed.

(** A device all of whose calls succeed. *)
Definition tty_good (t : tty) : Prop :=
  0 <= tty_open t /\ tcgetattr_ok t = true /\ cfsetispeed_ok t = true /\ tcsetattr_ok t = true.

Lemma serial_init_good t k par s : tty_good t -> k = 8 \/ k = 7 ->
  xMBPortSerialInit t k par s =
  Ret (true, set_ser s (mkSerial (tty_open t) false false (ulTimeoutMs (ser s)) (ucBuffer (ser s))
    (uiRxBufferPos (ser s)) (uiTxBufferPos (ser s)))).
Proof using Type.
  intros (Ho & Hg & Hs & Ht) Hk. unfold xMBPortSerialInit. rewrite Hg, Hs, Ht.
  destruct (Z.ltb_spec (tty_open t) 0); [lia|]. cbn [negb].
  destruct Hk as [-> | ->]; simpl; by rewrite enable_ok.
Qed.

(** The slave right after [eMBEnable]: both layers need at most two polls of a silent line. *)
Lemma start_ready ascii (v2 : slave A) : eMBState v2 = STATE_ENABLED -> fns v2 = Some (serial ascii) ->
  xFuncHandlers v2 = xFuncHandlers_init -> id_ok (sid v2) -> is_byte (ucMBAddress v2) ->
  ucMBAddress v2 <> MB_ADDRESS_BROADCAST -> writes_ok (mb v2) -> sel_in (env (mb v2)) = [] ->
  listening (ser (mb v2)) -> length (ucRTUBuf (mb v2)) = 256%nat ->
  (if ascii then
     ev (mb v2) = mkEvent true EV_READY /\ bTimeoutEnable (tm (mb v2)) = false /\
     a_snd (asc (mb v2)) = ATX_IDLE /\ a_rcv (asc (mb v2)) = ARX_IDLE /\
     a_lf (asc (mb v2)) = MB_ASCII_DEFAULT_LF
   else
     xEventInQueue (ev (mb v2)) = false /\ r_snd (rtu (mb v2)) = TX_IDLE /\
     r_rcv (rtu (mb v2)) = RX_INIT /\ bTimeoutEnable (tm (mb v2)) = true /\
     exists t', clock (ticks (env (mb v2))) = Some t' /\
       ulTimeOut (tm (mb v2)) < ulDeltaMS t' (xTimeLast (tm (mb v2)))) ->
  exists v3, polls 2 v2 = Ret v3 /\ ready (serial ascii) v3 /\ ucMBAddress v3 = ucMBAddress v2 /\
    app v3 = app v2.
Proof using Type.
  intros Hst Hf Hh Hid Hb Hnb Hwr Hsel Hl Hlen Hm. destruct ascii; cbn [serial] in *.
  - destruct Hm as (Hev & Hen & Hsnd & Hrcv & Hlf).
    rewrite (poll_enabled MB_ASCII), (port_get_event _ _ EV_READY) by done. cbn [mbind mres_bind].
    rewrite (poll_enabled MB_ASCII), port_get_silent by done.
    unfold vMBPortTimerPoll. cbn [mb on_mb tm set_ev]. rewrite Hen. cbn [mbind mres_bind polls].
    eexists. split; [done|]. split; [|done]. unfold ready. simpl. by repeat (split; [done|]).
  - destruct Hm as (Hev & Hsnd & Hrcv & Hen & t' & Ht' & Hgap).
    rewrite (poll_enabled MB_RTU), port_get_silent by done.
    unfold vMBPortTimerPoll, gettimeofday. rewrite Hen, Ht'. cbn [set_env tm].
    destruct (Z.ltb_spec (ulTimeOut (tm (mb v2))) (ulDeltaMS t' (xTimeLast (tm (mb v2))))); [|lia].
    cbn [fns_of pxMBPortCBTimerExpired rtu_fns]. unfold xMBRTUTimerT35Expired.
    cbn [vMBPortTimersDisable set_tm set_env rtu]. rewrite Hrcv. unfold xMBPortEventPost. cbn [mbind mres_bind].
    rewrite (poll_enabled MB_RTU), (port_get_event _ _ EV_READY) by done. cbn [mbind mres_bind polls].
    eexists. split; [done|]. split; [|done]. unfold ready. simpl. by repeat (split; [done|]).
Qed.

(** What a successful [eMBInit] leaves in the lower layers. *)
Definition init_done (ascii : bool) (s s1 : mbs) : Prop :=
  xEventInQueue (ev s1) = false /\ bTimeoutEnable (tm s1) = bTimeoutEnable (tm s) /\
  ucBuffer (ser s1) = ucBuffer (ser s) /\ env s1 = env s /\ ucRTUBuf s1 = ucRTUBuf s /\
  rtu s1 = rtu s /\ a_snd (asc s1) = a_snd (asc s) /\
  (if ascii then a_lf (asc s1) = MB_ASCII_DEFAULT_LF else True).

Lemma init_good ascii addr baud par t (v : slave A) : tty_good t -> 1 <= addr <= 247 ->
  exists s1, init_done ascii (mb v) s1 /\
  eMBInit (serial ascii) addr baud par t v = Ret (MB_ENOERR,
    mkSlave s1 addr (serial ascii) STATE_DISABLED (Some (serial ascii)) (xFuncHandlers v) (sid v)
      (app v) (ucMBFrame v) (ucRcvAddress v) (p_ucFunctionCode v) (usLength v) (eException v)).
Proof using Type.
  intros Ht Haddr. unfold eMBInit.
  assert ((addr =? MB_ADDRESS_BROADCAST) || (addr <? MB_ADDRESS_MIN) || (MB_ADDRESS_MAX <? addr) = false) as ->.
  { unfold MB_ADDRESS_BROADCAST, MB_ADDRESS_MIN, MB_ADDRESS_MAX.
    destruct (Z.eqb_spec addr 0), (Z.ltb_spec addr 1), (Z.ltb_spec 247 addr); lia || done. }
  destruct ascii; cbn [serial]; unfold eMBASCIIInit, eMBRTUInit;
    (rewrite serial_init_good by (done || (left; done) || (right; done)));
    (eexists; split; [|reflexivity]); unfold init_done; simpl; by repeat (split; [done|]).
Qed.

(** Enabling starts the frame layer; the RTU layer starts its timer. *)
Lemma enable_good ascii s0 s1 (v1 : slave A) : mb v1 = s1 -> eMBState v1 = STATE_DISABLED ->
  fns v1 = Some (serial ascii) -> init_done ascii s0 s1 -> (exists t, clock (ticks (env s1)) = Some t) ->
  exists v2, eMBEnable v1 = Ret (MB_ENOERR, v2) /\ eMBState v2 = STATE_ENABLED /\
    v2 = to_state (on_mb v1 (mb v2)) STATE_ENABLED /\
    bRxEnabled (ser (mb v2)) = true /\ bTxEnabled (ser (mb v2)) = false /\
    uiRxBufferPos (ser (mb v2)) = 0 /\ ucBuffer (ser (mb v2)) = ucBuffer (ser s0) /\
    ucRTUBuf (mb v2) = ucRTUBuf s0 /\ sel_in (env (mb v2)) = sel_in (env s0) /\
    wr_in (env (mb v2)) = wr_in (env s0) /\
    (if ascii then
       ev (mb v2) = mkEvent true EV_READY /\ bTimeoutEnable (tm (mb v2)) = bTimeoutEnable (tm s0) /\
       a_snd (asc (mb v2)) = a_snd (asc s0) /\ a_rcv (asc (mb v2)) = ARX_IDLE /\
       a_lf (asc (mb v2)) = MB_ASCII_DEFAULT_LF
     else
       xEventInQueue (ev (mb v2)) = false /\ r_snd (rtu (mb v2)) = r_snd (rtu s0) /\
       r_rcv (rtu (mb v2)) = RX_INIT /\ bTimeoutEnable (tm (mb v2)) = true /\
       clock (ticks (env s1)) = Some (xTimeLast (tm (mb v2))) /\
       ticks (env (mb v2)) = S (ticks (env s1)) /\ ulTimeOut (tm (mb v2)) = ulTimeOut (tm s1)).
Proof using Type.
  intros Emb Hst Hf (Hev & Hen & Hub & Henv & Hbuf & Hrtu & Hsnd & Hlf) [t Ht].
  unfold eMBEnable. rewrite bool_decide_true by done. rewrite Hf, Emb. destruct ascii; cbn [serial] in *.
  - cbn [fns_of pvMBFrameStartCur ascii_fns]. unfold eMBASCIIStart. rewrite enable_ok by done.
    cbn [mbind mres_bind]. eexists. split; [reflexivity|]. simpl. rewrite Henv. by repeat (split; [done|]).
  - cbn [fns_of pvMBFrameStartCur rtu_fns]. unfold eMBRTUStart. rewrite enable_ok by done.
    cbn [mbind mres_bind]. rewrite (timers_enable _ t) by done. cbn [mbind mres_bind].
    eexists. split; [reflexivity|]. simpl. rewrite Hrtu, <- Henv. by repeat (split; [done|]).
Qed.

(** C32. From power-up, initialising for a valid address on a working device and enabling the
    slave makes it ready in two polls, once the line has been silent longer than the time-out:
    the state [slave_serves_session] starts from. *)
Theorem slave_starts ascii addr baud par t a : tty_good t -> 1 <= addr <= 247 ->
  0 <= CONFIG_MB_FUNC_OTHER_REP_SLAVEID_BUF ->
  exists v1, eMBInit (serial ascii) addr baud par t (boot_slave a) = Ret (MB_ENOERR, v1) /\
    (steady (ulTimeOut (tm (mb v1))) ->
     exists v2 v3, eMBEnable v1 = Ret (MB_ENOERR, v2) /\ polls 2 v2 = Ret v3 /\
       ready (serial ascii) v3 /\ ucMBAddress v3 = addr /\ app v3 = a).
Proof using Type.
  intros Ht Haddr Hcfg.
  destruct (init_good ascii addr baud par t (boot_slave a) Ht Haddr) as (s1 & Hdone & E).
  rewrite E. eexists. split; [reflexivity|]. cbn [mb]. intros Hs.
  destruct (Hs (ticks (env s1))) as (t0 & t1 & E0 & E1 & Hlt). cbn [boot_slave mb] in Hdone.
  match goal with |- context [eMBEnable ?v] => destruct (enable_good ascii boot_mbs s1 v)
    as (v2 & Een & Hst2 & Ev2 & Hrx & Htx & Hrp & Hub & Hbuf & Hsel & Hwr & Hmode); [done..|by exists t0|] end.
  exists v2. destruct (start_ready ascii v2) as (v3 & E3 & Hr & Ha & Happ);
    [done|by rewrite Ev2|by rewrite Ev2|..].
  - rewrite Ev2. cbn [boot_slave to_state on_mb sid].
    split; [apply Forall_replicate; unfold is_byte; lia|]. unfold zlen. simpl. lia.
  - rewrite Ev2. cbn [to_state on_mb ucMBAddress]. unfold is_byte. lia.
  - rewrite Ev2. cbn [to_state on_mb ucMBAddress]. unfold MB_ADDRESS_BROADCAST. lia.
  - unfold writes_ok. rewrite Hwr. by constructor.
  - by rewrite Hsel.
  - unfold listening. by rewrite Hub.
  - by rewrite Hbuf.
  - destruct ascii; [done|]. destruct Hmode as (Hm1 & Hm2 & Hm3 & Hm4 & Hm5 & Hm6 & Hm7).
    repeat (split; [done|]). exists t1. rewrite Hm6, Hm7. split; [done|].
    rewrite E0 in Hm5. injection Hm5 as <-. done.
  - exists v3. repeat (split; [done|]). rewrite Ha, Happ, Ev2. done.
Qed.

(** ** The table of handlers *)

(** Entries in use, then free entries. *)
Definition dense (t : list xMBFunctionHandler) : Prop :=
  exists used k, t = used ++ replicate k empty_entry /\
    Forall (fun e => ucFunctionCode e <> 0 /\ pxHandler e <> None) used.

Definition has_room (t : list xMBFunctionHandler) : bool :=
  existsb (fun e => bool_decide (pxHandler e = None)) t.

Lemma find_dense used t fc : Forall (fun e => ucFunctionCode e <> 0 /\ pxHandler e <> None) used ->
  find_handler (used ++ t) fc =
  match find_handler used fc with Some h => Some h | None => find_handler t fc end.
Proof using Type.
  induction 1 as [|e used [He _] _ IH]; [done|]. rewrite <- app_comm_cons. cbn [find_handler].
  destruct (Z.eqb_spec (ucFunctionCode e) 0); [done|]. by destruct (ucFunctionCode e =? fc).
Qed.

Lemma find_free k fc : find_handler (replicate k empty_entry) fc = None.
Proof using Type. by destruct k. Qed.

Lemma replace_dense used k h e : Forall (fun e => ucFunctionCode e <> 0 /\ pxHandler e <> None) used ->
  Forall (fun e => pxHandler e <> Some h) used ->
  replace_first (fun e => bool_decide (pxHandler e = None \/ pxHandler e = Some h)) e
    (used ++ replicate k empty_entry) =
  match k with O => None | S k => Some (used ++ e :: replicate k empty_entry) end.
Proof using Type.
  intros Hu Hh. induction used as [|x used IH]; [by destruct k|]. inv_Forall. rewrite <- app_comm_cons. cbn [replace_first].
  rewrite bool_decide_false by naive_solver. rewrite IH by done. by destruct k.
Qed.

Lemma room_dense used k : Forall (fun e => ucFunctionCode e <> 0 /\ pxHandler e <> None) used ->
  has_room (used ++ replicate k empty_entry) = match k with O => false | S _ => true end.
Proof using Type.
  unfold has_room. induction 1 as [|e used [_ He] _ IH]; [by destruct k|]. rewrite <- app_comm_cons. cbn [existsb].
  by rewrite bool_decide_false.
Qed.

(** Registering a new handler for a new function code in a table without holes succeeds
    exactly when an entry is free; then the code is dispatched to the handler, every other code
    is dispatched as before, and the table is again without holes.  Codes outside 1 to 127 are
    refused and a full table reports [MB_ENORES], both without a change. *)
Theorem register_dispatches fc h (v : slave A) : let t := xFuncHandlers v in
  dense t -> Forall (fun e => pxHandler e <> Some h) t -> find_handler t fc = None ->
  let r := eMBRegisterCB fc (Some h) v in
  if (1 <=? fc) && (fc <=? 127) then
    if has_room t then
      r.1 = MB_ENOERR /\ dense (xFuncHandlers r.2) /\
      find_handler (xFuncHandlers r.2) fc = Some (Some h) /\
      forall g, g <> fc -> find_handler (xFuncHandlers r.2) g = find_handler t g
    else r = (MB_ENORES, v)
  else r = (MB_EINVAL, v).
Proof using Type.
  intros t (used & k & Et & Hu) Hh Hf r. subst r. unfold eMBRegisterCB.
  assert ((0 <? fc) && (fc <=? 127) = (1 <=? fc) && (fc <=? 127)) as ->.
  { f_equal. destruct (Z.ltb_spec 0 fc), (Z.leb_spec 1 fc); lia || done. }
  destruct ((1 <=? fc) && (fc <=? 127)) eqn:Hfc; [|done]. breflect. fold t. rewrite Et in *.
  apply Forall_app in Hh as [Hh _]. rewrite replace_dense, room_dense by done.
  destruct k as [|k]; [done|]. cbn [fst snd xFuncHandlers with_handlers].
  rewrite find_dense, find_free in Hf by done. destruct (find_handler used fc) eqn:Eu; [done|].
  split; [done|]. split; [|split].
  - exists (used ++ [mkHandler fc (Some h)]), k. rewrite <- (assoc_L (++)). split; [done|].
    apply Forall_app. split; [done|]. constructor; [|done]. simpl. split; [lia|done].
  - rewrite find_dense, Eu, find_cons by (done || lia). by rewrite Z.eqb_refl.
  - intros g Hg. rewrite !find_dense, find_cons by (done || lia).
    destruct (Z.eqb_spec g fc); [done|]. by rewrite !find_free.
Qed.

(** ** Bits *)

(** Setting [n] bits of a buffer at a bit offset and reading them gives the value back; all
    other bits of the buffer keep their values.  The byte after the one of the offset must be
    part of the buffer. *)
Theorem set_get_bits l o n x : Forall is_byte l -> 0 <= o < 65536 -> 0 <= n <= 8 -> 0 <= x < 2 ^ n ->
  o / 8 + 1 < zlen l ->
  exists l', xMBUtilSetBits l o n x = Ret l' /\ xMBUtilGetBits l' o n = Ret x /\
    length l' = length l /\
    forall k, 0 <= k < 8 * zlen l -> k < o \/ o + n <= k -> buf_bit l' k = buf_bit l k.
Proof using Type.
  intros Hl Ho Hn Hx Hlen. assert (0 <= o / 8) as Hq by (apply Z.div_pos; lia).
  set (q := Z.to_nat (o / 8)). assert (S q < length l)%nat as Hsq by (unfold q, zlen in *; lia).
  destruct (lookup_lt_is_Some_2 l q) as [b0 E0]; [lia|].
  destruct (lookup_lt_is_Some_2 l (S q)) as [b1 E1]; [done|].
  assert (is_byte b0 /\ is_byte b1) as [Hb0 Hb1] by (split; by eapply Forall_lookup_1).
  set (r := o mod 8). assert (0 <= r < 8) as Hr by (apply Z.mod_pos_bound; lia).
  set (w := field_word (pair_word b0 b1) r n x). pose proof (field_word_range (pair_word b0 b1) r n x) as Hw.
  eexists. split; [by apply (set_bits_word l b0 b1)|]. fold q r w.
  set (l' := <[S q := u8 (Z.shiftr w 8)]> (<[q := u8 (Z.land w 0xff)]> l)).
  assert (l' !! q = Some (u8 (Z.land w 0xff))) as F0.
  { unfold l'. rewrite list_lookup_insert_ne by lia. apply list_lookup_insert_eq. lia. }
  assert (l' !! S q = Some (u8 (Z.shiftr w 8))) as F1.
  { unfold l'. apply list_lookup_insert_eq. rewrite length_insert. lia. }
  split; [|split; [unfold l'; by rewrite !length_insert|]].
  - rewrite (get_bits_word l' _ _ o n Ho F0 F1). rewrite pair_word_split by done.
    unfold w. fold r. by rewrite field_read.
  - intros k Hk Hout. unfold buf_bit. apply (other_bits l b0 b1 o n x k); try done. lia.
Qed.

End theorems.

(** ** Witnesses *)

Module DemoSlave.
Import Demo.

(** A slave at address 17 waiting for frames. *)
Definition idle_mbs (input : list sel) (buf : list Z) : mbs :=
  mkMbs (mkEvent false EV_READY) (mkTimer 4 false {| tv_sec := 0; tv_usec := 0 |})
    (mkSerial 3 true false 4 (replicate 513 0) 0 0) (mkWorld input [] 0 []) buf
    (mkRtu TX_IDLE RX_IDLE 0 0 0) (mkAscii ATX_IDLE ARX_IDLE 0 BYTE_HIGH_NIBBLE 0 0 10).

Definition idle_slave (ascii : bool) (input : list sel) (buf : list Z) : slave (list Z) :=
  mkSlave (idle_mbs input buf) 17 (serial ascii) STATE_ENABLED (Some (serial ascii))
    xFuncHandlers_init (mkSlaveId (replicate 32 0) 0) bank0 None 0 0 0 MB_EX_NONE.

Lemma idle_ok ascii input buf : length buf = 256%nat ->
  fl_idle (f := fns_of (Some (serial ascii))) (idle_mbs input buf).
Proof. intros Hb. destruct ascii; by repeat (split; [done|]). Qed.

Lemma idle_ready ascii input : ready (serial ascii) (idle_slave ascii input (replicate 256 0)).
Proof.
  unfold ready. simpl. do 2 (split; [done|]). split; [by apply idle_ok|]. do 2 (split; [done|]).
  split; [|by split; [unfold is_byte; lia|split; [done|constructor]]].
  split; [apply (Forall_replicate is_byte 32 0); unfold is_byte; lia|]. unfold zlen. simpl. lia.
Qed.

Lemma idle_gap ascii input buf k : (0 < k)%nat -> line_gap (mb (idle_slave ascii input buf)) k.
Proof. intros Hk. apply steady_gap; [|done]. apply clk_steady. simpl. lia. Qed.
End DemoSlave.
Import Demo DemoSlave.

Definition read_2_3 : list Z := [3; 0; 1; 0; 2].

Lemma frame_roundtrip_witness :
  let s := idle_mbs [] (0 :: read_2_3 ++ replicate 250 0) in
  exists s1 s2 wire, eMBASCIISend 17 1 5 s = Ret (MB_ENOERR, s1) /\
    port_get ascii_fns s1 = Ret (None, s2) /\ line (env s2) = wire /\
    exists r' b, port_get ascii_fns (idle_mbs [SelRead wire; SelTimeout] (replicate 256 0)) = Ret (None, r') /\
      eMBASCIIReceive r' = Ret (MB_ENOERR, Some (17, 1, 5)) /\ ucRTUBuf r' = 17 :: read_2_3 ++ b.
Proof.
  cbv zeta.
  destruct (frame_roundtrip true 17 0 read_2_3 (replicate 250 0)
    (idle_mbs [] (0 :: read_2_3 ++ replicate 250 0))
    (idle_mbs [SelRead (ascii_encode 17 read_2_3); SelTimeout] (replicate 256 0)))
    as (s1 & s2 & wire & E1 & E2 & _ & _ & El & Hr).
  - intros n. by eexists.
  - by apply idle_ok.
  - done.
  - by constructor.
  - by apply idle_ok.
  - done.
  - done.
  - unfold is_byte. lia.
  - unfold read_2_3. solve_bytes.
  - unfold zlen. simpl. lia.
  - assert (wire = ascii_encode 17 read_2_3) as ->.
    { cbn [serial fns_of peMBFrameSendCur ascii_fns] in E1. change (zlen read_2_3) with 5 in E1.
      vm_compute in E1. injection E1 as <-. vm_compute in E2. injection E2 as <-. exact (eq_sym El). }
    exists s1, s2, (ascii_encode 17 read_2_3). split; [exact E1|]. split; [exact E2|]. split; [exact El|].
    destruct (Hr [ascii_encode 17 read_2_3] []) as (r' & b & Er & _ & Et & Eb).
    + done.
    + by repeat constructor.
    + done.
    + apply (idle_gap true). simpl. lia.
    + exists r', b. split; [exact Er|]. split; [exact Et|exact Eb].
Defined.

Lemma damaged_frame_ignored_witness :
  let v := idle_slave false [SelRead [17; 3; 0; 2; 0; 2; 151; 91]; SelTimeout] (replicate 256 0) in
  exists v', polls 2 v = Ret v' /\ app v' = bank0 /\ line (env (mb v')) = [].
Proof.
  cbv zeta.
  destruct (damaged_frame_ignored
    (idle_slave false [SelRead [17; 3; 0; 2; 0; 2; 151; 91]; SelTimeout] (replicate 256 0))
    17 read_2_3 [17; 3] 0 1 0 2 [0; 2; 151; 91] [[17; 3; 0; 2; 0; 2; 151; 91]] [])
    as (v' & E & _ & Ha & Hl & _).
  - intros n. by eexists.
  - by apply idle_ready.
  - unfold is_byte. lia.
  - unfold read_2_3. solve_bytes.
  - unfold zlen. simpl. lia.
  - vm_compute. reflexivity.
  - solve_bytes.
  - done.
  - done.
  - by repeat constructor.
  - done.
  - apply idle_gap. simpl. lia.
  - exists v'. split; [exact E|]. split; [exact Ha|exact Hl].
Defined.

(** The request for registers 2 and 3, answered from the bank. *)
Lemma handlers_refine_spec_witness :
  let v := mkSlave (idle_mbs [] (17 :: read_2_3 ++ replicate 250 0)) 17 MB_RTU STATE_ENABLED
    (Some MB_RTU) xFuncHandlers_init (mkSlaveId (replicate 32 0) 0) bank0 (Some 1) 17 0 5 MB_EX_NONE in
  exists fc e b n rest', dispatch v 1 = Ret (fc, (e, b, n, bank0)) /\ fc = 3 /\
    exception_frame b 1 fc e n = Ret (17 :: [3; 4; 0; 20; 0; 30] ++ rest', 6).
Proof.
  cbv zeta. match goal with |- context [dispatch ?v 1] =>
    destruct (handlers_refine_spec v 17 read_2_3 (replicate 250 0))
      as (_ & _ & fc & e & b & n & rest' & E & Ef & Ee & _) end.
  - done.
  - split; [apply (Forall_replicate is_byte 32 0); unfold is_byte; lia|]. unfold zlen. simpl. lia.
  - done.
  - done.
  - done.
  - split; [done|]. unfold read_2_3. solve_bytes.
  - done.
  - exists fc, e, b, n, rest'. split; [exact E|]. split; [exact (eq_sym Ef)|exact Ee].
Defined.

(** A read request in two pieces, a broadcast that sets register 1 and a frame for slave 5. *)
Definition demo_frames : list (Z * list Z * list (list Z)) :=
  [(17, read_2_3, [[17; 3; 0]; [1; 0; 2; 151; 91]]);
   (0, [6; 0; 0; 1; 2], [[0; 6; 0; 0; 1; 2; 8; 74]]);
   (5, [6; 0; 0; 1; 2], [[5; 6; 0; 0; 1; 2; 8; 31]])].

Lemma demo_frames_ok : Forall (frame_ok (serial false) 17) demo_frames.
Proof.
  unfold demo_frames, read_2_3. repeat apply Forall_cons; try done;
    (split; [unfold is_byte; lia|]; split; [solve_bytes|]; split; [unfold zlen; simpl; lia|];
     split; [done|]; split; [vm_compute; reflexivity|]; by repeat constructor).
Qed.

Lemma slave_serves_session_witness :
  let v := idle_slave false (foldr (fun f rest => pieces f.2 rest) [] demo_frames) (replicate 256 0) in
  exists n v', polls n v = Ret v' /\ app v' = [1; 2; 0; 20; 0; 30; 0; 40] /\
    line (env (mb v')) = rtu_encode 17 [3; 4; 0; 20; 0; 30].
Proof.
  cbv zeta. match goal with |- context [polls _ ?v] =>
    destruct (slave_serves_session false v demo_frames []) as (n & v' & E & _ & Ha & Hl & _) end.
  - intros n. by eexists.
  - by apply idle_ready.
  - apply demo_frames_ok.
  - repeat split; intros _; do 2 eexists; (split; [reflexivity|]); (split; [reflexivity|]); vm_compute; reflexivity.
  - done.
  - exists n, v'. split; [exact E|]. split; [rewrite Ha; vm_compute; reflexivity|].
    rewrite Hl. vm_compute. reflexivity.
Defined.

Lemma slave_memory_safe_witness :
  match eMBPoll (boot_slave bank0) with
  | Ret (_, v') => reachable bank0 v'
  | AssertFailed => CONFIG_DEBUG_ASSERTIONS = true
  | BadAccess | NoFuel => False
  end.
Proof.
  apply (slave_memory_safe bank0 (boot_slave bank0)).
  - apply bank_users_safe.
  - simpl. lia.
  - apply rtc_refl.
Defined.

Lemma slave_starts_witness : exists v1 v2 v3,
  eMBInit MB_RTU 17 9600 MB_PAR_NONE good_tty (boot_slave bank0) = Ret (MB_ENOERR, v1) /\
  eMBEnable v1 = Ret (MB_ENOERR, v2) /\ polls 2 v2 = Ret v3 /\ ready (serial false) v3.
Proof.
  destruct (slave_starts false 17 9600 MB_PAR_NONE good_tty bank0) as (v1 & E & Hn).
  - by repeat split.
  - lia.
  - simpl. lia.
  - assert (4 = ulTimeOut (tm (mb v1))) as Ht.
    { exact (f_equal (fun r => match r with Ret (_, v) => ulTimeOut (tm (mb v)) | _ => 0 end) E). }
    destruct Hn as (v2 & v3 & E2 & E3 & Hr & _).
    + rewrite <- Ht. apply clk_steady. lia.
    + exists v1, v2, v3. split; [exact E|]. split; [exact E2|]. split; [exact E3|exact Hr].
Defined.

Lemma register_dispatches_witness :
  let r := eMBRegisterCB 65 (Some (H_User 0)) (idle_slave false [] (replicate 256 0)) in
  r.1 = MB_ENOERR /\ find_handler (xFuncHandlers r.2) 65 = Some (Some (H_User 0)).
Proof.
  pose proof (register_dispatches 65 (H_User 0) (idle_slave false [] (replicate 256 0))) as Hr.
  cbv zeta in Hr. destruct Hr as (E & _ & Ef & _).
  - exists initial_handlers, 6%nat. split; [done|]. by repeat constructor.
  - by repeat constructor.
  - done.
  - split; [exact E|exact Ef].
Defined.

Lemma set_get_bits_witness : exists l', xMBUtilSetBits [0xff; 0x0f; 0x01] 4 6 0x2a = Ret l' /\
  xMBUtilGetBits l' 4 6 = Ret 0x2a /\ l' = [0xaf; 0x0e; 0x01].
Proof.
  destruct (set_get_bits [0xff; 0x0f; 0x01] 4 6 0x2a) as (l' & E & Eg & _ & _).
  - solve_bytes.
  - lia.
  - lia.
  - lia.
  - done.
  - exists l'. split; [exact E|]. split; [exact Eg|]. vm_compute in E. by injection E as <-.
Defined.
