(* ===== verification/MbFindings.v ===== *)
(** * MbFindings: corner cases of the Modbus slave

    Behaviours of the code outside what the theorems of [MbTheorems] promise: limits that
    differ from the protocol's, requests whose data are missing, assertions a frame on the line
    can reach, and the unit of the timer. *)

From stdpp Require Import strings.
From S2P Require Import Prelude MbCrc MbPort MbLine MbRtu MbAscii MbFunc MbSpec Mb MbFrame MbRtuFrame.
From S2P Require Import MbTheorems.
Import Demo DemoSlave.
#[local] Open Scope Z_scope.

Definition in_frame (pdu : list Z) : list Z := 17 :: pdu ++ replicate (255 - length pdu) 7.

Definition result_of (r : hres (A := list Z)) : option (eMBException * list Z * list Z) :=
  match r with
  | Ret (e, b, n, a) => Some (e, zslice 1 n b, a)
  | _ => None
  end.

(** ** Limits *)

(** 2000 coils, 2000 discrete inputs and 125 input registers are refused although each fits a
    reply and is named as the maximum; 125 holding registers are served. *)
Example maximum_refused :
  (exists b n a, eMBFuncReadCoils (in_frame [1; 0; 0; 0x07; 0xd0]) 1 5 bank0 =
     Ret (MB_EX_ILLEGAL_DATA_VALUE, b, n, a)) /\
  (exists b n a, eMBFuncReadDiscreteInputs (in_frame [2; 0; 0; 0x07; 0xd0]) 1 5 bank0 =
     Ret (MB_EX_ILLEGAL_DATA_VALUE, b, n, a)) /\
  (exists b n a, eMBFuncReadInputRegister (in_frame [4; 0; 0; 0; 0x7d]) 1 5 (replicate 250 1) =
     Ret (MB_EX_ILLEGAL_DATA_VALUE, b, n, a)) /\
  (exists b a, eMBFuncReadHoldingRegister (in_frame [3; 0; 0; 0; 0x7d]) 1 5 (replicate 250 1) =
     Ret (MB_EX_NONE, b, 252, a)).
Proof. repeat split; repeat eexists. Qed.

(** The register with protocol address 0xffff is asked for as register 0. *)
Example last_register_wraps : reg 0xffff = 0.
Proof. reflexivity. Qed.

(** ** Missing data *)

(** A read/write request shorter than its header is echoed without an exception. *)
Example short_read_write_echoed :
  result_of (eMBFuncReadWriteMultipleHoldingRegister (in_frame [23; 0; 0]) 1 3 bank0) =
  Some (MB_EX_NONE, [23; 0; 0], bank0).
Proof. reflexivity. Qed.

(** Two registers announced, none sent: what was in the buffer before (sevens) is written. *)
Example stale_bytes_written :
  complete [16; 0; 0; 0; 2; 4] = false /\
  result_of (eMBFuncWriteMultipleHoldingRegister (in_frame [16; 0; 0; 0; 2; 4]) 1 6 bank0) =
  Some (MB_EX_NONE, [16; 0; 0; 0; 2], [7; 7; 7; 7; 0; 30; 0; 40]).
Proof. split; reflexivity. Qed.

(** ** Assertions *)

(** A frame of the maximum length stops a build with assertions. *)
Lemma full_frame_asserts `{MbConfig} s : CONFIG_DEBUG_ASSERTIONS = true ->
  (r_pos (rtu s) = 256 -> eMBRTUReceive s = AssertFailed) /\
  (a_pos (asc s) = 256 -> eMBASCIIReceive s = AssertFailed).
Proof.
  intros Hd. split; intros Hp; unfold eMBRTUReceive, eMBASCIIReceive; rewrite Hp;
    unfold DEBUGASSERT; by rewrite Hd.
Qed.

(** A frame whose CR is not followed by LF leaves the character timer running in the idle
    state; its expiry then fails the assertion of the timer function. *)
Lemma ascii_bad_eof_asserts `{MbConfig} `{Clock} s c : CONFIG_DEBUG_ASSERTIONS = true ->
  a_snd (asc s) = ATX_IDLE -> a_rcv (asc s) = ARX_WAIT_EOF -> c <> a_lf (asc s) -> c <> ASCII_COLON ->
  uiRxBufferPos (ser s) < 513 -> fetch (ucBuffer (ser s)) (uiRxBufferPos (ser s)) = Ret c ->
  exists s', xMBASCIIReceiveFSM s = Ret (false, s') /\ tm s' = tm s /\
    xMBASCIITimerT1SExpired (vMBPortTimersDisable s') = AssertFailed.
Proof.
  intros Hd Hsnd Hrcv Hlf Hc Hp Hb. unfold xMBASCIIReceiveFSM, asc_snd_idle.
  rewrite Hsnd, assert_true, (get_byte s c) by done. cbn [mbind mres_bind set_ser asc]. rewrite Hrcv.
  destruct (Z.eqb_spec c (a_lf (asc s))); [done|]. destruct (Z.eqb_spec c ASCII_COLON); [done|].
  eexists. split; [done|]. split; [done|].
  unfold xMBASCIITimerT1SExpired, DEBUGASSERT. simpl. by rewrite Hd.
Qed.

(** A character that is no hexadecimal digit is taken as fifteen, not refused. *)
Example bad_digit_accepted : prvucMBint8_t2BIN 103 = 0xff /\ u8 (Z.shiftl (prvucMBint8_t2BIN 103) 4) = 0xf0.
Proof. split; reflexivity. Qed.

(** ** The table of handlers *)

(** Removing the handler of one function code hides those after it in the table: after the
    removal of code 17 no code is dispatched at all. *)
Lemma removal_hides_handlers `{MbConfig} {A} (v : slave A) fc : xFuncHandlers v = xFuncHandlers_init ->
  find_handler (xFuncHandlers (eMBRegisterCB MB_FUNC_OTHER_REPORT_SLAVEID None v).2) fc = None.
Proof. intros E. unfold eMBRegisterCB. rewrite E. reflexivity. Qed.

(** ** Bits *)

(** A field inside the only byte of a buffer makes the functions access the byte after it. *)
Example bits_beyond_the_buffer :
  xMBUtilGetBits [0xff] 0 8 = BadAccess /\ xMBUtilSetBits [0xff] 0 1 0 = BadAccess.
Proof. split; reflexivity. Qed.

(** A value wider than the field changes the bits after it. *)
Example wide_value_spills : xMBUtilSetBits [0; 0] 0 1 3 = Ret [3; 0].
Proof. reflexivity. Qed.

(** ** The port *)

(** The difference of the microseconds is multiplied instead of divided: five microseconds
    count as five seconds, and nearly a second can count as nothing. *)
Example timer_unit :
  ulDeltaMS {| tv_sec := 10; tv_usec := 5 |} {| tv_sec := 10; tv_usec := 0 |} = 5000 /\
  ulDeltaMS {| tv_sec := 11; tv_usec := 0 |} {| tv_sec := 10; tv_usec := 1 |} = 0.
Proof. split; reflexivity. Qed.

(** A character time-out of four seconds is cut to sixteen bits of 50 microseconds. *)
Example ascii_timeout_truncated :
  ulTimeOut (tm (xMBPortTimersInit (u16 (4 * 20000)) (idle_mbs [] [])).2) = 723.
Proof. reflexivity. Qed.

(** A device whose settings cannot be read or written is reported as initialised. *)
Lemma serial_init_hides_errors `{MbConfig} t k par s : 0 <= tty_open t ->
  tcgetattr_ok t = false -> xMBPortSerialInit t k par s = Ret (true, serial_fd_to s (tty_open t)).
Proof.
  intros Ho Hg. unfold xMBPortSerialInit. rewrite Hg.
  by destruct (Z.ltb_spec (tty_open t) 0); [lia|].
Qed.

(** A device that keeps failing is read again and again: however many reads fail, all of them
    are made in one poll. *)
Lemma failing_device_spins fsm n : forall s st rest fuel, bRxEnabled (ser s) = true ->
  sel_in (env s) = replicate n SelErr ++ rest ->
  exists s', sel_in (env s') = rest /\ ser s' = ser s /\
    rx_loop fsm (n + fuel) st s = rx_loop fsm fuel (match n with O => st | _ => false end) s'.
Proof.
  induction n as [|n IH]; intros s st rest fuel Hrx Hsel; [by exists s|].
  cbn [Nat.add rx_loop]. rewrite Hrx. unfold read_buffer. rewrite Hsel. cbn [replicate].
  set (s1 := set_env s (mkWorld (replicate n SelErr ++ rest) (wr_in (env s)) (ticks (env s)) (line (env s)))).
  destruct (IH s1 false rest fuel) as (s' & Hi & Hser & E); [done|done|].
  exists s'. split; [done|]. split; [done|]. simpl. fold s1. rewrite E. by destruct n.
Qed.

(** ** Return values *)

(** Disabling a slave that is already disabled succeeds. *)
Lemma disable_twice `{MbConfig} `{Clock} {A} (v : slave A) : eMBState v = STATE_DISABLED ->
  eMBDisable v = Ret (MB_ENOERR, v).
Proof. intros E. unfold eMBDisable. by rewrite E. Qed.

(** Additional data that fill the slave identification buffer exactly are refused. *)
Example exact_slave_id_refused :
  eMBSetSlaveID 1 true (replicate 30 0) (mkSlaveId (replicate 32 0) 0) =
  Ret (MB_ENORES, mkSlaveId (replicate 32 0) 0).
Proof. reflexivity. Qed.
