(* ===== verification/NxBase.v ===== *)
(** * NxBase: data and effects of nxscope

    [src/include/logging/nxscope/*.h] and [src/logging/nxscope/nxscope_internals.h]: the
    structures of the nxscope logging library, its configuration options and the interfaces
    its parts call each other through.

    A buffer of the instance and its length field are one list; a pointer into a buffer is an
    index.  The kernel's devices and the callbacks of the user live in a world [W], threaded
    through the operations of the interfaces.  An access outside an array, a failing
    [DEBUGASSERT], a lock that is taken twice and a loop that is cut are results. *)

From S2P Require Import Prelude.
#[local] Open Scope Z_scope.

(** ** Results *)

Inductive fault := BadAccess | AssertFailed | Deadlock | NoFuel.

Inductive nx (A : Type) :=
| NRet (a : A)
| NFault (f : fault).
#[global] Arguments NRet {A} a.
#[global] Arguments NFault {A} f.

#[export] Instance nx_ret : MRet nx := fun A a => NRet a.
#[export] Instance nx_bind : MBind nx := fun A B k m =>
  match m with NRet a => k a | NFault f => NFault f end.

(** ** Configuration *)

Class NxConfig := {
  CONFIG_DEBUG_FEATURES : bool;
  CONFIG_DEBUG_ASSERTIONS : bool;
  CONFIG_HAVE_LONG_LONG : bool;
  CONFIG_LOGGING_NXSCOPE_DIVIDER : bool;
  CONFIG_LOGGING_NXSCOPE_ACKFRAMES : bool;
  CONFIG_LOGGING_NXSCOPE_USERTYPES : bool;
  CONFIG_LOGGING_NXSCOPE_CRICHANNELS : bool;
  CONFIG_LOGGING_NXSCOPE_DISABLE_PUTLOCK : bool;
}.

Definition DEBUGASSERT `{NxConfig} {A} (b : bool) (k : nx A) : nx A :=
  if CONFIG_DEBUG_ASSERTIONS && negb b then NFault AssertFailed else k.

Definition EPERM : Z := 1.
Definition EAGAIN : Z := 11.
Definition ENOMEM : Z := 12.
Definition EINVAL : Z := 22.
Definition ENODATA : Z := 61.
Definition ENOBUFS : Z := 105.

(** ** Arrays *)

Definition at_ {A} (mem : list A) (i : Z) : nx A :=
  if 0 <=? i then match mem !! Z.to_nat i with Some c => NRet c | None => NFault BadAccess end
  else NFault BadAccess.

Definition set_at {A} (mem : list A) (i : Z) (v : A) : nx (list A) :=
  if (0 <=? i) && (i <? Z.of_nat (length mem)) then NRet (<[Z.to_nat i := v]> mem)
  else NFault BadAccess.

(** [n] bytes from [mem[i]] on. *)
Definition read_n (mem : list Z) (i n : Z) : nx (list Z) :=
  if (0 <=? i) && (0 <=? n) && (i + n <=? zlen mem) then NRet (zslice i n mem)
  else NFault BadAccess.

(** [memcpy(&mem[i], d, length d)] *)
Definition write_n (mem : list Z) (i : Z) (d : list Z) : nx (list Z) :=
  if (0 <=? i) && (i + zlen d <=? zlen mem) then NRet (zwrite i d mem) else NFault BadAccess.

(** ** Structures *)

(** [struct nxscope_chinfo_s]; [ci_type] is the byte of the union, [ci_name] the characters
    before the terminating NUL. *)
Record nxscope_chinfo_s := mkChinfo {
  ci_enable : Z; ci_type : Z; ci_vdim : Z; ci_div : Z; ci_mlen : Z; ci_name : list Z }.

(** The bit fields of [union nxscope_chinfo_type_u]. *)
Definition dtype (u8 : Z) : Z := Z.land u8 31.
Definition cri (u8 : Z) : bool := Z.testbit u8 7.

Record nxscope_info_cmn_s := mkCmninfo { chmax : Z; flags : Z; rx_padding : Z }.

(** [struct nxscope_frame_s]; [fr_data] is an index into the receive buffer. *)
Record nxscope_frame_s := mkFrame { fr_id : Z; fr_drop : Z; fr_dlen : Z; fr_data : Z }.

(** [struct nxscope_proto_ops_s]: [frame_get] returns an error code or a frame, [frame_final]
    its return value, the buffer and [*len]. *)
Record nxscope_proto_ops_s := mkProtoOps {
  frame_get : nat -> list Z -> Z -> nx (Z + nxscope_frame_s);
  frame_final : nat -> Z -> list Z -> Z -> nx (Z * list Z * Z) }.

Record nxscope_proto_s := mkProto {
  p_initialized : bool; p_priv : nat; p_ops : nxscope_proto_ops_s; hdrlen : Z; footlen : Z }.

Section world.
Context (W : Type).

(** [struct nxscope_intf_ops_s]: [send] gets the bytes, [recv] the room that is left and
    returns its return value and the bytes it stored. *)
Record nxscope_intf_ops_s := mkIntfOps {
  send : nat -> list Z -> W -> Z * W;
  recv : nat -> Z -> W -> Z * list Z * W }.

Record nxscope_intf_s := mkIntf {
  i_initialized : bool; i_priv : nat; i_ops : nxscope_intf_ops_s }.

(** [struct nxscope_callbacks_s]; [userid] can read the buffer from the frame's data on. *)
Record nxscope_callbacks_s := mkCallbacks {
  cb_userid : option (Z -> list Z -> W -> Z * W);
  cb_start : option (bool -> W -> Z * W) }.

(** [struct nxscope_s], and the world. *)
Record nxscope_s := mkNxscope {
  intf_cmd : nxscope_intf_s; intf_stream : nxscope_intf_s;
  proto_cmd : nxscope_proto_s; proto_stream : nxscope_proto_s;
  callbacks : option nxscope_callbacks_s;
  cmninfo : nxscope_info_cmn_s;
  chinfo : list nxscope_chinfo_s;
  cntr : list Z;
  start : Z;
  streambuf : list Z; stream_i : Z; stream_retry : bool;
  cribuf : list Z;
  rxbuf : list Z; rxbuf_i : Z;
  txbuf : list Z;
  lock : bool;
  world : W }.

(** [struct nxscope_cfg_s] *)
Record nxscope_cfg_s := mkCfg {
  cfg_intf_cmd : nxscope_intf_s; cfg_intf_stream : nxscope_intf_s;
  cfg_proto_cmd : nxscope_proto_s; cfg_proto_stream : nxscope_proto_s;
  cfg_callbacks : option nxscope_callbacks_s;
  cfg_channels : Z; cfg_streambuf_len : Z; cfg_rxbuf_len : Z; cfg_cribuf_len : Z;
  cfg_rx_padding : Z }.
End world.

#[global] Arguments mkIntfOps {W}.
#[global] Arguments send {W}.
#[global] Arguments recv {W}.
#[global] Arguments mkIntf {W}.
#[global] Arguments i_initialized {W}.
#[global] Arguments i_priv {W}.
#[global] Arguments i_ops {W}.
#[global] Arguments mkCallbacks {W}.
#[global] Arguments cb_userid {W}.
#[global] Arguments cb_start {W}.
#[global] Arguments mkNxscope {W}.
#[global] Arguments intf_cmd {W}.
#[global] Arguments intf_stream {W}.
#[global] Arguments proto_cmd {W}.
#[global] Arguments proto_stream {W}.
#[global] Arguments callbacks {W}.
#[global] Arguments cmninfo {W}.
#[global] Arguments chinfo {W}.
#[global] Arguments cntr {W}.
#[global] Arguments start {W}.
#[global] Arguments streambuf {W}.
#[global] Arguments stream_i {W}.
#[global] Arguments stream_retry {W}.
#[global] Arguments cribuf {W}.
#[global] Arguments rxbuf {W}.
#[global] Arguments rxbuf_i {W}.
#[global] Arguments txbuf {W}.
#[global] Arguments lock {W}.
#[global] Arguments world {W}.
#[global] Arguments mkCfg {W}.
#[global] Arguments cfg_intf_cmd {W}.
#[global] Arguments cfg_intf_stream {W}.
#[global] Arguments cfg_proto_cmd {W}.
#[global] Arguments cfg_proto_stream {W}.
#[global] Arguments cfg_callbacks {W}.
#[global] Arguments cfg_channels {W}.
#[global] Arguments cfg_streambuf_len {W}.
#[global] Arguments cfg_rxbuf_len {W}.
#[global] Arguments cfg_cribuf_len {W}.
#[global] Arguments cfg_rx_padding {W}.

(** Updates of the fields that operations change. *)

Section updates.
Context {W : Type}.
Implicit Types s : nxscope_s W.

Definition set_chinfo s x : nxscope_s W :=
  mkNxscope (intf_cmd s) (intf_stream s) (proto_cmd s) (proto_stream s) (callbacks s)
    (cmninfo s) x (cntr s) (start s) (streambuf s) (stream_i s) (stream_retry s) (cribuf s)
    (rxbuf s) (rxbuf_i s) (txbuf s) (lock s) (world s).
Definition set_cntr s x : nxscope_s W :=
  mkNxscope (intf_cmd s) (intf_stream s) (proto_cmd s) (proto_stream s) (callbacks s)
    (cmninfo s) (chinfo s) x (start s) (streambuf s) (stream_i s) (stream_retry s) (cribuf s)
    (rxbuf s) (rxbuf_i s) (txbuf s) (lock s) (world s).
Definition set_start s x : nxscope_s W :=
  mkNxscope (intf_cmd s) (intf_stream s) (proto_cmd s) (proto_stream s) (callbacks s)
    (cmninfo s) (chinfo s) (cntr s) x (streambuf s) (stream_i s) (stream_retry s) (cribuf s)
    (rxbuf s) (rxbuf_i s) (txbuf s) (lock s) (world s).
Definition set_stream s b i : nxscope_s W :=
  mkNxscope (intf_cmd s) (intf_stream s) (proto_cmd s) (proto_stream s) (callbacks s)
    (cmninfo s) (chinfo s) (cntr s) (start s) b i (stream_retry s) (cribuf s) (rxbuf s)
    (rxbuf_i s) (txbuf s) (lock s) (world s).
Definition set_retry s x : nxscope_s W :=
  mkNxscope (intf_cmd s) (intf_stream s) (proto_cmd s) (proto_stream s) (callbacks s)
    (cmninfo s) (chinfo s) (cntr s) (start s) (streambuf s) (stream_i s) x (cribuf s) (rxbuf s)
    (rxbuf_i s) (txbuf s) (lock s) (world s).
Definition set_cribuf s x : nxscope_s W :=
  mkNxscope (intf_cmd s) (intf_stream s) (proto_cmd s) (proto_stream s) (callbacks s)
    (cmninfo s) (chinfo s) (cntr s) (start s) (streambuf s) (stream_i s) (stream_retry s) x
    (rxbuf s) (rxbuf_i s) (txbuf s) (lock s) (world s).
Definition set_rx s b i : nxscope_s W :=
  mkNxscope (intf_cmd s) (intf_stream s) (proto_cmd s) (proto_stream s) (callbacks s)
    (cmninfo s) (chinfo s) (cntr s) (start s) (streambuf s) (stream_i s) (stream_retry s)
    (cribuf s) b i (txbuf s) (lock s) (world s).
Definition set_txbuf s x : nxscope_s W :=
  mkNxscope (intf_cmd s) (intf_stream s) (proto_cmd s) (proto_stream s) (callbacks s)
    (cmninfo s) (chinfo s) (cntr s) (start s) (streambuf s) (stream_i s) (stream_retry s)
    (cribuf s) (rxbuf s) (rxbuf_i s) x (lock s) (world s).
Definition set_lock s x : nxscope_s W :=
  mkNxscope (intf_cmd s) (intf_stream s) (proto_cmd s) (proto_stream s) (callbacks s)
    (cmninfo s) (chinfo s) (cntr s) (start s) (streambuf s) (stream_i s) (stream_retry s)
    (cribuf s) (rxbuf s) (rxbuf_i s) (txbuf s) x (world s).
Definition set_world s x : nxscope_s W :=
  mkNxscope (intf_cmd s) (intf_stream s) (proto_cmd s) (proto_stream s) (callbacks s)
    (cmninfo s) (chinfo s) (cntr s) (start s) (streambuf s) (stream_i s) (stream_retry s)
    (cribuf s) (rxbuf s) (rxbuf_i s) (txbuf s) (lock s) x.
End updates.
