(* ===== verification/NxProto.v ===== *)
(** * NxProto: the serial protocol of nxscope

    [src/logging/nxscope/nxscope_pser.c]: frames of a start byte, a length, an identifier, data
    and a checksum.  [crc16xmodem] belongs to the kernel: it is the class [Crc16], with what a
    CRC promises as [Crc16Laws]; [crc16_bits] is the function the comment of
    [nxscope_frame_final] describes and satisfies the laws.  The target is little-endian, so
    [htole16] is the identity. *)

From S2P Require Import Prelude NxBase.
#[local] Open Scope Z_scope.

(** ** The checksum *)

Class Crc16 := crc16xmodem : list Z -> Z.

Class Crc16Laws `{Crc16} := {
  crc16_range l : 0 <= crc16xmodem l < 2 ^ 16;
  (** a message followed by its checksum, high byte first, has checksum 0 *)
  crc16_residue l :
    crc16xmodem (l ++ [Z.shiftr (crc16xmodem l) 8; Z.land (crc16xmodem l) 255]) = 0;
}.

(** Polynomial 0x1021, initial value 0, most significant bit first. *)
Definition crc16_bit (c : Z) : Z :=
  if Z.testbit c 15 then Z.lxor (u16 (Z.shiftl c 1)) 0x1021 else Z.shiftl c 1.

Definition crc16_byte (c b : Z) : Z := Nat.iter 8 crc16_bit (Z.lxor c (Z.shiftl (u8 b) 8)).

Definition crc16_bits (l : list Z) : Z := fold_left crc16_byte l 0.

(** ** Frames *)

Definition NXSCOPE_HDR_LEN : Z := 4.
Definition NXSCOPE_CRC_LEN : Z := 2.
Definition NXSCOPE_DATA_START : Z := NXSCOPE_HDR_LEN.
Definition NXSCOPE_BASEFRAME_LEN : Z := NXSCOPE_HDR_LEN + NXSCOPE_CRC_LEN.
Definition NXSCOPE_HDR_SOF : Z := 0x55.

Section proto.
Context `{Crc16}.

(** [len] is a [uint16_t] *)
Definition nxscope_hdr_fill (buff : list Z) (id len : Z) : nx (list Z) :=
  write_n buff 0 (NXSCOPE_HDR_SOF :: le_bytes 2 (u16 len) ++ [id]).

(** The loop that looks for the start byte: [i] and [hdr] at its end. *)
Fixpoint find_sof (fuel : nat) (buff : list Z) (len i : Z) (hdr : option Z) :
    nx (Z * option Z) :=
  if i <? u32 (len - NXSCOPE_HDR_LEN) then
    match fuel with
    | O => NFault NoFuel
    | S fuel =>
        sof ← at_ buff i;
        if sof =? NXSCOPE_HDR_SOF then NRet (i, Some i)
        else find_sof fuel buff len (i + 1) (Some i)
    end
  else NRet (i, hdr).

Definition nxscope_frame_get (p : nat) (buff : list Z) (len : Z) : nx (Z + nxscope_frame_s) :=
  '(i, hdr) ← find_sof (S (length buff)) buff len 0 None;
  match hdr with
  | None => NRet (inl (- EINVAL))
  | Some h =>
      sof ← at_ buff h;
      if negb (sof =? NXSCOPE_HDR_SOF) then NRet (inl (- EINVAL))
      else
        l ← read_n buff (h + 1) 2;
        let hdr_len := le_val l in
        if u32 (len - i) <? hdr_len then NRet (inl (- EINVAL))
        else
          m ← read_n buff i hdr_len;
          if negb (crc16xmodem m =? 0) then NRet (inl (- EINVAL))
          else
            id ← at_ buff (h + 3);
            NRet (inr {| fr_id := id; fr_data := i + NXSCOPE_DATA_START;
                         fr_drop := u32 (hdr_len + i);
                         fr_dlen := u32 (hdr_len - NXSCOPE_BASEFRAME_LEN) |})
  end.

Definition nxscope_frame_final (p : nat) (id : Z) (buff : list Z) (len : Z) :
    nx (Z * list Z * Z) :=
  if len <=? NXSCOPE_HDR_LEN then NRet (- ENODATA, buff, len)
  else
    buff ← nxscope_hdr_fill buff id (len + NXSCOPE_CRC_LEN);
    m ← read_n buff 0 len;
    let crc := crc16xmodem m in
    buff ← set_at buff len (Z.land (Z.shiftr crc 8) 255);
    buff ← set_at buff (len + 1) (Z.land (Z.shiftr crc 0) 255);
    NRet (OK, buff, len + 2).

Definition g_nxscope_proto_ser_ops : nxscope_proto_ops_s :=
  mkProtoOps nxscope_frame_get nxscope_frame_final.

Definition g_nxscope_proto_ser : nxscope_proto_s :=
  mkProto false 0 g_nxscope_proto_ser_ops NXSCOPE_HDR_LEN NXSCOPE_CRC_LEN.

(** [*proto] after the call *)
Definition nxscope_proto_ser_init : Z * nxscope_proto_s :=
  let proto := g_nxscope_proto_ser in
  (OK, mkProto true (p_priv proto) (p_ops proto) (hdrlen proto) (footlen proto)).

Definition nxscope_proto_ser_deinit (proto : nxscope_proto_s) : nxscope_proto_s := proto.

End proto.

(** ** The bitwise checksum satisfies the laws *)

Lemma crc16_bit_range c : 0 <= c < 2 ^ 16 -> 0 <= crc16_bit c < 2 ^ 16.
Proof.
  intros Hc. unfold crc16_bit. destruct (Z.testbit c 15) eqn:E.
  - apply lxor_range; [lia| |lia]. apply Z.mod_pos_bound. lia.
  - rewrite Z.shiftl_mul_pow2 by lia. enough (c < 2 ^ 15) by lia. apply Z.nle_gt. intros Hge.
    rewrite Z.testbit_odd, Z.shiftr_div_pow2 in E by lia.
    replace (c / 2 ^ 15) with 1 in E; [done|]. apply Z.div_unique with (c - 2 ^ 15); lia.
Qed.

Lemma crc16_byte_range c b : 0 <= c < 2 ^ 16 -> 0 <= crc16_byte c b < 2 ^ 16.
Proof.
  intros Hc. unfold crc16_byte.
  assert (0 <= Z.lxor c (Z.shiftl (u8 b) 8) < 2 ^ 16) as H0.
  { apply lxor_range; [lia|done|]. pose proof (u8_range b) as Hb. unfold is_byte in Hb.
    rewrite Z.shiftl_mul_pow2 by lia. lia. }
  generalize 8%nat. induction n as [|n IH]; [done|]. by apply crc16_bit_range.
Qed.

Lemma crc16_bits_range l : 0 <= crc16_bits l < 2 ^ 16.
Proof.
  enough (forall c, 0 <= c < 2 ^ 16 -> 0 <= fold_left crc16_byte l c < 2 ^ 16) as Hl
    by (apply Hl; lia).
  induction l as [|b l IH]; intros c Hc; [done|]. by apply IH, crc16_byte_range.
Qed.

(** The checksum's own bytes shift it out of the register. *)
Lemma crc16_byte_high c : 0 <= c < 2 ^ 16 -> crc16_byte c (Z.shiftr c 8) = (c mod 256) * 256.
Proof.
  intros Hc. unfold crc16_byte.
  assert (Z.lxor c (Z.shiftl (u8 (Z.shiftr c 8)) 8) = c mod 256) as ->.
  { rewrite Z.shiftr_div_pow2 by lia. unfold u8. rewrite Z.mod_small by
      (split; [apply Z.div_pos|apply Z.div_lt_upper_bound]; lia).
    apply Z.bits_inj'. intros k Hk. rewrite Z.lxor_spec, Z.shiftl_spec, <- Z.shiftr_div_pow2 by lia.
    change 256 with (2 ^ 8). destruct (Z.lt_ge_cases k 8).
    - rewrite Z.mod_pow2_bits_low, (Z.testbit_neg_r _ (k - 8)), xorb_false_r by lia. done.
    - rewrite Z.mod_pow2_bits_high, Z.shiftr_spec by lia. by rewrite Z.sub_add, xorb_nilpotent. }
  pose proof (Z.mod_pos_bound c 256). generalize dependent (c mod 256). intros x Hx.
  pose proof (range_sweep (fun x => Nat.iter 8 crc16_bit x =? x * 256) 256) as Hs.
  specialize (Hs ltac:(vm_compute; reflexivity) x ltac:(lia)). cbv beta in Hs. lia.
Qed.

Definition crc16_bits_inst : Crc16 := crc16_bits.

Lemma crc16_bits_laws : @Crc16Laws crc16_bits_inst.
Proof.
  constructor; [apply crc16_bits_range|]. intros l. unfold crc16xmodem, crc16_bits_inst.
  pose proof (crc16_bits_range l) as Hc. unfold crc16_bits in *. rewrite fold_left_app. simpl.
  generalize dependent (fold_left crc16_byte l 0). intros c Hc. rewrite crc16_byte_high by done.
  change 255 with (2 ^ 8 - 1). rewrite land_ones_mod by lia. change (2 ^ 8) with 256.
  pose proof (Z.mod_pos_bound c 256). generalize dependent (c mod 256). intros x Hx.
  pose proof (range_sweep (fun x => crc16_byte (x * 256) x =? 0) 256) as Hs.
  specialize (Hs ltac:(vm_compute; reflexivity) x ltac:(lia)). cbv beta in Hs. lia.
Qed.
