(* ===== verification/NxScope.v ===== *)
(** * NxScope: the nxscope instance

    [src/logging/nxscope/nxscope.c] and [nxscope_internals.c]: requests, replies, the stream
    buffer and the life of an instance.  The macros of [nxscope_internals.h] take the operations
    of the stream's protocol and interface whatever protocol or interface they are applied to. *)

From S2P Require Import Prelude NxBase.
#[local] Open Scope Z_scope.

Definition CHAN_NAMELEN_MAX : Z := 32.

(** [sizeof(struct nxscope_chinfo_s)], packed, with a pointer of 4 bytes. *)
Definition sizeof_chinfo : Z := 9.
Definition sizeof_char_ptr : Z := 4.
Definition CHINFO_DATA_SIZE_MAX : Z := sizeof_chinfo - sizeof_char_ptr + CHAN_NAMELEN_MAX + 1.

(** [sizeof(struct nxscope_set_frame_s)] with its one byte of data. *)
Definition sizeof_set_frame : Z := 3.
Definition NXSCOPE_ENABLE_LEN : Z := 1.
Definition NXSCOPE_DIV_LEN : Z := 1.
Definition NXSCOPE_START_LEN : Z := 1.

Definition NXSCOPE_HDRID_STREAM : Z := 1.
Definition NXSCOPE_HDRID_CMNINFO : Z := 2.
Definition NXSCOPE_HDRID_CHINFO : Z := 3.
Definition NXSCOPE_HDRID_ACK : Z := 4.
Definition NXSCOPE_HDRID_START : Z := 5.
Definition NXSCOPE_HDRID_ENABLE : Z := 6.
Definition NXSCOPE_HDRID_DIV : Z := 7.
Definition NXSCOPE_HDRID_USER : Z := 8.

Definition NXSCOPE_SET_REQ_SINGLE : Z := 0.
Definition NXSCOPE_SET_REQ_BULK : Z := 1.
Definition NXSCOPE_SET_REQ_ALL : Z := 2.

Definition NXSCOPE_FLAGS_DIVIDER_SUPPORT : Z := 1.
Definition NXSCOPE_FLAGS_ACK_SUPPORT : Z := 2.
Definition NXSCOPE_STREAM_FLAGS_OVERFLOW : Z := 1.

Definition ci_enable_to (c : nxscope_chinfo_s) (v : Z) : nxscope_chinfo_s :=
  mkChinfo v (ci_type c) (ci_vdim c) (ci_div c) (ci_mlen c) (ci_name c).
Definition ci_div_to (c : nxscope_chinfo_s) (v : Z) : nxscope_chinfo_s :=
  mkChinfo (ci_enable c) (ci_type c) (ci_vdim c) v (ci_mlen c) (ci_name c).

Section scope.
Context `{NxConfig} {W : Type}.
Implicit Types s : nxscope_s W.

(** ** The macros *)

Definition PROTO_FRAME_FINAL s (proto : nxscope_proto_s) (id : Z) (buff : list Z) (i : Z) :
    nx (Z * list Z * Z) := frame_final (p_ops (proto_stream s)) (p_priv proto) id buff i.

Definition PROTO_FRAME_GET s (proto : nxscope_proto_s) (buff : list Z) (i : Z) :
    nx (Z + nxscope_frame_s) := frame_get (p_ops (proto_stream s)) (p_priv proto) buff i.

Definition INTF_SEND s (intf : nxscope_intf_s W) (buff : list Z) (i : Z) : nx (Z * nxscope_s W) :=
  m ← read_n buff 0 i;
  let '(ret, w) := send (i_ops (intf_stream s)) (i_priv intf) m (world s) in
  NRet (ret, set_world s w).

(** Returns the value of [recv] and the bytes it stored. *)
Definition INTF_RECV s (intf : nxscope_intf_s W) (len : Z) : Z * list Z * nxscope_s W :=
  let '(ret, d, w) := recv (i_ops (intf_stream s)) (i_priv intf) len (world s) in
  (ret, d, set_world s w).

(** ** The lock *)

Definition nxscope_lock s : nx (nxscope_s W) :=
  if lock s then NFault Deadlock else NRet (set_lock s true).

Definition nxscope_unlock s : nxscope_s W := set_lock s false.

(** ** Sending *)

(** [nxscope_stream_send(s, buff, buff_i)]: the buffer and [*buff_i] are returned. *)
Definition nxscope_stream_send s (buff : list Z) (buff_i : Z) :
    nx (Z * list Z * Z * nxscope_s W) :=
  '(ret, buff, buff_i) ←
    (if negb (stream_retry s)
     then PROTO_FRAME_FINAL s (proto_stream s) NXSCOPE_HDRID_STREAM buff buff_i
     else NRet (OK, buff, buff_i));
  if negb (stream_retry s) && (ret <? 0) then NRet (ret, buff, buff_i, s)
  else
    '(ret, s) ← INTF_SEND s (intf_stream s) buff buff_i;
    if ret <? 0 then NRet (ret, buff, buff_i, set_retry s true)
    else NRet (ret, buff, buff_i, set_retry s false).

Definition nxscope_frame_send s (id : Z) (data : list Z) : nx (Z * nxscope_s W) :=
  let dlen := zlen data in
  if CONFIG_DEBUG_FEATURES &&
     (zlen (txbuf s) <? dlen + footlen (proto_cmd s) + hdrlen (proto_cmd s))
  then NRet (- ENOBUFS, s)
  else
    let tx_i := hdrlen (proto_cmd s) in
    b ← write_n (txbuf s) tx_i data;
    let tx_i := tx_i + dlen in
    '(ret, b, tx_i) ← PROTO_FRAME_FINAL s (proto_cmd s) id b tx_i;
    let s := set_txbuf s b in
    if ret <? 0 then NRet (ret, s)
    else INTF_SEND s (intf_cmd s) (txbuf s) tx_i.

Definition nxscope_cmninfo_send s : nx (Z * nxscope_s W) :=
  let c := cmninfo s in
  nxscope_frame_send s NXSCOPE_HDRID_CMNINFO [chmax c; flags c; rx_padding c].

(** The bytes of the packed structure before the pointer, the name and a NUL. *)
Definition nxscope_chinfo_send s (ch : Z) : nx (Z * nxscope_s W) :=
  c ← at_ (chinfo s) ch;
  let namelen := Z.min (zlen (ci_name c)) CHAN_NAMELEN_MAX in
  let data := [ci_enable c; ci_type c; ci_vdim c; ci_div c; ci_mlen c] ++
              take (Z.to_nat namelen) (ci_name c) ++ [0] in
  nxscope_frame_send s NXSCOPE_HDRID_CHINFO data.

(** [(FAR uint8_t * )&ret], 4 bytes, little-endian *)
Definition nxscope_ack s (ret : Z) : nx (nxscope_s W) :=
  '(_, s) ← nxscope_frame_send s NXSCOPE_HDRID_ACK (le_bytes 4 (u32 ret));
  NRet s.

(** ** Requests

    [set] is the index of the request in the receive buffer. *)

(** The loop that writes [f i] to the channels from [i] on. *)
Fixpoint write_channels (upd : nxscope_chinfo_s -> Z -> nxscope_chinfo_s) (f : Z -> nx Z)
    (n : nat) (i : Z) (l : list nxscope_chinfo_s) : nx (list nxscope_chinfo_s) :=
  match n with
  | O => NRet l
  | S n =>
      v ← f i;
      c ← at_ l i;
      l ← set_at l i (upd c v);
      write_channels upd f n (i + 1) l
  end.

(** The loop that looks at the flags of a bulk request. *)
Fixpoint check_bulk (buf : list Z) (data : Z) (n : nat) (i : Z) : nx bool :=
  match n with
  | O => NRet true
  | S n =>
      en ← at_ buf (data + i);
      if negb (en =? 0) && negb (en =? 1) then NRet false else check_bulk buf data n (i + 1)
  end.

Definition nxscope_enable_req s (set dlen : Z) : nx (Z * nxscope_s W) :=
  let buf := rxbuf s in
  let data := set + 2 in
  let chmax := chmax (cmninfo s) in
  req ← at_ buf set;
  if req =? NXSCOPE_SET_REQ_SINGLE then
    if negb (dlen =? sizeof_set_frame + NXSCOPE_ENABLE_LEN - 1) then NRet (- EINVAL, s)
    else
      en ← at_ buf data;
      if negb (en =? 0) && negb (en =? 1) then NRet (- EINVAL, s)
      else
        chan ← at_ buf (set + 1);
        if chmax <? chan then NRet (- EINVAL, s)
        else
          c ← at_ (chinfo s) chan;
          l ← set_at (chinfo s) chan (ci_enable_to c en);
          NRet (OK, set_chinfo s l)
  else if req =? NXSCOPE_SET_REQ_BULK then
    if negb (dlen =? sizeof_set_frame + NXSCOPE_ENABLE_LEN * chmax - 1) then NRet (- EINVAL, s)
    else
      ok ← check_bulk buf data (Z.to_nat chmax) 0;
      if negb ok then NRet (- EINVAL, s)
      else
        l ← write_channels ci_enable_to (fun i => at_ buf (data + i)) (Z.to_nat chmax) 0 (chinfo s);
        NRet (OK, set_chinfo s l)
  else if req =? NXSCOPE_SET_REQ_ALL then
    if negb (dlen =? sizeof_set_frame + NXSCOPE_ENABLE_LEN - 1) then NRet (- EINVAL, s)
    else
      en ← at_ buf data;
      if negb (en =? 0) && negb (en =? 1) then NRet (- EINVAL, s)
      else
        l ← write_channels ci_enable_to (fun _ => at_ buf data) (Z.to_nat chmax) 0 (chinfo s);
        NRet (OK, set_chinfo s l)
  else NRet (- EINVAL, s).

Definition nxscope_div_req s (set dlen : Z) : nx (Z * nxscope_s W) :=
  let buf := rxbuf s in
  let data := set + 2 in
  let chmax := chmax (cmninfo s) in
  req ← at_ buf set;
  if req =? NXSCOPE_SET_REQ_SINGLE then
    if negb (dlen =? sizeof_set_frame + NXSCOPE_DIV_LEN - 1) then NRet (- EINVAL, s)
    else
      chan ← at_ buf (set + 1);
      if chmax <? chan then NRet (- EINVAL, s)
      else
        div ← at_ buf data;
        c ← at_ (chinfo s) chan;
        l ← set_at (chinfo s) chan (ci_div_to c div);
        NRet (OK, set_chinfo s l)
  else if req =? NXSCOPE_SET_REQ_BULK then
    if negb (dlen =? sizeof_set_frame + NXSCOPE_DIV_LEN * chmax - 1) then NRet (- EINVAL, s)
    else
      l ← write_channels ci_div_to (fun i => at_ buf (data + i)) (Z.to_nat chmax) 0 (chinfo s);
      NRet (OK, set_chinfo s l)
  else if req =? NXSCOPE_SET_REQ_ALL then
    if negb (dlen =? sizeof_set_frame + NXSCOPE_DIV_LEN - 1) then NRet (- EINVAL, s)
    else
      l ← write_channels ci_div_to (fun _ => at_ buf data) (Z.to_nat chmax) 0 (chinfo s);
      NRet (OK, set_chinfo s l)
  else NRet (- EINVAL, s).

(** A [bool] converted to [uint8_t]. *)
Definition nxscope_start_set s (start : bool) : Z * nxscope_s W :=
  let s := set_start s (Z.b2z start) in
  match callbacks s with
  | Some cb =>
      match cb_start cb with
      | Some f => let '(ret, w) := f start (world s) in (ret, set_world s w)
      | None => (OK, s)
      end
  | None => (OK, s)
  end.

Definition nxscope_start_req s (data : Z) : nx (Z * nxscope_s W) :=
  st ← at_ (rxbuf s) data;
  if (st =? 0) || (st =? 1) then NRet (nxscope_start_set s (negb (st =? 0)))
  else NRet (- EINVAL, s).

(** [nxscope_ack(s, ret)] where it is compiled in. *)
Definition ack_if s (ret : Z) : nx (nxscope_s W) :=
  if CONFIG_LOGGING_NXSCOPE_ACKFRAMES then nxscope_ack s ret else NRet s.

(** [nxscope_recv_handle] between the lock and the unlock. *)
Definition handle_request s (id dlen buf : Z) : nx (Z * nxscope_s W) :=
  if id =? NXSCOPE_HDRID_CMNINFO then
    if negb (dlen =? 0) then NRet (OK, s) else nxscope_cmninfo_send s
  else if id =? NXSCOPE_HDRID_CHINFO then
    if negb (dlen =? 1) then NRet (OK, s)
    else ch ← at_ (rxbuf s) buf; nxscope_chinfo_send s ch
  else if id =? NXSCOPE_HDRID_START then
    if negb (dlen =? NXSCOPE_START_LEN) then NRet (OK, s)
    else
      '(ret, s) ← nxscope_start_req s buf;
      s ← ack_if s ret;
      NRet (ret, s)
  else if id =? NXSCOPE_HDRID_ENABLE then
    '(ret, s) ← nxscope_enable_req s buf dlen;
    s ← ack_if s ret;
    NRet (ret, s)
  else if id =? NXSCOPE_HDRID_DIV then
    '(ret, s) ← (if CONFIG_LOGGING_NXSCOPE_DIVIDER then nxscope_div_req s buf dlen
                 else NRet (- EPERM, s));
    s ← ack_if s ret;
    NRet (ret, s)
  else
    match callbacks s with
    | Some cb =>
        match cb_userid cb with
        | Some f =>
            let '(ret, w) := f id (drop (Z.to_nat buf) (rxbuf s)) (world s) in
            NRet (ret, set_world s w)
        | None => NRet (- EINVAL, s)
        end
    | None => NRet (- EINVAL, s)
    end.

Definition nxscope_recv_handle s (id dlen buf : Z) : nx (Z * nxscope_s W) :=
  s ← nxscope_lock s;
  '(ret, s) ← handle_request s id dlen buf;
  NRet (ret, nxscope_unlock s).

(** ** Receiving *)

(** The loop that accumulates data; [ret] is the value that ended it. *)
Fixpoint recv_loop (fuel : nat) s : nx (Z * nxscope_s W) :=
  match fuel with
  | O => NFault NoFuel
  | S fuel =>
      let size_left := u32 (zlen (rxbuf s) - rxbuf_i s) in
      let '(ret, d, s) := INTF_RECV s (intf_cmd s) size_left in
      b ← write_n (rxbuf s) (rxbuf_i s) d;
      let s := set_rx s b (rxbuf_i s) in
      if ret <=? 0 then NRet (ret, s)
      else recv_loop fuel (set_rx s b (u32 (rxbuf_i s + ret)))
  end.

(** [memmove(s->rxbuf, &s->rxbuf[drop], n)] *)
Definition move_down (b : list Z) (drop n : Z) : nx (list Z) :=
  d ← read_n b drop n;
  write_n b 0 d.

Definition nxscope_recv s : nx (Z * nxscope_s W) :=
  '(ret, s) ← recv_loop (S (length (rxbuf s))) s;
  if rxbuf_i s =? 0 then NRet (ret, set_rx s (rxbuf s) 0)
  else
    r ← PROTO_FRAME_GET s (proto_cmd s) (rxbuf s) (rxbuf_i s);
    match r with
    | inl _ => NRet (OK, set_rx s (rxbuf s) 0)
    | inr frame =>
        '(ret, s) ← nxscope_recv_handle s (fr_id frame) (u16 (fr_dlen frame)) (fr_data frame);
        if ret <? 0 then NRet (ret, set_rx s (rxbuf s) 0)
        else
          let bytes_left := u32 (rxbuf_i s - fr_drop frame) in
          b ← (if 0 <? bytes_left then move_down (rxbuf s) (fr_drop frame) bytes_left
               else NRet (rxbuf s));
          NRet (ret, set_rx s b bytes_left)
    end.

(** ** The stream *)

Definition nxscope_stream_reset s : nx (nxscope_s W) :=
  let h := hdrlen (proto_stream s) in
  b ← set_at (streambuf s) h 0;
  NRet (set_stream s b (h + 1)).

Definition nxscope_stream_empty s : bool := negb (hdrlen (proto_stream s) + 1 <? stream_i s).

Definition nxscope_stream s : nx (Z * nxscope_s W) :=
  s ← nxscope_lock s;
  if start s =? 0 then NRet (OK, nxscope_unlock s)
  else if nxscope_stream_empty s then NRet (OK, nxscope_unlock s)
  else
    '(ret, b, i, s) ← nxscope_stream_send s (streambuf s) (stream_i s);
    let s := set_stream s b i in
    if ret <? 0 then NRet (ret, nxscope_unlock s)
    else
      s ← nxscope_stream_reset s;
      NRet (ret, nxscope_unlock s).

Definition nxscope_stream_start s (start : bool) : nx (Z * nxscope_s W) :=
  s ← nxscope_lock s;
  let '(ret, s) := nxscope_start_set s start in
  NRet (ret, nxscope_unlock s).

End scope.

(** ** The life of an instance

    The buffers an instance owns; [live] lists those that are allocated. *)

Inductive block := BStream | BChinfo | BCntr | BRx | BTx | BCri.
#[export] Instance block_dec : EqDecision block.
Proof. solve_decision. Defined.

Definition free_blocks (bs live : list block) : list block := filter (fun b => b ∉ bs) live.

Section life.
Context `{NxConfig} {W : Type}.

Definition opt_block (c : bool) (b : block) : list block := if c then [b] else [].

(** The [errout] of [nxscope_init] and [nxscope_deinit] free the pointers that are not null. *)
Definition errout_frees : list block :=
  [BStream; BChinfo] ++ opt_block CONFIG_LOGGING_NXSCOPE_DIVIDER BCntr ++ [BRx; BTx] ++
  opt_block CONFIG_LOGGING_NXSCOPE_CRICHANNELS BCri.

Definition deinit_frees : list block :=
  [BStream; BChinfo] ++ opt_block CONFIG_LOGGING_NXSCOPE_DIVIDER BCntr ++
  opt_block CONFIG_LOGGING_NXSCOPE_CRICHANNELS BCri ++ [BTx].

(** The return value, the instance when it is [OK], and the blocks left allocated. *)
Definition init_result : Type := nx (Z * option (nxscope_s W) * list block).

Definition init_errout (ret : Z) (live : list block) : init_result :=
  NRet (ret, None, free_blocks errout_frees live).

(** [zalloc] of a block, and the rest of [nxscope_init] *)
Definition with_block (zalloc : block -> bool) (b : block) (live : list block)
    (k : list block -> init_result) : init_result :=
  if zalloc b then k (b :: live) else init_errout (- ENOMEM) live.

Definition nxscope_init (cfg : nxscope_cfg_s W) (zalloc : block -> bool) (mutex_init : Z) (w : W) :
    init_result :=
  if negb (i_initialized (cfg_intf_cmd cfg)) then init_errout (- EINVAL) []
  else if negb (p_initialized (cfg_proto_cmd cfg)) then init_errout (- EINVAL) []
  else if negb (i_initialized (cfg_intf_stream cfg)) then init_errout (- EINVAL) []
  else if negb (p_initialized (cfg_proto_stream cfg)) then init_errout (- EINVAL) []
  else DEBUGASSERT (0 <? cfg_streambuf_len cfg)
    (with_block zalloc BStream [] (fun live => DEBUGASSERT (0 <? cfg_channels cfg)
      (with_block zalloc BChinfo live (fun live =>
        (if CONFIG_LOGGING_NXSCOPE_DIVIDER then with_block zalloc BCntr live else fun k => k live)
        (fun live => DEBUGASSERT (0 <? cfg_rxbuf_len cfg)
          (with_block zalloc BRx live (fun live =>
            with_block zalloc BTx live (fun live =>
              (if CONFIG_LOGGING_NXSCOPE_CRICHANNELS then with_block zalloc BCri live
               else fun k => k live)
              (fun live =>
                if negb (mutex_init =? 0) then init_errout mutex_init live
                else
                  let zeros n := replicate (Z.to_nat n) 0 in
                  let proto := cfg_proto_cmd cfg in
                  s ← nxscope_stream_reset
                        {| intf_cmd := cfg_intf_cmd cfg; intf_stream := cfg_intf_stream cfg;
                           proto_cmd := proto; proto_stream := cfg_proto_stream cfg;
                           callbacks := cfg_callbacks cfg;
                           cmninfo := mkCmninfo (cfg_channels cfg)
                             (Z.lor (if CONFIG_LOGGING_NXSCOPE_DIVIDER
                                     then NXSCOPE_FLAGS_DIVIDER_SUPPORT else 0)
                                    (if CONFIG_LOGGING_NXSCOPE_ACKFRAMES
                                     then NXSCOPE_FLAGS_ACK_SUPPORT else 0))
                             (cfg_rx_padding cfg);
                           chinfo := replicate (Z.to_nat (cfg_channels cfg))
                             (mkChinfo 0 0 0 0 0 []);
                           cntr := if CONFIG_LOGGING_NXSCOPE_DIVIDER
                                   then zeros (cfg_channels cfg) else [];
                           start := 0;
                           streambuf := zeros (cfg_streambuf_len cfg); stream_i := 0;
                           stream_retry := false;
                           cribuf := if CONFIG_LOGGING_NXSCOPE_CRICHANNELS
                                     then zeros (cfg_cribuf_len cfg) else [];
                           rxbuf := zeros (cfg_rxbuf_len cfg); rxbuf_i := 0;
                           txbuf := zeros (CHINFO_DATA_SIZE_MAX + footlen proto + hdrlen proto);
                           lock := false; world := w |};
                  NRet (OK, Some s, live)))))))))).

(** The blocks that stay allocated. *)
Definition nxscope_deinit (live : list block) : list block := free_blocks deinit_frees live.

End life.
