(* ===== verification/NxChan.v ===== *)
(** * NxChan: the channels of nxscope

    [src/logging/nxscope/nxscope_chan.c]: configuration of the channels and the functions that
    put samples on the stream buffer.  Sample data is a list of the elements the pointer
    [val] points to, as unsigned bit patterns; for characters it is the memory from [val] on. *)

From S2P Require Import Prelude NxBase NxScope.
#[local] Open Scope Z_scope.

Definition NXSCOPE_TYPE_UNDEF : Z := 0.
Definition NXSCOPE_TYPE_NONE : Z := 1.
Definition NXSCOPE_TYPE_UINT8 : Z := 2.
Definition NXSCOPE_TYPE_INT8 : Z := 3.
Definition NXSCOPE_TYPE_UINT16 : Z := 4.
Definition NXSCOPE_TYPE_INT16 : Z := 5.
Definition NXSCOPE_TYPE_UINT32 : Z := 6.
Definition NXSCOPE_TYPE_INT32 : Z := 7.
Definition NXSCOPE_TYPE_UINT64 : Z := 8.
Definition NXSCOPE_TYPE_INT64 : Z := 9.
Definition NXSCOPE_TYPE_FLOAT : Z := 10.
Definition NXSCOPE_TYPE_DOUBLE : Z := 11.
Definition NXSCOPE_TYPE_UB8 : Z := 12.
Definition NXSCOPE_TYPE_B8 : Z := 13.
Definition NXSCOPE_TYPE_UB16 : Z := 14.
Definition NXSCOPE_TYPE_B16 : Z := 15.
Definition NXSCOPE_TYPE_UB32 : Z := 16.
Definition NXSCOPE_TYPE_B32 : Z := 17.
Definition NXSCOPE_TYPE_CHAR : Z := 18.
Definition NXSCOPE_TYPE_USER : Z := 20.

(** The sizes of [b8_t], [b16_t] and [b32_t] are 2, 4 and 8. *)
Definition g_type_size `{NxConfig} : list Z :=
  [0; 0; 1; 1; 2; 2; 4; 4; 8; 8; 4; 8; 2; 2; 4; 4; 8; 8; 1] ++
  (if CONFIG_LOGGING_NXSCOPE_USERTYPES then [1] else []).

Definition is_one_of (type : Z) (l : list Z) : bool := existsb (Z.eqb type) l.

Section chan.
Context `{NxConfig} {W : Type}.
Implicit Types s : nxscope_s W.

Definition nxscope_stream_overflow s : nx (nxscope_s W) :=
  let h := hdrlen (proto_stream s) in
  f ← at_ (streambuf s) h;
  b ← set_at (streambuf s) h (Z.lor f NXSCOPE_STREAM_FLAGS_OVERFLOW);
  NRet (set_stream s b (stream_i s)).

(** The counter of the divider: whether this sample passes. *)
Definition divider_passes s (ch : Z) (c : nxscope_chinfo_s) : nx (bool * nxscope_s W) :=
  if CONFIG_LOGGING_NXSCOPE_DIVIDER then
    n ← at_ (cntr s) ch;
    let n := u32 (n + 1) in
    l ← set_at (cntr s) ch n;
    NRet (n mod (ci_div c + 1) =? 0, set_cntr s l)
  else NRet (true, s).

Definition type_size_of (type : Z) : nx Z :=
  if CONFIG_LOGGING_NXSCOPE_USERTYPES && (NXSCOPE_TYPE_USER <=? type) then NRet 1
  else at_ g_type_size (dtype type).

Definition nxscope_ch_validate s (ch type d mlen : Z) : nx (Z * nxscope_s W) :=
  if start s =? 0 then NRet (- EAGAIN, s)
  else
    c ← at_ (chinfo s) ch;
    if negb (ci_enable c =? 1) then NRet (- EAGAIN, s)
    else if CONFIG_DEBUG_FEATURES && (chmax (cmninfo s) <? ch) then NRet (- EINVAL, s)
    else if CONFIG_DEBUG_FEATURES && negb (dtype (ci_type c) =? type) then NRet (- EINVAL, s)
    else if CONFIG_DEBUG_FEATURES && negb (ci_vdim c =? d) then NRet (- EINVAL, s)
    else if CONFIG_DEBUG_FEATURES && negb (ci_mlen c =? mlen) then NRet (- EINVAL, s)
    else
      '(passes, s) ← divider_passes s ch c;
      if negb passes then NRet (- EAGAIN, s)
      else
        type_size ← type_size_of type;
        if CONFIG_LOGGING_NXSCOPE_CRICHANNELS && cri type then
          let next_i := hdrlen (proto_stream s) + 1 + type_size * d + mlen +
                        footlen (proto_stream s) in
          if CONFIG_DEBUG_FEATURES && (zlen (cribuf s) <? next_i) then NRet (- ENOBUFS, s)
          else NRet (OK, s)
        else
          let next_i := u32 (stream_i s + 1 + type_size * d + mlen + footlen (proto_stream s)) in
          if zlen (streambuf s) <? next_i then
            s ← nxscope_stream_overflow s;
            NRet (- ENOBUFS, s)
          else NRet (OK, s).

(** The loops of [nxscope_put_vector]: [n] elements of [w] bytes from [val[i]] on. *)
Fixpoint put_words (w : nat) (val : list Z) (n : nat) (i : Z) (buff : list Z) (j : Z) :
    nx (list Z * Z) :=
  match n with
  | O => NRet (buff, j)
  | S n =>
      u ← at_ val i;
      buff ← write_n buff j (le_bytes w u);
      put_words w val n (i + 1) buff (j + Z.of_nat w)
  end.

(** [strlen] of the string at [mem[i]] *)
Definition strlen_at (mem : list Z) (i : Z) : nx Z :=
  match index_of 0 (drop (Z.to_nat i) mem) with
  | Some n => NRet n
  | None => NFault BadAccess
  end.

(** [strlcpy(&buff[o], val, d)] *)
Definition strlcpy_at (buff : list Z) (o : Z) (val : list Z) (d : Z) : nx (list Z) :=
  n ← strlen_at val 0;
  if d =? 0 then NRet buff
  else write_n buff o (take (Z.to_nat (Z.min n (d - 1))) val ++ [0]).

(** [nxscope_put_vector(&buff[o], type, val, d)]: the buffer and the value returned. *)
Definition nxscope_put_vector (buff : list Z) (o type : Z) (val : list Z) (d : Z) :
    nx (list Z * Z) :=
  let put w := '(b, j) ← put_words w val (Z.to_nat d) 0 buff o; NRet (b, j - o) in
  if type =? NXSCOPE_TYPE_NONE then NRet (buff, 0)
  else if is_one_of type ([NXSCOPE_TYPE_UINT8; NXSCOPE_TYPE_INT8] ++
            (if CONFIG_LOGGING_NXSCOPE_USERTYPES then [NXSCOPE_TYPE_USER] else []))
  then put 1%nat
  else if is_one_of type [NXSCOPE_TYPE_UINT16; NXSCOPE_TYPE_INT16; NXSCOPE_TYPE_B8; NXSCOPE_TYPE_UB8]
  then put 2%nat
  else if is_one_of type [NXSCOPE_TYPE_UINT32; NXSCOPE_TYPE_INT32; NXSCOPE_TYPE_FLOAT;
            NXSCOPE_TYPE_B16; NXSCOPE_TYPE_UB16]
  then put 4%nat
  else if CONFIG_HAVE_LONG_LONG &&
          is_one_of type [NXSCOPE_TYPE_UINT64; NXSCOPE_TYPE_INT64; NXSCOPE_TYPE_DOUBLE;
            NXSCOPE_TYPE_B32; NXSCOPE_TYPE_UB32]
  then put 8%nat
  else if type =? NXSCOPE_TYPE_CHAR then
    b ← strlcpy_at buff o val d;
    j ← strlen_at b o;
    b ← (if d - j <? 0 then NFault BadAccess
         else write_n b (o + j) (replicate (Z.to_nat (d - j)) 0));
    NRet (b, d)
  else DEBUGASSERT false (NRet (buff, 0)).

Definition nxscope_put_meta (buff : list Z) (o : Z) (meta : list Z) (mlen : Z) : nx (list Z * Z) :=
  m ← read_n meta 0 mlen;
  b ← write_n buff o m;
  NRet (b, mlen).

(** The buffer and [*buff_i] *)
Definition nxscope_put_sample (buff : list Z) (buff_i type ch : Z) (val : list Z) (d : Z)
    (meta : list Z) (mlen : Z) : nx (list Z * Z) :=
  buff ← set_at buff buff_i ch;
  let buff_i := buff_i + 1 in
  '(buff, i) ← nxscope_put_vector buff buff_i type val d;
  let buff_i := buff_i + i in
  '(buff, i) ← nxscope_put_meta buff buff_i meta mlen;
  NRet (buff, buff_i + i).

(** [nxscope_put_common_m] without the lock. *)
Definition put_unlocked s (type ch : Z) (val : list Z) (d : Z) (meta : list Z) (mlen : Z) :
    nx (Z * nxscope_s W) :=
  '(ret, s) ← nxscope_ch_validate s ch type d mlen;
  if negb (ret =? OK) then NRet (ret, s)
  else if CONFIG_LOGGING_NXSCOPE_CRICHANNELS && cri type then
    '(buff, tmp) ← nxscope_put_sample (cribuf s) 0 type ch val d meta mlen;
    '(ret, buff, _, s) ← nxscope_stream_send s buff tmp;
    NRet (ret, set_cribuf s buff)
  else
    '(buff, i) ← nxscope_put_sample (streambuf s) (stream_i s) type ch val d meta mlen;
    NRet (ret, set_stream s buff i).

Definition nxscope_put_common_m s (type ch : Z) (val : list Z) (d : Z) (meta : list Z) (mlen : Z) :
    nx (Z * nxscope_s W) :=
  if CONFIG_LOGGING_NXSCOPE_DISABLE_PUTLOCK then put_unlocked s type ch val d meta mlen
  else
    s ← nxscope_lock s;
    '(ret, s) ← put_unlocked s type ch val d meta mlen;
    NRet (ret, nxscope_unlock s).

(** ** Configuration *)

Definition NXSCOPE_IS_CRICHAN (chtype : Z) : bool := negb (Z.land chtype 0x80 =? 0).

(** A critical channel without support for it leaves the function with the lock taken. *)
Definition nxscope_chan_init s (ch : Z) (name : list Z) (type vdim mlen : Z) :
    nx (Z * nxscope_s W) :=
  if chmax (cmninfo s) <? ch then NRet (- EINVAL, s)
  else
    s ← nxscope_lock s;
    if negb CONFIG_LOGGING_NXSCOPE_CRICHANNELS && NXSCOPE_IS_CRICHAN type then NRet (- EINVAL, s)
    else
      l ← set_at (chinfo s) ch (mkChinfo 0 type vdim 0 mlen name);
      NRet (OK, nxscope_unlock (set_chinfo s l)).

Definition nxscope_chan_en s (ch : Z) (en : bool) : nx (Z * nxscope_s W) :=
  s ← nxscope_lock s;
  if chmax (cmninfo s) <? ch then NRet (- EINVAL, nxscope_unlock s)
  else
    c ← at_ (chinfo s) ch;
    if dtype (ci_type c) =? NXSCOPE_TYPE_UNDEF then NRet (- EINVAL, nxscope_unlock s)
    else
      l ← set_at (chinfo s) ch (ci_enable_to c (Z.b2z en));
      NRet (OK, nxscope_unlock (set_chinfo s l)).

Definition nxscope_chan_div s (ch div : Z) : nx (Z * nxscope_s W) :=
  s ← nxscope_lock s;
  if chmax (cmninfo s) <? ch then NRet (- EINVAL, nxscope_unlock s)
  else
    c ← at_ (chinfo s) ch;
    l ← set_at (chinfo s) ch (ci_div_to c div);
    NRet (OK, nxscope_unlock (set_chinfo s l)).

(** [n] is [chmax - i], since [i] is a [uint8_t] smaller than [chmax]. *)
Fixpoint chan_all_en_loop s (n : nat) (i : Z) (en : bool) (ret : Z) : nx (Z * nxscope_s W) :=
  match n with
  | O => NRet (ret, s)
  | S n =>
      '(r, s) ← nxscope_chan_en s i en;
      chan_all_en_loop s n (i + 1) en (Z.lor ret r)
  end.

Definition nxscope_chan_all_en s (en : bool) : nx (Z * nxscope_s W) :=
  chan_all_en_loop s (Z.to_nat (chmax (cmninfo s))) 0 en OK.
End chan.
