(* ===== verification/NxPut.v ===== *)
(** * NxPut: the functions that put samples, one per type

    The interface of [src/logging/nxscope/nxscope_chan.c] to the application: vectors and points
    of every type, with and without metadata.  [run_put] names a call of any of them. *)

From S2P Require Import Prelude NxBase NxScope NxChan.
#[local] Open Scope Z_scope.

Section put.
Context `{NxConfig} {W : Type}.
Implicit Types (s : nxscope_s W) (ch d mlen : Z) (meta : list Z).

Definition nxscope_put_vuint8_m s ch (val : list Z) d meta mlen : nx (Z * nxscope_s W) :=
  nxscope_put_common_m s NXSCOPE_TYPE_UINT8 ch val d meta mlen.
Definition nxscope_put_vint8_m s ch (val : list Z) d meta mlen : nx (Z * nxscope_s W) :=
  nxscope_put_common_m s NXSCOPE_TYPE_INT8 ch val d meta mlen.
Definition nxscope_put_vuint16_m s ch (val : list Z) d meta mlen : nx (Z * nxscope_s W) :=
  nxscope_put_common_m s NXSCOPE_TYPE_UINT16 ch val d meta mlen.
Definition nxscope_put_vint16_m s ch (val : list Z) d meta mlen : nx (Z * nxscope_s W) :=
  nxscope_put_common_m s NXSCOPE_TYPE_INT16 ch val d meta mlen.
Definition nxscope_put_vuint32_m s ch (val : list Z) d meta mlen : nx (Z * nxscope_s W) :=
  nxscope_put_common_m s NXSCOPE_TYPE_UINT32 ch val d meta mlen.
Definition nxscope_put_vint32_m s ch (val : list Z) d meta mlen : nx (Z * nxscope_s W) :=
  nxscope_put_common_m s NXSCOPE_TYPE_INT32 ch val d meta mlen.
Definition nxscope_put_vuint64_m s ch (val : list Z) d meta mlen : nx (Z * nxscope_s W) :=
  nxscope_put_common_m s NXSCOPE_TYPE_UINT64 ch val d meta mlen.
Definition nxscope_put_vint64_m s ch (val : list Z) d meta mlen : nx (Z * nxscope_s W) :=
  nxscope_put_common_m s NXSCOPE_TYPE_INT64 ch val d meta mlen.
Definition nxscope_put_vfloat_m s ch (val : list Z) d meta mlen : nx (Z * nxscope_s W) :=
  nxscope_put_common_m s NXSCOPE_TYPE_FLOAT ch val d meta mlen.
Definition nxscope_put_vdouble_m s ch (val : list Z) d meta mlen : nx (Z * nxscope_s W) :=
  nxscope_put_common_m s NXSCOPE_TYPE_DOUBLE ch val d meta mlen.
Definition nxscope_put_vub8_m s ch (val : list Z) d meta mlen : nx (Z * nxscope_s W) :=
  nxscope_put_common_m s NXSCOPE_TYPE_UB8 ch val d meta mlen.
Definition nxscope_put_vb8_m s ch (val : list Z) d meta mlen : nx (Z * nxscope_s W) :=
  nxscope_put_common_m s NXSCOPE_TYPE_B8 ch val d meta mlen.
Definition nxscope_put_vub16_m s ch (val : list Z) d meta mlen : nx (Z * nxscope_s W) :=
  nxscope_put_common_m s NXSCOPE_TYPE_UB16 ch val d meta mlen.
Definition nxscope_put_vb16_m s ch (val : list Z) d meta mlen : nx (Z * nxscope_s W) :=
  nxscope_put_common_m s NXSCOPE_TYPE_B16 ch val d meta mlen.
Definition nxscope_put_vub32_m s ch (val : list Z) d meta mlen : nx (Z * nxscope_s W) :=
  nxscope_put_common_m s NXSCOPE_TYPE_UB32 ch val d meta mlen.
Definition nxscope_put_vb32_m s ch (val : list Z) d meta mlen : nx (Z * nxscope_s W) :=
  nxscope_put_common_m s NXSCOPE_TYPE_B32 ch val d meta mlen.
Definition nxscope_put_vchar_m s ch (val : list Z) d meta mlen : nx (Z * nxscope_s W) :=
  nxscope_put_common_m s NXSCOPE_TYPE_CHAR ch val d meta mlen.
Definition nxscope_put_vuint8 s ch (val : list Z) d : nx (Z * nxscope_s W) :=
  nxscope_put_vuint8_m s ch val d [] 0.
Definition nxscope_put_vint8 s ch (val : list Z) d : nx (Z * nxscope_s W) :=
  nxscope_put_vint8_m s ch val d [] 0.
Definition nxscope_put_vuint16 s ch (val : list Z) d : nx (Z * nxscope_s W) :=
  nxscope_put_vuint16_m s ch val d [] 0.
Definition nxscope_put_vint16 s ch (val : list Z) d : nx (Z * nxscope_s W) :=
  nxscope_put_vint16_m s ch val d [] 0.
Definition nxscope_put_vuint32 s ch (val : list Z) d : nx (Z * nxscope_s W) :=
  nxscope_put_vuint32_m s ch val d [] 0.
Definition nxscope_put_vint32 s ch (val : list Z) d : nx (Z * nxscope_s W) :=
  nxscope_put_vint32_m s ch val d [] 0.
Definition nxscope_put_vuint64 s ch (val : list Z) d : nx (Z * nxscope_s W) :=
  nxscope_put_vuint64_m s ch val d [] 0.
Definition nxscope_put_vint64 s ch (val : list Z) d : nx (Z * nxscope_s W) :=
  nxscope_put_vint64_m s ch val d [] 0.
Definition nxscope_put_vfloat s ch (val : list Z) d : nx (Z * nxscope_s W) :=
  nxscope_put_vfloat_m s ch val d [] 0.
Definition nxscope_put_vdouble s ch (val : list Z) d : nx (Z * nxscope_s W) :=
  nxscope_put_vdouble_m s ch val d [] 0.
Definition nxscope_put_vub8 s ch (val : list Z) d : nx (Z * nxscope_s W) :=
  nxscope_put_vub8_m s ch val d [] 0.
Definition nxscope_put_vb8 s ch (val : list Z) d : nx (Z * nxscope_s W) :=
  nxscope_put_vb8_m s ch val d [] 0.
Definition nxscope_put_vub16 s ch (val : list Z) d : nx (Z * nxscope_s W) :=
  nxscope_put_vub16_m s ch val d [] 0.
Definition nxscope_put_vb16 s ch (val : list Z) d : nx (Z * nxscope_s W) :=
  nxscope_put_vb16_m s ch val d [] 0.
Definition nxscope_put_vub32 s ch (val : list Z) d : nx (Z * nxscope_s W) :=
  nxscope_put_vub32_m s ch val d [] 0.
Definition nxscope_put_vb32 s ch (val : list Z) d : nx (Z * nxscope_s W) :=
  nxscope_put_vb32_m s ch val d [] 0.
Definition nxscope_put_vchar s ch (val : list Z) d : nx (Z * nxscope_s W) :=
  nxscope_put_vchar_m s ch val d [] 0.
Definition nxscope_put_uint8_m s ch (val : Z) meta mlen : nx (Z * nxscope_s W) :=
  nxscope_put_vuint8_m s ch [val] 1 meta mlen.
Definition nxscope_put_int8_m s ch (val : Z) meta mlen : nx (Z * nxscope_s W) :=
  nxscope_put_vint8_m s ch [val] 1 meta mlen.
Definition nxscope_put_uint16_m s ch (val : Z) meta mlen : nx (Z * nxscope_s W) :=
  nxscope_put_vuint16_m s ch [val] 1 meta mlen.
Definition nxscope_put_int16_m s ch (val : Z) meta mlen : nx (Z * nxscope_s W) :=
  nxscope_put_vint16_m s ch [val] 1 meta mlen.
Definition nxscope_put_uint32_m s ch (val : Z) meta mlen : nx (Z * nxscope_s W) :=
  nxscope_put_vuint32_m s ch [val] 1 meta mlen.
Definition nxscope_put_int32_m s ch (val : Z) meta mlen : nx (Z * nxscope_s W) :=
  nxscope_put_vint32_m s ch [val] 1 meta mlen.
Definition nxscope_put_uint64_m s ch (val : Z) meta mlen : nx (Z * nxscope_s W) :=
  nxscope_put_vuint64_m s ch [val] 1 meta mlen.
Definition nxscope_put_int64_m s ch (val : Z) meta mlen : nx (Z * nxscope_s W) :=
  nxscope_put_vint64_m s ch [val] 1 meta mlen.
Definition nxscope_put_float_m s ch (val : Z) meta mlen : nx (Z * nxscope_s W) :=
  nxscope_put_vfloat_m s ch [val] 1 meta mlen.
Definition nxscope_put_double_m s ch (val : Z) meta mlen : nx (Z * nxscope_s W) :=
  nxscope_put_vdouble_m s ch [val] 1 meta mlen.
Definition nxscope_put_b8_m s ch (val : Z) meta mlen : nx (Z * nxscope_s W) :=
  nxscope_put_vb8_m s ch [val] 1 meta mlen.
Definition nxscope_put_b16_m s ch (val : Z) meta mlen : nx (Z * nxscope_s W) :=
  nxscope_put_vb16_m s ch [val] 1 meta mlen.
Definition nxscope_put_ub8_m s ch (val : Z) meta mlen : nx (Z * nxscope_s W) :=
  nxscope_put_vub8_m s ch [val] 1 meta mlen.
Definition nxscope_put_b32_m s ch (val : Z) meta mlen : nx (Z * nxscope_s W) :=
  nxscope_put_vb32_m s ch [val] 1 meta mlen.
Definition nxscope_put_ub16_m s ch (val : Z) meta mlen : nx (Z * nxscope_s W) :=
  nxscope_put_vub16_m s ch [val] 1 meta mlen.
Definition nxscope_put_ub32_m s ch (val : Z) meta mlen : nx (Z * nxscope_s W) :=
  nxscope_put_vub32_m s ch [val] 1 meta mlen.
Definition nxscope_put_char_m s ch (val : Z) meta mlen : nx (Z * nxscope_s W) :=
  nxscope_put_vchar_m s ch [val] 1 meta mlen.
Definition nxscope_put_none_m s ch meta mlen : nx (Z * nxscope_s W) :=
  nxscope_put_vuint8_m s ch [] 0 meta mlen.
Definition nxscope_put_user_m s ch (type : Z) (val : list Z) d meta mlen : nx (Z * nxscope_s W) :=
  nxscope_put_common_m s type ch val d meta mlen.
Definition nxscope_put_uint8 s ch (val : Z) : nx (Z * nxscope_s W) :=
  nxscope_put_vuint8 s ch [val] 1.
Definition nxscope_put_int8 s ch (val : Z) : nx (Z * nxscope_s W) :=
  nxscope_put_vint8 s ch [val] 1.
Definition nxscope_put_uint16 s ch (val : Z) : nx (Z * nxscope_s W) :=
  nxscope_put_vuint16 s ch [val] 1.
Definition nxscope_put_int16 s ch (val : Z) : nx (Z * nxscope_s W) :=
  nxscope_put_vint16 s ch [val] 1.
Definition nxscope_put_uint32 s ch (val : Z) : nx (Z * nxscope_s W) :=
  nxscope_put_vuint32 s ch [val] 1.
Definition nxscope_put_int32 s ch (val : Z) : nx (Z * nxscope_s W) :=
  nxscope_put_vint32 s ch [val] 1.
Definition nxscope_put_uint64 s ch (val : Z) : nx (Z * nxscope_s W) :=
  nxscope_put_vuint64 s ch [val] 1.
Definition nxscope_put_int64 s ch (val : Z) : nx (Z * nxscope_s W) :=
  nxscope_put_vint64 s ch [val] 1.
Definition nxscope_put_float s ch (val : Z) : nx (Z * nxscope_s W) :=
  nxscope_put_vfloat s ch [val] 1.
Definition nxscope_put_double s ch (val : Z) : nx (Z * nxscope_s W) :=
  nxscope_put_vdouble s ch [val] 1.
Definition nxscope_put_ub8 s ch (val : Z) : nx (Z * nxscope_s W) :=
  nxscope_put_vub8 s ch [val] 1.
Definition nxscope_put_b8 s ch (val : Z) : nx (Z * nxscope_s W) :=
  nxscope_put_vb8 s ch [val] 1.
Definition nxscope_put_ub16 s ch (val : Z) : nx (Z * nxscope_s W) :=
  nxscope_put_vub16 s ch [val] 1.
Definition nxscope_put_b16 s ch (val : Z) : nx (Z * nxscope_s W) :=
  nxscope_put_vb16 s ch [val] 1.
Definition nxscope_put_ub32 s ch (val : Z) : nx (Z * nxscope_s W) :=
  nxscope_put_vub32 s ch [val] 1.
Definition nxscope_put_b32 s ch (val : Z) : nx (Z * nxscope_s W) :=
  nxscope_put_vb32 s ch [val] 1.
Definition nxscope_put_char s ch (val : Z) : nx (Z * nxscope_s W) :=
  nxscope_put_vchar s ch [val] 1.

(** ** Calls *)

Inductive put_call :=
| PutVM (t ch : Z) (val : list Z) (d : Z) (meta : list Z) (mlen : Z)
| PutV (t ch : Z) (val : list Z) (d : Z)
| PutM (t ch val : Z) (meta : list Z) (mlen : Z)
| Put (t ch val : Z)
| PutNone (ch : Z) (meta : list Z) (mlen : Z)
| PutUser (ch type : Z) (val : list Z) (d : Z) (meta : list Z) (mlen : Z).

Definition put_vm_table : list (Z * (nxscope_s W -> Z -> list Z -> Z -> list Z -> Z -> nx (Z * nxscope_s W))) :=
  [(NXSCOPE_TYPE_UINT8, nxscope_put_vuint8_m); (NXSCOPE_TYPE_INT8, nxscope_put_vint8_m);
   (NXSCOPE_TYPE_UINT16, nxscope_put_vuint16_m); (NXSCOPE_TYPE_INT16, nxscope_put_vint16_m);
   (NXSCOPE_TYPE_UINT32, nxscope_put_vuint32_m); (NXSCOPE_TYPE_INT32, nxscope_put_vint32_m);
   (NXSCOPE_TYPE_UINT64, nxscope_put_vuint64_m); (NXSCOPE_TYPE_INT64, nxscope_put_vint64_m);
   (NXSCOPE_TYPE_FLOAT, nxscope_put_vfloat_m); (NXSCOPE_TYPE_DOUBLE, nxscope_put_vdouble_m);
   (NXSCOPE_TYPE_UB8, nxscope_put_vub8_m); (NXSCOPE_TYPE_B8, nxscope_put_vb8_m);
   (NXSCOPE_TYPE_UB16, nxscope_put_vub16_m); (NXSCOPE_TYPE_B16, nxscope_put_vb16_m);
   (NXSCOPE_TYPE_UB32, nxscope_put_vub32_m); (NXSCOPE_TYPE_B32, nxscope_put_vb32_m);
   (NXSCOPE_TYPE_CHAR, nxscope_put_vchar_m)].

Definition put_v_table : list (Z * (nxscope_s W -> Z -> list Z -> Z -> nx (Z * nxscope_s W))) :=
  [(NXSCOPE_TYPE_UINT8, nxscope_put_vuint8); (NXSCOPE_TYPE_INT8, nxscope_put_vint8);
   (NXSCOPE_TYPE_UINT16, nxscope_put_vuint16); (NXSCOPE_TYPE_INT16, nxscope_put_vint16);
   (NXSCOPE_TYPE_UINT32, nxscope_put_vuint32); (NXSCOPE_TYPE_INT32, nxscope_put_vint32);
   (NXSCOPE_TYPE_UINT64, nxscope_put_vuint64); (NXSCOPE_TYPE_INT64, nxscope_put_vint64);
   (NXSCOPE_TYPE_FLOAT, nxscope_put_vfloat); (NXSCOPE_TYPE_DOUBLE, nxscope_put_vdouble);
   (NXSCOPE_TYPE_UB8, nxscope_put_vub8); (NXSCOPE_TYPE_B8, nxscope_put_vb8);
   (NXSCOPE_TYPE_UB16, nxscope_put_vub16); (NXSCOPE_TYPE_B16, nxscope_put_vb16);
   (NXSCOPE_TYPE_UB32, nxscope_put_vub32); (NXSCOPE_TYPE_B32, nxscope_put_vb32);
   (NXSCOPE_TYPE_CHAR, nxscope_put_vchar)].

Definition put_m_table : list (Z * (nxscope_s W -> Z -> Z -> list Z -> Z -> nx (Z * nxscope_s W))) :=
  [(NXSCOPE_TYPE_UINT8, nxscope_put_uint8_m); (NXSCOPE_TYPE_INT8, nxscope_put_int8_m);
   (NXSCOPE_TYPE_UINT16, nxscope_put_uint16_m); (NXSCOPE_TYPE_INT16, nxscope_put_int16_m);
   (NXSCOPE_TYPE_UINT32, nxscope_put_uint32_m); (NXSCOPE_TYPE_INT32, nxscope_put_int32_m);
   (NXSCOPE_TYPE_UINT64, nxscope_put_uint64_m); (NXSCOPE_TYPE_INT64, nxscope_put_int64_m);
   (NXSCOPE_TYPE_FLOAT, nxscope_put_float_m); (NXSCOPE_TYPE_DOUBLE, nxscope_put_double_m);
   (NXSCOPE_TYPE_UB8, nxscope_put_ub8_m); (NXSCOPE_TYPE_B8, nxscope_put_b8_m);
   (NXSCOPE_TYPE_UB16, nxscope_put_ub16_m); (NXSCOPE_TYPE_B16, nxscope_put_b16_m);
   (NXSCOPE_TYPE_UB32, nxscope_put_ub32_m); (NXSCOPE_TYPE_B32, nxscope_put_b32_m);
   (NXSCOPE_TYPE_CHAR, nxscope_put_char_m)].

Definition put_table : list (Z * (nxscope_s W -> Z -> Z -> nx (Z * nxscope_s W))) :=
  [(NXSCOPE_TYPE_UINT8, nxscope_put_uint8); (NXSCOPE_TYPE_INT8, nxscope_put_int8);
   (NXSCOPE_TYPE_UINT16, nxscope_put_uint16); (NXSCOPE_TYPE_INT16, nxscope_put_int16);
   (NXSCOPE_TYPE_UINT32, nxscope_put_uint32); (NXSCOPE_TYPE_INT32, nxscope_put_int32);
   (NXSCOPE_TYPE_UINT64, nxscope_put_uint64); (NXSCOPE_TYPE_INT64, nxscope_put_int64);
   (NXSCOPE_TYPE_FLOAT, nxscope_put_float); (NXSCOPE_TYPE_DOUBLE, nxscope_put_double);
   (NXSCOPE_TYPE_UB8, nxscope_put_ub8); (NXSCOPE_TYPE_B8, nxscope_put_b8);
   (NXSCOPE_TYPE_UB16, nxscope_put_ub16); (NXSCOPE_TYPE_B16, nxscope_put_b16);
   (NXSCOPE_TYPE_UB32, nxscope_put_ub32); (NXSCOPE_TYPE_B32, nxscope_put_b32);
   (NXSCOPE_TYPE_CHAR, nxscope_put_char)].

Fixpoint assoc {B} (t : Z) (l : list (Z * B)) : option B :=
  match l with
  | [] => None
  | (k, b) :: l => if k =? t then Some b else assoc t l
  end.

(** The function of type [t]; a type without one is not a call. *)
Definition run_put (c : put_call) s : nx (Z * nxscope_s W) :=
  let call {B} (tab : list (Z * B)) t (k : B -> nx (Z * nxscope_s W)) :=
    match assoc t tab with Some f => k f | None => NRet (- EINVAL, s) end in
  match c with
  | PutVM t ch val d meta mlen => call put_vm_table t (fun f => f s ch val d meta mlen)
  | PutV t ch val d => call put_v_table t (fun f => f s ch val d)
  | PutM t ch val meta mlen => call put_m_table t (fun f => f s ch val meta mlen)
  | Put t ch val => call put_table t (fun f => f s ch val)
  | PutNone ch meta mlen => nxscope_put_none_m s ch meta mlen
  | PutUser ch type val d meta mlen =>
      if CONFIG_LOGGING_NXSCOPE_USERTYPES then nxscope_put_user_m s ch type val d meta mlen
      else NRet (- EINVAL, s)
  end.
End put.
