(* ===== verification/NxIntf.v ===== *)
(** * NxIntf: the interfaces of nxscope

    [src/logging/nxscope/nxscope_iser.c] and [nxscope_idummy.c] over a world of serial ports: the
    results of [read] and [write] are lists of the port, the bytes written are collected.  An
    exhausted list of reads is a line without data, an exhausted list of writes a device that
    takes everything.  The private data of an interface ([struct nxscope_intf_ser_s]) is the
    port its handle [i_priv] selects. *)

From S2P Require Import Prelude NxBase.
#[local] Open Scope Z_scope.

Inductive rd := RdData (l : list Z) | RdErr (errno : Z).
Inductive wr := WrSome (n : nat) | WrErr (errno : Z).

Record ser_port := mkPort {
  sp_nonblock : bool; sp_rd : list rd; sp_wr : list wr; sp_line : list Z }.

Definition ser_world : Type := list ser_port.

Definition no_port : ser_port := mkPort true [] [] [].
Definition port (h : nat) (w : ser_world) : ser_port := default no_port (w !! h).

(** [write(fd, buff, len)] *)
Definition port_write (p : ser_port) (m : list Z) : Z * ser_port :=
  match sp_wr p with
  | [] => (zlen m, mkPort (sp_nonblock p) (sp_rd p) [] (sp_line p ++ m))
  | WrSome n :: i =>
      (zlen (take n m), mkPort (sp_nonblock p) (sp_rd p) i (sp_line p ++ take n m))
  | WrErr _ :: i => (-1, mkPort (sp_nonblock p) (sp_rd p) i (sp_line p))
  end.

(** [read(fd, buff, len)]: the return value, [errno] and the bytes stored; what does not fit
    stays in the device. *)
Definition port_read (p : ser_port) (len : Z) : Z * Z * list Z * ser_port :=
  let to i := mkPort (sp_nonblock p) i (sp_wr p) (sp_line p) in
  match sp_rd p with
  | [] => if sp_nonblock p then (-1, EAGAIN, [], p) else (0, 0, [], p)
  | RdErr e :: i => (-1, e, [], to i)
  | RdData l :: i =>
      let n := Z.to_nat len in
      let d := take n l in
      (zlen d, 0, d, to (match drop n l with [] => i | r => RdData r :: i end))
  end.

Definition nxscope_ser_send (h : nat) (buff : list Z) (w : ser_world) : Z * ser_world :=
  let '(ret, p) := port_write (port h w) buff in (ret, <[h := p]> w).

Definition nxscope_ser_recv (h : nat) (len : Z) (w : ser_world) : Z * list Z * ser_world :=
  let '(ret, errno, d, p) := port_read (port h w) len in
  let ret := if (ret <? 0) && (sp_nonblock p && (errno =? EAGAIN)) then 0 else ret in
  (ret, d, <[h := p]> w).

Definition g_nxscope_ser_ops : nxscope_intf_ops_s ser_world :=
  mkIntfOps nxscope_ser_send nxscope_ser_recv.

(** What the kernel answers to [nxscope_ser_init]; [open] lists the results of the calls,
    a descriptor or a negated [errno]. *)
Record ser_os := {
  CONFIG_SERIAL_REMOVABLE : bool; CONFIG_SERIAL_TERMIOS : bool;
  os_zalloc : bool; os_open : list Z; os_cfsetspeed : Z }.

Definition ENOTCONN : Z := 107.

(** The loop that waits for a removable device; an exhausted list is a device that is never
    connected. *)
Fixpoint open_removable (l : list Z) : option Z :=
  match l with
  | [] => None
  | fd :: l => if (fd <? 0) && (fd =? - ENOTCONN) then open_removable l else Some fd
  end.

(** The interface structure after the call: initialized or not; [ENOMEM] is the [errno] of
    [zalloc].  [None] when the call does not return. *)
Definition nxscope_ser_init (os : ser_os) (h : nat) (baud : Z) (intf : nxscope_intf_s ser_world) :
    option (Z * nxscope_intf_s ser_world) :=
  if negb (os_zalloc os) then Some (- ENOMEM, intf)
  else
    let intf := mkIntf (i_initialized intf) h g_nxscope_ser_ops in
    fd ← (if CONFIG_SERIAL_REMOVABLE os then open_removable (os_open os) else head (os_open os));
    if fd <? 0 then Some (fd, intf)
    else if CONFIG_SERIAL_TERMIOS os && (0 <? baud) && (os_cfsetspeed os <? 0)
    then Some (os_cfsetspeed os, intf)
    else Some (OK, mkIntf true h g_nxscope_ser_ops).

(** [priv] is the descriptor of the port, or no structure at all; returns the descriptors that
    are closed and [initialized]. *)
Definition nxscope_ser_deinit (priv : option Z) : nx (list Z * bool) :=
  match priv with
  | None => NFault BadAccess
  | Some fd => NRet (if negb (fd =? -1) then [fd] else [], false)
  end.

(** The dummy interface prints what is sent and receives nothing. *)
Section dummy.
Context {W : Type}.

Definition nxscope_dummy_send (h : nat) (buff : list Z) (w : W) : Z * W := (OK, w).
Definition nxscope_dummy_recv (h : nat) (len : Z) (w : W) : Z * list Z * W := (OK, [], w).

Definition g_nxscope_dummy_ops : nxscope_intf_ops_s W :=
  mkIntfOps nxscope_dummy_send nxscope_dummy_recv.

Definition nxscope_dummy_init (zalloc : bool) (h : nat) (intf : nxscope_intf_s W) :
    Z * nxscope_intf_s W :=
  if negb zalloc then (- ENOMEM, intf) else (OK, mkIntf true h g_nxscope_dummy_ops).

(** [initialized] behind the call, with or without a private structure *)
Definition nxscope_dummy_deinit (priv : option unit) : bool := false.
End dummy.
