(* ===== verification/NxSpec.v ===== *)
(** * NxSpec: what nxscope promises

    The contracts of a protocol and of an interface, against which the instance is verified, and
    the abstract scope: a table of channels, a queue of samples and a log of typed messages,
    without buffers, frames or locks. *)

From S2P Require Import Prelude NxBase NxScope NxChan NxPut.
#[local] Open Scope Z_scope.

(** ** Contracts *)

(** A protocol: [frame id d] is the frame that carries [d]. *)
Class ProtoLaws (p : nxscope_proto_s) := {
  frame : Z -> list Z -> list Z;
  hdrlen_pos : 0 < hdrlen p;
  footlen_pos : 0 <= footlen p;
  frame_len id d : zlen (frame id d) = hdrlen p + zlen d + footlen p;
  (** a buffer with room for the header, the data and the footer becomes the frame *)
  frame_final_ok h id g d r : zlen g = hdrlen p -> d <> [] -> footlen p <= zlen r ->
    hdrlen p + zlen d + footlen p < 2 ^ 16 ->
    frame_final (p_ops p) h id (g ++ d ++ r) (hdrlen p + zlen d) =
      NRet (OK, frame id d ++ drop (Z.to_nat (footlen p)) r, hdrlen p + zlen d + footlen p);
  (** a buffer that starts with a frame yields it *)
  frame_get_ok h id d r n :
    hdrlen p + zlen d + footlen p < 2 ^ 16 ->
    zlen (frame id d) <= n < 2 ^ 32 ->
    frame_get (p_ops p) h (frame id d ++ r) n =
      NRet (inr (mkFrame id (zlen (frame id d)) (zlen d) (hdrlen p)));
  (** data is found where the frame says *)
  frame_data id d : zslice (hdrlen p) (zlen d) (frame id d) = d;
}.

(** An interface on port [h]: what was sent on [line h], what waits to be received on [inq h]. *)
Class PortLaws {W} (ops : nxscope_intf_ops_s W) := {
  port_good : nat -> W -> Prop;
  line : nat -> W -> list Z;
  inq : nat -> W -> list (list Z);
  feed : nat -> list (list Z) -> W -> W;
  send_ok h m w : port_good h w -> exists w', send ops h m w = (zlen m, w') /\
    port_good h w' /\ line h w' = line h w ++ m /\ inq h w' = inq h w;
  recv_nil h n w : port_good h w -> inq h w = [] -> exists w', recv ops h n w = (0, [], w') /\
    port_good h w' /\ line h w' = line h w /\ inq h w' = [];
  recv_cons h n w c cs : port_good h w -> inq h w = c :: cs -> c <> [] -> zlen c <= n ->
    exists w', recv ops h n w = (zlen c, c, w') /\
      port_good h w' /\ line h w' = line h w /\ inq h w' = cs;
  feed_ok h cs w : port_good h w -> inq h w = [] ->
    port_good h (feed h cs w) /\ line h (feed h cs w) = line h w /\ inq h (feed h cs w) = cs;
}.

(** ** Samples *)

Record sample := mkSample { sm_ch : Z; sm_data : list Z; sm_meta : list Z }.

Definition sample_bytes (x : sample) : list Z := sm_ch x :: sm_data x ++ sm_meta x.

(** Bytes of an element; [None] for what is not a type of samples. *)
Definition type_width `{NxConfig} (type : Z) : option nat :=
  if is_one_of type [NXSCOPE_TYPE_UINT8; NXSCOPE_TYPE_INT8] then Some 1%nat
  else if is_one_of type [NXSCOPE_TYPE_UINT16; NXSCOPE_TYPE_INT16; NXSCOPE_TYPE_UB8; NXSCOPE_TYPE_B8]
  then Some 2%nat
  else if is_one_of type [NXSCOPE_TYPE_UINT32; NXSCOPE_TYPE_INT32; NXSCOPE_TYPE_FLOAT;
            NXSCOPE_TYPE_UB16; NXSCOPE_TYPE_B16] then Some 4%nat
  else if is_one_of type [NXSCOPE_TYPE_UINT64; NXSCOPE_TYPE_INT64; NXSCOPE_TYPE_DOUBLE;
            NXSCOPE_TYPE_UB32; NXSCOPE_TYPE_B32] && CONFIG_HAVE_LONG_LONG then Some 8%nat
  else if (type =? NXSCOPE_TYPE_USER) && CONFIG_LOGGING_NXSCOPE_USERTYPES then Some 1%nat
  else None.

(** The data of a sample: elements as little-endian words; a string cut to [d - 1] characters
    and padded with NULs to [d] bytes. *)
Definition text_data (val : list Z) (d : Z) : list Z :=
  let n := Z.to_nat (Z.min (default 0 (index_of 0 val)) (d - 1)) in
  take n val ++ replicate (Z.to_nat d - n) 0.

Definition sample_data `{NxConfig} (type : Z) (val : list Z) (d : Z) : list Z :=
  match type_width type with
  | Some w => mjoin (le_bytes w <$> take (Z.to_nat d) val)
  | None => text_data val d
  end.

(** A call as one record. *)
Record put_args := mkPut {
  pt_type : Z; pt_ch : Z; pt_val : list Z; pt_d : Z; pt_meta : list Z; pt_mlen : Z }.

Definition args_of (c : put_call) : put_args :=
  match c with
  | PutVM t ch val d meta mlen => mkPut t ch val d meta mlen
  | PutV t ch val d => mkPut t ch val d [] 0
  | PutM t ch val meta mlen => mkPut t ch [val] 1 meta mlen
  | Put t ch val => mkPut t ch [val] 1 [] 0
  | PutNone ch meta mlen => mkPut NXSCOPE_TYPE_UINT8 ch [] 0 meta mlen
  | PutUser ch type val d meta mlen => mkPut type ch val d meta mlen
  end.

Definition sample_of `{NxConfig} (a : put_args) : sample :=
  mkSample (pt_ch a) (sample_data (pt_type a) (pt_val a) (pt_d a))
    (take (Z.to_nat (pt_mlen a)) (pt_meta a)).

(** ** Requests and messages *)

Inductive setting (A : Type) := SetSingle (ch : Z) (v : A) | SetBulk (vs : list A) | SetAll (ch : Z) (v : A).
#[global] Arguments SetSingle {A}. 
#[global] Arguments SetBulk {A}.
#[global] Arguments SetAll {A}.

Inductive request :=
| RqCmninfo
| RqChinfo (ch : Z)
| RqStart (v : Z)
| RqEnable (x : setting Z)
| RqDiv (x : setting Z).

Definition setting_data (x : setting Z) : list Z :=
  match x with
  | SetSingle ch v => [NXSCOPE_SET_REQ_SINGLE; ch; v]
  | SetBulk vs => NXSCOPE_SET_REQ_BULK :: 0 :: vs
  | SetAll ch v => [NXSCOPE_SET_REQ_ALL; ch; v]
  end.

Definition request_id (r : request) : Z :=
  match r with
  | RqCmninfo => NXSCOPE_HDRID_CMNINFO
  | RqChinfo _ => NXSCOPE_HDRID_CHINFO
  | RqStart _ => NXSCOPE_HDRID_START
  | RqEnable _ => NXSCOPE_HDRID_ENABLE
  | RqDiv _ => NXSCOPE_HDRID_DIV
  end.

Definition request_data (r : request) : list Z :=
  match r with
  | RqCmninfo => []
  | RqChinfo ch => [ch]
  | RqStart v => [v]
  | RqEnable x | RqDiv x => setting_data x
  end.

(** What the scope sends. *)
Inductive message :=
| MsgStream (overflow : bool) (l : list sample)
| MsgCmninfo (c : nxscope_info_cmn_s)
| MsgChinfo (c : nxscope_chinfo_s)
| MsgAck (ret : Z).

Definition message_id (m : message) : Z :=
  match m with
  | MsgStream _ _ => NXSCOPE_HDRID_STREAM
  | MsgCmninfo _ => NXSCOPE_HDRID_CMNINFO
  | MsgChinfo _ => NXSCOPE_HDRID_CHINFO
  | MsgAck _ => NXSCOPE_HDRID_ACK
  end.

Definition message_data (m : message) : list Z :=
  match m with
  | MsgStream o l => Z.b2z o :: mjoin (sample_bytes <$> l)
  | MsgCmninfo c => [chmax c; flags c; rx_padding c]
  | MsgChinfo c =>
      [ci_enable c; ci_type c; ci_vdim c; ci_div c; ci_mlen c] ++
      take (Z.to_nat CHAN_NAMELEN_MAX) (ci_name c) ++ [0]
  | MsgAck ret => le_bytes 4 (u32 ret)
  end.

(** ** The abstract scope *)

Record scope := mkScope {
  sc_info : nxscope_info_cmn_s;
  sc_chans : list nxscope_chinfo_s;
  sc_count : list Z;
  sc_on : bool;
  sc_pend : list sample;
  sc_over : bool }.

Definition sc_chans_to (x : scope) (l : list nxscope_chinfo_s) : scope :=
  mkScope (sc_info x) l (sc_count x) (sc_on x) (sc_pend x) (sc_over x).
Definition sc_count_to (x : scope) (l : list Z) : scope :=
  mkScope (sc_info x) (sc_chans x) l (sc_on x) (sc_pend x) (sc_over x).
Definition sc_on_to (x : scope) (b : bool) : scope :=
  mkScope (sc_info x) (sc_chans x) (sc_count x) b (sc_pend x) (sc_over x).
Definition sc_queue_to (x : scope) (l : list sample) (o : bool) : scope :=
  mkScope (sc_info x) (sc_chans x) (sc_count x) (sc_on x) l o.

Section spec.
Context `{NxConfig}.

(** Bytes for samples in a stream frame. *)
Variable room : Z.

Definition used (l : list sample) : Z := zlen (mjoin (sample_bytes <$> l)).

(** The sizes a call must agree with its channel in, when they are checked. *)
Definition fits (c : nxscope_chinfo_s) (a : put_args) : bool :=
  (dtype (ci_type c) =? pt_type a) && (ci_vdim c =? pt_d a) && (ci_mlen c =? pt_mlen a).

Definition spec_enqueue (x : scope) (a : put_args) : Z * scope :=
  let q := sc_pend x ++ [sample_of a] in
  if used q <=? room then (OK, sc_queue_to x q (sc_over x))
  else (- ENOBUFS, sc_queue_to x (sc_pend x) true).

(** The divider of a channel lets one of [div + 1] samples pass. *)
Definition spec_divide (x : scope) (c : nxscope_chinfo_s) (a : put_args) : Z * scope :=
  if CONFIG_LOGGING_NXSCOPE_DIVIDER then
    let n := u32 (default 0 (sc_count x !! Z.to_nat (pt_ch a)) + 1) in
    let x := sc_count_to x (<[Z.to_nat (pt_ch a) := n]> (sc_count x)) in
    if n mod (ci_div c + 1) =? 0 then spec_enqueue x a else (- EAGAIN, x)
  else spec_enqueue x a.

Definition spec_put (x : scope) (a : put_args) : Z * scope :=
  match sc_on x, sc_chans x !! Z.to_nat (pt_ch a) with
  | true, Some c =>
      if negb (ci_enable c =? 1) then (- EAGAIN, x)
      else if CONFIG_DEBUG_FEATURES && negb (fits c a) then (- EINVAL, x)
      else spec_divide x c a
  | _, _ => (- EAGAIN, x)
  end.

(** A flush sends what is queued as one message. *)
Definition spec_stream (x : scope) : scope * list message :=
  if sc_on x && negb (bool_decide (sc_pend x = []))
  then (sc_queue_to x [] false, [MsgStream (sc_over x) (sc_pend x)])
  else (x, []).

Definition spec_set (upd : nxscope_chinfo_s -> Z -> nxscope_chinfo_s) (ok : Z -> bool)
    (x : scope) (v : setting Z) : Z * scope :=
  match v with
  | SetSingle ch v =>
      match sc_chans x !! Z.to_nat ch with
      | Some c => if ok v then (OK, sc_chans_to x (<[Z.to_nat ch := upd c v]> (sc_chans x)))
                  else (- EINVAL, x)
      | None => (- EINVAL, x)
      end
  | SetBulk vs =>
      if bool_decide (length vs = length (sc_chans x)) && forallb ok vs
      then (OK, sc_chans_to x (zip_with upd (sc_chans x) vs)) else (- EINVAL, x)
  | SetAll _ v => if ok v then (OK, sc_chans_to x ((fun c => upd c v) <$> sc_chans x))
                  else (- EINVAL, x)
  end.

Definition is_flag (v : Z) : bool := (v =? 0) || (v =? 1).

Definition spec_ack (r : Z * scope) : Z * scope * list message :=
  (r.1, r.2, if CONFIG_LOGGING_NXSCOPE_ACKFRAMES then [MsgAck r.1] else []).

Definition spec_request (x : scope) (r : request) : Z * scope * list message :=
  match r with
  | RqCmninfo => (OK, x, [MsgCmninfo (sc_info x)])
  | RqChinfo ch =>
      match sc_chans x !! Z.to_nat ch with
      | Some c => (OK, x, [MsgChinfo c])
      | None => (OK, x, [])
      end
  | RqStart v => spec_ack (if is_flag v then (OK, sc_on_to x (negb (v =? 0))) else (- EINVAL, x))
  | RqEnable v => spec_ack (spec_set ci_enable_to is_flag x v)
  | RqDiv v => spec_ack (if CONFIG_LOGGING_NXSCOPE_DIVIDER
                         then spec_set ci_div_to (fun _ => true) x v else (- EPERM, x))
  end.

(** ** Sessions *)

Inductive op :=
| OpPut (c : put_call)
| OpStream
| OpStart (b : bool)
| OpInit (ch : Z) (name : list Z) (type vdim mlen : Z)
| OpEnable (ch : Z) (en : bool)
| OpDiv (ch div : Z)
| OpRequest (r : request) (pieces : list (list Z)).

(** The status of an operation is [OK] or its negative code. *)
Definition spec_step (x : scope) (o : op) : Z * scope * list message :=
  match o with
  | OpPut c => let '(r, x) := spec_put x (args_of c) in (r, x, [])
  | OpStream => let '(x, ms) := spec_stream x in (OK, x, ms)
  | OpStart b => (OK, sc_on_to x b, [])
  | OpInit ch name type vdim mlen =>
      match sc_chans x !! Z.to_nat ch with
      | Some _ => (OK, sc_chans_to x (<[Z.to_nat ch := mkChinfo 0 type vdim 0 mlen name]> (sc_chans x)), [])
      | None => (- EINVAL, x, [])
      end
  | OpEnable ch en =>
      match sc_chans x !! Z.to_nat ch with
      | Some c =>
          if dtype (ci_type c) =? NXSCOPE_TYPE_UNDEF then (- EINVAL, x, [])
          else (OK, sc_chans_to x (<[Z.to_nat ch := ci_enable_to c (Z.b2z en)]> (sc_chans x)), [])
      | None => (- EINVAL, x, [])
      end
  | OpDiv ch div =>
      match sc_chans x !! Z.to_nat ch with
      | Some c => (OK, sc_chans_to x (<[Z.to_nat ch := ci_div_to c div]> (sc_chans x)), [])
      | None => (- EINVAL, x, [])
      end
  | OpRequest r _ => spec_request x r
  end.

Fixpoint spec_session (x : scope) (os : list op) : list Z * scope * list message :=
  match os with
  | [] => ([], x, [])
  | o :: os =>
      let '(r, x, ms) := spec_step x o in
      let '(rs, x, ms') := spec_session x os in
      (r :: rs, x, ms ++ ms')
  end.
End spec.
