(* ===== verification/NxFrame.v ===== *)
(** * NxFrame: the serial protocol keeps the contract of a protocol

    [nxscope_frame_final] writes the frame around the data, [nxscope_frame_get] finds it behind
    bytes that are no start byte, and the laws of [ProtoLaws] follow. *)

From S2P Require Import Prelude NxBase NxProto NxScope NxChan NxPut NxSpec.
#[local] Open Scope Z_scope.

(** ** Arrays *)

Lemma at_mid {A} (p r : list A) x i : i = Z.of_nat (length p) -> at_ (p ++ x :: r) i = NRet x.
Proof.
  intros ->. unfold at_. destruct (Z.leb_spec 0 (Z.of_nat (length p))); [|lia].
  by rewrite Nat2Z.id, list_lookup_middle.
Qed.

Lemma at_lookup {A} (l : list A) i x : 0 <= i -> l !! Z.to_nat i = Some x -> at_ l i = NRet x.
Proof. intros Hi Hx. unfold at_. rewrite Hx. by destruct (Z.leb_spec 0 i); [|lia]. Qed.

Lemma set_at_in {A} (l : list A) i x : 0 <= i < Z.of_nat (length l) ->
  set_at l i x = NRet (<[Z.to_nat i := x]> l).
Proof. intros Hi. unfold set_at. by destruct (Z.leb_spec 0 i), (Z.ltb_spec i (Z.of_nat (length l))); try lia. Qed.

Lemma set_at_mid {A} (p r : list A) x y i : i = Z.of_nat (length p) ->
  set_at (p ++ x :: r) i y = NRet (p ++ y :: r).
Proof.
  intros ->. rewrite set_at_in by (rewrite length_app; simpl; lia).
  by rewrite Nat2Z.id, insert_app_r_alt, Nat.sub_diag by lia.
Qed.

Lemma read_n_mid p d r i n : i = zlen p -> n = zlen d -> read_n (p ++ d ++ r) i n = NRet d.
Proof.
  intros -> ->. unfold read_n. pose proof (zlen_nonneg p). pose proof (zlen_nonneg d).
  pose proof (zlen_nonneg r). rewrite !zlen_app.
  destruct (Z.leb_spec 0 (zlen p)), (Z.leb_spec 0 (zlen d)),
    (Z.leb_spec (zlen p + zlen d) (zlen p + (zlen d + zlen r))); try lia.
  simpl. f_equal. unfold zslice, zlen. by rewrite !Nat2Z.id, drop_app_length, take_app_length.
Qed.

Lemma read_n_head d r n : n = zlen d -> read_n (d ++ r) 0 n = NRet d.
Proof. intros ->. by apply (read_n_mid []). Qed.

Lemma write_n_mid p d e r i : i = zlen p -> zlen d = zlen e ->
  write_n (p ++ d ++ r) i e = NRet (p ++ e ++ r).
Proof.
  intros -> Hl. unfold write_n. pose proof (zlen_nonneg p). pose proof (zlen_nonneg r).
  rewrite !zlen_app.
  destruct (Z.leb_spec 0 (zlen p)), (Z.leb_spec (zlen p + zlen e) (zlen p + (zlen d + zlen r)));
    try lia.
  simpl. unfold zlen in Hl. rewrite zwrite_at by (rewrite length_app; lia).
  by rewrite drop_app_length' by lia.
Qed.

(** A write into the unused part of a buffer. *)
Lemma write_n_room p e r i : i = zlen p -> zlen e <= zlen r ->
  write_n (p ++ r) i e = NRet (p ++ e ++ drop (length e) r).
Proof.
  intros Hi Hl. unfold zlen in Hl. rewrite <- (take_drop (length e) r) at 1.
  apply write_n_mid; [done|]. unfold zlen. rewrite length_take. lia.
Qed.

Lemma read_n_slice l i n : 0 <= i -> 0 <= n -> i + n <= zlen l -> read_n l i n = NRet (zslice i n l).
Proof.
  intros. unfold read_n.
  by destruct (Z.leb_spec 0 i), (Z.leb_spec 0 n), (Z.leb_spec (i + n) (zlen l)); try lia.
Qed.

(** ** Frames *)

Section frame.
Context `{Crc16} `{!Crc16Laws}.

Definition ser_head (id : Z) (d : list Z) : list Z :=
  NXSCOPE_HDR_SOF :: le_bytes 2 (zlen d + 6) ++ [id].

Definition ser_frame (id : Z) (d : list Z) : list Z :=
  let m := ser_head id d ++ d in
  m ++ [Z.shiftr (crc16xmodem m) 8; Z.land (crc16xmodem m) 255].

Lemma zlen_ser_head id d : zlen (ser_head id d) = 4.
Proof using Type. done. Qed.

Lemma zlen_ser_frame id d : zlen (ser_frame id d) = 4 + zlen d + 2.
Proof using Type. unfold ser_frame. by rewrite !zlen_app, zlen_ser_head. Qed.

Lemma ser_final h id g d r : zlen g = 4 -> d <> [] -> 2 <= zlen r -> 4 + zlen d + 2 < 2 ^ 16 ->
  nxscope_frame_final h id (g ++ d ++ r) (4 + zlen d) =
    NRet (OK, ser_frame id d ++ drop 2 r, 4 + zlen d + 2).
Proof.
  intros Hg Hd Hr Hn. unfold nxscope_frame_final, NXSCOPE_HDR_LEN.
  assert (0 < zlen d) as Hpos by (destruct d; [done|unfold zlen; simpl; lia]).
  destruct (Z.leb_spec (4 + zlen d) 4); [lia|]. unfold nxscope_hdr_fill.
  rewrite (write_n_mid [] g _ (d ++ r)) by done. cbn [mbind nx_bind app].
  replace (u16 (4 + zlen d + NXSCOPE_CRC_LEN)) with (zlen d + 6)
    by (unfold u16, NXSCOPE_CRC_LEN; rewrite Z.mod_small by lia; lia).
  fold (ser_head id d). change (?a :: ?l ++ d ++ r) with ((a :: l) ++ d ++ r).
  fold (ser_head id d). rewrite (assoc_L (++) (ser_head id d) d r).
  rewrite read_n_head by (rewrite zlen_app, zlen_ser_head; lia). cbn [mbind nx_bind].
  destruct r as [|r0 [|r1 r]]; [unfold zlen in Hr; simpl in Hr; lia..|].
  rewrite set_at_mid by (rewrite length_app; unfold zlen; simpl; lia). cbn [mbind nx_bind].
  rewrite cons_middle, (assoc_L (++)), set_at_mid by (rewrite !length_app; unfold zlen; simpl; lia).
  cbn [mbind nx_bind]. unfold ser_frame. rewrite Z.shiftr_0_r.
  pose proof (crc16_range (ser_head id d ++ d)) as Hc.
  replace (Z.land (Z.shiftr (crc16xmodem (ser_head id d ++ d)) 8) 255)
    with (Z.shiftr (crc16xmodem (ser_head id d ++ d)) 8).
  - by rewrite <- !(assoc_L (++)).
  - change 255 with (2 ^ 8 - 1). rewrite land_ones_mod, Z.mod_small; [done| |lia].
    rewrite Z.shiftr_div_pow2 by lia.
    split; [apply Z.div_pos|apply Z.div_lt_upper_bound]; lia.
Qed.

(** The search for the start byte skips what precedes it. *)
Lemma find_sof_junk fuel junk r len : forall p hdr i, i = zlen p -> Forall (fun b => b <> 0x55) junk ->
  i + zlen junk < len - 4 -> len < 2 ^ 32 -> (length junk < fuel)%nat ->
  find_sof fuel (p ++ junk ++ 0x55 :: r) len i hdr = NRet (i + zlen junk, Some (i + zlen junk)).
Proof using Type.
  revert fuel. induction junk as [|b junk IH]; intros fuel p hdr i Hi Hj Hlen H32 Hf;
    pose proof (zlen_nonneg p); destruct fuel as [|fuel]; try (simpl in Hf; lia).
  - cbn [find_sof app]. unfold NXSCOPE_HDR_LEN. replace (zlen []) with 0 in * by done.
    rewrite u32_small by lia. destruct (Z.ltb_spec i (len - 4)); [|lia].
    rewrite (at_mid p r) by done. cbn. by rewrite Z.add_0_r.
  - inv_Forall. cbn [find_sof app]. unfold NXSCOPE_HDR_LEN.
    assert (zlen (b :: junk) = 1 + zlen junk) as Hb by (unfold zlen; simpl; lia).
    pose proof (zlen_nonneg junk). rewrite u32_small by lia.
    destruct (Z.ltb_spec i (len - 4)); [|lia]. rewrite (at_mid p) by done. cbn [mbind nx_bind].
    rewrite (proj2 (Z.eqb_neq b NXSCOPE_HDR_SOF)) by done.
    rewrite cons_middle, (assoc_L (++)). rewrite IH; [by rewrite Hb; do 2 f_equal; [|f_equal]; lia| | |lia..|].
    + rewrite zlen_app. unfold zlen at 2. simpl. lia.
    + done.
    + simpl in Hf. lia.
Qed.

Lemma ser_head_len (d : list Z) : zlen d + 6 < 2 ^ 16 -> le_val (le_bytes 2 (zlen d + 6)) = zlen d + 6.
Proof using Type.
  intros Hd. rewrite le_val_bytes. pose proof (zlen_nonneg d). apply Z.mod_small.
  change (256 ^ Z.of_nat 2) with (2 ^ 16). lia.
Qed.

(** A frame is found behind bytes that are no start byte, whatever follows it. *)
Lemma ser_get h id d junk r n : zlen d + 6 < 2 ^ 16 -> Forall (fun b => b <> 0x55) junk ->
  zlen junk + zlen (ser_frame id d) <= n < 2 ^ 32 -> zlen junk + 2 ^ 16 <= 2 ^ 32 ->
  nxscope_frame_get h (junk ++ ser_frame id d ++ r) n =
    NRet (inr (mkFrame id (zlen junk + zlen (ser_frame id d)) (zlen d) (zlen junk + 4))).
Proof.
  intros Hd Hj Hn Hj32. pose proof (zlen_nonneg d). pose proof (zlen_nonneg junk).
  rewrite zlen_ser_frame in *. unfold nxscope_frame_get.
  assert (exists t, ser_frame id d ++ r = 0x55 :: (le_bytes 2 (zlen d + 6) ++ [id]) ++ t) as [t Ht].
  { unfold ser_frame, ser_head. eexists. by rewrite <- !(assoc_L (++)). }
  assert (find_sof (S (length (junk ++ ser_frame id d ++ r))) (junk ++ ser_frame id d ++ r) n 0
            None = NRet (zlen junk, Some (zlen junk))) as ->.
  { rewrite Ht. apply (find_sof_junk _ junk _ n [] None 0); try done; try lia.
    rewrite length_app. lia. }
  cbn [mbind nx_bind]. rewrite Ht.
  rewrite (at_mid junk _ _ (zlen junk)) by done. cbn [mbind nx_bind]. rewrite Z.eqb_refl. cbn [negb].
  rewrite cons_middle, (assoc_L (++)), <- (assoc_L (++) (le_bytes 2 _)).
  rewrite (read_n_mid (junk ++ [85]) _ _ (zlen junk + 1)) by (rewrite ?zlen_app; done).
  cbn [mbind nx_bind]. rewrite ser_head_len by done. rewrite u32_small by lia.
  destruct (Z.ltb_spec (n - zlen junk) (zlen d + 6)); [lia|].
  replace ((junk ++ [85]) ++ le_bytes 2 (zlen d + 6) ++ [id] ++ t)
    with (junk ++ ser_frame id d ++ r) by (rewrite Ht, <- !(assoc_L (++)); done).
  rewrite read_n_mid by (rewrite ?zlen_ser_frame; lia). cbn [mbind nx_bind].
  unfold ser_frame at 1. rewrite crc16_residue. cbn [Z.eqb negb].
  replace (junk ++ ser_frame id d ++ r)
    with ((junk ++ 85 :: le_bytes 2 (zlen d + 6)) ++ id :: t)
    by (rewrite Ht, <- !(assoc_L (++)); done).
  rewrite at_mid by (rewrite length_app; simpl; unfold zlen; lia). cbn [mbind nx_bind].
  unfold NXSCOPE_DATA_START, NXSCOPE_BASEFRAME_LEN, NXSCOPE_HDR_LEN, NXSCOPE_CRC_LEN.
  rewrite !u32_small by lia. do 3 f_equal; lia.
Qed.

#[export] Program Instance ser_proto_laws : ProtoLaws nxscope_proto_ser_init.2 := {|
  frame := ser_frame |}.
Next Obligation. done. Qed.
Next Obligation. done. Qed.
Next Obligation. intros. apply zlen_ser_frame. Qed.
Next Obligation. intros. by apply ser_final. Qed.
Next Obligation.
  intros h id d r n Hd Hn. assert (4 + zlen d + 2 < 2 ^ 16) as Hd' by exact Hd.
  apply (ser_get h id d [] r n); [lia|constructor|exact Hn|done].
Qed.
Next Obligation.
  intros id d. unfold ser_frame. rewrite <- (assoc_L (++)).
  unfold zslice, zlen. by rewrite Nat2Z.id, drop_app_length', take_app_length.
Qed.
End frame.
