(* ===== verification/NxQueue.v ===== *)
(** * NxQueue: samples in the stream buffer

    What the functions that put a sample write behind the bytes already in a buffer, and how
    much room [nxscope_ch_validate] reckons with. *)

From S2P Require Import Prelude NxBase NxScope NxChan NxPut NxSpec NxFrame.
#[local] Open Scope Z_scope.

(** [buff] with [e] appended to its used part [a]. *)
Definition appended (a e r : list Z) : list Z := a ++ e ++ drop (length e) r.

Lemma appended_nil a r : appended a [] r = a ++ r.
Proof. done. Qed.

Lemma appended_app a e1 e2 r :
  appended (a ++ e1) e2 (drop (length e1) r) = appended a (e1 ++ e2) r.
Proof. unfold appended. rewrite drop_drop, length_app, <- !(assoc_L (++)). do 3 f_equal. Qed.

Lemma appended_split a e r : appended a e r = (a ++ e) ++ drop (length e) r.
Proof. unfold appended. by rewrite (assoc_L (++)). Qed.

Section words.

Lemma put_words_ok w val n : forall i a r, (i + n <= length val)%nat ->
  (n * w <= length r)%nat ->
  put_words w val n (Z.of_nat i) (a ++ r) (zlen a) =
    let e := mjoin (le_bytes w <$> take n (drop i val)) in
    NRet (appended a e r, zlen a + zlen e).
Proof.
  induction n as [|n IH]; intros i a r Hi Hr.
  - simpl. by rewrite Z.add_0_r.
  - destruct (lookup_lt_is_Some_2 val i ltac:(lia)) as [u Hu].
    cbn [put_words]. rewrite (at_lookup val _ u) by first [lia | by rewrite Nat2Z.id].
    cbn [mbind nx_bind].
    rewrite write_n_room by (unfold zlen; rewrite ?length_le_bytes; lia). cbn [mbind nx_bind].
    rewrite (assoc_L (++)).
    replace (zlen a + Z.of_nat w) with (zlen (a ++ le_bytes w u))
      by (rewrite zlen_app; unfold zlen; rewrite length_le_bytes; lia).
    replace (Z.of_nat i + 1) with (Z.of_nat (S i)) by lia.
    rewrite IH by (rewrite ?length_drop, ?length_le_bytes; lia). cbv zeta.
    rewrite (drop_S val u i) by done. cbn [take fmap list_fmap mjoin list_join].
    rewrite appended_app, !zlen_app. do 2 f_equal. by rewrite Z.add_assoc.
Qed.

Lemma length_words w val n : (n <= length val)%nat ->
  length (mjoin (le_bytes w <$> take n val)) = (n * w)%nat.
Proof.
  revert n. induction val as [|u val IH]; intros [|n] Hn; simpl in *; try lia.
  rewrite length_app, length_le_bytes. unfold fmap in IH. rewrite IH by lia. lia.
Qed.

(** The characters before the NUL are none. *)
Lemma index_of_prefix c k l n : index_of c l = Some n -> Z.of_nat k <= n ->
  forall r, index_of c (take k l ++ c :: r) = Some (Z.of_nat k).
Proof.
  revert k n. induction l as [|x l IH]; intros k n Hn Hk r; [done|]. cbn [index_of] in Hn.
  destruct k as [|k]; [simpl; by rewrite Z.eqb_refl|]. simpl.
  destruct (Z.eqb_spec x c) as [|_]; [simplify_eq; lia|].
  destruct (index_of c l) as [m|] eqn:E; [|done]. simplify_eq/=.
  rewrite (IH k m) by (done || lia). simpl. f_equal. lia.
Qed.

Lemma strlen_at_app a r :
  strlen_at (a ++ r) (zlen a) = match index_of 0 r with Some n => NRet n | None => NFault BadAccess end.
Proof. unfold strlen_at, zlen. by rewrite Nat2Z.id, drop_app_length. Qed.

Lemma length_text val n d : index_of 0 val = Some n -> 1 <= d ->
  length (text_data val d) = Z.to_nat d.
Proof.
  intros Hn Hd. unfold text_data. rewrite Hn. simpl. apply index_of_range in Hn.
  unfold zlen in Hn. rewrite length_app, length_take, length_replicate. lia.
Qed.
End words.

Section types.
Context `{NxConfig}.

(** Calls whose arguments the functions accept: memory for [d] elements or a terminated string,
    and for [mlen] bytes of metadata. *)
Definition data_ok (type : Z) (val : list Z) (d : Z) : Prop :=
  match type_width type with
  | Some _ => 0 <= d <= zlen val
  | None => type = NXSCOPE_TYPE_CHAR /\ 1 <= d /\ exists n, index_of 0 val = Some n
  end.

Definition put_valid (a : put_args) : Prop :=
  data_ok (pt_type a) (pt_val a) (pt_d a) /\ 0 <= pt_d a <= 255 /\
  0 <= pt_mlen a <= zlen (pt_meta a) /\ pt_mlen a <= 255.

Lemma is_one_of_range t l lo hi : Forall (fun x => lo <= x <= hi) l -> is_one_of t l = true ->
  lo <= t <= hi.
Proof using Type.
  intros Hl. unfold is_one_of. rewrite existsb_exists. intros (x & Hx & Ht).
  apply Z.eqb_eq in Ht. subst. eapply List.Forall_forall in Hl; done.
Qed.

Lemma type_width_range t w : type_width t = Some w -> 2 <= t <= 20.
Proof using Type.
  unfold type_width. intros E.
  repeat match type of E with
  | context [is_one_of t ?l] => destruct (is_one_of t l) eqn:?; cbn [andb] in E
  end;
  try (eapply is_one_of_range; [|eassumption]; repeat constructor; done).
  destruct (Z.eqb_spec t NXSCOPE_TYPE_USER) as [->|]; done.
Qed.

End types.

(** All types of samples, one by one, with the options they depend on decided. *)
Ltac each_type t E :=
  let Hr := fresh in
  pose proof (type_width_range t _ E) as Hr;
  assert (t = 2 \/ t = 3 \/ t = 4 \/ t = 5 \/ t = 6 \/ t = 7 \/ t = 8 \/ t = 9 \/ t = 10 \/ t = 11 \/
          t = 12 \/ t = 13 \/ t = 14 \/ t = 15 \/ t = 16 \/ t = 17 \/ t = 18 \/ t = 19 \/ t = 20)
    as Hr' by lia; clear Hr;
  destruct_or! Hr'; subst t; unfold type_width in E; cbn in E;
  destruct CONFIG_HAVE_LONG_LONG eqn:?; destruct CONFIG_LOGGING_NXSCOPE_USERTYPES eqn:?;
  cbn in E; simplify_eq.

Section queue.
Context `{NxConfig}.

Lemma type_size_width t w : type_width t = Some w -> type_size_of t = NRet (Z.of_nat w).
Proof using Type.
  intros E. unfold type_size_of, g_type_size. each_type t E; done.
Qed.

Lemma type_not_cri t w : type_width t = Some w -> cri t = false.
Proof using Type. intros E. each_type t E; done. Qed.

(** ** One sample *)

Lemma put_vector_words t w val d a r : type_width t = Some w -> 0 <= d <= zlen val ->
  d * Z.of_nat w <= zlen r ->
  nxscope_put_vector (a ++ r) (zlen a) t val d =
    let e := mjoin (le_bytes w <$> take (Z.to_nat d) val) in NRet (appended a e r, zlen e).
Proof using Type.
  intros E Hd Hr.
  assert (('(b, j) ← put_words w val (Z.to_nat d) 0 (a ++ r) (zlen a); NRet (b, j - zlen a)) =
    NRet (appended a (mjoin (le_bytes w <$> take (Z.to_nat d) val)) r,
          zlen (mjoin (le_bytes w <$> take (Z.to_nat d) val)))) as Hw.
  { unfold zlen in Hd, Hr. rewrite (put_words_ok w val (Z.to_nat d) 0) by lia.
    cbn [mbind nx_bind drop]. do 2 f_equal. apply Z.add_simpl_l. }
  cbv zeta. rewrite <- Hw. clear Hw Hd Hr. unfold nxscope_put_vector.
  each_type t E; done.
Qed.

Lemma put_vector_text val n d a r : index_of 0 val = Some n -> 1 <= d <= zlen r ->
  nxscope_put_vector (a ++ r) (zlen a) NXSCOPE_TYPE_CHAR val d =
    let e := text_data val d in NRet (appended a e r, zlen e).
Proof using Type.
  intros Hn Hd. pose proof (index_of_range _ _ _ Hn) as Hv.
  set (k := Z.to_nat (Z.min n (d - 1))).
  assert (Z.of_nat k <= n /\ Z.of_nat k < d) as [Hk Hkd] by (unfold k; lia).
  assert (length (take k val) = k) as Hlk by (rewrite length_take; unfold zlen in Hv; lia).
  assert (forall b, nxscope_put_vector b (zlen a) NXSCOPE_TYPE_CHAR val d =
    (b ← strlcpy_at b (zlen a) val d;
     j ← strlen_at b (zlen a);
     b ← (if d - j <? 0 then NFault BadAccess
          else write_n b (zlen a + j) (replicate (Z.to_nat (d - j)) 0));
     NRet (b, d))) as ->.
  { intros b. unfold nxscope_put_vector.
    by destruct CONFIG_LOGGING_NXSCOPE_USERTYPES, CONFIG_HAVE_LONG_LONG. }
  unfold strlcpy_at. assert (strlen_at val 0 = NRet n) as ->
    by (pose proof (strlen_at_app [] val) as E; by rewrite Hn in E).
  cbn [mbind nx_bind].
  destruct (Z.eqb_spec d 0); [lia|]. fold k.
  rewrite write_n_room by (rewrite ?zlen_app; unfold zlen in *; simpl; lia). cbn [mbind nx_bind].
  rewrite strlen_at_app, <- (assoc_L (++)). cbn [app].
  rewrite (index_of_prefix 0 k val n) by done. cbn [mbind nx_bind].
  destruct (Z.ltb_spec (d - Z.of_nat k) 0); [lia|].
  rewrite (assoc_L (++) a (take k val)).
  rewrite write_n_room.
  - cbn [mbind nx_bind]. unfold text_data, appended. rewrite Hn. simpl. fold k. do 2 f_equal.
    + rewrite <- !(assoc_L (++)). do 2 f_equal.
      replace (Z.to_nat (d - Z.of_nat k)) with (Z.to_nat d - k)%nat by lia. f_equal.
      rewrite !length_app, length_replicate, Hlk. simpl.
      destruct (Z.to_nat d - k)%nat as [|j] eqn:Ej; [lia|]. simpl. rewrite drop_drop. f_equal. lia.
    + unfold zlen. rewrite length_app, length_replicate, Hlk. lia.
  - rewrite zlen_app. unfold zlen. lia.
  - unfold zlen in *. simpl. rewrite length_replicate, length_drop, length_app. simpl. lia.
Qed.

Lemma put_vector_ok t val d a r : data_ok t val d -> zlen (sample_data t val d) <= zlen r ->
  nxscope_put_vector (a ++ r) (zlen a) t val d =
    NRet (appended a (sample_data t val d) r, zlen (sample_data t val d)).
Proof using Type.
  unfold data_ok, sample_data. destruct (type_width t) as [w|] eqn:E.
  - intros Hd Hr. apply put_vector_words; [done..|]. unfold zlen in *.
    rewrite length_words in Hr by lia. lia.
  - intros (-> & Hd & n & Hn) Hr. apply (put_vector_text val n); [done|].
    unfold zlen in Hr. rewrite (length_text val n) in Hr by done. unfold zlen. lia.
Qed.

(** The size the check of the room computes. *)
Lemma sample_data_size t val d : data_ok t val d -> 0 <= d ->
  exists n, type_size_of t = NRet n /\ zlen (sample_data t val d) = n * d /\ 0 <= n <= 8.
Proof using Type.
  unfold data_ok, sample_data. destruct (type_width t) as [w|] eqn:E.
  - intros Hd _. exists (Z.of_nat w). rewrite (type_size_width t w) by done. split; [done|].
    split; [unfold zlen in *; rewrite length_words; lia|]. each_type t E; lia.
  - intros (-> & Hd & n & Hn) _. exists 1. split.
    + unfold type_size_of, g_type_size. by destruct CONFIG_LOGGING_NXSCOPE_USERTYPES.
    + unfold zlen. rewrite (length_text val n) by done. lia.
Qed.

Lemma data_not_cri t val d : data_ok t val d -> cri t = false.
Proof using Type.
  unfold data_ok. destruct (type_width t) as [w|] eqn:E; [by intros _; eapply type_not_cri|].
  by intros (-> & _).
Qed.

Lemma zlen_sample_of a : put_valid a ->
  zlen (sample_bytes (sample_of a)) = 1 + zlen (sample_data (pt_type a) (pt_val a) (pt_d a)) + pt_mlen a.
Proof using Type.
  intros (_ & _ & Hm & _). unfold sample_bytes, sample_of. simpl.
  rewrite zlen_cons, zlen_app. unfold zlen in *. rewrite length_take. lia.
Qed.

Lemma put_sample_ok a b r : put_valid a -> zlen (sample_bytes (sample_of a)) <= zlen r ->
  nxscope_put_sample (b ++ r) (zlen b) (pt_type a) (pt_ch a) (pt_val a) (pt_d a) (pt_meta a) (pt_mlen a) =
    NRet (appended b (sample_bytes (sample_of a)) r, zlen b + zlen (sample_bytes (sample_of a))).
Proof using Type.
  intros Hv. pose proof (zlen_sample_of a Hv) as Hz. rewrite Hz. destruct Hv as (Hd & Hd' & Hm & _).
  intros Hr. set (e := sample_data (pt_type a) (pt_val a) (pt_d a)) in *.
  pose proof (zlen_nonneg e). unfold nxscope_put_sample.
  destruct r as [|r0 r]; [change (zlen []) with 0 in Hr; lia|].
  rewrite zlen_cons in Hr.
  rewrite set_at_mid by done. cbn [mbind nx_bind]. rewrite cons_middle, (assoc_L (++)).
  replace (zlen b + 1) with (zlen (b ++ [pt_ch a])) by (by rewrite zlen_app).
  rewrite put_vector_ok by (done || (fold e; lia)). cbn [mbind nx_bind]. fold e.
  rewrite appended_split, <- zlen_app. unfold nxscope_put_meta.
  rewrite read_n_slice by lia. cbn [mbind nx_bind].
  assert (zslice 0 (pt_mlen a) (pt_meta a) = sm_meta (sample_of a)) as -> by done.
  rewrite write_n_room; [cbn [mbind nx_bind]|done|].
  - unfold sample_bytes, appended. rewrite !zlen_app. do 2 f_equal.
    + simpl. fold e. rewrite drop_drop, length_app, <- !(assoc_L (++)). done.
    + unfold zlen. simpl. lia.
  - unfold zlen in *. simpl. rewrite length_take, length_drop. lia.
Qed.
End queue.
