(* ===== verification/NxSession.v ===== *)
(** * NxSession: the instance implements the abstract scope

    A simulation between an instance of nxscope over any protocol and interface that keep their
    contracts and the abstract scope of [NxSpec]: each operation of the application and each
    request of the client keeps the two related, returns the specified status and puts the
    frames of the specified messages on the line. *)

From S2P Require Import Prelude NxBase NxScope NxChan NxPut NxSpec NxFrame NxQueue.
#[local] Open Scope Z_scope.

Section session.
Context `{NxConfig} {W : Type} (p : nxscope_proto_s) `{!ProtoLaws p}
  (io : nxscope_intf_s W) `{!PortLaws (i_ops io)} (room rxlen : Z).
Implicit Types (s : nxscope_s W) (x : scope).

(** Commands and stream share the protocol and the interface. *)
Record wired s : Prop := {
  wired_cmd : intf_cmd s = io; wired_stream : intf_stream s = io;
  wired_pcmd : proto_cmd s = p; wired_pstream : proto_stream s = p;
  wired_cb : callbacks s = None }.

Notation hd := (i_priv io).

(** The stream buffer holds a flag byte and the queued samples behind the place of the header. *)
Definition holds s x : Prop :=
  exists g r, streambuf s = g ++ (Z.b2z (sc_over x) :: mjoin (sample_bytes <$> sc_pend x)) ++ r /\
    zlen g = hdrlen p.

Record sim (lk : bool) (rx : Z) s x : Prop := {
  sim_wired : wired s;
  sim_info : cmninfo s = sc_info x;
  sim_chans : chinfo s = sc_chans x;
  sim_count : cntr s = sc_count x;
  sim_on : start s = Z.b2z (sc_on x);
  sim_holds : holds s x;
  sim_i : stream_i s = hdrlen p + 1 + used (sc_pend x);
  sim_len : zlen (streambuf s) = hdrlen p + 1 + room + footlen p;
  sim_used : used (sc_pend x) <= room;
  sim_retry : stream_retry s = false;
  sim_lock : lock s = lk;
  sim_rx : rxbuf_i s = rx;
  sim_rxlen : zlen (rxbuf s) = rxlen;
  sim_tx : zlen (txbuf s) = CHINFO_DATA_SIZE_MAX + footlen p + hdrlen p;
  sim_chmax : Z.of_nat (length (sc_chans x)) = chmax (sc_info x);
  sim_counters : CONFIG_LOGGING_NXSCOPE_DIVIDER = true -> length (sc_count x) = length (sc_chans x);
  sim_good : port_good hd (world s);
  sim_inq : inq hd (world s) = [] }.

(** Sizes for which the 16 bits of a length suffice. *)
Hypothesis room_pos : 0 <= room.
Hypothesis sizes : hdrlen p + 1 + room + footlen p < 2 ^ 16.
Hypothesis tx_sizes : CHINFO_DATA_SIZE_MAX + footlen p + hdrlen p < 2 ^ 16.

(** Re-establish the relation after an update: fields that did not change keep their facts. *)
Ltac sim_fields := match goal with Hs : sim _ _ _ _ |- _ => destruct Hs end.
Ltac sim_same := sim_fields; constructor; simpl; try done.

Lemma sim_lock_to lk lk' rx s x : sim lk rx s x -> sim lk' rx (set_lock s lk') x.
Proof. intros Hs. sim_same. by destruct sim_wired0. Qed.

Lemma sim_chans_to lk rx s x l : sim lk rx s x -> length l = length (sc_chans x) ->
  sim lk rx (set_chinfo s l) (sc_chans_to x l).
Proof.
  intros Hs Hl. sim_same; [by destruct sim_wired0|by rewrite Hl|by rewrite Hl].
Qed.

Lemma sim_start_to lk rx s x b : sim lk rx s x -> sim lk rx (set_start s (Z.b2z b)) (sc_on_to x b).
Proof. intros Hs. sim_same. by destruct sim_wired0. Qed.

Lemma sim_count_to lk rx s x l : sim lk rx s x -> length l = length (sc_count x) ->
  sim lk rx (set_cntr s l) (sc_count_to x l).
Proof.
  intros Hs Hl. sim_same; [by destruct sim_wired0|]. intros. rewrite Hl. auto.
Qed.

(** ** Putting samples *)

Lemma used_app l y : used (l ++ [y]) = used l + zlen (sample_bytes y).
Proof. unfold used. rewrite fmap_app, join_app, zlen_app. simpl. by rewrite app_nil_r. Qed.

(** The buffer split at the cursor. *)
Lemma holds_cursor lk rx s x : sim lk rx s x -> exists b r, streambuf s = b ++ r /\
  zlen b = stream_i s /\ zlen r = room - used (sc_pend x) + footlen p /\
  exists g, b = g ++ Z.b2z (sc_over x) :: mjoin (sample_bytes <$> sc_pend x) /\ zlen g = hdrlen p.
Proof.
  intros Hs. destruct (sim_holds _ _ _ _ Hs) as (g & r & Hb & Hg).
  exists (g ++ Z.b2z (sc_over x) :: mjoin (sample_bytes <$> sc_pend x)), r.
  pose proof (sim_len _ _ _ _ Hs) as Hl. pose proof (sim_i _ _ _ _ Hs) as Hi. rewrite Hb in *.
  unfold used in *. rewrite !zlen_app, zlen_cons in *. rewrite (assoc_L (++)).
  split; [done|]. split; [lia|]. split; [lia|]. by exists g.
Qed.

Lemma overflow_ok lk rx s x : sim lk rx s x -> exists s', nxscope_stream_overflow s = NRet s' /\
  sim lk rx s' (sc_queue_to x (sc_pend x) true) /\ world s' = world s.
Proof.
  intros Hs. destruct (sim_holds _ _ _ _ Hs) as (g & r & Hb & Hg).
  unfold nxscope_stream_overflow. rewrite (wired_pstream _ (sim_wired _ _ _ _ Hs)), Hb. simpl.
  rewrite (at_mid g) by done. cbn [mbind nx_bind].
  rewrite set_at_mid by done. cbn [mbind nx_bind].
  eexists. split; [done|]. split; [|done]. sim_same; [by destruct sim_wired0| |].
  - exists g, r. split; [|done]. simpl. by destruct (sc_over x).
  - rewrite <- sim_len0, Hb. unfold zlen. rewrite !length_app. simpl. by rewrite !length_app.
Qed.

Lemma enqueue_ok lk rx s x a : sim lk rx s x -> put_valid a ->
  used (sc_pend x ++ [sample_of a]) <= room ->
  exists b i, nxscope_put_sample (streambuf s) (stream_i s) (pt_type a) (pt_ch a) (pt_val a)
      (pt_d a) (pt_meta a) (pt_mlen a) = NRet (b, i) /\
    sim lk rx (set_stream s b i) (sc_queue_to x (sc_pend x ++ [sample_of a]) (sc_over x)).
Proof.
  intros Hs Hv Hu. pose proof (footlen_pos (p := p)). rewrite used_app in Hu.
  destruct (holds_cursor _ _ _ _ Hs) as (b & r & Hb & Hi & Hr & g & Hg & Hgl).
  rewrite Hb, <- Hi, put_sample_ok by (done || lia). do 2 eexists. split; [done|].
  sim_same; [by destruct sim_wired0| |by rewrite used_app; lia| |by rewrite used_app; lia].
  - exists g, (drop (length (sample_bytes (sample_of a))) r). split; [|done].
    unfold appended. simpl. rewrite Hg, fmap_app, join_app. simpl. rewrite app_nil_r.
    rewrite <- !(assoc_L (++)). simpl. by rewrite <- !(assoc_L (++)).
  - rewrite <- sim_len0, Hb. unfold appended, zlen in *. rewrite !length_app, length_drop. lia.
Qed.

(** The checks that precede the divider do not look at the queue. *)
Lemma validate_checks s x lk rx a c : sim lk rx s x -> sc_chans x !! Z.to_nat (pt_ch a) = Some c ->
  0 <= pt_ch a -> sc_on x = true -> ci_enable c = 1 -> CONFIG_DEBUG_FEATURES && negb (fits c a) = false ->
  nxscope_ch_validate s (pt_ch a) (pt_type a) (pt_d a) (pt_mlen a) =
    ('(passes, s) ← divider_passes s (pt_ch a) c;
     if negb passes then NRet (- EAGAIN, s)
     else
       type_size ← type_size_of (pt_type a);
       if CONFIG_LOGGING_NXSCOPE_CRICHANNELS && cri (pt_type a) then
         let next_i := hdrlen (proto_stream s) + 1 + type_size * pt_d a + pt_mlen a +
                       footlen (proto_stream s) in
         if CONFIG_DEBUG_FEATURES && (zlen (cribuf s) <? next_i) then NRet (- ENOBUFS, s)
         else NRet (OK, s)
       else
         let next_i := u32 (stream_i s + 1 + type_size * pt_d a + pt_mlen a + footlen (proto_stream s)) in
         if zlen (streambuf s) <? next_i then
           s ← nxscope_stream_overflow s; NRet (- ENOBUFS, s)
         else NRet (OK, s)).
Proof.
  intros Hs Hc Hch Hon Hen Hfit. unfold nxscope_ch_validate.
  rewrite (sim_on _ _ _ _ Hs), Hon. cbn [Z.b2z Z.eqb].
  rewrite (sim_chans _ _ _ _ Hs), (at_lookup _ _ c) by done. cbn [mbind nx_bind].
  rewrite Hen. cbn [Z.eqb Pos.eqb negb]. rewrite (sim_info _ _ _ _ Hs), <- (sim_chmax _ _ _ _ Hs).
  apply lookup_lt_Some in Hc.
  destruct (Z.ltb_spec (Z.of_nat (length (sc_chans x))) (pt_ch a)) as [|_]; [lia|].
  rewrite andb_false_r. unfold fits in Hfit.
  destruct CONFIG_DEBUG_FEATURES; [|done]. cbn [andb] in *.
  apply negb_false_iff in Hfit. breflect. by rewrite H0, H2, H1, !Z.eqb_refl.
Qed.

Lemma validate_refuses lk rx s x a c : sim lk rx s x -> sc_chans x !! Z.to_nat (pt_ch a) = Some c ->
  0 <= pt_ch a -> sc_on x = true -> ci_enable c = 1 -> CONFIG_DEBUG_FEATURES && negb (fits c a) = true ->
  nxscope_ch_validate s (pt_ch a) (pt_type a) (pt_d a) (pt_mlen a) = NRet (- EINVAL, s).
Proof.
  intros Hs Hc Hch Hon Hen Hfit. unfold nxscope_ch_validate.
  rewrite (sim_on _ _ _ _ Hs), Hon. cbn [Z.b2z Z.eqb].
  rewrite (sim_chans _ _ _ _ Hs), (at_lookup _ _ c) by done. cbn [mbind nx_bind].
  rewrite Hen. cbn [Z.eqb Pos.eqb negb]. unfold fits in Hfit.
  destruct CONFIG_DEBUG_FEATURES; [|done]. cbn [andb] in *.
  destruct (_ <? _); [done|]. by destruct (_ =? _), (_ =? _), (_ =? _).
Qed.

Lemma validate_room lk rx s x a : sim lk rx s x -> put_valid a ->
  exists n, type_size_of (pt_type a) = NRet n /\
  (zlen (streambuf s) <?
     u32 (stream_i s + 1 + n * pt_d a + pt_mlen a + footlen (proto_stream s))) =
    negb (used (sc_pend x ++ [sample_of a]) <=? room).
Proof.
  intros Hs Hv. pose proof (zlen_sample_of a Hv) as Hz. destruct Hv as (Hd & Hd' & Hm & Hm').
  destruct (sample_data_size _ _ _ Hd ltac:(lia)) as (n & Hn & Hsz & Hn8). exists n. split; [done|].
  pose proof (footlen_pos (p := p)). pose proof (hdrlen_pos (p := p)).
  pose proof (zlen_nonneg (mjoin (sample_bytes <$> sc_pend x))) as Hp.
  pose proof (sim_used _ _ _ _ Hs). unfold used in *.
  rewrite (sim_i _ _ _ _ Hs), (sim_len _ _ _ _ Hs), (wired_pstream _ (sim_wired _ _ _ _ Hs)).
  fold (used (sc_pend x ++ [sample_of a])). rewrite used_app, Hz, Hsz. unfold used in *.
  assert (0 <= n * pt_d a <= 8 * 255) by nia.
  rewrite u32_small by lia.
  destruct (Z.leb_spec (zlen (mjoin (sample_bytes <$> sc_pend x)) + (1 + n * pt_d a + pt_mlen a)) room),
    (Z.ltb_spec (hdrlen p + 1 + room + footlen p)
       (hdrlen p + 1 + zlen (mjoin (sample_bytes <$> sc_pend x)) + 1 + n * pt_d a + pt_mlen a + footlen p));
    simpl; lia.
Qed.

(** What the divider does to the counter of the channel. *)
Lemma divider_ok lk rx s x a c : sim lk rx s x -> sc_chans x !! Z.to_nat (pt_ch a) = Some c -> 0 <= pt_ch a ->
  exists b s' x', divider_passes s (pt_ch a) c = NRet (b, s') /\ sim lk rx s' x' /\
    world s' = world s /\ sc_pend x' = sc_pend x /\ sc_over x' = sc_over x /\
    spec_divide room x c a = (if b then spec_enqueue room x' a else (- EAGAIN, x')).
Proof.
  intros Hs Hc Hch. unfold divider_passes, spec_divide.
  destruct CONFIG_LOGGING_NXSCOPE_DIVIDER eqn:D.
  - pose proof (sim_counters _ _ _ _ Hs D) as Hl. apply lookup_lt_Some in Hc.
    destruct (lookup_lt_is_Some_2 (sc_count x) (Z.to_nat (pt_ch a)) ltac:(lia)) as [n Hn].
    rewrite (sim_count _ _ _ _ Hs), (at_lookup _ _ n) by done. cbn [mbind nx_bind].
    rewrite set_at_in by lia. cbn [mbind nx_bind]. rewrite Hn. cbn [default from_option].
    eexists _, _, (sc_count_to x _). split; [done|].
    split; [apply sim_count_to; [done|apply length_insert]|].
    split; [done|]. split; [done|]. split; [done|]. cbv zeta. by destruct (_ =? 0).
  - exists true, s, x. done.
Qed.

Lemma put_unlocked_ok lk rx s x a : sim lk rx s x -> put_valid a -> 0 <= pt_ch a < chmax (sc_info x) ->
  exists s', put_unlocked s (pt_type a) (pt_ch a) (pt_val a) (pt_d a) (pt_meta a) (pt_mlen a) =
      NRet ((spec_put room x a).1, s') /\
    sim lk rx s' (spec_put room x a).2 /\ world s' = world s.
Proof.
  intros Hs Hv Hch. pose proof (sim_chmax _ _ _ _ Hs) as Hmax.
  destruct (lookup_lt_is_Some_2 (sc_chans x) (Z.to_nat (pt_ch a)) ltac:(lia)) as [c Hc].
  unfold put_unlocked, spec_put. rewrite Hc.
  destruct (sc_on x) eqn:Hon.
  2: { unfold nxscope_ch_validate. rewrite (sim_on _ _ _ _ Hs), Hon. simpl. by exists s. }
  destruct (Z.eqb_spec (ci_enable c) 1) as [Hen|Hen]; simpl negb.
  2: { unfold nxscope_ch_validate. rewrite (sim_on _ _ _ _ Hs), Hon, (sim_chans _ _ _ _ Hs).
       cbn [Z.b2z Z.eqb]. rewrite (at_lookup _ _ c) by (done || lia). cbn [mbind nx_bind].
       rewrite (proj2 (Z.eqb_neq _ _) Hen). simpl. by exists s. }
  destruct (CONFIG_DEBUG_FEATURES && negb (fits c a)) eqn:Hfit.
  { exists s. split; [|done]. by rewrite (validate_refuses lk rx s x a c) by (done || lia). }
  rewrite (validate_checks s x lk rx a c) by (done || lia).
  destruct (divider_ok lk rx s x a c Hs Hc ltac:(lia)) as (b & s1 & x1 & E & Hs1 & Hw1 & Hp1 & Ho1 & ->).
  rewrite E. cbn [mbind nx_bind]. destruct b; simpl negb; cbv iota; [|by exists s1].
  destruct (validate_room lk rx s1 x1 a Hs1 Hv) as (n & Hn & Hroom).
  rewrite Hn. cbn [mbind nx_bind]. rewrite (data_not_cri _ (pt_val a) (pt_d a)) by apply Hv.
  rewrite andb_false_r. cbv zeta. rewrite Hroom. unfold spec_enqueue.
  destruct (Z.leb_spec (used (sc_pend x1 ++ [sample_of a])) room) as [Hfits|Hfull]; cbn [negb].
  - cbn [mbind nx_bind]. rewrite Z.eqb_refl. cbn [negb].
    destruct (enqueue_ok lk rx s1 x1 a Hs1 Hv Hfits) as (b & i & -> & Hs2). cbn [mbind nx_bind].
    by exists (set_stream s1 b i).
  - destruct (overflow_ok lk rx s1 x1 Hs1) as (s2 & -> & Hs2 & Hw2). cbn [mbind nx_bind].
    exists s2. split; [done|]. split; [done|]. by rewrite Hw2.
Qed.

(** Calls that are in the interface, with arguments they accept. *)
Definition call_valid (c : put_call) : Prop :=
  put_valid (args_of c) /\
  match c with
  | PutUser _ _ _ _ _ _ => CONFIG_LOGGING_NXSCOPE_USERTYPES = true
  | _ => pt_type (args_of c) <> NXSCOPE_TYPE_USER
  end.

Lemma data_type_cases t val d : data_ok t val d -> t <> NXSCOPE_TYPE_USER ->
  exists fm f gm g,
    assoc t put_vm_table = Some fm /\ assoc t put_v_table = Some f /\
    assoc t put_m_table = Some gm /\ assoc t put_table = Some g /\
    (forall s ch val d meta mlen, fm s ch val d meta mlen = nxscope_put_common_m s t ch val d meta mlen) /\
    (forall s ch val d, f s ch val d = nxscope_put_common_m s t ch val d [] 0) /\
    (forall s ch v meta mlen, gm s ch v meta mlen = nxscope_put_common_m s t ch [v] 1 meta mlen) /\
    (forall s ch v, g s ch v = nxscope_put_common_m (W := W) s t ch [v] 1 [] 0).
Proof.
  unfold data_ok. intros Hd Hu. destruct (type_width t) as [w|] eqn:E.
  - clear Hd. each_type t E; try done; do 4 eexists; repeat (split; [reflexivity|]); reflexivity.
  - destruct Hd as (-> & _). do 4 eexists; repeat (split; [reflexivity|]); reflexivity.
Qed.

Lemma run_put_common c s : call_valid c ->
  run_put c s = nxscope_put_common_m s (pt_type (args_of c)) (pt_ch (args_of c)) (pt_val (args_of c))
    (pt_d (args_of c)) (pt_meta (args_of c)) (pt_mlen (args_of c)).
Proof.
  intros [[Hd _] Hc]. destruct c;
    cbn [args_of pt_type pt_ch pt_val pt_d pt_meta pt_mlen] in *; unfold run_put; cbv zeta beta;
    [| | | |done|by rewrite Hc];
    destruct (data_type_cases _ _ _ Hd Hc) as (fm & f & gm & g & E1 & E2 & E3 & E4 & F1 & F2 & F3 & F4).
  - by rewrite E1.
  - by rewrite E2.
  - by rewrite E3.
  - by rewrite E4.
Qed.

Lemma put_ok rx s x c : sim false rx s x -> call_valid c -> 0 <= pt_ch (args_of c) < chmax (sc_info x) ->
  exists s', run_put c s = NRet ((spec_put room x (args_of c)).1, s') /\
    sim false rx s' (spec_put room x (args_of c)).2 /\ world s' = world s.
Proof.
  intros Hs Hv Hch. rewrite run_put_common by done. destruct Hv as [Hv _].
  unfold nxscope_put_common_m. destruct CONFIG_LOGGING_NXSCOPE_DISABLE_PUTLOCK.
  - by apply put_unlocked_ok.
  - unfold nxscope_lock. rewrite (sim_lock _ _ _ _ Hs). cbn [mbind nx_bind].
    destruct (put_unlocked_ok true rx (set_lock s true) x _ (sim_lock_to _ true _ _ _ Hs) Hv Hch)
      as (s' & -> & Hs' & Hw). cbn [mbind nx_bind].
    exists (nxscope_unlock s'). split; [done|]. split; [by eapply sim_lock_to|done].
Qed.

(** ** Frames on the line *)

Notation out s := (line hd (world s)).

Lemma sim_world lk rx s x w : sim lk rx s x -> port_good hd w -> inq hd w = [] ->
  sim lk rx (set_world s w) x.
Proof. intros Hs Hg Hq. sim_same. by destruct sim_wired0. Qed.

Lemma sim_txbuf lk rx s x b : sim lk rx s x -> length b = length (txbuf s) ->
  sim lk rx (set_txbuf s b) x.
Proof.
  intros Hs Hb. sim_same; [by destruct sim_wired0|]. unfold zlen in *. by rewrite Hb.
Qed.

Lemma sim_rx_to lk rx s x b i : sim lk rx s x -> length b = length (rxbuf s) ->
  sim lk i (set_rx s b i) x.
Proof. intros Hs Hb. sim_same; [by destruct sim_wired0|]. unfold zlen in *. by rewrite Hb. Qed.

Lemma intf_send_ok lk rx s x m r : sim lk rx s x ->
  exists s', INTF_SEND s io (m ++ r) (zlen m) = NRet (zlen m, s') /\ sim lk rx s' x /\
    out s' = out s ++ m /\ rxbuf s' = rxbuf s /\ streambuf s' = streambuf s /\ stream_i s' = stream_i s.
Proof.
  intros Hs. unfold INTF_SEND. rewrite read_n_head by done. cbn [mbind nx_bind].
  rewrite (wired_stream _ (sim_wired _ _ _ _ Hs)).
  destruct (send_ok hd m (world s) (sim_good _ _ _ _ Hs)) as (w & -> & Hg & Hl & Hq).
  exists (set_world s w). split; [done|]. split; [|done].
  apply sim_world; [done..|]. by rewrite Hq, (sim_inq _ _ _ _ Hs).
Qed.

Lemma frame_send_ok lk rx s x id data : sim lk rx s x -> data <> [] ->
  zlen data <= CHINFO_DATA_SIZE_MAX ->
  exists s', nxscope_frame_send s id data = NRet (zlen (frame id data), s') /\ sim lk rx s' x /\
    out s' = out s ++ frame id data /\ rxbuf s' = rxbuf s.
Proof.
  intros Hs Hd Hlen. pose proof (sim_tx _ _ _ _ Hs) as Htx. pose proof (footlen_pos (p := p)).
  pose proof (hdrlen_pos (p := p)). pose proof (zlen_nonneg data).
  unfold nxscope_frame_send. rewrite (wired_pcmd _ (sim_wired _ _ _ _ Hs)), Htx.
  destruct (Z.ltb_spec (CHINFO_DATA_SIZE_MAX + footlen p + hdrlen p) (zlen data + footlen p + hdrlen p));
    [lia|]. rewrite andb_false_r.
  set (g := take (Z.to_nat (hdrlen p)) (txbuf s)). set (r := drop (Z.to_nat (hdrlen p)) (txbuf s)).
  assert (txbuf s = g ++ r) as Ht by (symmetry; apply take_drop).
  assert (zlen g = hdrlen p) as Hg by (unfold g, zlen in *; rewrite length_take; lia).
  assert (zlen r = CHINFO_DATA_SIZE_MAX + footlen p) as Hr by (rewrite Ht, zlen_app in Htx; lia).
  rewrite Ht, write_n_room by lia. cbn [mbind nx_bind]. unfold PROTO_FRAME_FINAL.
  rewrite (wired_pstream _ (sim_wired _ _ _ _ Hs)).
  rewrite frame_final_ok; [|done..| |lia].
  2: { unfold zlen in *. rewrite length_drop. lia. }
  cbn [mbind nx_bind]. change (OK <? 0) with false. cbv iota.
  rewrite <- (frame_len id data). set (b := frame id data ++ _).
  assert (sim lk rx (set_txbuf s b) x) as Hs1.
  { apply sim_txbuf; [done|]. unfold b. pose proof (frame_len id data) as Hf. unfold zlen in *.
    rewrite length_app, !length_drop, Ht, length_app. lia. }
  rewrite (wired_cmd _ (sim_wired _ _ _ _ Hs1)). change (txbuf (set_txbuf s b)) with b.
  destruct (intf_send_ok lk rx _ x (frame id data) (drop (Z.to_nat (footlen p)) (drop (length data) r)) Hs1)
    as (s' & E & Hs' & Ho & Hrx & _). fold b in E. by exists s'.
Qed.

Definition frame_of (m : message) : list Z := frame (message_id m) (message_data m).

(** ** Flushing *)

Lemma stream_empty_ok lk rx s x : sim lk rx s x ->
  nxscope_stream_empty s = bool_decide (sc_pend x = []).
Proof.
  intros Hs. unfold nxscope_stream_empty.
  rewrite (wired_pstream _ (sim_wired _ _ _ _ Hs)), (sim_i _ _ _ _ Hs). unfold used.
  destruct (sc_pend x) as [|y q].
  - simpl. change (zlen []) with 0. by destruct (Z.ltb_spec (hdrlen p + 1) (hdrlen p + 1 + 0)); [lia|].
  - rewrite bool_decide_eq_false_2 by done. simpl. rewrite zlen_cons.
    pose proof (zlen_nonneg ((sm_data y ++ sm_meta y) ++ mjoin (list_fmap _ _ sample_bytes q))). case_zbool.
Qed.

(** Behind a frame of the right length the buffer is reset to an empty queue. *)
Lemma reset_ok lk rx s x b i : sim lk rx s x -> length b = length (streambuf s) ->
  exists s', nxscope_stream_reset (set_stream s b i) = NRet s' /\
    sim lk rx s' (sc_queue_to x [] false) /\ world s' = world s.
Proof.
  intros Hs Hb. pose proof (sim_len _ _ _ _ Hs) as Hl. pose proof (footlen_pos (p := p)).
  pose proof (hdrlen_pos (p := p)). unfold nxscope_stream_reset.
  change (streambuf (set_stream s b i)) with b. change (proto_stream (set_stream s b i)) with (proto_stream s).
  rewrite (wired_pstream _ (sim_wired _ _ _ _ Hs)). unfold zlen in Hl.
  rewrite set_at_in by lia. cbn [mbind nx_bind]. eexists. split; [done|]. split; [|done].
  sim_same; [by destruct sim_wired0| |unfold used; simpl; change (zlen []) with 0; lia|].
  - exists (take (Z.to_nat (hdrlen p)) b), (drop (S (Z.to_nat (hdrlen p))) b). simpl. split.
    + by rewrite insert_take_drop by lia.
    + unfold zlen. rewrite length_take. lia.
  - unfold zlen. rewrite length_insert. lia.
Qed.

Lemma stream_ok rx s x : sim false rx s x ->
  exists ret s', nxscope_stream s = NRet (ret, s') /\ 0 <= ret /\ sim false rx s' (spec_stream x).1 /\
    out s' = out s ++ mjoin (frame_of <$> (spec_stream x).2).
Proof.
  intros Hs. unfold nxscope_stream, nxscope_lock. rewrite (sim_lock _ _ _ _ Hs). cbn [mbind nx_bind].
  pose proof (sim_lock_to _ true _ _ _ Hs) as Hs1. unfold spec_stream.
  rewrite (sim_on _ _ _ _ Hs1), (stream_empty_ok _ _ _ _ Hs1).
  destruct (sc_on x); simpl negb; cbn [Z.b2z Z.eqb andb].
  2: { do 2 eexists. split; [done|]. split; [done|]. simpl. rewrite app_nil_r.
       split; [by eapply sim_lock_to|done]. }
  destruct (bool_decide (sc_pend x = [])) eqn:He; simpl negb; cbv iota.
  { do 2 eexists. split; [done|]. split; [done|]. simpl. rewrite app_nil_r.
    split; [by eapply sim_lock_to|done]. }
  unfold nxscope_stream_send. rewrite (sim_retry _ _ _ _ Hs1). cbn [negb andb].
  destruct (holds_cursor _ _ _ _ Hs1) as (b & r & Hb & Hi & Hr & g & Hg & Hgl).
  pose proof (sim_used _ _ _ _ Hs1). pose proof (sim_i _ _ _ _ Hs1) as Hi1.
  pose proof (zlen_nonneg (mjoin (sample_bytes <$> sc_pend x))). unfold used in *.
  set (d := Z.b2z (sc_over x) :: mjoin (sample_bytes <$> sc_pend x)) in *.
  assert (stream_i (set_lock s true) = hdrlen p + zlen d) as Hid by (unfold d; rewrite zlen_cons; lia).
  unfold PROTO_FRAME_FINAL. rewrite (wired_pstream _ (sim_wired _ _ _ _ Hs1)), Hb, Hg, <- (assoc_L (++)), Hid.
  rewrite frame_final_ok; [|done..|lia|unfold d; rewrite zlen_cons; lia]. cbn [mbind nx_bind].
  change (OK <? 0) with false. cbv iota.
  rewrite (wired_stream _ (sim_wired _ _ _ _ Hs1)), <- (frame_len NXSCOPE_HDRID_STREAM d).
  destruct (intf_send_ok _ _ _ _ (frame NXSCOPE_HDRID_STREAM d) (drop (Z.to_nat (footlen p)) r) Hs1)
    as (s2 & -> & Hs2 & Ho2 & _ & Hsb & _). cbn [mbind nx_bind].
  pose proof (zlen_nonneg (frame NXSCOPE_HDRID_STREAM d)) as Hpos.
  destruct (Z.ltb_spec (zlen (frame NXSCOPE_HDRID_STREAM d)) 0) as [|_]; [lia|]. cbn [mbind nx_bind].
  destruct (Z.ltb_spec (zlen (frame NXSCOPE_HDRID_STREAM d)) 0) as [|_]; [lia|].
  assert (sim true rx (set_retry s2 false) x) as Hs3 by (sim_same; by destruct sim_wired0).
  destruct (reset_ok true rx _ x (frame NXSCOPE_HDRID_STREAM d ++ drop (Z.to_nat (footlen p)) r)
    (zlen (frame NXSCOPE_HDRID_STREAM d)) Hs3) as (s4 & -> & Hs4 & Hw4).
  { simpl. rewrite Hsb, Hb, Hg, !length_app, length_drop.
    pose proof (frame_len NXSCOPE_HDRID_STREAM d). pose proof (footlen_pos (p := p)). unfold zlen in *. lia. }
  cbn [mbind nx_bind]. do 2 eexists. split; [done|]. split; [done|].
  split; [by eapply sim_lock_to|]. simpl. rewrite app_nil_r, Hw4. exact Ho2.
Qed.
End session.
