(* ===== verification/NxServe.v ===== *)
(** * NxServe: requests of the client

    [nxscope_recv] on a request that arrives in any pieces, and the simulation of whole sessions
    of puts, flushes, configuration and requests. *)

From S2P Require Import Prelude NxBase NxScope NxChan NxPut NxSpec NxFrame NxQueue NxSession.
#[local] Open Scope Z_scope.

(** ** The loops over the channels *)

Lemma write_channels_ok upd f vs : forall pre rest, length vs = length rest ->
  (forall k v, vs !! k = Some v -> f (Z.of_nat (length pre + k)) = NRet v) ->
  write_channels upd f (length rest) (Z.of_nat (length pre)) (pre ++ rest) =
    NRet (pre ++ zip_with upd rest vs).
Proof.
  induction vs as [|v vs IH]; intros pre [|c rest] Hl Hf; try done.
  cbn [length write_channels].
  pose proof (Hf 0%nat v eq_refl) as H0. rewrite Nat.add_0_r in H0. rewrite H0. cbn [mbind nx_bind].
  rewrite at_mid by done. cbn [mbind nx_bind]. rewrite set_at_mid by done. cbn [mbind nx_bind].
  rewrite cons_middle, (assoc_L (++)).
  replace (Z.of_nat (length pre) + 1) with (Z.of_nat (length (pre ++ [upd c v])))
    by (rewrite length_app; simpl; lia).
  rewrite IH.
  - by rewrite <- (assoc_L (++)).
  - by injection Hl.
  - intros k u Hk. rewrite length_app. simpl. rewrite <- Nat.add_assoc. by apply (Hf (S k)).
Qed.

Lemma check_bulk_ok buf data vs : forall i,
  (forall k v, vs !! k = Some v -> at_ buf (data + (i + Z.of_nat k)) = NRet v) ->
  check_bulk buf data (length vs) i = NRet (forallb is_flag vs).
Proof.
  induction vs as [|v vs IH]; intros i Hf; [done|]. cbn [length check_bulk forallb].
  pose proof (Hf 0%nat v eq_refl) as H0. rewrite Z.add_0_r in H0. rewrite H0. cbn [mbind nx_bind].
  unfold is_flag at 1. destruct (v =? 0), (v =? 1); cbn [orb andb negb]; try done;
    (apply IH; intros k u Hk; rewrite <- (Hf (S k) u Hk); f_equal; lia).
Qed.

Lemma zip_with_replicate {A B C} (f : A -> B -> C) l v :
  zip_with f l (replicate (length l) v) = (fun c => f c v) <$> l.
Proof. induction l as [|c l IH]; [done|]. simpl. f_equal. apply IH. Qed.

Section serve.
Context `{NxConfig} {W : Type} (p : nxscope_proto_s) `{!ProtoLaws p}
  (io : nxscope_intf_s W) `{!PortLaws (i_ops io)} (room rxlen : Z).
Implicit Types (s : nxscope_s W) (x : scope).

Notation hd := (i_priv io).
Notation out s := (line hd (world s)).
Notation sim := (sim p io room rxlen).

Hypothesis rxlen_bound : rxlen < 2 ^ 32.
Hypothesis room_pos : 0 <= room.
Hypothesis sizes : hdrlen p + 1 + room + footlen p < 2 ^ 16.
Hypothesis rq_sizes : hdrlen p + 300 + footlen p < 2 ^ 16.

Lemma tx_sizes : CHINFO_DATA_SIZE_MAX + footlen p + hdrlen p < 2 ^ 16.
Proof. unfold CHINFO_DATA_SIZE_MAX, sizeof_chinfo, sizeof_char_ptr, CHAN_NAMELEN_MAX. lia. Qed.

(** ** Reading a frame in the receive buffer *)

Lemma frame_byte id d r k v : d !! k = Some v ->
  at_ (frame id d ++ r) (hdrlen p + Z.of_nat k) = NRet v.
Proof.
  intros Hk. pose proof (hdrlen_pos (p := p)). pose proof (frame_data id d) as Hd.
  apply at_lookup; [lia|]. rewrite <- Hd in Hk. unfold zslice in Hk.
  apply lookup_take_Some in Hk as [Hk _]. rewrite lookup_drop in Hk.
  replace (Z.to_nat (hdrlen p + Z.of_nat k)) with (Z.to_nat (hdrlen p) + k)%nat by lia.
  by rewrite lookup_app_l by (by eapply lookup_lt_Some).
Qed.

(** Pieces that fit accumulate behind what is there. *)
Lemma recv_loop_ok cs : forall fuel s a r, intf_cmd s = io -> intf_stream s = io ->
  port_good hd (world s) -> inq hd (world s) = cs -> Forall (fun c => c <> []) cs ->
  rxbuf s = a ++ r -> rxbuf_i s = zlen a -> zlen (mjoin cs) <= zlen r -> zlen (rxbuf s) < 2 ^ 32 ->
  (length cs < fuel)%nat ->
  exists w, recv_loop fuel s =
      NRet (0, set_world (set_rx s (appended a (mjoin cs) r) (zlen a + zlen (mjoin cs))) w) /\
    port_good hd w /\ line hd w = out s /\ inq hd w = [].
Proof.
  induction cs as [|c cs IH]; intros fuel s a r Hc Hst Hg Hq Hne Hb Hi Hfit H32 Hf;
    (destruct fuel as [|fuel]; [simpl in Hf; lia|]); cbn [recv_loop]; unfold INTF_RECV;
    rewrite Hc, Hst; pose proof (zlen_nonneg a); pose proof (zlen_nonneg r);
    assert (zlen (rxbuf s) - rxbuf_i s = zlen r) as Hroom by (rewrite Hb, Hi, zlen_app; lia).
  - destruct (recv_nil hd (u32 (zlen (rxbuf s) - rxbuf_i s)) (world s) Hg Hq) as (w & -> & Hg' & Hl' & Hq').
    cbn [rxbuf rxbuf_i set_world]. rewrite Hb, Hi, write_n_room by (done || (cbn; lia)).
    cbn [mbind nx_bind Z.leb Z.compare]. exists w.
    split; [|done]. unfold appended. simpl. by rewrite Z.add_0_r.
  - inv_Forall. assert (zlen (mjoin (c :: cs)) = zlen c + zlen (mjoin cs)) as Hz
      by (simpl; by rewrite zlen_app). pose proof (zlen_nonneg (mjoin cs)). pose proof (zlen_nonneg c).
    rewrite Hb, zlen_app in H32.
    rewrite Hroom, u32_small by lia.
    destruct (recv_cons hd (zlen r) (world s) c cs Hg Hq) as (w & -> & Hg' & Hl' & Hq');
      [done|lia|]. cbn [rxbuf rxbuf_i set_world set_rx]. rewrite Hb, Hi, write_n_room by (done || lia).
    cbn [mbind nx_bind].
    assert (0 < zlen c) as Hcpos by (destruct c; [done|rewrite zlen_cons; pose proof (zlen_nonneg c); lia]).
    destruct (Z.leb_spec (zlen c) 0); [lia|]. cbn [rxbuf_i set_rx].
    destruct (IH fuel (set_rx (set_world s w) (a ++ c ++ drop (length c) r) (zlen a + zlen c))
      (a ++ c) (drop (length c) r)) as (w' & E & Hg2 & Hl2 & Hq2); try done.
    + simpl. by rewrite (assoc_L (++)).
    + simpl. by rewrite zlen_app.
    + unfold zlen in *. rewrite length_drop. lia.
    + simpl. unfold zlen in *. rewrite !length_app, length_drop. lia.
    + simpl in Hf. lia.
    + exists w'. rewrite u32_small by lia.
      split; [|by rewrite Hl2]. etrans; [exact E|]. f_equal. unfold set_world, set_rx. simpl.
      rewrite appended_app, !zlen_app, Z.add_assoc. done.
Qed.

(** ** Settings *)

(** A single channel other than the one behind the last. *)
Definition setting_valid (n : Z) (v : setting Z) : Prop :=
  match v with SetSingle ch _ => 0 <= ch /\ ch <> n | _ => True end.

(** What a request does to the instance: only the channels change. *)
Definition sets rx s x (m : nx (Z * nxscope_s W)) (r : Z * scope) : Prop :=
  exists s', m = NRet (r.1, s') /\ sim true rx s' r.2 /\ world s' = world s.

Lemma sets_refused rx s x : sim true rx s x -> sets rx s x (NRet (- EINVAL, s)) (- EINVAL, x).
Proof. intros Hs. by exists s. Qed.

Lemma sets_chans rx s x l : sim true rx s x -> length l = length (sc_chans x) ->
  sets rx s x (NRet (OK, set_chinfo s l)) (OK, sc_chans_to x l).
Proof. intros Hs Hl. exists (set_chinfo s l). split; [done|]. split; [by apply sim_chans_to|done]. Qed.

Lemma set_single_ok rx s x upd ch (v : Z) : sim true rx s x -> 0 <= ch -> ch <> chmax (sc_info x) ->
  sets rx s x
    (if chmax (sc_info x) <? ch then NRet (- EINVAL, s)
     else c ← at_ (sc_chans x) ch; l ← set_at (sc_chans x) ch (upd c v); NRet (OK, set_chinfo s l))
    (match sc_chans x !! Z.to_nat ch with
     | Some c => (OK, sc_chans_to x (<[Z.to_nat ch := upd c v]> (sc_chans x)))
     | None => (- EINVAL, x)
     end).
Proof.
  intros Hs Hch Hne. pose proof (sim_chmax _ _ _ _ _ _ _ _ Hs) as Hmax.
  destruct (Z.ltb_spec (chmax (sc_info x)) ch).
  - rewrite lookup_ge_None_2 by lia. by apply sets_refused.
  - destruct (lookup_lt_is_Some_2 (sc_chans x) (Z.to_nat ch) ltac:(lia)) as [c Hc].
    rewrite Hc, (at_lookup _ _ c) by done. cbn [mbind nx_bind]. rewrite set_at_in by lia.
    cbn [mbind nx_bind]. apply sets_chans; [done|apply length_insert].
Qed.

Lemma set_many_ok rx s x upd f vs : sim true rx s x -> length vs = length (sc_chans x) ->
  (forall k v, vs !! k = Some v -> f (Z.of_nat k) = NRet v) ->
  sets rx s x (l ← write_channels upd f (Z.to_nat (chmax (sc_info x))) 0 (sc_chans x);
               NRet (OK, set_chinfo s l))
    (OK, sc_chans_to x (zip_with upd (sc_chans x) vs)).
Proof.
  intros Hs Hl Hf. rewrite <- (sim_chmax _ _ _ _ _ _ _ _ Hs), Nat2Z.id.
  pose proof (write_channels_ok upd f vs [] (sc_chans x) Hl Hf) as E.
  change (Z.of_nat (length [])) with 0 in E. cbn [app] in E.
  rewrite E. cbn [mbind nx_bind].
  apply sets_chans; [done|]. rewrite length_zip_with. lia.
Qed.

Lemma set_all_ok rx s x upd f (v : Z) : sim true rx s x -> (forall i, f i = NRet v) ->
  sets rx s x (l ← write_channels upd f (Z.to_nat (chmax (sc_info x))) 0 (sc_chans x);
               NRet (OK, set_chinfo s l))
    (OK, sc_chans_to x ((fun c => upd c v) <$> sc_chans x)).
Proof.
  intros Hs Hf. rewrite <- zip_with_replicate. apply set_many_ok; [done|apply length_replicate|].
  intros k u Hk. apply lookup_replicate in Hk as [-> _]. apply Hf.
Qed.

(** The bytes of a request, at their offsets. *)
Lemma frame_at id d r k v : 0 <= k -> d !! Z.to_nat k = Some v ->
  at_ (frame id d ++ r) (hdrlen p + k) = NRet v.
Proof. intros Hk Hd. rewrite <- (frame_byte id d r _ v Hd). f_equal. lia. Qed.

Lemma request_byte id d r : forall v, d !! 0%nat = Some v ->
  at_ (frame id d ++ r) (hdrlen p) = NRet v.
Proof. intros v Hv. rewrite <- (Z.add_0_r (hdrlen p)). by apply frame_at. Qed.

Lemma bulk_byte id vs r k v : vs !! k = Some v ->
  at_ (frame id (setting_data (SetBulk vs)) ++ r) (hdrlen p + 2 + Z.of_nat k) = NRet v.
Proof.
  intros Hk. rewrite <- Z.add_assoc. apply frame_at; [lia|].
  by replace (Z.to_nat (2 + Z.of_nat k)) with (S (S k)) by lia.
Qed.

Lemma not_flag v : negb (v =? 0) && negb (v =? 1) = negb (is_flag v).
Proof. unfold is_flag. by destruct (v =? 0), (v =? 1). Qed.

(** Read the kind of the request. *)
Ltac setting_start Hs Hb :=
  unfold nxscope_enable_req, nxscope_div_req;
  rewrite Hb, (sim_info _ _ _ _ _ _ _ _ Hs), (sim_chans _ _ _ _ _ _ _ _ Hs);
  erewrite request_byte by reflexivity; cbn [mbind nx_bind spec_set];
  unfold sizeof_set_frame, NXSCOPE_ENABLE_LEN, NXSCOPE_DIV_LEN;
  cbn [NXSCOPE_SET_REQ_SINGLE NXSCOPE_SET_REQ_BULK NXSCOPE_SET_REQ_ALL Z.eqb Pos.eqb];
  rewrite <- ?Z.add_assoc.

(** The length of a request for one value is right. *)
Ltac setting_one := change (Z.eqb (zlen _) _) with true; cbn [negb].

Lemma bulk_length x vs rx s : sim true rx s x ->
  (zlen (setting_data (SetBulk vs)) =? 3 + 1 * chmax (sc_info x) - 1) =
    bool_decide (length vs = length (sc_chans x)).
Proof.
  intros Hs. pose proof (sim_chmax _ _ _ _ _ _ _ _ Hs). cbn [setting_data]. rewrite !zlen_cons.
  unfold zlen. case_bool_decide; [apply Z.eqb_eq|apply Z.eqb_neq]; lia.
Qed.

Lemma enable_req_ok rx s x id v r : sim true rx s x -> setting_valid (chmax (sc_info x)) v ->
  rxbuf s = frame id (setting_data v) ++ r ->
  sets rx s x (nxscope_enable_req s (hdrlen p) (zlen (setting_data v)))
    (spec_set ci_enable_to is_flag x v).
Proof.
  intros Hs Hv Hb. destruct v as [ch v|vs|ch v]; cbn [setting_valid] in Hv; setting_start Hs Hb.
  - setting_one. erewrite (frame_at _ _ _ 2) by done. cbn [mbind nx_bind]. rewrite not_flag.
    erewrite (frame_at _ _ _ 1) by done. destruct (is_flag v); cbn [negb mbind nx_bind].
    + destruct Hv. by apply set_single_ok.
    + destruct (sc_chans x !! _); by apply sets_refused.
  - rewrite (bulk_length x vs rx s Hs). case_bool_decide as Hl; cbn [negb andb]; [|by apply sets_refused].
    rewrite <- (sim_chmax _ _ _ _ _ _ _ _ Hs), Nat2Z.id, <- Hl at 1.
    rewrite (check_bulk_ok _ _ vs 0) by (intros; rewrite Z.add_0_l; by apply bulk_byte).
    cbn [mbind nx_bind].
    destruct (forallb is_flag vs); cbn [negb]; [|by apply sets_refused].
    apply set_many_ok; [done..|]. intros. by apply bulk_byte.
  - setting_one. erewrite (frame_at _ _ _ 2) by done. cbn [mbind nx_bind]. rewrite not_flag.
    destruct (is_flag v); cbn [negb]; [|by apply sets_refused].
    apply set_all_ok; [done|]. done.
Qed.

Lemma div_ok rx s x id v r : sim true rx s x -> setting_valid (chmax (sc_info x)) v ->
  rxbuf s = frame id (setting_data v) ++ r ->
  sets rx s x (nxscope_div_req s (hdrlen p) (zlen (setting_data v)))
    (spec_set ci_div_to (fun _ => true) x v).
Proof.
  intros Hs Hv Hb. destruct v as [ch v|vs|ch v]; cbn [setting_valid] in Hv; setting_start Hs Hb.
  - setting_one. erewrite (frame_at _ _ _ 1) by done. cbn [mbind nx_bind].
    erewrite (frame_at _ _ _ 2) by done. cbn [mbind nx_bind]. destruct Hv. by apply set_single_ok.
  - rewrite (bulk_length x vs rx s Hs). case_bool_decide as Hl; cbn [negb andb]; [|by apply sets_refused].
    replace (forallb (fun _ => true) vs) with true by (clear; by induction vs).
    apply set_many_ok; [done..|]. intros. by apply bulk_byte.
  - setting_one. apply set_all_ok; [done|]. intros _. by apply frame_at.
Qed.

(** ** One request *)

Definition request_valid (n : Z) (r : request) : Prop :=
  Forall is_byte (request_data r) /\ zlen (request_data r) <= 300 /\
  match r with
  | RqChinfo ch => ch < n
  | RqEnable v | RqDiv v => setting_valid n v
  | _ => True
  end.

(** The outcome of an operation: status, state and messages as specified. *)
Definition outcome lk rx s (m : nx (Z * nxscope_s W)) (r : Z * scope * list message) : Prop :=
  exists ret s', m = NRet (ret, s') /\ Z.min ret 0 = r.1.1 /\ sim lk rx s' r.1.2 /\
    out s' = out s ++ mjoin (frame_of p <$> r.2).

Lemma ack_ok rx s x m r : sets rx s x m r -> r.1 <= 0 ->
  outcome true rx s ('(ret, s) ← m; s ← ack_if s ret; NRet (ret, s)) (spec_ack r).
Proof.
  intros (s1 & -> & Hs1 & Hw) Hr. cbn [mbind nx_bind]. unfold ack_if, spec_ack, outcome.
  destruct CONFIG_LOGGING_NXSCOPE_ACKFRAMES; simpl.
  - destruct (frame_send_ok p io room rxlen tx_sizes true rx s1 r.2 NXSCOPE_HDRID_ACK
      (le_bytes 4 (u32 r.1))) as (s2 & E & Hs2 & Ho & _); [done..|].
    unfold nxscope_ack. rewrite E. cbn [mbind nx_bind]. exists r.1, s2.
    split; [done|]. split; [lia|]. split; [done|]. by rewrite Ho, Hw, app_nil_r.
  - exists r.1, s1. split; [done|]. split; [lia|]. split; [done|]. by rewrite Hw, app_nil_r.
Qed.

(** A reply that fits the transmit buffer. *)
Lemma reply_ok rx s x m : sim true rx s x -> message_data m <> [] ->
  zlen (message_data m) <= CHINFO_DATA_SIZE_MAX ->
  outcome true rx s (nxscope_frame_send s (message_id m) (message_data m)) (OK, x, [m]).
Proof.
  intros Hs Hd Hl.
  destruct (frame_send_ok p io room rxlen tx_sizes true rx s x (message_id m) (message_data m) Hs Hd Hl)
    as (s' & -> & Hs' & Ho & _).
  exists (zlen (frame (message_id m) (message_data m))), s'. split; [done|].
  pose proof (zlen_nonneg (frame (message_id m) (message_data m))).
  split; [simpl; unfold OK; lia|]. split; [done|]. rewrite Ho. simpl. by rewrite app_nil_r.
Qed.

Lemma spec_set_code upd ok x v : (spec_set upd ok x v).1 <= 0.
Proof.
  unfold spec_set, OK, EINVAL. destruct v as [ch v|vs|ch v];
    [destruct (sc_chans x !! Z.to_nat ch); [destruct (ok v)|]|destruct (_ && _)|destruct (ok v)]; simpl; lia.
Qed.

Lemma chinfo_ok rx s x ch : sim true rx s x -> 0 <= ch < chmax (sc_info x) ->
  outcome true rx s (nxscope_chinfo_send s ch) (spec_request x (RqChinfo ch)).
Proof.
  intros Hs Hch. pose proof (sim_chmax _ _ _ _ _ _ _ _ Hs) as Hmax.
  destruct (lookup_lt_is_Some_2 (sc_chans x) (Z.to_nat ch) ltac:(lia)) as [c Hc].
  unfold nxscope_chinfo_send. cbn [spec_request]. rewrite Hc, (sim_chans _ _ _ _ _ _ _ _ Hs).
  rewrite (at_lookup _ _ c) by (done || lia). cbn [mbind nx_bind].
  replace (take (Z.to_nat (Z.min (zlen (ci_name c)) CHAN_NAMELEN_MAX)) (ci_name c))
    with (take (Z.to_nat CHAN_NAMELEN_MAX) (ci_name c)).
  - apply (reply_ok rx s x (MsgChinfo c)); [done..|]. cbn [message_data].
    rewrite !zlen_app, !zlen_cons. unfold CHINFO_DATA_SIZE_MAX, zlen. rewrite length_take.
    unfold CHAN_NAMELEN_MAX, sizeof_chinfo, sizeof_char_ptr. simpl length. lia.
  - unfold CHAN_NAMELEN_MAX, zlen. destruct (Z.le_gt_cases (Z.of_nat (length (ci_name c))) 32).
    + rewrite !take_ge by lia. done.
    + f_equal. lia.
Qed.

Lemma start_ok rx s x id v r : sim true rx s x -> rxbuf s = frame id [v] ++ r ->
  sets rx s x (nxscope_start_req s (hdrlen p))
    (if is_flag v then (OK, sc_on_to x (negb (v =? 0))) else (- EINVAL, x)).
Proof.
  intros Hs Hb. unfold nxscope_start_req. rewrite Hb. erewrite request_byte by reflexivity.
  cbn [mbind nx_bind]. unfold is_flag. destruct ((v =? 0) || (v =? 1)); [|by apply sets_refused].
  unfold nxscope_start_set. cbn [callbacks set_start].
  rewrite (wired_cb _ _ _ (sim_wired _ _ _ _ _ _ _ _ Hs)).
  eexists. split; [done|]. split; [by apply sim_start_to|done].
Qed.

Lemma handle_ok rx s x q r : sim true rx s x -> request_valid (chmax (sc_info x)) q ->
  rxbuf s = frame (request_id q) (request_data q) ++ r ->
  outcome true rx s (handle_request s (request_id q) (zlen (request_data q)) (hdrlen p))
    (spec_request x q).
Proof.
  intros Hs (Hbytes & _ & Hv) Hb. unfold handle_request.
  destruct q as [|ch|v|v|v]; cbn [request_id request_data] in *;
    cbn [NXSCOPE_HDRID_CMNINFO NXSCOPE_HDRID_CHINFO NXSCOPE_HDRID_START NXSCOPE_HDRID_ENABLE
         NXSCOPE_HDRID_DIV Z.eqb Pos.eqb].
  - change (zlen [] =? 0) with true. cbn [negb]. unfold nxscope_cmninfo_send.
    rewrite (sim_info _ _ _ _ _ _ _ _ Hs). by apply (reply_ok rx s x (MsgCmninfo (sc_info x))).
  - change (zlen [ch] =? 1) with true. cbn [negb]. rewrite Hb. erewrite request_byte by reflexivity.
    cbn [mbind nx_bind]. inv_Forall. apply chinfo_ok; [done|]. unfold is_byte in *. lia.
  - change (zlen [v] =? NXSCOPE_START_LEN) with true. cbn [negb].
    eapply ack_ok; [by eapply start_ok|]. unfold OK, EINVAL. by destruct (is_flag v).
  - eapply ack_ok; [by eapply enable_req_ok|apply spec_set_code].
  - cbn [spec_request]. destruct CONFIG_LOGGING_NXSCOPE_DIVIDER.
    + eapply ack_ok; [by eapply div_ok|apply spec_set_code].
    + eapply (ack_ok rx s x (NRet (- EPERM, s)) (- EPERM, x)); [by exists s|done].
Qed.

Definition frame_of_request (q : request) : list Z := frame (request_id q) (request_data q).

(** The pieces a request arrives in: none empty, all fit the receive buffer. *)
Definition delivers (q : request) (cs : list (list Z)) : Prop :=
  Forall (fun c => c <> []) cs /\ mjoin cs = frame_of_request q /\ zlen (frame_of_request q) <= rxlen.

Lemma length_pieces (cs : list (list Z)) : Forall (fun c => c <> []) cs ->
  (length cs <= length (mjoin cs))%nat.
Proof.
  induction 1 as [|c cs Hc _ IH]; [done|].
  change (mjoin (c :: cs)) with (c ++ mjoin cs). rewrite length_app.
  destruct c; [done|]. cbn [length]. lia.
Qed.

(** The request is in the receive buffer when the line is empty. *)
Lemma accumulate_ok s x q cs : sim false 0 s x -> delivers q cs ->
  let s0 := set_world s (feed hd cs (world s)) in
  let f := frame_of_request q in
  exists b w, recv_loop (S (length (rxbuf s0))) s0 = NRet (0, set_world (set_rx s b (zlen f)) w) /\
    b = f ++ drop (length f) (rxbuf s) /\ line hd w = out s /\
    sim false (zlen f) (set_world (set_rx s b (zlen f)) w) x.
Proof.
  intros Hs (Hne & Hcs & Hfit) s0 f.
  destruct (feed_ok hd cs (world s) (sim_good _ _ _ _ _ _ _ _ Hs) (sim_inq _ _ _ _ _ _ _ _ Hs))
    as (Hg & Hl & Hinq).
  pose proof (sim_rxlen _ _ _ _ _ _ _ _ Hs) as Hrl.
  destruct (sim_wired _ _ _ _ _ _ _ _ Hs) as [Hc Hst Hpc Hps Hcb].
  destruct (recv_loop_ok cs (S (length (rxbuf s0))) s0 [] (rxbuf s)) as (w & E & Hgw & Hlw & Hqw);
    try done.
  { exact (sim_rx _ _ _ _ _ _ _ _ Hs). } { by rewrite Hcs, Hrl. }
  { change (rxbuf s0) with (rxbuf s). lia. }
  { pose proof (length_pieces cs Hne) as Hp. rewrite Hcs in Hp.
    change (rxbuf s0) with (rxbuf s). unfold zlen in *. lia. }
  rewrite Hcs in E. exists (f ++ drop (length f) (rxbuf s)), w.
  split; [exact E|]. split; [done|]. split; [by rewrite Hlw, <- Hl|].
  apply sim_world; [|done..]. eapply sim_rx_to; [done|].
  rewrite length_app, length_drop. unfold f, zlen in *. lia.
Qed.

Lemma recv_ok s x q cs : sim false 0 s x -> request_valid (chmax (sc_info x)) q -> delivers q cs ->
  outcome false 0 s (nxscope_recv (set_world s (feed hd cs (world s)))) (spec_request x q).
Proof.
  intros Hs Hq Hdel. pose proof Hq as (Hbytes & Hsmall & _). pose proof Hdel as (_ & _ & Hfit).
  pose proof (hdrlen_pos (p := p)). pose proof (footlen_pos (p := p)).
  pose proof (zlen_nonneg (request_data q)).
  destruct (accumulate_ok s x q cs Hs Hdel) as (b & w & E & Hb & Hl & Hs1).
  set (f := frame_of_request q) in *. set (s1 := set_world (set_rx s b (zlen f)) w) in *.
  assert (zlen f = hdrlen p + zlen (request_data q) + footlen p) as Hf by apply frame_len.
  unfold nxscope_recv. rewrite E. cbn [mbind nx_bind]. change (rxbuf_i s1) with (zlen f).
  destruct (Z.eqb_spec (zlen f) 0); [lia|].
  unfold PROTO_FRAME_GET. rewrite (wired_pstream _ _ _ (sim_wired _ _ _ _ _ _ _ _ Hs1)).
  change (rxbuf s1) with b. rewrite Hb at 1. unfold f at 1, frame_of_request.
  rewrite frame_get_ok; [|lia|change (zlen f <= zlen f < 2 ^ 32); lia].
  cbn [mbind nx_bind fr_id fr_dlen fr_data fr_drop].
  unfold nxscope_recv_handle, nxscope_lock. rewrite (sim_lock _ _ _ _ _ _ _ _ Hs1). cbn [mbind nx_bind].
  replace (u16 (zlen (request_data q))) with (zlen (request_data q))
    by (unfold u16; rewrite Z.mod_small; lia).
  destruct (handle_ok (zlen f) (set_lock s1 true) x q (drop (length f) (rxbuf s))
    (sim_lock_to _ _ _ _ _ true _ _ _ Hs1) Hq Hb) as (ret & s2 & -> & Hret & Hs2 & Ho).
  cbn [mbind nx_bind]. change (out (set_lock s1 true)) with (line hd w) in Ho. rewrite Hl in Ho.
  assert (sim false 0 (set_rx (nxscope_unlock s2) (rxbuf s2) 0) (spec_request x q).1.2) as Hfin
    by (eapply sim_rx_to; [by eapply sim_lock_to|done]).
  unfold outcome. destruct (ret <? 0).
  - do 2 eexists. split; [done|]. split; [done|]. by split.
  - change (rxbuf_i (nxscope_unlock s2)) with (rxbuf_i s2). rewrite (sim_rx _ _ _ _ _ _ _ _ Hs2).
    fold f. rewrite Z.sub_diag. cbn [mbind nx_bind u32 Z.modulo Z.div_eucl Z.ltb Z.compare].
    do 2 eexists. split; [done|]. split; [done|]. by split.
Qed.

(** ** Sessions *)

Definition run_op (o : op) s : nx (Z * nxscope_s W) :=
  match o with
  | OpPut c => run_put c s
  | OpStream => nxscope_stream s
  | OpStart b => nxscope_stream_start s b
  | OpInit ch name type vdim mlen => nxscope_chan_init s ch name type vdim mlen
  | OpEnable ch en => nxscope_chan_en s ch en
  | OpDiv ch div => nxscope_chan_div s ch div
  | OpRequest q cs => nxscope_recv (set_world s (feed hd cs (world s)))
  end.

(** The statuses of the operations, [OK] or a negative code, and the final state. *)
Fixpoint run_session (os : list op) s : nx (list Z * nxscope_s W) :=
  match os with
  | [] => NRet ([], s)
  | o :: os =>
      '(ret, s) ← run_op o s;
      '(rets, s) ← run_session os s;
      NRet (Z.min ret 0 :: rets, s)
  end.

(** The operations of a session on an instance with [n] channels.  A put is for one of the channels,
    with the data its type and its lengths announce; the configuration is for any channel but
    number [n], which the checks let pass, and for channels that are not critical; a request is for
    another channel than [n], has bytes of a frame that fits the receive buffer, and asks for the
    information of an existing channel only. *)
Definition op_valid (n : Z) (o : op) : Prop :=
  match o with
  | OpPut c => call_valid c /\ 0 <= pt_ch (args_of c) < n
  | OpStream | OpStart _ => True
  | OpInit ch _ type _ _ => 0 <= ch /\ ch <> n /\ NXSCOPE_IS_CRICHAN type = false
  | OpEnable ch _ | OpDiv ch _ => 0 <= ch /\ ch <> n
  | OpRequest q cs => request_valid n q /\ delivers q cs
  end.

Lemma spec_set_info upd ok x v : sc_info (spec_set upd ok x v).2 = sc_info x.
Proof.
  unfold spec_set. destruct v as [ch v|vs|ch v];
    [destruct (sc_chans x !! Z.to_nat ch); [destruct (ok v)|]|destruct (_ && _)|destruct (ok v)]; done.
Qed.

Lemma spec_put_info x a : sc_info (spec_put room x a).2 = sc_info x.
Proof.
  unfold spec_put, spec_divide, spec_enqueue.
  repeat (case_match; try done).
Qed.

Lemma spec_step_info x o : sc_info (spec_step room x o).1.2 = sc_info x.
Proof.
  destruct o as [c| |b|ch nm ty vd ml|ch en|ch d|q cs]; cbn [spec_step].
  - pose proof (spec_put_info x (args_of c)). by destruct (spec_put room x (args_of c)).
  - unfold spec_stream. by destruct (_ && _).
  - done.
  - by destruct (sc_chans x !! _).
  - destruct (sc_chans x !! _); [|done]. by destruct (_ =? _).
  - by destruct (sc_chans x !! _).
  - destruct q; cbn [spec_request]; unfold spec_ack; simpl; rewrite ?spec_set_info; try done.
    + by destruct (sc_chans x !! _).
    + by destruct (is_flag v).
    + destruct CONFIG_LOGGING_NXSCOPE_DIVIDER; by rewrite ?spec_set_info.
Qed.

Lemma spec_put_code x a : (spec_put room x a).1 <= 0.
Proof.
  unfold spec_put, spec_divide, spec_enqueue, OK, EAGAIN, EINVAL, ENOBUFS.
  repeat (case_match; simpl; try lia).
Qed.

(** Changing a channel under the lock. *)
Lemma locked_channel_ok s x l : sim true 0 (set_lock s true) x -> length l = length (sc_chans x) ->
  outcome false 0 s (NRet (OK, nxscope_unlock (set_chinfo (set_lock s true) l)))
    (OK, sc_chans_to x l, []).
Proof.
  intros Hs Hl. do 2 eexists. split; [done|]. split; [done|]. simpl. rewrite app_nil_r.
  split; [|done]. eapply sim_lock_to, sim_chans_to; done.
Qed.

(** A channel that is not there is refused. *)
Lemma locked_refused s x ch f : sim true 0 (set_lock s true) x -> Z.of_nat (length (sc_chans x)) <= ch ->
  outcome false 0 s (NRet (- EINVAL, nxscope_unlock (set_lock s true)))
    (match sc_chans x !! Z.to_nat ch with Some c => f c | None => (- EINVAL, x, []) end).
Proof.
  intros Hs Hch. rewrite lookup_ge_None_2 by lia. do 2 eexists. split; [done|]. split; [done|]. simpl.
  rewrite app_nil_r. split; [by eapply sim_lock_to|done].
Qed.

Lemma config_ok s x o : sim false 0 s x -> op_valid (chmax (sc_info x)) o ->
  match o with OpStart _ | OpInit _ _ _ _ _ | OpEnable _ _ | OpDiv _ _ => True | _ => False end ->
  outcome false 0 s (run_op o s) (spec_step room x o).
Proof.
  intros Hs Hv Ho. pose proof (sim_lock_to _ _ _ _ _ true _ _ _ Hs) as Hs1.
  pose proof (sim_chmax _ _ _ _ _ _ _ _ Hs1) as Hmax.
  destruct o as [c| |b|ch nm ty vd ml|ch en|ch d|q cs]; try done; cbn [run_op spec_step op_valid] in *;
    unfold nxscope_stream_start, nxscope_chan_init, nxscope_chan_en, nxscope_chan_div, nxscope_lock;
    rewrite (sim_lock _ _ _ _ _ _ _ _ Hs); cbn [mbind nx_bind].
  - unfold nxscope_start_set. cbn [callbacks set_start].
    rewrite (wired_cb _ _ _ (sim_wired _ _ _ _ _ _ _ _ Hs1)).
    do 2 eexists. split; [done|]. split; [done|]. simpl. rewrite app_nil_r.
    split; [|done]. eapply sim_lock_to, sim_start_to; done.
  - destruct Hv as (Hch & Hne & Hcri). rewrite Hcri, andb_false_r, (sim_info _ _ _ _ _ _ _ _ Hs).
    destruct (Z.ltb_spec (chmax (sc_info x)) ch).
    { rewrite lookup_ge_None_2 by lia. do 2 eexists. split; [done|]. split; [done|]. simpl. by rewrite app_nil_r. }
    destruct (lookup_lt_is_Some_2 (sc_chans x) (Z.to_nat ch) ltac:(lia)) as [c Hc]. rewrite Hc.
    rewrite (sim_chans _ _ _ _ _ _ _ _ Hs1), set_at_in by lia. cbn [mbind nx_bind].
    apply locked_channel_ok; [done|apply length_insert].
  - rewrite (sim_info _ _ _ _ _ _ _ _ Hs1), (sim_chans _ _ _ _ _ _ _ _ Hs1).
    destruct (Z.ltb_spec (chmax (sc_info x)) ch); [by apply (locked_refused s x ch); [|lia]|].
    destruct (lookup_lt_is_Some_2 (sc_chans x) (Z.to_nat ch) ltac:(lia)) as [c Hc]. rewrite Hc. rewrite (at_lookup _ _ c) by (done || lia).
    cbn [mbind nx_bind]. destruct (dtype (ci_type c) =? NXSCOPE_TYPE_UNDEF).
    + do 2 eexists. split; [done|]. split; [done|]. simpl. rewrite app_nil_r.
      split; [by eapply sim_lock_to|done].
    + rewrite set_at_in by lia. cbn [mbind nx_bind].
      apply locked_channel_ok; [done|apply length_insert].
  - rewrite (sim_info _ _ _ _ _ _ _ _ Hs1), (sim_chans _ _ _ _ _ _ _ _ Hs1).
    destruct (Z.ltb_spec (chmax (sc_info x)) ch); [by apply (locked_refused s x ch); [|lia]|].
    destruct (lookup_lt_is_Some_2 (sc_chans x) (Z.to_nat ch) ltac:(lia)) as [c Hc]. rewrite Hc. rewrite (at_lookup _ _ c) by (done || lia).
    cbn [mbind nx_bind]. rewrite set_at_in by lia. cbn [mbind nx_bind].
    apply locked_channel_ok; [done|apply length_insert].
Qed.

Lemma step_ok s x o : sim false 0 s x -> op_valid (chmax (sc_info x)) o ->
  outcome false 0 s (run_op o s) (spec_step room x o).
Proof.
  intros Hs Hv. destruct o as [c| | | | | |q cs]; try (by apply config_ok).
  - destruct Hv as [Hv Hch].
    destruct (put_ok p io room rxlen sizes 0 s x c Hs Hv Hch) as (s' & E & Hs' & Hw).
    cbn [run_op spec_step]. rewrite E. pose proof (spec_put_code x (args_of c)).
    destruct (spec_put room x (args_of c)) as [r x']. do 2 eexists. split; [done|].
    simpl in *. split; [lia|]. split; [done|]. by rewrite app_nil_r, Hw.
  - destruct (stream_ok p io room rxlen room_pos sizes 0 s x Hs) as (ret & s' & E & Hr & Hs' & Ho).
    cbn [run_op spec_step]. rewrite E. destruct (spec_stream x) as [x' ms].
    do 2 eexists. split; [done|]. split; [simpl; unfold OK; lia|]. done.
  - destruct Hv. by apply recv_ok.
Qed.

Lemma session_ok os : forall s x, sim false 0 s x -> Forall (op_valid (chmax (sc_info x))) os ->
  let '(rets, x', ms) := spec_session room x os in
  exists s', run_session os s = NRet (rets, s') /\ sim false 0 s' x' /\
    out s' = out s ++ mjoin (frame_of p <$> ms).
Proof.
  induction os as [|o os IH]; intros s x Hs Hv; cbn [spec_session run_session].
  - exists s. simpl. by rewrite app_nil_r.
  - apply Forall_cons_1 in Hv as [Ho Hos].
    destruct (step_ok s x o Hs Ho) as (ret & s1 & E & Hret & Hs1 & Hout).
    pose proof (spec_step_info x o) as Hi.
    destruct (spec_step room x o) as [[r x1] ms]. simpl in *. rewrite E. cbn [mbind nx_bind].
    specialize (IH s1 x1 Hs1). rewrite Hi in IH. specialize (IH Hos).
    destruct (spec_session room x1 os) as [[rets x2] ms']. destruct IH as (s2 & E2 & Hs2 & Hout2).
    rewrite E2. cbn [mbind nx_bind]. exists s2. split; [by rewrite Hret|]. split; [done|].
    by rewrite Hout2, Hout, fmap_app, join_app, (assoc_L (++)).
Qed.
End serve.
