(* ===== verification/NxClient.v ===== *)
(** * NxClient: what a client hears, and how an instance comes to life

    A client that knows the sizes of the channels splits the line into frames and the stream
    frames into samples, and gets back exactly what was put.  [nxscope_init] establishes the
    relation with an empty scope, or gives back every block it allocated. *)

From S2P Require Import Prelude NxBase NxScope NxChan NxPut NxSpec NxFrame NxQueue NxSession NxServe.
#[local] Open Scope Z_scope.

(** ** Samples in a stream frame *)

(** The bytes of data and metadata of a sample, per channel. *)
Notation size_table := (list (nat * nat)).

Definition chan_size `{NxConfig} (c : nxscope_chinfo_s) : nat * nat :=
  (default 1%nat (type_width (dtype (ci_type c))) * Z.to_nat (ci_vdim c), Z.to_nat (ci_mlen c))%nat.

Fixpoint decode_samples (fuel : nat) (tab : size_table) (l : list Z) : option (list sample) :=
  match l, fuel with
  | [], _ => Some []
  | ch :: r, S fuel =>
      '(n, m) ← tab !! Z.to_nat ch;
      if (length r <? n + m)%nat then None
      else
        q ← decode_samples fuel tab (drop (n + m) r);
        Some (mkSample ch (take n r) (take m (drop n r)) :: q)
  | _, O => None
  end.

Definition sized (tab : size_table) (y : sample) : Prop :=
  tab !! Z.to_nat (sm_ch y) = Some (length (sm_data y), length (sm_meta y)).

Lemma decode_samples_ok tab q : forall fuel, Forall (sized tab) q -> (length q <= fuel)%nat ->
  decode_samples fuel tab (mjoin (sample_bytes <$> q)) = Some q.
Proof.
  induction q as [|[ch d m] q IH]; intros fuel Hq Hf; [by destruct fuel|].
  destruct fuel as [|fuel]; [simpl in Hf; lia|]. inv_Forall.
  cbn [fmap list_fmap mjoin list_join sample_bytes app sm_ch sm_data sm_meta decode_samples].
  unfold sized in *. simpl in H. rewrite H. cbn [mbind option_bind].
  rewrite (drop_app_length' (d ++ m) _ (length d + length m)) by (by rewrite length_app).
  rewrite IH by (done || (simpl in Hf; lia)). cbn [mbind option_bind].
  rewrite <- (assoc_L (++)), take_app_length, drop_app_length, take_app_length.
  match goal with |- context [Nat.ltb ?a ?b] => destruct (Nat.ltb_spec a b) as [Hlt|_] end; [|done].
  rewrite !length_app in Hlt. lia.
Qed.

(** ** The line *)

Inductive heard := HeardStream (overflow : bool) (l : list sample) | HeardOther (id : Z) (data : list Z).

Definition heard_of (m : message) : heard :=
  match m with
  | MsgStream o l => HeardStream o l
  | _ => HeardOther (message_id m) (message_data m)
  end.

Section client.
Context `{NxConfig} (p : nxscope_proto_s) `{!ProtoLaws p}.

Definition hear_frame (tab : size_table) (id : Z) (d : list Z) : option heard :=
  if id =? NXSCOPE_HDRID_STREAM then
    match d with
    | [] => None
    | f :: l => HeardStream (Z.testbit f 0) <$> decode_samples (length l) tab l
    end
  else Some (HeardOther id d).

(** Frame by frame, with the protocol's own [frame_get]. *)
Fixpoint hear (fuel : nat) (tab : size_table) (l : list Z) : option (list heard) :=
  match l, fuel with
  | [], _ => Some []
  | _, O => None
  | _, S fuel =>
      match frame_get (p_ops p) (p_priv p) l (zlen l) with
      | NRet (inr f) =>
          m ← hear_frame tab (fr_id f) (zslice (fr_data f) (fr_dlen f) l);
          ms ← hear fuel tab (drop (Z.to_nat (fr_drop f)) l);
          Some (m :: ms)
      | _ => None
      end
  end.

(** Messages of known channels, in frames whose length fits 16 bits. *)
Definition hearable (tab : size_table) (m : message) : Prop :=
  hdrlen p + zlen (message_data m) + footlen p < 2 ^ 16 /\
  match m with MsgStream _ q => Forall (sized tab) q | _ => True end.

Lemma hear_frame_ok tab m : hearable tab m ->
  hear_frame tab (message_id m) (message_data m) = Some (heard_of m).
Proof using Type.
  intros [_ Hm]. destruct m as [o q| | |]; try done. unfold hear_frame. simpl message_id.
  rewrite Z.eqb_refl. cbn [message_data].
  rewrite decode_samples_ok; [by destruct o|done|].
  clear. induction q as [|y q IH]; [done|].
  change (mjoin (sample_bytes <$> y :: q)) with (sample_bytes y ++ mjoin (sample_bytes <$> q)).
  rewrite length_app. unfold sample_bytes at 1. cbn [length]. lia.
Qed.

Lemma hear_ok tab ms : forall fuel, Forall (hearable tab) ms -> (length ms <= fuel)%nat ->
  zlen (mjoin (frame_of p <$> ms)) < 2 ^ 32 ->
  hear fuel tab (mjoin (frame_of p <$> ms)) = Some (heard_of <$> ms).
Proof.
  induction ms as [|m ms IH]; intros fuel Hms Hf Hlen; [by destruct fuel|].
  destruct fuel as [|fuel]; [simpl in Hf; lia|]. apply Forall_cons_1 in Hms as [Hm Hms].
  change (mjoin (frame_of p <$> m :: ms)) with (frame_of p m ++ mjoin (frame_of p <$> ms)) in *.
  rewrite zlen_app in Hlen. pose proof (zlen_nonneg (mjoin (frame_of p <$> ms))).
  pose proof (frame_len (p := p) (message_id m) (message_data m)) as Hl.
  pose proof (frame_data (p := p) (message_id m) (message_data m)) as Hd.
  pose proof (hdrlen_pos (p := p)). pose proof (footlen_pos (p := p)).
  pose proof (zlen_nonneg (message_data m)). unfold frame_of in *. fold (frame_of p) in *.
  set (f := frame (message_id m) (message_data m)) in *.
  destruct (f ++ mjoin (frame_of p <$> ms)) as [|b l] eqn:E.
  { apply (f_equal length) in E. rewrite length_app in E. simpl in E. unfold zlen in *. lia. }
  cbn [hear]. rewrite <- E at 1 2. unfold f.
  rewrite frame_get_ok; [|apply Hm|fold f; rewrite zlen_app; lia].
  cbn [fr_id fr_data fr_dlen fr_drop]. rewrite <- E. fold f.
  rewrite zslice_app_l by lia. rewrite Hd, hear_frame_ok by done. cbn [mbind option_bind].
  unfold zlen. rewrite Nat2Z.id, drop_app_length, IH; [done|done|simpl in Hf; lia|lia].
Qed.
End client.

(** ** Samples that are checked have the sizes of their channel *)

Section known.
Context `{NxConfig} (p : nxscope_proto_s) `{!ProtoLaws p} (room : Z).
Hypothesis sizes : hdrlen p + 1 + room + footlen p < 2 ^ 16.
Hypothesis rq_sizes : hdrlen p + 300 + footlen p < 2 ^ 16.
Hypothesis checked : CONFIG_DEBUG_FEATURES = true.

Definition known (tab : size_table) (x : scope) : Prop :=
  chan_size <$> sc_chans x = tab /\ Forall (sized tab) (sc_pend x) /\ used (sc_pend x) <= room.

Lemma sample_sized x c a : sc_chans x !! Z.to_nat (pt_ch a) = Some c -> fits c a = true ->
  put_valid a -> sized (chan_size <$> sc_chans x) (sample_of a).
Proof using Type.
  intros Hc Hf (Hd & Hd' & Hm & _). unfold sized, sample_of. cbn [sm_ch sm_data sm_meta].
  rewrite list_lookup_fmap, Hc. cbn [fmap option_fmap option_map]. f_equal. unfold fits in Hf. breflect.
  unfold chan_size. rewrite H0, H1, H2. f_equal.
  - unfold data_ok, sample_data in *. destruct (type_width (pt_type a)) as [w|].
    + unfold zlen in Hd. rewrite length_words by lia. simpl. lia.
    + destruct Hd as (_ & Hd1 & n & Hn). rewrite (length_text _ n) by done. simpl. lia.
  - unfold zlen in Hm. rewrite length_take. lia.
Qed.

Lemma known_put tab x a : known tab x -> put_valid a -> known tab (spec_put room x a).2.
Proof.
  intros (Ht & Hq & Hu) Hv. unfold spec_put. destruct (sc_on x); [|done].
  destruct (sc_chans x !! _) as [c|] eqn:Hc; [|done]. destruct (negb (ci_enable c =? 1)); [done|].
  rewrite checked. cbn [andb]. destruct (fits c a) eqn:Hf; cbn [negb]; [|done].
  pose proof (sample_sized x c a Hc Hf Hv) as Hs. rewrite Ht in Hs.
  assert (forall y, sc_chans y = sc_chans x -> sc_pend y = sc_pend x ->
    known tab (spec_enqueue room y a).2) as He.
  { intros y Ec Ep. unfold spec_enqueue. rewrite Ep.
    destruct (Z.leb_spec (used (sc_pend x ++ [sample_of a])) room); unfold known; simpl; rewrite Ec.
    - split; [done|]. split; [|done]. apply Forall_app_2; [done|]. by repeat constructor.
    - done. }
  unfold spec_divide. destruct CONFIG_LOGGING_NXSCOPE_DIVIDER; [|by apply He]. cbv zeta.
  destruct (_ mod _ =? 0); [by apply He|done].
Qed.

Lemma known_chans tab x l : known tab x -> chan_size <$> l = chan_size <$> sc_chans x ->
  known tab (sc_chans_to x l).
Proof using Type. intros (Ht & Hq & Hu) Hl. unfold known. simpl. by rewrite Hl. Qed.

Lemma known_insert tab x k c c' : known tab x -> sc_chans x !! k = Some c ->
  chan_size c' = chan_size c -> known tab (sc_chans_to x (<[k := c']> (sc_chans x))).
Proof using Type.
  intros Hk Hc Hs. apply known_chans; [done|]. rewrite list_fmap_insert, Hs.
  apply list_insert_id. by rewrite list_lookup_fmap, Hc.
Qed.

Lemma known_set tab x upd ok v : (forall c u, chan_size (upd c u) = chan_size c) ->
  known tab x -> known tab (spec_set upd ok x v).2.
Proof using Type.
  intros Hu Hk. unfold spec_set. destruct v as [ch v|vs|ch v].
  - destruct (sc_chans x !! Z.to_nat ch) as [c|] eqn:Hc; [|done]. destruct (ok v); [|done].
    by eapply known_insert.
  - case_bool_decide as Hl; [|done]. destruct (forallb ok vs); [|done]. apply known_chans; [done|].
    clear Hk. revert vs Hl. generalize (sc_chans x). induction l as [|c l IH]; intros [|u vs] Hl; try done.
    simpl in *. f_equal; [apply Hu|]. apply IH. lia.
  - destruct (ok v); [|done]. apply known_chans; [done|]. rewrite <- list_fmap_compose.
    apply list_fmap_ext. intros. apply Hu.
Qed.

Definition keeps_sizes (o : op) : Prop := match o with OpInit _ _ _ _ _ => False | _ => True end.

Lemma hearable_short tab m : match m with MsgStream _ _ => False | _ => True end -> hearable p tab m.
Proof using rq_sizes.
  intros Hm. split; [|by destruct m]. destruct m as [|c|c|ret]; try done.
  - change (zlen (message_data (MsgCmninfo c))) with 3. lia.
  - cbn [message_data]. rewrite !zlen_app, !zlen_cons. change (zlen []) with 0. unfold zlen.
    rewrite length_take. unfold CHAN_NAMELEN_MAX. lia.
  - cbn [message_data]. unfold zlen. rewrite length_le_bytes. lia.
Qed.

Lemma known_ack tab r : known tab r.2 ->
  known tab (spec_ack r).1.2 /\ Forall (hearable p tab) (spec_ack r).2.
Proof using rq_sizes.
  intros Hk. unfold spec_ack. simpl. split; [done|].
  destruct CONFIG_LOGGING_NXSCOPE_ACKFRAMES; [|constructor]. apply Forall_singleton. by apply hearable_short.
Qed.

Lemma known_step tab x o : known tab x -> keeps_sizes o ->
  match o with OpPut c => put_valid (args_of c) | _ => True end ->
  known tab (spec_step room x o).1.2 /\ Forall (hearable p tab) (spec_step room x o).2.
Proof.
  intros Hk Ho Hv. destruct o as [c| |b|ch nm ty vd ml|ch en|ch d|q cs]; cbn [spec_step]; try done.
  - pose proof (known_put tab x _ Hk Hv) as Hk'. by destruct (spec_put room x (args_of c)).
  - unfold spec_stream. destruct (sc_on x && _); [|done]. destruct Hk as (Ht & Hq & Hu). split.
    + split; [done|]. split; [by constructor|]. simpl. change (used []) with 0.
      etrans; [|exact Hu]. apply zlen_nonneg.
    + apply Forall_singleton. split; [|done]. cbn [message_data]. rewrite zlen_cons. unfold used in Hu. lia.
  - destruct (sc_chans x !! Z.to_nat ch) as [c|] eqn:Hc; [|done].
    destruct (_ =? _); [done|]. split; [|done]. by eapply known_insert.
  - destruct (sc_chans x !! Z.to_nat ch) as [c|] eqn:Hc; [|done].
    split; [|done]. by eapply known_insert.
  - destruct q as [|ch|v|v|v]; cbn [spec_request].
    + split; [done|]. apply Forall_singleton. by apply hearable_short.
    + destruct (sc_chans x !! Z.to_nat ch) as [c|]; [|done]. split; [done|].
      apply Forall_singleton. by apply hearable_short.
    + apply known_ack. by destruct (is_flag v).
    + by apply known_ack, known_set.
    + apply known_ack. destruct CONFIG_LOGGING_NXSCOPE_DIVIDER; [by apply known_set|done].
Qed.

Lemma known_session tab os : forall x, known tab x -> Forall keeps_sizes os ->
  Forall (fun o => match o with OpPut c => put_valid (args_of c) | _ => True end) os ->
  Forall (hearable p tab) (spec_session room x os).2.
Proof.
  induction os as [|o os IH]; intros x Hk Hs Hv; [done|]. inv_Forall. cbn [spec_session].
  destruct (known_step tab x o) as [Hk' Hm]; [done..|].
  destruct (spec_step room x o) as [[r x1] ms]. simpl in *. specialize (IH x1 Hk').
  destruct (spec_session room x1 os) as [[rs x2] ms']. simpl in *. apply Forall_app_2; [done|]. by apply IH.
Qed.
End known.

(** ** Initialisation *)

Section init.
Context `{NxConfig} {W : Type}.

Definition init_scope (cfg : nxscope_cfg_s W) : scope :=
  let n := Z.to_nat (cfg_channels cfg) in
  {| sc_info := mkCmninfo (cfg_channels cfg)
       (Z.lor (if CONFIG_LOGGING_NXSCOPE_DIVIDER then NXSCOPE_FLAGS_DIVIDER_SUPPORT else 0)
              (if CONFIG_LOGGING_NXSCOPE_ACKFRAMES then NXSCOPE_FLAGS_ACK_SUPPORT else 0))
       (cfg_rx_padding cfg);
     sc_chans := replicate n (mkChinfo 0 0 0 0 0 []);
     sc_count := if CONFIG_LOGGING_NXSCOPE_DIVIDER then replicate n 0 else [];
     sc_on := false; sc_pend := []; sc_over := false |}.

(** A configuration with one initialised protocol and interface, and room for samples. *)
Record cfg_ok (p : nxscope_proto_s) (io : nxscope_intf_s W) (room rxlen : Z) (cfg : nxscope_cfg_s W) :
    Prop := {
  cfg_cmd : cfg_intf_cmd cfg = io; cfg_stream : cfg_intf_stream cfg = io;
  cfg_pcmd : cfg_proto_cmd cfg = p; cfg_pstream : cfg_proto_stream cfg = p;
  cfg_cb : cfg_callbacks cfg = None;
  cfg_io : i_initialized io = true; cfg_p : p_initialized p = true;
  cfg_chan : 0 < cfg_channels cfg;
  cfg_slen : cfg_streambuf_len cfg = hdrlen p + 1 + room + footlen p;
  cfg_rlen : cfg_rxbuf_len cfg = rxlen }.

Lemma init_ok p `{!ProtoLaws p} io `{!PortLaws (i_ops io)} room rxlen cfg w :
  cfg_ok p io room rxlen cfg -> 0 <= room -> 0 < rxlen ->
  port_good (i_priv io) w -> inq (i_priv io) w = [] ->
  exists s live, nxscope_init cfg (fun _ => true) 0 w = NRet (OK, Some s, live) /\
    sim p io room rxlen false 0 s (init_scope cfg) /\ world s = w.
Proof.
  intros [Hc Hst Hpc Hps Hcb Hio Hp Hch Hs Hr] Hroom Hrx Hg Hq.
  pose proof (hdrlen_pos (p := p)). pose proof (footlen_pos (p := p)).
  unfold nxscope_init. rewrite Hc, Hst, Hpc, Hps, Hcb, Hio, Hp, Hs, Hr. cbn [negb].
  unfold with_block, DEBUGASSERT.
  destruct (Z.ltb_spec 0 (hdrlen p + 1 + room + footlen p)); [|lia].
  destruct (Z.ltb_spec 0 (cfg_channels cfg)); [|lia]. destruct (Z.ltb_spec 0 rxlen); [|lia].
  cbn [negb]. rewrite andb_false_r. cbv iota. cbn [Z.eqb negb].
  unfold nxscope_stream_reset. cbn [streambuf proto_stream].
  assert (set_at (replicate (Z.to_nat (hdrlen p + 1 + room + footlen p)) 0) (hdrlen p) 0 =
    NRet (replicate (Z.to_nat (hdrlen p + 1 + room + footlen p)) 0)) as Hset.
  { rewrite set_at_in by (rewrite length_replicate; lia). f_equal. apply list_insert_id.
    apply lookup_replicate. lia. }
  assert (replicate (Z.to_nat (hdrlen p + 1 + room + footlen p)) 0 =
    replicate (Z.to_nat (hdrlen p)) 0 ++ 0 :: replicate (Z.to_nat (room + footlen p)) 0) as Hrep.
  { change (0 :: replicate ?n 0) with (replicate (S n) 0). rewrite <- replicate_add. f_equal. lia. }
  assert (forall s l, sim p io room rxlen false 0 s (init_scope cfg) -> world s = w ->
    exists s' live, NRet (OK, Some s, l) = NRet (OK, Some s', live : list block) /\
      sim p io room rxlen false 0 s' (init_scope cfg) /\ world s' = w) as Hfin by (intros s l; eauto).
  destruct CONFIG_LOGGING_NXSCOPE_DIVIDER eqn:D, CONFIG_LOGGING_NXSCOPE_CRICHANNELS;
    rewrite Hset; cbn [mbind nx_bind]; (apply Hfin; [|done]);
    (constructor; simpl; unfold init_scope; rewrite ?D; simpl; try done;
     [exists (replicate (Z.to_nat (hdrlen p)) 0), (replicate (Z.to_nat (room + footlen p)) 0);
        split; [exact Hrep|unfold zlen; rewrite length_replicate; lia]
     |change (used []) with 0; lia|unfold zlen; rewrite length_replicate; lia
     |unfold zlen; rewrite length_replicate; lia
     |unfold zlen, CHINFO_DATA_SIZE_MAX, sizeof_chinfo, sizeof_char_ptr, CHAN_NAMELEN_MAX;
        rewrite length_replicate; lia
     |rewrite length_replicate; lia|..]; try (intros _; by rewrite !length_replicate)).
Qed.

(** The protocols and interfaces that [nxscope_init] is given were initialised. *)
Definition parts_ready (cfg : nxscope_cfg_s W) : bool :=
  i_initialized (cfg_intf_cmd cfg) && p_initialized (cfg_proto_cmd cfg) &&
  i_initialized (cfg_intf_stream cfg) && p_initialized (cfg_proto_stream cfg).

(** The blocks an instance has with these options. *)
Definition needed (b : block) : bool :=
  match b with
  | BCntr => CONFIG_LOGGING_NXSCOPE_DIVIDER
  | BCri => CONFIG_LOGGING_NXSCOPE_CRICHANNELS
  | _ => true
  end.

(** The lengths that are asserted, and a stream buffer that holds a header and the flags. *)
Record lengths_ok (cfg : nxscope_cfg_s W) : Prop := {
  len_channels : 0 < cfg_channels cfg; len_rx : 0 < cfg_rxbuf_len cfg;
  len_stream : 0 <= hdrlen (cfg_proto_stream cfg) < cfg_streambuf_len cfg }.

(** The result of [nxscope_init], from what failed. *)
Definition init_outcome (cfg : nxscope_cfg_s W) (zalloc : block -> bool) (mi ret : Z)
    (r : option (nxscope_s W)) (live : list block) : Prop :=
  match r with
  | None => live = [] /\
      ((parts_ready cfg = false /\ ret = - EINVAL) \/
       (parts_ready cfg = true /\ (exists b, needed b = true /\ zalloc b = false) /\ ret = - ENOMEM) \/
       (parts_ready cfg = true /\ (forall b, needed b = true -> zalloc b = true) /\ mi <> 0 /\ ret = mi))
  | Some _ => parts_ready cfg = true /\ (forall b, needed b = true -> zalloc b = true) /\ mi = 0 /\
      ret = OK /\ forall b, b ∈ live <-> needed b = true
  end.

Lemma with_block_outcome (P : init_result (W := W) -> Prop) zalloc b live k :
  (zalloc b = false -> P (init_errout (- ENOMEM) live)) ->
  (zalloc b = true -> P (k (b :: live))) -> P (with_block zalloc b live k).
Proof using Type. unfold with_block. destruct (zalloc b); auto. Qed.

Lemma opt_block_outcome (P : init_result (W := W) -> Prop) (c : bool) zalloc b live k :
  (c = true -> zalloc b = false -> P (init_errout (- ENOMEM) live)) ->
  ((c = true -> zalloc b = true) -> P (k (opt_block c b ++ live))) ->
  P ((if c then with_block zalloc b live else fun k => k live) k).
Proof using Type. intros Hf Ht. destruct c; [apply with_block_outcome; auto|apply Ht; done]. Qed.

(** The cleanup knows every block of an instance. *)
Lemma needed_freed b : b ∈ errout_frees <-> needed b = true.
Proof using Type.
  unfold errout_frees, opt_block, needed.
  destruct CONFIG_LOGGING_NXSCOPE_DIVIDER, CONFIG_LOGGING_NXSCOPE_CRICHANNELS, b; set_solver.
Qed.

(** Blocks of an instance. *)
Definition held (live : list block) : Prop := forall b, b ∈ live -> needed b = true.

Lemma held_nil : held [].
Proof using Type. by intros b ?%elem_of_nil. Qed.
Lemma held_cons b live : needed b = true -> held live -> held (b :: live).
Proof using Type. intros Hb Hl x [->|Hx]%elem_of_cons; [done|by apply Hl]. Qed.
Lemma held_opt c b live : (c = true -> needed b = true) -> held live -> held (opt_block c b ++ live).
Proof using Type. intros Hb Hl. destruct c; [|done]. apply held_cons; [by apply Hb|done]. Qed.

Lemma errout_clean live : held live -> free_blocks errout_frees live = [].
Proof using Type.
  intros Hl. unfold free_blocks. apply elem_of_nil_inv. intros b [Hb Hin]%list_elem_of_filter.
  by apply Hb, needed_freed, Hl.
Qed.

(** Whatever fails, nothing stays allocated and the code says what it was; a complete instance owns
    all its blocks. *)
Lemma init_blocks cfg zalloc mi (w : W) : lengths_ok cfg ->
  exists ret r live, nxscope_init cfg zalloc mi w = NRet (ret, r, live) /\ init_outcome cfg zalloc mi ret r live.
Proof using Type.
  intros [Hch Hrx Hst]. set (P := fun m : init_result (W := W) => exists ret r live, m = NRet (ret, r, live) /\ init_outcome cfg zalloc mi ret r live).
  change (P (nxscope_init cfg zalloc mi w)). unfold nxscope_init. destruct (parts_ready cfg) eqn:Hp.
  2: { assert (P (init_errout (- EINVAL) [])) as Hinv
         by (exists (- EINVAL), None, []; unfold init_outcome; rewrite Hp; auto).
       unfold parts_ready in Hp. do 4 (case_match; [done|]).
       repeat match goal with E : negb _ = false |- _ => apply negb_false_iff in E; rewrite E in Hp end. done. }
  assert (forall b live, needed b = true -> held live -> zalloc b = false -> P (init_errout (- ENOMEM) live)) as Hmem.
  { intros b live Hn Hl Hz. exists (- ENOMEM), None, []. unfold init_errout. rewrite errout_clean by done.
    split; [done|]. split; [done|]. right. left. split; [done|]. split; [by exists b|done]. }
  pose proof Hp as Hr. unfold parts_ready in Hr. rewrite !andb_true_iff in Hr. destruct Hr as [[[-> ->] ->] ->].
  unfold DEBUGASSERT. rewrite !(proj2 (Z.ltb_lt _ _)) by lia. cbn [negb]. rewrite !andb_false_r. cbv iota.
  assert (held [BChinfo; BStream]) as L2 by (by repeat apply held_cons; [..|apply held_nil]).
  apply with_block_outcome; intros Z1; [by apply (Hmem BStream); [|apply held_nil|]|].
  apply with_block_outcome; intros Z2; [apply (Hmem BChinfo); [done|by apply held_cons, held_nil|done]|].
  apply opt_block_outcome; [intros C3 Z3|intros Z3]; [by apply (Hmem BCntr)|].
  pose proof (held_opt _ BCntr _ (fun e => e) L2) as L3.
  apply with_block_outcome; intros Z4; [by apply (Hmem BRx)|]. pose proof (held_cons BRx _ eq_refl L3) as L4.
  apply with_block_outcome; intros Z5; [by apply (Hmem BTx)|]. pose proof (held_cons BTx _ eq_refl L4) as L5.
  apply opt_block_outcome; [intros C6 Z6|intros Z6]; [by apply (Hmem BCri)|].
  pose proof (held_opt _ BCri _ (fun e => e) L5) as L6.
  assert (forall b, needed b = true -> zalloc b = true) as Hall by (intros []; auto).
  destruct (Z.eqb_spec mi 0) as [->|Hmi]; cbn [negb].
  - unfold nxscope_stream_reset. cbn [streambuf proto_stream]. rewrite set_at_in by (rewrite length_replicate; lia).
    cbn [mbind nx_bind]. do 3 eexists. split; [reflexivity|]. repeat (split; [done|]). intros b. split; [apply L6|].
    unfold opt_block, needed. destruct CONFIG_LOGGING_NXSCOPE_DIVIDER, CONFIG_LOGGING_NXSCOPE_CRICHANNELS, b; set_solver.
  - exists mi, None, []. unfold init_errout. rewrite errout_clean by done. split; [done|]. split; [done|]. right. right. done.
Qed.
End init.
