(* ===== verification/NxSafe.v ===== *)
(** * NxSafe: no access outside the buffers

    The invariant of an instance over the serial protocol and an interface whose device may
    fail, write short and deliver anything.  Every operation keeps it and returns; for
    [nxscope_recv] this holds for all received bytes except those [recv_danger] describes. *)

From S2P Require Import Prelude NxBase NxProto NxScope NxChan NxPut NxSpec NxFrame NxQueue NxSession.
#[local] Open Scope Z_scope.

(** ** A call that returns, with a property of its result *)

Definition returns {A} (P : A -> Prop) (m : nx A) : Prop := exists a, m = NRet a /\ P a.

Lemma returns_ret {A} (P : A -> Prop) a : P a -> returns P (NRet a).
Proof. intros. by exists a. Qed.

Lemma returns_bind {A B} (P : A -> Prop) (Q : B -> Prop) m (k : A -> nx B) :
  returns P m -> (forall a, P a -> returns Q (k a)) -> returns Q (m ≫= k).
Proof. intros (a & -> & Ha) Hk. by apply Hk. Qed.

Lemma returns_mono {A} (P Q : A -> Prop) m : returns P m -> (forall a, P a -> Q a) -> returns Q m.
Proof. intros (a & -> & Ha) HPQ. exists a. auto. Qed.

Lemma returns_at {A} (l : list A) i : 0 <= i < Z.of_nat (length l) ->
  returns (fun c => l !! Z.to_nat i = Some c) (at_ l i).
Proof.
  intros Hi. destruct (lookup_lt_is_Some_2 l (Z.to_nat i) ltac:(lia)) as [c Hc].
  exists c. split; [|done]. apply at_lookup; [lia|done].
Qed.

Lemma returns_set_at {A} (l : list A) i c : 0 <= i < Z.of_nat (length l) ->
  returns (fun l' => l' = <[Z.to_nat i := c]> l) (set_at l i c).
Proof. intros Hi. rewrite set_at_in by done. by apply returns_ret. Qed.

Lemma returns_read_n l i n : 0 <= i -> 0 <= n -> i + n <= zlen l ->
  returns (fun d => zlen d = n /\ d = zslice i n l) (read_n l i n).
Proof.
  intros. rewrite read_n_slice by done. apply returns_ret. split; [|done]. by apply zlen_zslice.
Qed.

Lemma returns_write_n l i d : 0 <= i -> i + zlen d <= zlen l ->
  returns (fun l' => length l' = length l) (write_n l i d).
Proof.
  intros. unfold write_n. destruct (Z.leb_spec 0 i), (Z.leb_spec (i + zlen d) (zlen l)); try lia.
  apply returns_ret, length_zwrite.
Qed.

(** ** Looking for a frame in any bytes *)

Section get.
Context `{Crc16} `{!Crc16Laws}.

(** The last byte looked at, if it is a start byte, is where the search stopped. *)
Definition sof_found (buff : list Z) (bound : Z) (r : Z * option Z) : Prop :=
  match r.2 with
  | None => True
  | Some h => 0 <= h < bound /\ (r.1 = h \/ exists c, buff !! Z.to_nat h = Some c /\ c <> NXSCOPE_HDR_SOF)
  end.

Lemma find_sof_safe buff len fuel : forall i hdr, 4 <= len <= zlen buff -> len < 2 ^ 32 ->
  0 <= i -> len - 4 - i < Z.of_nat fuel ->
  (forall h, hdr = Some h -> 0 <= h < len - 4 /\ exists c, buff !! Z.to_nat h = Some c /\ c <> NXSCOPE_HDR_SOF) ->
  returns (sof_found buff (len - 4)) (find_sof fuel buff len i hdr).
Proof using Type.
  induction fuel as [|fuel IH]; intros i hdr Hlen H32 Hi Hf Hh; cbn [find_sof];
    unfold NXSCOPE_HDR_LEN; rewrite u32_small by lia; destruct (Z.ltb_spec i (len - 4)) as [Hlt|Hge];
    try lia.
  1, 3: apply returns_ret; unfold sof_found; simpl; destruct hdr as [h|]; [|done];
        destruct (Hh h eq_refl); split; [done|by right].
  eapply returns_bind; [apply returns_at; unfold zlen in *; lia|]. intros c Hc. cbv beta.
  destruct (Z.eqb_spec c NXSCOPE_HDR_SOF) as [|Hne].
  - apply returns_ret. unfold sof_found. simpl. split; [lia|auto].
  - apply IH; try lia. intros h [= <-]. split; [lia|by exists c].
Qed.

(** What is known about a frame: it lies in the buffer, and if its data are short they do. *)
Definition frame_inside (len : Z) (r : Z + nxscope_frame_s) : Prop :=
  match r with
  | inl _ => True
  | inr f => 0 <= fr_drop f <= len /\ 4 <= fr_data f < len /\
             (u16 (fr_dlen f) <= 300 -> fr_data f + u16 (fr_dlen f) + 2 <= len)
  end.

Lemma frame_get_safe h buff len : 4 <= len <= zlen buff -> len < 2 ^ 31 -> Forall is_byte buff ->
  returns (frame_inside len) (nxscope_frame_get h buff len).
Proof using Type.
  intros Hlen H31 Hby. unfold nxscope_frame_get. eapply returns_bind.
  { apply (find_sof_safe buff len); try lia; [unfold zlen in *; lia|done]. }
  intros [i [k|]] Hr; [|by apply returns_ret]. unfold sof_found in Hr. simpl in Hr.
  destruct Hr as (Hk & Hik). eapply returns_bind; [apply returns_at; unfold zlen in *; lia|].
  intros c Hc. cbv beta. destruct (Z.eqb_spec c NXSCOPE_HDR_SOF) as [->|]; cbn [negb]; [|by apply returns_ret].
  destruct Hik as [->|(c' & Hc' & Hne)]; [|congruence].
  eapply returns_bind; [apply returns_read_n; lia|]. intros l [Hl ->].
  pose proof (le_val_range (zslice (k + 1) 2 buff) (Forall_zslice _ _ _ _ Hby)) as Hv. rewrite Hl in Hv.
  change (256 ^ 2) with (2 ^ 16) in Hv. set (n := le_val (zslice (k + 1) 2 buff)) in *.
  rewrite u32_small by lia. destruct (Z.ltb_spec (len - k) n); [by apply returns_ret|].
  eapply returns_bind; [apply returns_read_n; lia|]. intros m [Hm _].
  destruct (negb (crc16xmodem m =? 0)); [by apply returns_ret|].
  eapply returns_bind; [apply returns_at; unfold zlen in *; lia|]. intros id _.
  apply returns_ret. unfold frame_inside, NXSCOPE_DATA_START, NXSCOPE_BASEFRAME_LEN, NXSCOPE_HDR_LEN,
    NXSCOPE_CRC_LEN. simpl. rewrite (u32_small (n + k)) by lia. split; [lia|]. split; [lia|].
  destruct (Z.lt_ge_cases n 6).
  - replace (u16 (u32 (n - (4 + 2)))) with (2 ^ 16 + (n - 6)); [lia|].
    unfold u16, u32. change (2 ^ 32) with (2 ^ 16 * 2 ^ 16).
    rewrite <- (Z.mod_unique (n - (4 + 2)) (2 ^ 16 * 2 ^ 16) (-1) (2 ^ 16 * 2 ^ 16 + (n - 6))) by lia.
    apply Z.mod_unique with (2 ^ 16 - 1); lia.
  - rewrite u32_small by lia. unfold u16. rewrite Z.mod_small by lia. lia.
Qed.
End get.

(** ** The invariant *)

(** A device keeps what is assumed of the world, returns no more than there is room for, and
    delivers bytes. *)
Class DeviceLaws {W} (ops : nxscope_intf_ops_s W) := {
  dev_ok : W -> Prop;
  send_dev h m w : dev_ok w -> dev_ok (send ops h m w).2;
  recv_dev h n w : 0 <= n -> dev_ok w -> let '(ret, d, w') := recv ops h n w in
    dev_ok w' /\ ret <= n /\ zlen d = Z.max 0 ret /\ Forall is_byte d;
}.

Section inv.
Context `{NxConfig} `{Crc16} `{!Crc16Laws} {W : Type} (io : nxscope_intf_s W) `{!DeviceLaws (i_ops io)}.
Implicit Types s : nxscope_s W.

Notation ser := (nxscope_proto_ser_init.2).

(** The callbacks do to the world what they like within that. *)
Definition cb_ok (cb : option (nxscope_callbacks_s W)) : Prop :=
  forall c, cb = Some c ->
    (forall f, cb_userid c = Some f -> forall id d w, dev_ok w -> dev_ok (f id d w).2) /\
    (forall f, cb_start c = Some f -> forall b w, dev_ok w -> dev_ok (f b w).2).

Record nx_inv (lk : bool) s : Prop := {
  inv_world_ok : dev_ok (world s);
  inv_cb : cb_ok (callbacks s);
  inv_pcmd : proto_cmd s = ser; inv_pstream : proto_stream s = ser; inv_io : intf_stream s = io;
  inv_chans : Z.of_nat (length (chinfo s)) = chmax (cmninfo s);
  inv_chmax : chmax (cmninfo s) <= 255;
  inv_cntr : CONFIG_LOGGING_NXSCOPE_DIVIDER = true -> length (cntr s) = length (chinfo s);
  inv_cursor : 5 <= stream_i s <= zlen (streambuf s);
  (** unless a finished frame waits to be sent again, there is room for the footer *)
  inv_room : stream_retry s = false -> stream_i s = 5 \/ stream_i s + 2 <= zlen (streambuf s);
  inv_slen : zlen (streambuf s) < 2 ^ 16;
  inv_lock : lock s = lk;
  inv_rx : 0 <= rxbuf_i s <= zlen (rxbuf s);
  inv_rxlen : zlen (rxbuf s) < 2 ^ 31;
  inv_bytes : Forall is_byte (rxbuf s);
  inv_tx : zlen (txbuf s) = 44 }.

Ltac inv_fields := match goal with Hs : nx_inv _ _ |- _ => destruct Hs end.
Ltac inv_same := inv_fields; constructor; simpl; try done.

(** The state after an operation that leaves the receive buffer alone. *)
Definition keeps (lk : bool) s (r : Z * nxscope_s W) : Prop :=
  nx_inv lk r.2 /\ rxbuf r.2 = rxbuf s /\ rxbuf_i r.2 = rxbuf_i s.

Lemma keeps_refl lk s ret : nx_inv lk s -> keeps lk s (ret, s).
Proof using Type. done. Qed.

Lemma inv_lock_to lk lk' s : nx_inv lk s -> nx_inv lk' (set_lock s lk').
Proof using Type. intros Hs. inv_same. Qed.

Lemma inv_world lk s w : nx_inv lk s -> dev_ok w -> nx_inv lk (set_world s w).
Proof using Type. intros Hs Hw. inv_same. Qed.

Lemma inv_txbuf lk s b : nx_inv lk s -> length b = length (txbuf s) -> nx_inv lk (set_txbuf s b).
Proof using Type. intros Hs Hb. inv_same. unfold zlen in *. by rewrite Hb. Qed.

Lemma inv_chinfo lk s l : nx_inv lk s -> length l = length (chinfo s) -> nx_inv lk (set_chinfo s l).
Proof using Type. intros Hs Hl. inv_same; by rewrite Hl. Qed.

Lemma inv_start lk s v : nx_inv lk s -> nx_inv lk (set_start s v).
Proof using Type. intros Hs. inv_same. Qed.

(** ** Replies *)

Lemma intf_send_safe lk s intf b i : nx_inv lk s -> 0 <= i <= zlen b ->
  returns (keeps lk s) (INTF_SEND s intf b i).
Proof using Type.
  intros Hs Hi. unfold INTF_SEND. eapply returns_bind; [apply returns_read_n; lia|]. intros m _.
  rewrite (inv_io _ _ Hs). pose proof (send_dev (i_priv intf) m (world s) (inv_world_ok _ _ Hs)) as Hw.
  destruct (send _ _ _ _) as [ret w]. apply returns_ret. split; [|done]. by apply inv_world.
Qed.

Lemma frame_send_safe lk s id data : nx_inv lk s -> data <> [] -> zlen data <= CHINFO_DATA_SIZE_MAX ->
  returns (keeps lk s) (nxscope_frame_send s id data).
Proof.
  intros Hs Hd Hlen. unfold CHINFO_DATA_SIZE_MAX, sizeof_chinfo, sizeof_char_ptr, CHAN_NAMELEN_MAX in Hlen.
  pose proof (inv_tx _ _ Hs) as Htx. pose proof (zlen_nonneg data).
  unfold nxscope_frame_send. rewrite (inv_pcmd _ _ Hs). change (footlen ser) with 2. change (hdrlen ser) with 4.
  destruct (_ && _); [by apply returns_ret|].
  rewrite <- (take_drop 4 (txbuf s)). set (g := take 4 (txbuf s)). set (r := drop 4 (txbuf s)).
  assert (zlen g = 4 /\ zlen r = 40) as [Hg Hr]
    by (unfold g, r, zlen in *; rewrite length_take, length_drop; lia).
  rewrite write_n_room by lia. cbn [mbind nx_bind]. unfold PROTO_FRAME_FINAL. rewrite (inv_pstream _ _ Hs).
  change (frame_final (p_ops ser)) with nxscope_frame_final.
  rewrite ser_final; [|done..| |lia].
  2: { unfold zlen in *. rewrite length_drop. lia. }
  cbn [mbind nx_bind]. change (OK <? 0) with false. cbv iota.
  set (b := ser_frame id data ++ _). assert (zlen b = 44) as Hb.
  { unfold b. rewrite zlen_app, zlen_ser_frame. unfold zlen in *. rewrite !length_drop. lia. }
  eapply returns_mono; [apply (intf_send_safe lk (set_txbuf s b)); [|simpl; lia]|].
  - apply inv_txbuf; [done|]. unfold zlen in *. lia.
  - intros [ret s'] (Hs' & Hr1 & Hr2). by split.
Qed.

Lemma ack_safe lk s ret : nx_inv lk s -> returns (fun s' => keeps lk s (ret, s')) (ack_if s ret).
Proof.
  intros Hs. unfold ack_if. destruct CONFIG_LOGGING_NXSCOPE_ACKFRAMES; [|by apply returns_ret].
  unfold nxscope_ack. eapply returns_bind; [by apply frame_send_safe|].
  intros [r s'] Hk. by apply returns_ret.
Qed.

(** ** Requests *)

(** A request for the channel behind the last one, which the checks let pass, or for the
    description of any channel that does not exist. *)
Definition request_danger s (id dlen buf : Z) : bool :=
  let byte k := default 0 (rxbuf s !! Z.to_nat (buf + k)) in
  ((id =? NXSCOPE_HDRID_CHINFO) && (dlen =? 1) && (chmax (cmninfo s) <=? byte 0)) ||
  (((id =? NXSCOPE_HDRID_ENABLE) || (id =? NXSCOPE_HDRID_DIV)) && (dlen =? 3) &&
   (byte 0 =? NXSCOPE_SET_REQ_SINGLE) && (byte 1 =? chmax (cmninfo s))).

Lemma write_channels_safe upd f : forall n i l, 0 <= i -> i + Z.of_nat n <= Z.of_nat (length l) ->
  (forall k, i <= k < i + Z.of_nat n -> returns (fun _ => True) (f k)) ->
  returns (fun l' => length l' = length l) (write_channels upd f n i l).
Proof using Type.
  induction n as [|n IH]; intros i l Hi Hn Hf; cbn [write_channels]; [by apply returns_ret|].
  eapply returns_bind; [apply Hf; lia|]. intros v _.
  eapply returns_bind; [apply returns_at; lia|]. intros c _.
  eapply returns_bind; [apply returns_set_at; lia|]. intros l' ->.
  eapply returns_mono; [apply IH; rewrite ?length_insert; try lia|].
  - intros k Hk. apply Hf. lia.
  - intros l'. by rewrite length_insert.
Qed.

Lemma check_bulk_safe buf data : forall n i, 0 <= data -> 0 <= i -> data + i + Z.of_nat n <= zlen buf ->
  returns (fun _ => True) (check_bulk buf data n i).
Proof using Type.
  induction n as [|n IH]; intros i Hd Hi Hn; cbn [check_bulk]; [by apply returns_ret|].
  eapply returns_bind; [apply returns_at; unfold zlen in *; lia|]. intros v _. cbv beta.
  destruct (_ && _); [by apply returns_ret|]. apply IH; lia.
Qed.

(** The frame of a request, in the receive buffer. *)
Record framed s (dlen buf : Z) : Prop := {
  framed_buf : 4 <= buf < rxbuf_i s;
  framed_len : dlen <= 300 -> buf + dlen + 2 <= rxbuf_i s }.

Lemma set_many_safe s upd f : nx_inv true s ->
  (forall k, 0 <= k < chmax (cmninfo s) -> returns (fun _ => True) (f k)) ->
  returns (keeps true s)
    (l ← write_channels upd f (Z.to_nat (chmax (cmninfo s))) 0 (chinfo s); NRet (OK, set_chinfo s l)).
Proof using Type.
  intros Hs Hf. pose proof (inv_chans _ _ Hs). eapply returns_bind.
  - apply write_channels_safe; [lia|lia|]. intros k Hk. apply Hf. lia.
  - intros l Hl. apply returns_ret. split; [|done]. by apply inv_chinfo.
Qed.

Lemma set_one_safe s upd ch (v : Z) : nx_inv true s -> 0 <= ch < chmax (cmninfo s) ->
  returns (keeps true s)
    (c ← at_ (chinfo s) ch; l ← set_at (chinfo s) ch (upd c v); NRet (OK, set_chinfo s l)).
Proof using Type.
  intros Hs Hch. pose proof (inv_chans _ _ Hs). eapply returns_bind; [apply returns_at; lia|].
  intros c _. eapply returns_bind; [apply returns_set_at; lia|]. intros l ->.
  apply returns_ret. split; [|done]. apply inv_chinfo; [done|apply length_insert].
Qed.

(** The common parts of both kinds of settings. *)
Ltac set_refused := apply returns_ret; by apply keeps_refl.
Ltac get_byte c Hc :=
  eapply returns_bind; [apply returns_at; unfold zlen in *; lia|]; intros c Hc; cbv beta in Hc; cbv beta.

Lemma rx_byte s i c : nx_inv true s -> rxbuf s !! i = Some c -> is_byte c.
Proof using Type. intros Hs Hc. eapply Forall_lookup_1; [by eapply inv_bytes|done]. Qed.

Lemma enable_req_safe s dlen buf : nx_inv true s -> framed s dlen buf ->
  request_danger s NXSCOPE_HDRID_ENABLE dlen buf = false ->
  returns (keeps true s) (nxscope_enable_req s buf dlen).
Proof using Type.
  intros Hs [Hb Hl] Hd. pose proof (inv_rx _ _ Hs). pose proof (inv_chans _ _ Hs).
  pose proof (inv_chmax _ _ Hs). unfold nxscope_enable_req, sizeof_set_frame, NXSCOPE_ENABLE_LEN.
  unfold request_danger in Hd. rewrite Z.add_0_r in Hd. get_byte a Ha. rewrite Ha in Hd. simpl in Hd.
  destruct (Z.eqb_spec a NXSCOPE_SET_REQ_SINGLE) as [Ea|Ea].
  { destruct (Z.eqb_spec dlen (3 + 1 - 1)) as [->|]; cbn [negb]; [|set_refused].
    get_byte en Hen. destruct (negb (_ =? 0) && _); [set_refused|]. get_byte ch Hch.
    rewrite Hch in Hd. simpl in Hd. pose proof (rx_byte _ _ _ Hs Hch) as Hby. unfold is_byte in Hby.
    destruct (Z.ltb_spec (chmax (cmninfo s)) ch); [set_refused|].
    apply (set_one_safe s ci_enable_to); [done|]. breflect. lia. }
  destruct (a =? NXSCOPE_SET_REQ_BULK).
  { destruct (Z.eqb_spec dlen (3 + 1 * chmax (cmninfo s) - 1)) as [->|]; cbn [negb]; [|set_refused].
    eapply returns_bind; [apply check_bulk_safe; lia|]. intros ok _. destruct (negb ok); [set_refused|].
    apply set_many_safe; [done|]. intros k Hk.
    eapply returns_mono; [apply returns_at; unfold zlen in *; lia|done]. }
  destruct (a =? NXSCOPE_SET_REQ_ALL); [|set_refused].
  destruct (Z.eqb_spec dlen (3 + 1 - 1)) as [->|]; cbn [negb]; [|set_refused].
  get_byte en Hen. destruct (negb (_ =? 0) && _); [set_refused|]. apply set_many_safe; [done|]. intros k Hk.
  eapply returns_mono; [apply returns_at; unfold zlen in *; lia|done].
Qed.

Lemma div_safe s dlen buf : nx_inv true s -> framed s dlen buf ->
  request_danger s NXSCOPE_HDRID_DIV dlen buf = false ->
  returns (keeps true s) (nxscope_div_req s buf dlen).
Proof using Type.
  intros Hs [Hb Hl] Hd. pose proof (inv_rx _ _ Hs). pose proof (inv_chans _ _ Hs).
  pose proof (inv_chmax _ _ Hs). unfold nxscope_div_req, sizeof_set_frame, NXSCOPE_DIV_LEN.
  unfold request_danger in Hd. rewrite Z.add_0_r in Hd. get_byte a Ha. rewrite Ha in Hd. simpl in Hd.
  destruct (Z.eqb_spec a NXSCOPE_SET_REQ_SINGLE) as [Ea|Ea].
  { destruct (Z.eqb_spec dlen (3 + 1 - 1)) as [->|]; cbn [negb]; [|set_refused].
    get_byte ch Hch. rewrite Hch in Hd. simpl in Hd.
    pose proof (rx_byte _ _ _ Hs Hch) as Hby. unfold is_byte in Hby.
    destruct (Z.ltb_spec (chmax (cmninfo s)) ch); [set_refused|]. get_byte v Hv.
    apply (set_one_safe s ci_div_to); [done|]. breflect. lia. }
  destruct (a =? NXSCOPE_SET_REQ_BULK).
  { destruct (Z.eqb_spec dlen (3 + 1 * chmax (cmninfo s) - 1)) as [->|]; cbn [negb]; [|set_refused].
    apply set_many_safe; [done|]. intros k Hk.
    eapply returns_mono; [apply returns_at; unfold zlen in *; lia|done]. }
  destruct (a =? NXSCOPE_SET_REQ_ALL); [|set_refused].
  destruct (Z.eqb_spec dlen (3 + 1 - 1)) as [->|]; cbn [negb]; [|set_refused].
  apply set_many_safe; [done|]. intros k Hk.
  eapply returns_mono; [apply returns_at; unfold zlen in *; lia|done].
Qed.

Lemma keeps_trans lk s s' ret r : keeps lk s (ret, s') -> keeps lk s' r -> keeps lk s r.
Proof using Type. intros (_ & E1 & E2) (Hs & E3 & E4). split; [done|]. simpl in *. by rewrite E3, E4. Qed.

Lemma start_set_safe lk s b : nx_inv lk s -> keeps lk s (nxscope_start_set s b).
Proof using Type.
  intros Hs. apply (inv_start _ _ (Z.b2z b)) in Hs. unfold nxscope_start_set.
  pose proof (inv_cb _ _ Hs) as Hcb. destruct (callbacks _) as [cb|]; [|by split].
  destruct (Hcb cb eq_refl) as [_ Hf]. destruct (cb_start cb) as [f|]; [|by split].
  pose proof (Hf f eq_refl b _ (inv_world_ok _ _ Hs)) as Hw. destruct (f _ _) as [ret w]. split; [|done]. by apply inv_world.
Qed.

Lemma start_req_safe s buf : nx_inv true s -> 4 <= buf < rxbuf_i s ->
  returns (keeps true s) (nxscope_start_req s buf).
Proof using Type.
  intros Hs Hb. pose proof (inv_rx _ _ Hs). unfold nxscope_start_req. get_byte a Ha.
  destruct (_ || _); [|set_refused]. apply returns_ret. by apply start_set_safe.
Qed.

Lemma chinfo_send_safe lk s ch : nx_inv lk s -> 0 <= ch < chmax (cmninfo s) ->
  returns (keeps lk s) (nxscope_chinfo_send s ch).
Proof.
  intros Hs Hch. pose proof (inv_chans _ _ Hs). unfold nxscope_chinfo_send.
  eapply returns_bind; [apply returns_at; lia|]. intros c _. apply frame_send_safe; [done..|].
  unfold CHINFO_DATA_SIZE_MAX, sizeof_chinfo, sizeof_char_ptr, CHAN_NAMELEN_MAX, zlen.
  rewrite !length_app, length_take. simpl. lia.
Qed.

(** A request that is answered with an acknowledgement. *)
Lemma acked_safe s m : returns (keeps true s) m ->
  returns (keeps true s) ('(ret, s) ← m; s ← ack_if s ret; NRet (ret, s)).
Proof.
  intros Hm. eapply returns_bind; [done|]. intros [ret s'] Hk.
  eapply returns_bind; [apply ack_safe, Hk|]. intros s2 Hk2. cbv beta in Hk2.
  apply returns_ret. by eapply keeps_trans.
Qed.

Lemma handle_safe s id dlen buf : nx_inv true s -> framed s dlen buf ->
  request_danger s id dlen buf = false -> returns (keeps true s) (handle_request s id dlen buf).
Proof.
  intros Hs Hf Hd. pose proof (inv_rx _ _ Hs). pose proof (framed_buf _ _ _ Hf). unfold handle_request.
  destruct (id =? NXSCOPE_HDRID_CMNINFO).
  { destruct (negb _); [set_refused|]. by apply frame_send_safe. }
  destruct (Z.eqb_spec id NXSCOPE_HDRID_CHINFO) as [->|].
  { destruct (Z.eqb_spec dlen 1) as [->|]; cbn [negb]; [|set_refused]. get_byte ch Hch.
    unfold request_danger in Hd. rewrite Z.add_0_r, Hch in Hd. simpl in Hd.
    pose proof (rx_byte _ _ _ Hs Hch) as Hby. unfold is_byte in Hby.
    apply chinfo_send_safe; [done|]. breflect. lia. }
  destruct (id =? NXSCOPE_HDRID_START).
  { destruct (negb _); [set_refused|]. by apply acked_safe, start_req_safe. }
  destruct (Z.eqb_spec id NXSCOPE_HDRID_ENABLE) as [->|].
  { by apply acked_safe, enable_req_safe. }
  destruct (Z.eqb_spec id NXSCOPE_HDRID_DIV) as [->|].
  { apply acked_safe. destruct CONFIG_LOGGING_NXSCOPE_DIVIDER; [|set_refused]. by apply div_safe. }
  pose proof (inv_cb _ _ Hs) as Hcb. destruct (callbacks s) as [cb|]; [|set_refused].
  destruct (Hcb cb eq_refl) as [Hu _]. destruct (cb_userid cb) as [f|]; [|set_refused].
  pose proof (Hu f eq_refl id (drop (Z.to_nat buf) (rxbuf s)) _ (inv_world_ok _ _ Hs)) as Hw.
  destruct (f _ _ _) as [ret w]. apply returns_ret. split; [|done]. by apply inv_world.
Qed.

(** ** Receiving *)

Lemma inv_rx_to lk s b i : nx_inv lk s -> length b = length (rxbuf s) -> Forall is_byte b ->
  0 <= i <= zlen b -> nx_inv lk (set_rx s b i).
Proof using Type. intros Hs Hb Hby Hi. inv_same. unfold zlen in *. by rewrite Hb. Qed.

Lemma write_n_bytes l i d : 0 <= i -> i + zlen d <= zlen l -> Forall is_byte l -> Forall is_byte d ->
  returns (fun l' => length l' = length l /\ Forall is_byte l') (write_n l i d).
Proof using Type.
  intros Hi Hl Hbl Hbd. unfold write_n. destruct (Z.leb_spec 0 i), (Z.leb_spec (i + zlen d) (zlen l)); try lia.
  apply returns_ret. split; [apply length_zwrite|]. unfold zwrite.
  repeat apply Forall_app_2; auto using Forall_take, Forall_drop.
Qed.

Lemma recv_loop_safe fuel : forall s, nx_inv false s -> zlen (rxbuf s) - rxbuf_i s < Z.of_nat fuel ->
  returns (fun r => nx_inv false r.2) (recv_loop fuel s).
Proof using DeviceLaws0.
  induction fuel as [|fuel IH]; intros s Hs Hf; pose proof (inv_rx _ _ Hs); [lia|].
  pose proof (inv_rxlen _ _ Hs). cbn [recv_loop]. unfold INTF_RECV. rewrite (inv_io _ _ Hs), u32_small by lia.
  pose proof (recv_dev (i_priv (intf_cmd s)) (zlen (rxbuf s) - rxbuf_i s) (world s) ltac:(lia) (inv_world_ok _ _ Hs)) as Hr.
  destruct (recv _ _ _ _) as [[ret d] w]. destruct Hr as (Hw & Hret & Hd & Hbd). simpl.
  eapply returns_bind; [apply write_n_bytes; [lia|lia|by eapply inv_bytes|done]|].
  intros b [Hlb Hbb]. assert (zlen b = zlen (rxbuf s)) as Hzb by (unfold zlen; by rewrite Hlb).
  destruct (Z.leb_spec ret 0).
  - apply returns_ret. simpl. apply inv_rx_to; [by apply inv_world|done|done|lia].
  - simpl. rewrite u32_small by lia. apply IH; simpl; [|lia].
    apply inv_rx_to; [apply inv_rx_to; [by apply inv_world|done|done|lia]|done|done|lia].
Qed.

(** What the line must not deliver: fewer bytes than a header, for which the search for a frame
    computes a length below zero, and the requests that name a channel that does not exist. *)
Definition recv_danger s : bool :=
  match recv_loop (S (length (rxbuf s))) s with
  | NRet (_, s1) =>
      ((0 <? rxbuf_i s1) && (rxbuf_i s1 <? 4)) ||
      match PROTO_FRAME_GET s1 (proto_cmd s1) (rxbuf s1) (rxbuf_i s1) with
      | NRet (inr f) => request_danger s1 (fr_id f) (u16 (fr_dlen f)) (fr_data f)
      | _ => false
      end
  | NFault _ => false
  end.

Lemma move_down_safe b k n : 0 <= k -> 0 <= n -> k + n <= zlen b -> Forall is_byte b ->
  returns (fun b' => length b' = length b /\ Forall is_byte b') (move_down b k n).
Proof using Type.
  intros Hk Hn Hb Hby. unfold move_down. eapply returns_bind; [by apply returns_read_n|].
  intros d [Hd ->]. apply write_n_bytes; [done|lia|done|by apply Forall_zslice].
Qed.

Lemma recv_handle_safe s id dlen buf : nx_inv false s -> framed s dlen buf ->
  request_danger s id dlen buf = false -> returns (keeps false s) (nxscope_recv_handle s id dlen buf).
Proof.
  intros Hs Hf Hd. unfold nxscope_recv_handle, nxscope_lock. rewrite (inv_lock _ _ Hs). cbn [mbind nx_bind].
  eapply returns_bind; [apply handle_safe; [by eapply inv_lock_to|by destruct Hf|exact Hd]|].
  intros [ret s'] (Hs' & E1 & E2). apply returns_ret. split; [by eapply inv_lock_to|done].
Qed.

Lemma recv_safe s : nx_inv false s -> recv_danger s = false ->
  returns (fun r => nx_inv false r.2) (nxscope_recv s).
Proof.
  intros Hs. unfold recv_danger, nxscope_recv. pose proof (inv_rx _ _ Hs).
  destruct (recv_loop_safe (S (length (rxbuf s))) s Hs) as ([ret s1] & -> & Hs1);
    [unfold zlen; lia|]. cbn [mbind nx_bind]. simpl in Hs1. clear dependent s.
  pose proof (inv_rx _ _ Hs1). pose proof (inv_rxlen _ _ Hs1). pose proof (inv_bytes _ _ Hs1).
  destruct (Z.eqb_spec (rxbuf_i s1) 0).
  { intros _. apply returns_ret. apply inv_rx_to; [done..|lia]. }
  intros Hd. breflect. destruct (frame_get_safe (p_priv (proto_cmd s1)) (rxbuf s1) (rxbuf_i s1))
    as (r & E & Hr); [|lia|done|].
  { destruct (Z.ltb_spec 0 (rxbuf_i s1)), (Z.ltb_spec (rxbuf_i s1) 4); try done; lia. }
  unfold PROTO_FRAME_GET in *. rewrite (inv_pstream _ _ Hs1) in *.
  change (frame_get (p_ops ser)) with nxscope_frame_get in *. rewrite E in *. cbn [mbind nx_bind].
  destruct r as [c|f]; [apply returns_ret; apply inv_rx_to; [done..|lia]|]. destruct Hr as (Hdrop & Hdata & Hlen).
  eapply returns_bind; [by apply recv_handle_safe|].
  intros [ret2 s2] (Hs2 & E1 & E2). simpl in E1, E2. simpl in Hs2. rewrite E1, E2.
  destruct (ret2 <? 0); [apply returns_ret; apply inv_rx_to; [done|by rewrite E1|done|lia]|].
  rewrite u32_small by lia. eapply (returns_bind (fun b => length b = length (rxbuf s1) /\ Forall is_byte b)).
  - destruct (0 <? rxbuf_i s1 - _); [|by apply returns_ret]. apply move_down_safe; [lia..|done].
  - intros b [Hb1 Hb2]. apply returns_ret. apply inv_rx_to; [done|by rewrite E1|done|].
    unfold zlen in *. rewrite Hb1. lia.
Qed.

(** ** The stream *)

Lemma frame_final_safe h id b i : 5 <= i -> i + 2 <= zlen b ->
  returns (fun r => r.1.1 = OK /\ length r.1.2 = length b /\ r.2 = i + 2) (nxscope_frame_final h id b i).
Proof using Type.
  intros Hi Hb. unfold nxscope_frame_final, NXSCOPE_HDR_LEN. destruct (Z.leb_spec i 4); [lia|].
  eapply returns_bind.
  { unfold nxscope_hdr_fill. apply returns_write_n; [lia|].
    rewrite zlen_cons, zlen_app. unfold zlen in *. rewrite length_le_bytes. simpl. lia. }
  intros b1 Hb1. unfold zlen in *. eapply returns_bind; [apply returns_read_n; unfold zlen; lia|]. intros m _.
  eapply returns_bind; [apply returns_set_at; lia|]. intros b2 ->.
  eapply returns_bind; [apply returns_set_at; rewrite length_insert; lia|]. intros b3 ->.
  apply returns_ret. simpl. by rewrite !length_insert.
Qed.

Lemma stream_send_safe lk s : nx_inv lk s -> 5 < stream_i s ->
  returns (fun r => length r.1.1.2 = length (streambuf s) /\ 5 <= r.1.2 <= zlen (streambuf s) /\
      exists w, dev_ok w /\ r.2 = set_retry (set_world s w) (r.1.1.1 <? 0))
    (nxscope_stream_send s (streambuf s) (stream_i s)).
Proof using Type.
  intros Hs Hi. pose proof (inv_cursor _ _ Hs). pose proof (inv_room _ _ Hs) as Hroom.
  unfold nxscope_stream_send, PROTO_FRAME_FINAL. rewrite (inv_pstream _ _ Hs).
  change (frame_final (p_ops ser)) with nxscope_frame_final.
  eapply (returns_bind (fun r => r.1.1 = OK /\ length r.1.2 = length (streambuf s) /\ stream_i s <= r.2 <= zlen (streambuf s))).
  { destruct (stream_retry s); cbn [negb].
    - apply returns_ret. simpl. split; [done|]. split; [done|lia].
    - specialize (Hroom eq_refl). eapply returns_mono; [apply frame_final_safe; lia|].
      intros r (Hr & Hl & ->). split; [done|]. split; [done|lia]. }
  intros [[ret b] i] (Hr & Hl & Hib). simpl in Hr, Hl, Hib. subst ret. change (OK <? 0) with false.
  rewrite andb_false_r. unfold INTF_SEND. rewrite read_n_slice by (unfold zlen in *; lia). cbn [mbind nx_bind].
  rewrite (inv_io _ _ Hs). pose proof (send_dev (i_priv io) (zslice 0 i b) (world s) (inv_world_ok _ _ Hs)) as Hw.
  destruct (send _ _ _ _) as [ret w]. cbn [mbind nx_bind].
  destruct (ret <? 0) eqn:E; apply returns_ret; simpl; (split; [done|]); (split; [lia|]); exists w;
    by rewrite E.
Qed.

Lemma inv_sent lk s w b i : nx_inv lk s -> dev_ok w -> length b = length (streambuf s) -> 5 <= i <= zlen (streambuf s) ->
  nx_inv lk (set_stream (set_retry (set_world s w) true) b i).
Proof using Type. intros Hs Hw Hb Hi. unfold zlen in Hi. inv_same; unfold zlen; rewrite Hb; done. Qed.

Lemma inv_reset lk s w b : nx_inv lk s -> dev_ok w -> length b = length (streambuf s) ->
  nx_inv lk (set_stream (set_retry (set_world s w) false) b 5).
Proof using Type.
  intros Hs Hw Hb. inv_same; unfold zlen in *; rewrite ?Hb; [lia| |done]. intros _. by left.
Qed.

Lemma stream_safe s : nx_inv false s -> returns (fun r => nx_inv false r.2) (nxscope_stream s).
Proof using Type.
  intros Hs. unfold nxscope_stream, nxscope_lock. rewrite (inv_lock _ _ Hs). cbn [mbind nx_bind].
  apply (inv_lock_to _ true) in Hs. set (t := set_lock s true) in *.
  destruct (start t =? 0); [apply returns_ret; by eapply inv_lock_to|].
  unfold nxscope_stream_empty. rewrite (inv_pstream _ _ Hs). change (hdrlen ser + 1) with 5.
  destruct (Z.ltb_spec 5 (stream_i t)); cbn [negb]; [|apply returns_ret; by eapply inv_lock_to].
  eapply returns_bind; [by eapply stream_send_safe|].
  intros [[[ret b] i] s'] (Hb & Hi & w & Hok & Hw). simpl in Hb, Hi, Hw. subst s'. simpl.
  destruct (ret <? 0); [apply returns_ret; eapply inv_lock_to; by apply inv_sent|].
  unfold nxscope_stream_reset. pose proof (inv_cursor _ _ Hs).
  cbn [streambuf proto_stream set_stream set_retry set_world]. rewrite (inv_pstream _ _ Hs).
  change (hdrlen ser) with 4. unfold zlen in *. rewrite set_at_in by lia. cbn [mbind nx_bind].
  apply returns_ret. eapply inv_lock_to. change (4 + 1) with 5.
  apply (inv_reset true t w); [done..|]. by rewrite length_insert.
Qed.

(** ** Puts *)

Lemma inv_cntr_to lk s l : nx_inv lk s -> length l = length (cntr s) -> nx_inv lk (set_cntr s l).
Proof using Type. intros Hs Hl. inv_same. intros. rewrite Hl. auto. Qed.

(** What the checks before a sample is stored establish. *)
Definition validated lk a (r : Z * nxscope_s W) : Prop :=
  nx_inv lk r.2 /\
  (r.1 = OK -> stream_i r.2 + zlen (sample_bytes (sample_of a)) + 2 <= zlen (streambuf r.2)).

Lemma refused_safe lk s a c : nx_inv lk s -> 0 < c -> returns (validated lk a) (NRet (- c, s)).
Proof using Type. intros Hs Hc. apply returns_ret. split; [done|]. unfold OK. simpl. lia. Qed.

Lemma overflow_safe lk s : nx_inv lk s -> returns (nx_inv lk) (nxscope_stream_overflow s).
Proof using Type.
  intros Hs. pose proof (inv_cursor _ _ Hs). unfold nxscope_stream_overflow. rewrite (inv_pstream _ _ Hs).
  change (hdrlen ser) with 4. unfold zlen in *. eapply returns_bind; [apply returns_at; lia|]. intros f _.
  eapply returns_bind; [apply returns_set_at; lia|]. intros b ->. apply returns_ret.
  inv_same; unfold zlen in *; rewrite ?length_insert; done.
Qed.

Lemma room_safe lk s a : nx_inv lk s -> put_valid a ->
  returns (validated lk a)
    (type_size ← type_size_of (pt_type a);
     if CONFIG_LOGGING_NXSCOPE_CRICHANNELS && cri (pt_type a) then
       let next_i := hdrlen (proto_stream s) + 1 + type_size * pt_d a + pt_mlen a + footlen (proto_stream s) in
       if CONFIG_DEBUG_FEATURES && (zlen (cribuf s) <? next_i) then NRet (- ENOBUFS, s) else NRet (OK, s)
     else
       let next_i := u32 (stream_i s + 1 + type_size * pt_d a + pt_mlen a + footlen (proto_stream s)) in
       if zlen (streambuf s) <? next_i then s ← nxscope_stream_overflow s; NRet (- ENOBUFS, s)
       else NRet (OK, s)).
Proof using Type.
  intros Hs Hv. pose proof (zlen_sample_of a Hv) as Hz. destruct Hv as (Hd & Hd1 & Hm & Hm1).
  rewrite (data_not_cri _ _ _ Hd), andb_false_r, (inv_pstream _ _ Hs). change (footlen ser) with 2.
  destruct (sample_data_size _ _ _ Hd) as (n & -> & Hn & Hn8); [lia|]. cbn [mbind nx_bind].
  pose proof (inv_cursor _ _ Hs). pose proof (inv_slen _ _ Hs).
  assert (n * pt_d a <= 8 * 255) by (apply Z.mul_le_mono_nonneg; lia).
  assert (0 <= n * pt_d a) by (apply Z.mul_nonneg_nonneg; lia).
  cbv zeta. rewrite u32_small by lia. destruct (Z.ltb_spec (zlen (streambuf s)) (stream_i s + 1 + n * pt_d a + pt_mlen a + 2)).
  - eapply returns_bind; [by apply overflow_safe|]. intros s' Hs'. by apply refused_safe.
  - apply returns_ret. split; [done|]. simpl. intros _. rewrite Hz, Hn. lia.
Qed.

Lemma validate_safe lk s a : nx_inv lk s -> put_valid a -> 0 <= pt_ch a < chmax (cmninfo s) ->
  returns (validated lk a) (nxscope_ch_validate s (pt_ch a) (pt_type a) (pt_d a) (pt_mlen a)).
Proof using Type.
  intros Hs Hv Hch. pose proof (inv_chans _ _ Hs). unfold nxscope_ch_validate.
  destruct (start s =? 0); [by apply refused_safe|].
  eapply returns_bind; [apply returns_at; lia|]. intros c _.
  destruct (negb _); [by apply refused_safe|].
  destruct (_ && (_ <? _)); [by apply refused_safe|]. do 3 (destruct (_ && negb _); [by apply refused_safe|]).
  eapply (returns_bind (fun r => nx_inv lk r.2)).
  { unfold divider_passes. destruct CONFIG_LOGGING_NXSCOPE_DIVIDER eqn:D; [|by apply returns_ret].
    pose proof (inv_cntr _ _ Hs D). eapply returns_bind; [apply returns_at; lia|]. intros n _.
    eapply returns_bind; [apply returns_set_at; lia|]. intros l ->. apply returns_ret.
    apply inv_cntr_to; [done|apply length_insert]. }
  intros [passes s1] Hs1. destruct (negb passes); [by apply refused_safe|]. by apply (room_safe lk s1).
Qed.

Lemma put_unlocked_safe lk s a : nx_inv lk s -> put_valid a -> 0 <= pt_ch a < chmax (cmninfo s) ->
  returns (fun r => nx_inv lk r.2)
    (put_unlocked s (pt_type a) (pt_ch a) (pt_val a) (pt_d a) (pt_meta a) (pt_mlen a)).
Proof using Type.
  intros Hs Hv Hch. unfold put_unlocked. eapply returns_bind; [by eapply validate_safe|].
  intros [ret s1] (Hs1 & Hroom). simpl in Hroom, Hs1.
  destruct (Z.eqb_spec ret OK) as [->|]; cbn [negb]; [|by apply returns_ret].
  specialize (Hroom eq_refl). pose proof Hv as (Hd & _). rewrite (data_not_cri _ _ _ Hd), andb_false_r.
  pose proof (inv_cursor _ _ Hs1). pose proof (inv_slen _ _ Hs1).
  rewrite <- (take_drop (Z.to_nat (stream_i s1)) (streambuf s1)).
  set (b := take _ (streambuf s1)). set (r := drop _ (streambuf s1)).
  assert (zlen b = stream_i s1 /\ zlen r = zlen (streambuf s1) - stream_i s1) as [Hb Hr]
    by (unfold b, r, zlen in *; rewrite length_take, length_drop; lia).
  rewrite <- Hb. rewrite put_sample_ok by (done || lia). cbn [mbind nx_bind]. apply returns_ret.
  assert (zlen (appended b (sample_bytes (sample_of a)) r) = zlen (streambuf s1)) as Hz.
  { unfold appended. rewrite !zlen_app. unfold zlen in *. rewrite length_drop. lia. }
  pose proof (zlen_nonneg (sample_bytes (sample_of a))).
  simpl. inv_same; rewrite Hz; [lia| |done]. intros _. right. lia.
Qed.

Lemma locked_safe lk s (m : nxscope_s W -> nx (Z * nxscope_s W)) :
  nx_inv false s -> (forall t, nx_inv true t -> cmninfo t = cmninfo s -> returns (fun r => nx_inv lk r.2) (m t)) ->
  returns (fun r => nx_inv false r.2) (s ← nxscope_lock s; '(ret, s) ← m s; NRet (ret, nxscope_unlock s)).
Proof using Type.
  intros Hs Hm. unfold nxscope_lock. rewrite (inv_lock _ _ Hs). cbn [mbind nx_bind].
  eapply returns_bind; [apply Hm; [by eapply inv_lock_to|done]|]. intros [ret s'] Hs'.
  apply returns_ret. by eapply inv_lock_to.
Qed.

Lemma put_safe s c : nx_inv false s -> call_valid c -> 0 <= pt_ch (args_of c) < chmax (cmninfo s) ->
  returns (fun r => nx_inv false r.2) (run_put c s).
Proof using Type.
  intros Hs Hv Hch. rewrite run_put_common by done. destruct Hv as [Hv _]. unfold nxscope_put_common_m.
  destruct CONFIG_LOGGING_NXSCOPE_DISABLE_PUTLOCK; [by apply put_unlocked_safe|].
  apply (locked_safe true s (fun s => put_unlocked s _ _ _ _ _ _)); [done|].
  intros t Ht E. apply put_unlocked_safe; [done..|by rewrite E].
Qed.

(** ** Configuration *)

Lemma chan_en_safe s ch en : nx_inv false s -> 0 <= ch -> ch <> chmax (cmninfo s) ->
  returns (fun r => nx_inv false r.2 /\ cmninfo r.2 = cmninfo s) (nxscope_chan_en s ch en).
Proof using Type.
  intros Hs Hch Hne. pose proof (inv_chans _ _ Hs). unfold nxscope_chan_en, nxscope_lock.
  rewrite (inv_lock _ _ Hs). cbn [mbind nx_bind]. pose proof (inv_lock_to _ true _ Hs) as Ht. simpl.
  destruct (Z.ltb_spec (chmax (cmninfo s)) ch); [apply returns_ret; split; [by eapply inv_lock_to|done]|].
  eapply returns_bind; [apply returns_at; lia|]. intros c _.
  destruct (_ =? _); [apply returns_ret; split; [by eapply inv_lock_to|done]|].
  eapply returns_bind; [apply returns_set_at; lia|]. intros l ->. apply returns_ret. split; [|done].
  eapply inv_lock_to, inv_chinfo; [done|apply length_insert].
Qed.

Lemma chan_div_safe s ch div : nx_inv false s -> 0 <= ch -> ch <> chmax (cmninfo s) ->
  returns (fun r => nx_inv false r.2) (nxscope_chan_div s ch div).
Proof using Type.
  intros Hs Hch Hne. pose proof (inv_chans _ _ Hs). unfold nxscope_chan_div, nxscope_lock.
  rewrite (inv_lock _ _ Hs). cbn [mbind nx_bind]. pose proof (inv_lock_to _ true _ Hs) as Ht. simpl.
  destruct (Z.ltb_spec (chmax (cmninfo s)) ch); [apply returns_ret; by eapply inv_lock_to|].
  eapply returns_bind; [apply returns_at; lia|]. intros c _.
  eapply returns_bind; [apply returns_set_at; lia|]. intros l ->. apply returns_ret.
  eapply inv_lock_to, inv_chinfo; [done|apply length_insert].
Qed.

Lemma chan_init_safe s ch name type vdim mlen : nx_inv false s -> 0 <= ch -> ch <> chmax (cmninfo s) ->
  (NXSCOPE_IS_CRICHAN type = true -> CONFIG_LOGGING_NXSCOPE_CRICHANNELS = true) ->
  returns (fun r => nx_inv false r.2) (nxscope_chan_init s ch name type vdim mlen).
Proof using Type.
  intros Hs Hch Hne Hcri. pose proof (inv_chans _ _ Hs). unfold nxscope_chan_init, nxscope_lock.
  destruct (Z.ltb_spec (chmax (cmninfo s)) ch); [by apply returns_ret|].
  rewrite (inv_lock _ _ Hs). cbn [mbind nx_bind]. pose proof (inv_lock_to _ true _ Hs) as Ht. simpl.
  destruct (NXSCOPE_IS_CRICHAN type); [rewrite Hcri by done; cbn [negb andb]|rewrite andb_false_r];
    (eapply returns_bind; [apply returns_set_at; lia|]); intros l ->; apply returns_ret;
    (eapply inv_lock_to, inv_chinfo; [done|apply length_insert]).
Qed.

Lemma chan_all_en_safe n en : forall s i ret, nx_inv false s -> 0 <= i ->
  i + Z.of_nat n <= chmax (cmninfo s) ->
  returns (fun r => nx_inv false r.2) (chan_all_en_loop s n i en ret).
Proof using Type.
  induction n as [|n IH]; intros s i ret Hs Hi Hn; cbn [chan_all_en_loop]; [by apply returns_ret|].
  eapply returns_bind; [apply chan_en_safe; [done|lia|lia]|]. intros [r s1] [Hs1 E]. simpl in *.
  apply IH; [done|lia|]. rewrite E. lia.
Qed.

(** ** Any calls, with any device *)

Inductive call :=
| CallPut (c : put_call) | CallStream | CallRecv | CallStart (b : bool)
| CallInit (ch : Z) (name : list Z) (type vdim mlen : Z)
| CallEn (ch : Z) (en : bool) | CallDiv (ch div : Z) | CallAllEn (en : bool).

Definition run_call (c : call) s : nx (Z * nxscope_s W) :=
  match c with
  | CallPut c => run_put c s
  | CallStream => nxscope_stream s
  | CallRecv => nxscope_recv s
  | CallStart b => nxscope_stream_start s b
  | CallInit ch name type vdim mlen => nxscope_chan_init s ch name type vdim mlen
  | CallEn ch en => nxscope_chan_en s ch en
  | CallDiv ch div => nxscope_chan_div s ch div
  | CallAllEn en => nxscope_chan_all_en s en
  end.

(** The calls that are safe: the channel behind the last one must not be named, a critical
    channel only where it is supported, and the line must not deliver what [recv_danger] says. *)
Definition allowed s (c : call) : Prop :=
  let n := chmax (cmninfo s) in
  match c with
  | CallPut c => call_valid c /\ 0 <= pt_ch (args_of c) < n
  | CallRecv => recv_danger s = false
  | CallInit ch _ type _ _ => 0 <= ch /\ ch <> n /\
      (NXSCOPE_IS_CRICHAN type = true -> CONFIG_LOGGING_NXSCOPE_CRICHANNELS = true)
  | CallEn ch _ | CallDiv ch _ => 0 <= ch /\ ch <> n
  | CallStream | CallStart _ | CallAllEn _ => True
  end.

Lemma call_safe s c : nx_inv false s -> allowed s c -> returns (fun r => nx_inv false r.2) (run_call c s).
Proof.
  intros Hs Hc. destruct c as [c| | |b|ch nm ty vd ml|ch en|ch d|en]; simpl in *.
  - destruct Hc. by apply put_safe.
  - by apply stream_safe.
  - by apply recv_safe.
  - unfold nxscope_stream_start, nxscope_lock. rewrite (inv_lock _ _ Hs). cbn [mbind nx_bind].
    destruct (start_set_safe true (set_lock s true) b) as (Ht & _); [by eapply inv_lock_to|].
    destruct (nxscope_start_set _ _) as [ret t]. apply returns_ret. by eapply inv_lock_to.
  - destruct Hc as (? & ? & ?). by apply chan_init_safe.
  - destruct Hc. eapply returns_mono; [by apply chan_en_safe|]. by intros r [].
  - destruct Hc. by apply chan_div_safe.
  - pose proof (inv_chans _ _ Hs). apply chan_all_en_safe; [done|lia|lia].
Qed.

(** The states of an instance: between two calls the world does what it likes. *)
Inductive reachable (s0 : nxscope_s W) : nxscope_s W -> Prop :=
| reach_start : reachable s0 s0
| reach_world s w : reachable s0 s -> dev_ok w -> reachable s0 (set_world s w)
| reach_call s c ret s' : reachable s0 s -> allowed s c -> run_call c s = NRet (ret, s') ->
    reachable s0 s'.

Lemma nx_reachable_inv s0 s : nx_inv false s0 -> reachable s0 s -> nx_inv false s.
Proof.
  intros Hs0. induction 1 as [|s w _ IH Hw|s c ret s' _ IH Hc E]; [done|by apply inv_world|].
  destruct (call_safe s c IH Hc) as ([ret' t] & E' & Ht). rewrite E in E'. by injection E' as -> ->.
Qed.

(** ** The start *)

Record cfg_safe (cfg : nxscope_cfg_s W) : Prop := {
  safe_cb : cb_ok (cfg_callbacks cfg);
  safe_stream : cfg_intf_stream cfg = io;
  safe_pcmd : cfg_proto_cmd cfg = ser; safe_pstream : cfg_proto_stream cfg = ser;
  safe_chan : 0 < cfg_channels cfg <= 255;
  safe_slen : 5 <= cfg_streambuf_len cfg < 2 ^ 16;
  safe_rlen : 0 < cfg_rxbuf_len cfg < 2 ^ 31 }.

Lemma with_block_safe (P : Z * option (nxscope_s W) * list block -> Prop) zalloc b live k :
  (forall ret l, P (ret, None, l)) -> (forall live, returns P (k live)) ->
  returns P (with_block zalloc b live k).
Proof using Type. intros HN Hk. unfold with_block. destruct (zalloc b); [done|]. by apply returns_ret. Qed.

Lemma opt_block_safe (P : Z * option (nxscope_s W) * list block -> Prop) (c : bool) zalloc b live k :
  (forall ret l, P (ret, None, l)) -> (forall live, returns P (k live)) ->
  returns P ((if c then with_block zalloc b live else fun k => k live) k).
Proof using Type. intros HN Hk. destruct c; [by apply with_block_safe|done]. Qed.

Lemma nx_init_safe cfg zalloc mi w : cfg_safe cfg -> dev_ok w ->
  returns (fun r => forall s, r.1.2 = Some s -> nx_inv false s) (nxscope_init cfg zalloc mi w).
Proof using Type.
  intros [Hcb Hio Hpc Hps Hch Hsl Hrl] Hw. unfold nxscope_init. rewrite Hpc, Hps.
  set (P := fun r : Z * option (nxscope_s W) * list block => forall s, r.1.2 = Some s -> nx_inv false s).
  assert (forall ret l, P (ret, None, l)) as HN by done.
  assert (forall ret l, returns P (init_errout ret l)) as He by (intros; by apply returns_ret).
  do 3 (destruct (negb _); [apply He|]). unfold DEBUGASSERT.
  destruct (Z.ltb_spec 0 (cfg_streambuf_len cfg)), (Z.ltb_spec 0 (cfg_channels cfg)),
    (Z.ltb_spec 0 (cfg_rxbuf_len cfg)); try lia. cbn [negb]. rewrite !andb_false_r.
  apply with_block_safe; [done|]. intros l0. apply with_block_safe; [done|]. intros l1.
  apply opt_block_safe; [done|]. intros l2. apply with_block_safe; [done|]. intros l3.
  apply with_block_safe; [done|]. intros l4. apply opt_block_safe; [done|]. intros l5.
  destruct (negb _); [apply He|]. unfold nxscope_stream_reset. cbn [streambuf proto_stream].
  change (hdrlen ser) with 4. rewrite set_at_in by (rewrite length_replicate; lia). cbn [mbind nx_bind].
  apply returns_ret. intros s [= <-]. unfold CHINFO_DATA_SIZE_MAX, sizeof_chinfo, sizeof_char_ptr, CHAN_NAMELEN_MAX.
  constructor; simpl; unfold zlen; rewrite ?length_insert, ?length_replicate; try done; try lia.
  - intros ->. by rewrite length_replicate.
  - apply Forall_replicate. unfold is_byte. lia.
Qed.
End inv.
