(* ===== verification/NxPort.v ===== *)
(** * NxPort: the serial interface keeps the contracts

    A port that takes what is written and delivers what was fed satisfies the contract the
    session is verified against; any port, with errors and short writes, satisfies the weaker
    one the invariant needs. *)

From S2P Require Import Prelude NxBase NxScope NxIntf NxSpec NxFrame NxQueue NxSession NxSafe.
#[local] Open Scope Z_scope.

Definition rd_bytes (r : rd) : list Z := match r with RdData l => l | RdErr _ => [] end.

(** A port that is open, does not block and takes all that is written. *)
Definition ser_good (h : nat) (w : ser_world) : Prop :=
  exists p, w !! h = Some p /\ sp_nonblock p = true /\ sp_wr p = [].

Definition ser_feed (h : nat) (cs : list (list Z)) (w : ser_world) : ser_world :=
  let p := port h w in
  <[h := mkPort (sp_nonblock p) (sp_rd p ++ (RdData <$> cs)) (sp_wr p) (sp_line p)]> w.

Lemma port_some h w p : w !! h = Some p -> port h w = p.
Proof. intros E. unfold port. by rewrite E. Qed.

Lemma port_set h (w : ser_world) p p' : w !! h = Some p -> <[h := p']> w !! h = Some p'.
Proof. intros E. apply list_lookup_insert_eq. by eapply lookup_lt_Some. Qed.

(** A port that is updated in a good way. *)
Lemma good_set h w p p' : w !! h = Some p -> sp_nonblock p' = true -> sp_wr p' = [] ->
  ser_good h (<[h := p']> w) /\ port h (<[h := p']> w) = p'.
Proof.
  intros E Hn Hw. pose proof (port_set h w p p' E) as E'. split; [by exists p'|]. by apply port_some.
Qed.

#[export] Program Instance ser_port_laws : PortLaws g_nxscope_ser_ops := {
  port_good := ser_good;
  line h w := sp_line (port h w);
  inq h w := rd_bytes <$> sp_rd (port h w);
  feed := ser_feed }.
Next Obligation.
  intros h m w (p & E & Hn & Hw). cbn [send g_nxscope_ser_ops]. unfold nxscope_ser_send, port_write.
  rewrite (port_some _ _ _ E), Hw. eexists. split; [done|].
  by edestruct (good_set h w p) as [Hg ->].
Qed.
Next Obligation.
  intros h n w (p & E & Hn & Hw) Hq. cbn [recv g_nxscope_ser_ops]. unfold nxscope_ser_recv, port_read.
  rewrite (port_some _ _ _ E) in *. apply fmap_nil_inv in Hq. rewrite Hq, Hn. cbn [andb Z.ltb Z.compare].
  rewrite Hn. eexists. split; [done|].
  edestruct (good_set h w p p) as [Hg ->]; [done..|]. by rewrite Hq.
Qed.
Next Obligation.
  intros h n w c cs (p & E & Hn & Hw) Hq Hc Hlen. cbn [recv g_nxscope_ser_ops].
  unfold nxscope_ser_recv, port_read. rewrite (port_some _ _ _ E) in *.
  destruct (sp_rd p) as [|[l|e] i]; [done| |]; simpl in Hq; simplify_eq. unfold zlen in Hlen.
  rewrite take_ge, drop_ge by lia. destruct (Z.ltb_spec (zlen c) 0) as [|_]; [unfold zlen in *; lia|].
  cbn [andb]. eexists. split; [done|]. by edestruct (good_set h w p) as [Hg ->].
Qed.
Next Obligation.
  intros h cs w (p & E & Hn & Hw) Hq. unfold ser_feed. rewrite (port_some _ _ _ E) in *.
  edestruct (good_set h w p) as [Hg ->]; [done|exact Hn|exact Hw|].
  split; [done|]. split; [done|]. simpl. rewrite fmap_app, Hq. clear. simpl.
  induction cs as [|c cs IH]; [done|]. simpl. by f_equal.
Qed.

(** Whatever the devices do: they deliver bytes. *)
Definition ser_bytes (w : ser_world) : Prop :=
  Forall (fun p => Forall (fun r => Forall is_byte (rd_bytes r)) (sp_rd p)) w.

Lemma port_bytes h w : ser_bytes w -> Forall (fun r => Forall is_byte (rd_bytes r)) (sp_rd (port h w)).
Proof.
  intros Hw. unfold port. destruct (w !! h) as [p|] eqn:E; [|constructor].
  by eapply Forall_lookup_1 in Hw.
Qed.

Lemma set_bytes h w p : ser_bytes w -> Forall (fun r => Forall is_byte (rd_bytes r)) (sp_rd p) ->
  ser_bytes (<[h := p]> w).
Proof. intros Hw Hp. by apply Forall_insert. Qed.

#[export] Program Instance ser_device : DeviceLaws g_nxscope_ser_ops := { dev_ok := ser_bytes }.
Next Obligation.
  intros h m w Hw. pose proof (port_bytes h w Hw) as Hp. cbn [send g_nxscope_ser_ops].
  unfold nxscope_ser_send, port_write. destruct (sp_wr (port h w)) as [|[n|e] i]; by apply set_bytes.
Qed.
Next Obligation.
  intros h n w Hn Hw. pose proof (port_bytes h w Hw) as Hp. cbn [recv g_nxscope_ser_ops].
  unfold nxscope_ser_recv, port_read. destruct (sp_rd (port h w)) as [|[l|e] i] eqn:E.
  - destruct (sp_nonblock (port h w)); cbn [sp_nonblock andb Z.ltb Z.compare];
      (split; [by apply set_bytes; rewrite ?E|]); (split; [repeat case_match; lia|]); (split; [|constructor]);
      repeat case_match; done.
  - apply Forall_cons_1 in Hp as [Hl Hi]. cbn [rd_bytes] in Hl. set (k := Z.to_nat n).
    destruct (Z.ltb_spec (zlen (take k l)) 0) as [|_]; [unfold zlen in *; lia|]. cbn [andb].
    assert (zlen (take k l) <= n) by (unfold zlen, k; rewrite length_take; lia).
    split; [|split; [done|split; [|by apply Forall_take]]].
    + apply set_bytes; [done|]. simpl. pose proof (Forall_drop _ k _ Hl).
      destruct (drop k l); [done|]. by constructor.
    + rewrite Z.max_r; [done|apply zlen_nonneg].
  - apply Forall_cons_1 in Hp as [_ Hi].
    split; [by apply set_bytes|]. split; [repeat case_match; lia|]. split; [|constructor]. repeat case_match; done.
Qed.
