(* ===== verification/NxTheorems.v ===== *)
(** * NxTheorems: what the theorems about nxscope say

    Sessions over any protocol and interface that keep their contracts, the samples a client
    gets back, the freedom from faults over any serial device, frames and initialisation. *)

From S2P Require Import Prelude NxBase NxProto NxScope NxChan NxPut NxIntf NxSpec NxFrame.
From S2P Require Import NxQueue NxSession NxServe NxClient NxSafe NxPort.
#[local] Open Scope Z_scope.

(** ** Samples are neither lost nor doubled *)

Definition stream_samples (m : message) : list sample :=
  match m with MsgStream _ q => q | _ => [] end.

Definition heard_samples (h : heard) : list sample :=
  match h with HeardStream _ q => q | HeardOther _ _ => [] end.

(** The sample of a put that returned [OK]. *)
Definition accepted `{NxConfig} (o : op) (ret : Z) : list sample :=
  match o with OpPut c => if ret =? OK then [sample_of (args_of c)] else [] | _ => [] end.

Section delivery.
Context `{NxConfig} (room : Z).

Lemma enqueue_delivery x a : let '(r, x') := spec_enqueue room x a in
  sc_pend x ++ (if r =? OK then [sample_of a] else []) = sc_pend x'.
Proof using Type. unfold spec_enqueue. destruct (_ <=? room); [done|]. apply app_nil_r. Qed.

Lemma put_delivery x a : let '(r, x') := spec_put room x a in
  sc_pend x ++ (if r =? OK then [sample_of a] else []) = sc_pend x'.
Proof using Type.
  unfold spec_put. destruct (sc_on x); [|apply app_nil_r].
  destruct (sc_chans x !! _) as [c|]; [|apply app_nil_r].
  destruct (negb _); [apply app_nil_r|]. destruct (_ && _); [apply app_nil_r|]. unfold spec_divide.
  destruct CONFIG_LOGGING_NXSCOPE_DIVIDER; [|apply enqueue_delivery]. cbv zeta.
  destruct (_ mod _ =? 0); [|apply app_nil_r]. apply (enqueue_delivery (sc_count_to x _)).
Qed.

Lemma set_pend upd ok x v : sc_pend (spec_set upd ok x v).2 = sc_pend x.
Proof using Type.
  unfold spec_set. destruct v as [ch v|vs|ch v];
    [destruct (sc_chans x !! Z.to_nat ch); [destruct (ok v)|]|destruct (_ && _)|destruct (ok v)]; done.
Qed.

Lemma request_delivery x q : let '(r, x', ms) := spec_request x q in
  sc_pend x' = sc_pend x /\ mjoin (stream_samples <$> ms) = [].
Proof using Type.
  destruct q as [|ch|v|v|v]; cbn [spec_request]; unfold spec_ack; try done.
  - by destruct (sc_chans x !! _).
  - destruct (is_flag v); simpl; by destruct CONFIG_LOGGING_NXSCOPE_ACKFRAMES.
  - rewrite set_pend. by destruct CONFIG_LOGGING_NXSCOPE_ACKFRAMES.
  - destruct CONFIG_LOGGING_NXSCOPE_DIVIDER; rewrite ?set_pend; by destruct CONFIG_LOGGING_NXSCOPE_ACKFRAMES.
Qed.

Lemma step_delivery x o : let '(r, x', ms) := spec_step room x o in
  sc_pend x ++ accepted o r = mjoin (stream_samples <$> ms) ++ sc_pend x'.
Proof using Type.
  destruct o as [c| |b|ch nm ty vd ml|ch en|ch d|q cs]; cbn [spec_step accepted].
  - pose proof (put_delivery x (args_of c)). by destruct (spec_put room x (args_of c)).
  - unfold spec_stream. destruct (_ && _); [|apply app_nil_r]. simpl. by rewrite !app_nil_r.
  - apply app_nil_r.
  - destruct (sc_chans x !! _); apply app_nil_r.
  - destruct (sc_chans x !! _); [destruct (_ =? _)|]; apply app_nil_r.
  - destruct (sc_chans x !! _); apply app_nil_r.
  - pose proof (request_delivery x q) as Hq. destruct (spec_request x q) as [[r x'] ms].
    destruct Hq as [-> ->]. apply app_nil_r.
Qed.

Lemma session_delivery os : forall x, let '(rets, x', ms) := spec_session room x os in
  sc_pend x ++ mjoin (zip_with accepted os rets) = mjoin (stream_samples <$> ms) ++ sc_pend x'.
Proof using Type.
  induction os as [|o os IH]; intros x; cbn [spec_session]; [apply app_nil_r|].
  pose proof (step_delivery x o) as Hs. destruct (spec_step room x o) as [[r x1] ms]. specialize (IH x1).
  destruct (spec_session room x1 os) as [[rs x2] ms'].
  change (mjoin (zip_with accepted (o :: os) (r :: rs))) with (accepted o r ++ mjoin (zip_with accepted os rs)).
  rewrite fmap_app, join_app, (assoc_L (++)), Hs, <- !(assoc_L (++)). by f_equal.
Qed.

Lemma heard_stream ms : mjoin (heard_samples <$> (heard_of <$> ms)) = mjoin (stream_samples <$> ms).
Proof using Type.
  rewrite <- list_fmap_compose. f_equal. apply list_fmap_ext. by intros _ [] _.
Qed.
End delivery.

(** ** Sessions *)

Section sessions.
Context `{NxConfig} {W : Type} (p : nxscope_proto_s) `{!ProtoLaws p}
  (io : nxscope_intf_s W) `{!PortLaws (i_ops io)}.

(** Sizes of the buffers: frames whose length fits 16 bits. *)
Record sizes_ok (room rxlen : Z) : Prop := {
  ok_room : 0 <= room; ok_rx : 0 < rxlen < 2 ^ 32;
  ok_stream : hdrlen p + 1 + room + footlen p < 2 ^ 16;
  ok_request : hdrlen p + 300 + footlen p < 2 ^ 16 }.

Notation hd := (i_priv io).

Definition starts (cfg : nxscope_cfg_s W) (w : W) (s : nxscope_s W) : Prop :=
  exists live, nxscope_init cfg (fun _ => true) 0 w = NRet (OK, Some s, live).

(** C6. A session implements the abstract scope.  Over every protocol and every interface that keep
    their contracts (in particular an interface that takes every write completely), an instance
    without callbacks, initialised with all its blocks, with one protocol and one interface for
    commands and samples, runs every sequence of operations that satisfies [op_valid]: it does not
    fault, every call returns the status that the abstract scope specifies, and what is on the line
    is exactly the frames of the specified messages, in order.  [op_valid] admits puts of all the
    element types and of strings on existing channels, with as much data as they announce;
    flushes; starting and stopping; the configuration of channels; and client requests, each a
    complete frame that fits the receive buffer and arrives in any pieces.  It leaves out what the
    code does not handle: channel number [chmax], which the checks let pass
    ([NxFindings.enable_past_last]), puts on channels above and requests for their information
    ([NxFindings.put_past_last], [NxFindings.chinfo_past_last]), [nxscope_put_char] of a character
    other than NUL ([NxFindings.put_char_overread]), user types other than the first
    ([NxFindings.put_user_other_type]), and critical channels. *)
Theorem nx_session_refines room rxlen cfg w os :
  sizes_ok room rxlen -> cfg_ok p io room rxlen cfg -> port_good hd w -> inq hd w = [] ->
  Forall (op_valid p rxlen (cfg_channels cfg)) os ->
  exists s s', starts cfg w s /\
    run_session io os s = NRet ((spec_session room (init_scope cfg) os).1.1, s') /\
    line hd (world s') = line hd w ++ mjoin (frame_of p <$> (spec_session room (init_scope cfg) os).2).
Proof.
  intros [Hroom Hrx Hst Hrq] Hcfg Hg Hq Hos.
  destruct (init_ok p io room rxlen cfg w Hcfg Hroom ltac:(lia) Hg Hq) as (s & live & E & Hs & Hw).
  pose proof (session_ok p io room rxlen ltac:(lia) Hroom Hst Hrq os s (init_scope cfg) Hs Hos) as Hses.
  destruct (spec_session room (init_scope cfg) os) as [[rets x'] ms]. destruct Hses as (s' & Er & _ & Ho).
  subst w. exists s, s'. split; [by exists live|done].
Qed.

Lemma session_info room os : forall x, sc_info (spec_session room x os).1.2 = sc_info x.
Proof using Type.
  induction os as [|o os IH]; intros x; [done|]. cbn [spec_session].
  pose proof (spec_step_info room x o) as Hi. destruct (spec_step room x o) as [[r x1] ms].
  specialize (IH x1). destruct (spec_session room x1 os) as [[rs x2] ms']. simpl in *. by rewrite IH.
Qed.

(** Every frame has a header. *)
Lemma length_frames ms : (length ms <= length (mjoin (frame_of p <$> ms)))%nat.
Proof using Type.
  induction ms as [|m ms IH]; [done|].
  change (mjoin (frame_of p <$> m :: ms)) with (frame_of p m ++ mjoin (frame_of p <$> ms)).
  pose proof (frame_len (p := p) (message_id m) (message_data m)). pose proof (hdrlen_pos (p := p)).
  pose proof (footlen_pos (p := p)). unfold frame_of at 1. rewrite length_app. cbn [length].
  pose proof (zlen_nonneg (message_data m)). unfold zlen in *. lia.
Qed.

(** C7. A client gets back every accepted sample, once and in order, in a build with the checks of
    [CONFIG_DEBUG_FEATURES] and over an interface that takes every write completely.  Behind any
    configuration phase [os1] that leaves no sample queued, a client that knows the sizes of the
    channels splits the bytes that the operations [os2] put on the line into frames with the
    protocol's own [frame_get] and the stream frames into samples; the samples it finds, followed
    by those that are still queued, are those of the puts that returned [OK].  The operations are
    those of [nx_session_refines] ([op_valid]), [os2] does not set channels up anew, and the bytes
    on the line are fewer than 4 GiB.  Without the checks a put of other sizes than its channel's
    is accepted and cannot be decoded; after a failed write accepted samples are lost
    ([NxFindings.put_behind_footer]). *)
Theorem nx_client_hears room rxlen cfg w os1 os2 :
  sizes_ok room rxlen -> cfg_ok p io room rxlen cfg -> port_good hd w -> inq hd w = [] ->
  CONFIG_DEBUG_FEATURES = true ->
  Forall (op_valid p rxlen (cfg_channels cfg)) (os1 ++ os2) -> Forall keeps_sizes os2 ->
  let x1 := (spec_session room (init_scope cfg) os1).1.2 in
  sc_pend x1 = [] -> zlen (mjoin (frame_of p <$> (spec_session room x1 os2).2)) < 2 ^ 32 ->
  exists s s1 s2 rets1 rets2 l hs, starts cfg w s /\
    run_session io os1 s = NRet (rets1, s1) /\ run_session io os2 s1 = NRet (rets2, s2) /\
    line hd (world s2) = line hd (world s1) ++ l /\
    hear p (length l) (chan_size <$> chinfo s1) l = Some hs /\
    mjoin (zip_with accepted os2 rets2) =
      mjoin (heard_samples <$> hs) ++ sc_pend (spec_session room x1 os2).1.2.
Proof.
  intros [Hroom Hrx Hst Hrq] Hcfg Hg Hq Hdbg [Hos1 Hos2]%Forall_app Hkeep x1 Hp1 Hlen.
  destruct (init_ok p io room rxlen cfg w Hcfg Hroom ltac:(lia) Hg Hq) as (s & live & E & Hs & Hw).
  pose proof (session_ok p io room rxlen ltac:(lia) Hroom Hst Hrq os1 s (init_scope cfg) Hs Hos1) as H1.
  assert (sc_info x1 = sc_info (init_scope cfg)) as Hinfo by apply session_info.
  destruct (spec_session room (init_scope cfg) os1) as [[rets1 y] ms1]. simpl in x1. subst x1.
  destruct H1 as (s1 & E1 & Hs1 & _).
  pose proof (session_ok p io room rxlen ltac:(lia) Hroom Hst Hrq os2 s1 y Hs1) as H2.
  pose proof (session_delivery room os2 y) as Hdel.
  assert (Forall (hearable p (chan_size <$> sc_chans y)) (spec_session room y os2).2) as Hhear.
  { eapply known_session; try done.
    - split; [done|]. rewrite Hp1. split; [constructor|exact Hroom].
    - eapply Forall_impl; [|exact Hos2]. intros o Ho. destruct o; try done. by destruct Ho as [[Hv _] _]. }
  rewrite Hinfo in H2. specialize (H2 Hos2).
  destruct (spec_session room y os2) as [[rets2 z] ms2]. simpl in Hlen, Hhear. destruct H2 as (s2 & E2 & _ & Ho).
  exists s, s1, s2, rets1, rets2, (mjoin (frame_of p <$> ms2)), (heard_of <$> ms2).
  split; [by exists live|]. split; [done|]. split; [done|]. split; [done|].
  rewrite (sim_chans _ _ _ _ _ _ _ _ Hs1). split.
  - apply hear_ok; [done|apply length_frames|done].
  - rewrite heard_stream. by rewrite Hp1 in Hdel.
Qed.
End sessions.

(** ** No faults *)

Section safe.
Context `{NxConfig} `{Crc16} `{!Crc16Laws}.

(** C8. Nothing a serial device does makes an instance fault in the calls that [allowed] admits.
    Over the serial protocol and any interface that delivers bytes and no more than there is room
    for, with any outcome of the allocations, any callbacks, 1 to 255 channels and buffers of the
    sizes of [cfg_safe]: after [nxscope_init] and any number of allowed calls, with the world
    changing in any way between them - failing and short writes, line noise, broken frames, any
    requests - the next allowed call returns: no access is outside its array, the lock is not taken
    twice and the loops end.  A put is allowed on an existing channel with as much data and
    metadata as it announces (not [nxscope_put_char] of a character other than NUL, not a user
    type other than the first, not a channel from [chmax] on); the configuration of a channel for
    every channel but number [chmax], and for a critical one only when they are supported; a
    receive unless the bytes received are in [recv_danger]: 1 to 3 bytes only, a request for the
    information of a missing channel, or one that sets channel [chmax].  NxFindings.v
    has a fault, or a lock that is never released, for each of these kinds. *)
Theorem nx_never_faults {W} (io : nxscope_intf_s W) `{!DeviceLaws (i_ops io)} cfg zalloc mi w :
  cfg_safe io cfg -> dev_ok w ->
  exists ret r live, nxscope_init cfg zalloc mi w = NRet (ret, r, live) /\
    forall s0 s c, r = Some s0 -> reachable io s0 s -> allowed s c ->
      exists ret s', run_call c s = NRet (ret, s') /\
        0 <= stream_i s' <= zlen (streambuf s') /\ 0 <= rxbuf_i s' <= zlen (rxbuf s') /\ lock s' = false.
Proof.
  intros Hcfg Hw. destruct (nx_init_safe io cfg zalloc mi w Hcfg Hw) as ([[ret r] live] & E & Hr).
  exists ret, r, live. split; [done|]. intros s0 s c -> Hreach Hc.
  pose proof (nx_reachable_inv io s0 s (Hr s0 eq_refl) Hreach) as Hs.
  destruct (call_safe io s c Hs Hc) as ([ret' s'] & E' & Hs'). exists ret', s'. split; [done|].
  pose proof (inv_cursor _ _ _ Hs'). pose proof (inv_rx _ _ _ Hs'). pose proof (inv_lock _ _ _ Hs').
  simpl in *. split; [lia|done].
Qed.

(** ** Frames *)

(** C19. Frames round-trip through noise.  [nxscope_frame_final] turns a buffer with room for the
    header and the footer into a frame, and [nxscope_frame_get] finds exactly that frame - its
    identifier, its data and the bytes to drop - behind any bytes that are no start byte and in
    front of any others, whenever the checksum of a message followed by its checksum is 0. *)
Theorem nx_frame_roundtrip h id g d r junk t n :
  zlen g = NXSCOPE_HDR_LEN -> d <> [] -> NXSCOPE_CRC_LEN <= zlen r -> zlen d + 6 < 2 ^ 16 ->
  Forall (fun b => b <> NXSCOPE_HDR_SOF) junk ->
  zlen junk + zlen d + 6 <= n -> n + 2 ^ 16 <= 2 ^ 32 ->
  exists f, nxscope_frame_final h id (g ++ d ++ r) (4 + zlen d) =
      NRet (OK, f ++ drop 2 r, zlen d + 6) /\ zlen f = zlen d + 6 /\
    nxscope_frame_get h (junk ++ f ++ t) n =
      NRet (inr (mkFrame id (zlen junk + zlen f) (zlen d) (zlen junk + 4))) /\
    zslice (zlen junk + 4) (zlen d) (junk ++ f ++ t) = d.
Proof.
  unfold NXSCOPE_HDR_LEN, NXSCOPE_CRC_LEN. intros Hg Hd Hr Hlen Hj Hn H32. exists (ser_frame id d).
  pose proof (zlen_nonneg d). pose proof (zlen_nonneg junk). split.
  { rewrite ser_final by (done || lia). do 2 f_equal. lia. }
  split; [rewrite zlen_ser_frame; lia|]. split.
  - apply ser_get; [done|done|rewrite zlen_ser_frame; lia|lia].
  - unfold ser_frame. rewrite <- !(assoc_L (++)), (assoc_L (++) junk). unfold zslice, zlen.
    by rewrite Nat2Z.id, drop_app_length', take_app_length by (rewrite length_app; simpl; lia).
Qed.
End safe.

(** ** Initialisation *)


(** ** A concrete instance

    Two channels over the serial protocol with the bitwise checksum and a serial port. *)

Module NxDemo.

#[export] Instance demo_config : NxConfig := {|
  CONFIG_DEBUG_FEATURES := true; CONFIG_DEBUG_ASSERTIONS := true; CONFIG_HAVE_LONG_LONG := true;
  CONFIG_LOGGING_NXSCOPE_DIVIDER := true; CONFIG_LOGGING_NXSCOPE_ACKFRAMES := true;
  CONFIG_LOGGING_NXSCOPE_USERTYPES := true; CONFIG_LOGGING_NXSCOPE_CRICHANNELS := false;
  CONFIG_LOGGING_NXSCOPE_DISABLE_PUTLOCK := false |}.

#[export] Instance demo_crc : Crc16 := crc16_bits_inst.
#[export] Instance demo_laws : Crc16Laws := crc16_bits_laws.

Definition proto : nxscope_proto_s := nxscope_proto_ser_init.2.
Definition io : nxscope_intf_s ser_world := mkIntf true 0 g_nxscope_ser_ops.
#[export] Instance demo_proto_laws : ProtoLaws proto := ser_proto_laws.
#[export] Instance demo_port_laws : PortLaws (i_ops io) := ser_port_laws.
#[export] Instance demo_device : DeviceLaws (i_ops io) := ser_device.

Definition cfg : nxscope_cfg_s ser_world :=
  mkCfg io io proto proto None 2 27 32 0 0.
Definition idle : ser_world := [mkPort true [] [] []].

Definition enable_all : request := RqEnable (SetAll 0 1).

(** Two channels are set up and enabled by a request that arrives in two pieces. *)
Definition setup : list op :=
  [OpInit 0 [97] NXSCOPE_TYPE_INT16 2 0; OpInit 1 [98] NXSCOPE_TYPE_CHAR 4 1;
   OpRequest enable_all [take 4 (ser_frame 6 [2; 0; 1]); drop 4 (ser_frame 6 [2; 0; 1])];
   OpStart true].

(** The fourth put finds no room; behind the flush the divider holds one back. *)
Definition puts : list op :=
  [OpPut (PutV NXSCOPE_TYPE_INT16 0 [65535; 258] 2);
   OpPut (PutVM NXSCOPE_TYPE_CHAR 1 [104; 105; 0; 7] 4 [9] 1);
   OpPut (PutVM NXSCOPE_TYPE_CHAR 1 [104; 105; 0; 7] 4 [9] 1);
   OpPut (PutV NXSCOPE_TYPE_INT16 0 [65535; 258] 2); OpStream;
   OpDiv 0 3; OpPut (PutV NXSCOPE_TYPE_INT16 0 [1; 2] 2);
   OpPut (PutVM NXSCOPE_TYPE_CHAR 1 [104; 105; 0; 7] 4 [9] 1); OpStream].

(** Conditions on concrete arguments, evaluated. *)
Ltac by_value :=
  match goal with
  | |- _ /\ _ => split; by_value
  | |- exists _, _ => eexists; by_value
  | |- Forall _ _ => constructor; by_value
  | |- _ -> _ => intro; discriminate
  | |- True => exact I
  | |- _ = _ => reflexivity
  end.

Lemma sizes : sizes_ok proto 20 32.
Proof. constructor; vm_compute; intuition congruence. Qed.
Lemma cfg_fits : cfg_ok proto io 20 32 cfg.
Proof. by constructor. Qed.
Lemma idle_good : port_good (i_priv io) idle.
Proof. by exists (mkPort true [] [] []). Qed.
End NxDemo.

Import NxDemo.

Lemma demo_ops_valid : Forall (op_valid proto 32 2) (setup ++ puts).
Proof.
  unfold setup, puts, app. repeat apply Forall_cons_2; [..|apply Forall_nil_2]; cbn [op_valid].
  all: vm_compute; by_value.
Qed.

Lemma nx_session_refines_witness :
  (spec_session 20 (init_scope cfg) (setup ++ puts)).1.1 = [0; 0; 0; 0; 0; 0; 0; - ENOBUFS; 0; 0; - EAGAIN; 0; 0] /\
  exists s s', starts cfg idle s /\
    run_session io (setup ++ puts) s = NRet ((spec_session 20 (init_scope cfg) (setup ++ puts)).1.1, s') /\
    line (i_priv io) (world s') = line (i_priv io) idle ++
      mjoin (frame_of proto <$> (spec_session 20 (init_scope cfg) (setup ++ puts)).2).
Proof.
  split; [vm_compute; reflexivity|].
  exact (nx_session_refines proto io 20 32 cfg idle (setup ++ puts) sizes cfg_fits idle_good eq_refl
    demo_ops_valid).
Defined.

Lemma nx_client_hears_witness :
  exists s s1 s2 rets1 rets2 l hs, starts cfg idle s /\
    run_session io setup s = NRet (rets1, s1) /\ run_session io puts s1 = NRet (rets2, s2) /\
    line (i_priv io) (world s2) = line (i_priv io) (world s1) ++ l /\
    hear proto (length l) (chan_size <$> chinfo s1) l = Some hs /\
    mjoin (zip_with accepted puts rets2) = mjoin (heard_samples <$> hs) ++ [].
Proof.
  apply (nx_client_hears (H := demo_config) proto io 20 32 cfg idle setup puts sizes cfg_fits idle_good eq_refl eq_refl
    demo_ops_valid).
  - by repeat constructor.
  - vm_compute. reflexivity.
  - vm_compute. reflexivity.
Defined.

(** A port whose writes fail, with a broken frame and a request for a description on the line. *)
Definition noisy : ser_world :=
  [mkPort true [RdData [1; 85; 3; 0]; RdData (ser_frame 3 [1])] [WrErr 5] []].

Lemma nx_never_faults_witness :
  exists s0 live ret s', nxscope_init cfg (fun _ => true) 0 idle = NRet (OK, Some s0, live) /\
    run_call CallRecv (set_world s0 noisy) = NRet (ret, s').
Proof.
  destruct (nx_never_faults io cfg (fun _ => true) 0 idle) as (ret & r & live & E & Hall).
  - constructor; done.
  - by repeat constructor.
  - assert (match nxscope_init cfg (fun _ => true) 0 idle with
            | NRet (ret, Some s, _) => (ret =? OK) && negb (recv_danger (set_world s noisy))
            | _ => false
            end = true) as Hd by (vm_compute; reflexivity).
    rewrite E in Hd. destruct r as [s0|]; [|discriminate]. apply andb_true_iff in Hd as [Hret Hd].
    apply Z.eqb_eq in Hret. subst ret. apply negb_true_iff in Hd.
    destruct (Hall s0 (set_world s0 noisy) CallRecv eq_refl) as (ret' & s' & Er & _).
    + apply reach_world; [apply reach_start|]. repeat constructor; (intro Hbad; vm_compute in Hbad; discriminate).
    + exact Hd.
    + by exists s0, live, ret', s'.
Defined.

Lemma nx_frame_roundtrip_witness :
  exists f, nxscope_frame_final 0 6 ([0; 0; 0; 0] ++ [2; 0; 1] ++ [0; 0; 0]) (4 + zlen [2; 0; 1]) =
      NRet (OK, f ++ drop 2 [0; 0; 0], zlen [2; 0; 1] + 6) /\ zlen f = zlen [2; 0; 1] + 6 /\
    nxscope_frame_get 0 ([1; 2] ++ f ++ [85; 3]) 13 =
      NRet (inr (mkFrame 6 (zlen [1; 2] + zlen f) (zlen [2; 0; 1]) (zlen [1; 2] + 4))) /\
    zslice (zlen [1; 2] + 4) (zlen [2; 0; 1]) ([1; 2] ++ f ++ [85; 3]) = [2; 0; 1].
Proof. apply nx_frame_roundtrip; first [done | by repeat constructor]. Defined.

