(* ===== verification/NxFindings.v ===== *)
(** * NxFindings: behaviours of nxscope that are surprising

    Each lemma evaluates the code on a concrete input.  The instance is the one of [NxDemo]: two
    channels over the serial protocol, set up and started. *)

From S2P Require Import Prelude NxBase NxProto NxScope NxChan NxPut NxIntf NxSpec NxFrame.
From S2P Require Import NxQueue NxSession NxServe NxClient NxSafe NxPort NxTheorems.
Import NxDemo.
#[local] Open Scope Z_scope.

(** [k] on the instance after the operations [os], with the devices [w]. *)
Definition after {A} (c : NxConfig) (os : list op) (w : ser_world) (k : nxscope_s ser_world -> nx A) : nx A :=
  match nxscope_init cfg (fun _ => true) 0 idle with
  | NRet (_, Some s, _) => '(_, s) ← run_session io os s; k (set_world s w)
  | _ => NFault NoFuel
  end.

Definition incoming (l : list (list Z)) : ser_world := [mkPort true (RdData <$> l) [] []].
Definition failing (l : list wr) : ser_world := [mkPort true [] l []].
Definition sent (w : ser_world) : list Z := sp_line (port 0 w).

Notation demo := (after demo_config setup).

(** ** Requests *)

(** A request to enable channel 2 of channels 0 and 1 is not refused: the array is accessed
    behind its end. *)
Lemma enable_past_last : demo (incoming [ser_frame 6 [0; 2; 1]]) nxscope_recv = NFault BadAccess.
Proof. vm_compute. reflexivity. Qed.

(** The description of channel 200 is read from behind the array. *)
Lemma chinfo_past_last : demo (incoming [ser_frame 3 [200]]) nxscope_recv = NFault BadAccess.
Proof. vm_compute. reflexivity. Qed.

(** Two bytes on the line: the search for a start byte runs over the end of the buffer. *)
Lemma short_input_overrun : demo (incoming [[1; 2]]) nxscope_recv = NFault BadAccess.
Proof. vm_compute. reflexivity. Qed.

(** A frame of which only five bytes have arrived is thrown away, and its rest with it. *)
Lemma partial_frame_lost :
  demo (incoming [take 5 (ser_frame 6 [2; 0; 0])]) (fun s =>
    '(r1, s) ← nxscope_recv s;
    '(r2, s) ← nxscope_recv (set_world s (incoming [drop 5 (ser_frame 6 [2; 0; 0])]));
    NRet (r1, r2, ci_enable <$> chinfo s)) = NRet (OK, OK, [1; 1]).
Proof. vm_compute. reflexivity. Qed.

(** A header that says length 0 passes for a frame and is never dropped: the request behind it
    is not found. *)
Lemma empty_frame_stuck :
  demo (incoming [[85; 0; 0; 2; 0; 0]]) (fun s =>
    '(r1, s) ← nxscope_recv s;
    '(r2, s) ← nxscope_recv (set_world s (incoming [ser_frame 6 [2; 0; 0]]));
    NRet (r1, r2, rxbuf_i s, ci_enable <$> chinfo s)) = NRet (OK, OK, 15, [1; 1]).
Proof. vm_compute. reflexivity. Qed.

(** A request that is refused takes the request behind it along. *)
Lemma refused_takes_next :
  demo (incoming [ser_frame 6 [2; 0; 7] ++ ser_frame 6 [2; 0; 0]]) (fun s =>
    '(r1, s) ← nxscope_recv s;
    '(r2, s) ← nxscope_recv s;
    NRet (r1, r2, ci_enable <$> chinfo s)) = NRet (- EINVAL, OK, [1; 1]).
Proof. vm_compute. reflexivity. Qed.

(** ** The stream *)

Definition put1 : put_call := PutV NXSCOPE_TYPE_INT16 0 [1; 2] 2.

(** After a failed send, samples are accepted behind the footer of the frame that waits; they
    are sent after it, in no frame. *)
Lemma put_behind_footer :
  demo (failing [WrErr 5]) (fun s =>
    '(r1, s) ← run_put put1 s;
    '(r2, s) ← nxscope_stream s;
    '(r3, s) ← run_put put1 s;
    '(r4, s) ← nxscope_stream s;
    NRet (r1, r2, r3, sent (world s))) =
  NRet (OK, -1, OK, ser_frame 1 [0; 0; 1; 0; 2; 0] ++ [0; 1; 0; 2; 0]).
Proof. vm_compute. reflexivity. Qed.

(** A write of three bytes counts as sent; the rest of the frame is lost. *)
Lemma short_write_lost :
  demo (failing [WrSome 3]) (fun s =>
    '(r1, s) ← run_put put1 s;
    '(r2, s) ← nxscope_stream s;
    '(r3, s) ← nxscope_stream s;
    NRet (r1, r2, r3, sent (world s))) = NRet (OK, 3, OK, [85; 12; 0]).
Proof. vm_compute. reflexivity. Qed.

(** ** Channels *)

(** A critical channel that is not supported leaves the lock taken. *)
Lemma critical_channel_locks :
  demo idle (fun s =>
    '(r, s) ← nxscope_chan_init s 0 [97] 0x82 1 0;
    nxscope_stream s) = NFault Deadlock.
Proof. vm_compute. reflexivity. Qed.

(** With support, the put functions pass a type without the flag of the channel: a sample of a
    critical channel waits in the common buffer and is not sent. *)
Lemma critical_channel_waits :
  let c := {| CONFIG_DEBUG_FEATURES := true; CONFIG_DEBUG_ASSERTIONS := true; CONFIG_HAVE_LONG_LONG := true;
              CONFIG_LOGGING_NXSCOPE_DIVIDER := true; CONFIG_LOGGING_NXSCOPE_ACKFRAMES := false;
              CONFIG_LOGGING_NXSCOPE_USERTYPES := true; CONFIG_LOGGING_NXSCOPE_CRICHANNELS := true;
              CONFIG_LOGGING_NXSCOPE_DISABLE_PUTLOCK := false |} in
  after c [OpInit 0 [97] 0x82 1 0; OpEnable 0 true; OpStart true] idle (fun s =>
    '(r, s) ← nxscope_put_uint8 s 0 7;
    NRet (r, sent (world s), stream_i s)) = NRet (OK, [], 7).
Proof. vm_compute. reflexivity. Qed.

(** A put on a channel that does not exist reads behind the array before its number is checked. *)
Lemma put_past_last : demo idle (fun s => nxscope_put_uint8 s 7 1) = NFault BadAccess.
Proof. vm_compute. reflexivity. Qed.

(** A single character is treated as a string: what follows it in memory is read. *)
Lemma put_char_overread :
  after demo_config [OpInit 0 [97] NXSCOPE_TYPE_CHAR 1 0; OpEnable 0 true; OpStart true] idle (fun s =>
    nxscope_put_char s 0 65) = NFault BadAccess.
Proof. vm_compute. reflexivity. Qed.

(** Metadata without data is put with type [UINT8]: a channel of type [NONE] refuses it. *)
Lemma put_none_refused :
  after demo_config [OpInit 0 [97] NXSCOPE_TYPE_NONE 0 2; OpEnable 0 true; OpStart true] idle (fun s =>
    '(r, _) ← nxscope_put_none_m s 0 [1; 2] 2; NRet r) = NRet (- EINVAL).
Proof. vm_compute. reflexivity. Qed.

(** A user type other than the first is counted as one byte per element but has no data. *)
Lemma put_user_other_type :
  after demo_config [OpInit 0 [97] 21 2 0; OpEnable 0 true; OpStart true] idle (fun s =>
    '(r, _) ← nxscope_put_user_m s 0 21 [1; 2] 2 [] 0; NRet r) = NFault AssertFailed.
Proof. vm_compute. reflexivity. Qed.

(** ** Memory *)

(** The receive buffer is not freed. *)
Lemma deinit_keeps_rx :
  match nxscope_init cfg (fun _ => true) 0 idle with
  | NRet (_, _, live) => nxscope_deinit live
  | NFault _ => []
  end = [BRx].
Proof. vm_compute. reflexivity. Qed.

(** A serial interface that was never initialised is dereferenced before it is tested. *)
Lemma ser_deinit_null : nxscope_ser_deinit None = NFault BadAccess.
Proof. reflexivity. Qed.
