(* ===== verification/Passwd.v ===== *)
(** * Passwd: the password file

    [src/fsutils/passwd/*.c]: encryption of passwords and the functions that find, add, remove,
    change and verify the users in [/etc/passwd].

    The state is the two files, the semaphore, [errno] and what the calls of the C library and
    the kernel will do: [io_script] for [malloc], [fopen], reads, writes and the semaphore,
    [close_script] for the flush of a closing stream, [dir_script] for [rename] and [unlink];
    a script that is used up stands for calls that succeed.  A store_char outside the buffer of the
    encrypted password and a loop that does not end are results ([run]).  [tea_encrypt] belongs
    to the kernel: it is the class [Tea].  Strings are the characters before the NUL. *)

From S2P Require Import Prelude.
#[local] Open Scope Z_scope.

Definition ENOENT : Z := 2.
Definition EINTR : Z := 4.
Definition E2BIG : Z := 7.
Definition EEXIST : Z := 17.
Definition PW_ENOMEM : Z := 12.
Definition PW_EINVAL : Z := 22.

Definition MAX_ENCRYPTED : Z := 48.
Definition MAX_PASSWORD : Z := 3 * MAX_ENCRYPTED / 4.
Definition SIZE_MAX : Z := 2 ^ 32 - 1.

Definition colon : Z := 58.
Definition newline : Z := 10.
Definition space : Z := 32.

Class PwConfig := {
  CONFIG_FSUTILS_PASSWD_IOBUFFER_SIZE : Z;
  CONFIG_FS_NAMED_SEMAPHORES : bool;
  g_tea_key : list Z;
}.

(** [tea_encrypt(value, key)] on the two words of [value] *)
Class Tea := tea_encrypt : list Z -> Z * Z -> Z * Z.

(** ** Encryption *)

Definition passwd_base64 (binary : Z) : Z :=
  let binary := Z.land binary 63 in
  if binary <? 26 then 65 + binary
  else
    let binary := binary - 26 in
    if binary <? 26 then 97 + binary
    else
      let binary := binary - 26 in
      if binary <? 10 then 48 + binary
      else if binary - 10 =? 0 then 43 else 47.

(** [*dest++ = c] with [dest] in [encrypted[MAX_ENCRYPTED + 1]] *)
Definition store_char (dest : list Z) (c : Z) : run (list Z) :=
  if zlen dest <? MAX_ENCRYPTED + 1 then Done (dest ++ [c]) else OutOfBounds.

(** [*dest = '\0'] *)
Definition terminate (dest : list Z) : run (list Z) :=
  if zlen dest <? MAX_ENCRYPTED + 1 then Done dest else OutOfBounds.

(** The loop over complete groups of six bits. *)
Fixpoint put_groups (fuel : nat) (dest : list Z) (tmp nbits : Z) : run (list Z * Z * Z) :=
  if 6 <=? nbits then
    match fuel with
    | O => OutOfFuel
    | S fuel =>
        dest ← store_char dest (passwd_base64 (u8 (Z.land tmp 63)));
        put_groups fuel dest (Z.shiftr tmp 6) (nbits - 6)
    end
  else Done (dest, tmp, nbits).

(** The loop over the half words of an encrypted block. *)
Fixpoint put_halves (hs : list Z) (dest : list Z) (tmp nbits : Z) : run (list Z * Z * Z) :=
  match hs with
  | [] => Done (dest, tmp, nbits)
  | h :: hs =>
      let tmp := Z.lor (u32 (Z.shiftl h nbits)) tmp in
      '(dest, tmp, nbits) ← put_groups (Z.to_nat (nbits + 16)) dest tmp (nbits + 16);
      put_halves hs dest tmp nbits
  end.

Section encrypt.
Context `{PwConfig} `{Tea}.

(** The union of 8 characters, 4 half words and 2 words, little-endian. *)
Definition block_words (b : list Z) : Z * Z := (le_val (take 4 b), le_val (drop 4 b)).
Definition word_halves (w : Z) : list Z := [w mod 2 ^ 16; Z.shiftr w 16].
Definition block_halves (v : Z * Z) : list Z := word_halves v.1 ++ word_halves v.2.

(** A block of 8 characters, padded with spaces. *)
Definition block_of (src : list Z) : list Z :=
  let b := take 8 src in b ++ replicate (8 - length b) space.

Fixpoint encrypt_loop (fuel : nat) (src dest : list Z) (remainder nbits : Z) :
    run (list Z * Z * Z) :=
  match src, fuel with
  | [], _ => Done (dest, remainder, nbits)
  | _, O => OutOfFuel
  | _, S fuel =>
      let v := tea_encrypt g_tea_key (block_words (block_of src)) in
      '(dest, tmp, nbits) ← put_halves (block_halves v) dest remainder nbits;
      dest ← terminate dest;
      encrypt_loop fuel (drop 8 src) dest (u8 tmp) nbits
  end.

(** The return value and the encrypted password. *)
Definition passwd_encrypt (password : list Z) : run (Z * list Z) :=
  if MAX_PASSWORD <? zlen password then Done (- E2BIG, [])
  else
    '(dest, remainder, nbits) ← encrypt_loop (length password) password [] 0 0;
    if 0 <? nbits then
      dest ← store_char dest (passwd_base64 remainder);
      dest ← terminate dest;
      Done (OK, dest)
    else Done (OK, dest).
End encrypt.

(** ** The library and the kernel *)

Inductive io := IoOk | IoErr (e : Z) | IoSome (n : nat).

Record os := mkOs {
  passwd_file : option (list Z); tmp_file : option (list Z);
  io_script : list io; close_script : list io; dir_script : list io;
  errno : Z; sem_taken : bool }.

Definition pw (A : Type) : Type := os -> run (A * os).
#[export] Instance pw_ret : MRet pw := fun A a s => Done (a, s).
#[export] Instance pw_bind : MBind pw := fun A B k m s =>
  match m s with Done (a, s) => k a s | OutOfBounds => OutOfBounds | OutOfFuel => OutOfFuel end.

Definition lift {A} (r : run A) : pw A := fun s => a ← r; Done (a, s).
Definition no_fuel {A} : pw A := fun _ => OutOfFuel.

Definition set_files (p t : option (list Z)) : pw unit := fun s =>
  Done ((), mkOs p t (io_script s) (close_script s) (dir_script s) (errno s) (sem_taken s)).
Definition set_errno (e : Z) : pw unit := fun s =>
  Done ((), mkOs (passwd_file s) (tmp_file s) (io_script s) (close_script s) (dir_script s) e (sem_taken s)).
Definition set_sem (b : bool) : pw unit := fun s =>
  Done ((), mkOs (passwd_file s) (tmp_file s) (io_script s) (close_script s) (dir_script s) (errno s) b).
Definition get {A} (f : os -> A) : pw A := fun s => Done (f s, s).

(** The outcome of the next call; a failing call sets [errno]. *)
Definition next_io : pw io := fun s =>
  match io_script s with
  | [] => Done (IoOk, s)
  | o :: l =>
      Done (o, mkOs (passwd_file s) (tmp_file s) l (close_script s) (dir_script s)
                 (match o with IoErr e => e | _ => errno s end) (sem_taken s))
  end.
Definition next_close : pw io := fun s =>
  match close_script s with
  | [] => Done (IoOk, s)
  | o :: l => Done (o, mkOs (passwd_file s) (tmp_file s) (io_script s) l (dir_script s) (errno s) (sem_taken s))
  end.
Definition next_dir : pw io := fun s =>
  match dir_script s with
  | [] => Done (IoOk, s)
  | o :: l =>
      Done (o, mkOs (passwd_file s) (tmp_file s) (io_script s) (close_script s) l
                 (match o with IoErr e => e | _ => errno s end) (sem_taken s))
  end.

Definition malloc_ok : pw bool :=
  o ← next_io; mret (match o with IoErr _ => false | _ => true end).

(** A stream that is read: the position, what is left, and the two indicators. *)
Record stream := mkStream { st_pos : Z; st_rest : list Z; st_error : bool; st_eof : bool }.

Definition set_st_error (st : stream) : stream := mkStream (st_pos st) (st_rest st) true (st_eof st).
Definition set_st_eof (st : stream) : stream := mkStream (st_pos st) (st_rest st) (st_error st) true.
Definition advance (st : stream) (d : list Z) : stream :=
  mkStream (st_pos st + zlen d) (drop (length d) (st_rest st)) (st_error st) (st_eof st).

(** [fopen(path, "r")] *)
Definition fopen_r (file : os -> option (list Z)) : pw (option stream) :=
  o ← next_io;
  match o with
  | IoErr _ => mret None
  | _ =>
      c ← get file;
      match c with
      | None => _ ← set_errno ENOENT; mret None
      | Some c => mret (Some (mkStream 0 c false false))
      end
  end.

(** The characters [fgets] reads: at most [n], up to a newline. *)
Fixpoint take_line (n : nat) (l : list Z) : list Z :=
  match n, l with
  | S n, c :: l => if c =? newline then [c] else c :: take_line n l
  | _, _ => []
  end.

Definition fgets (size : Z) (st : stream) : pw (option (list Z) * stream) :=
  o ← next_io;
  match o with
  | IoErr _ => mret (None, set_st_error st)
  | _ =>
      match st_rest st with
      | [] => mret (None, set_st_eof st)
      | l => let d := take_line (Z.to_nat (size - 1)) l in mret (Some d, advance st d)
      end
  end.

(** [fread(buffer, 1, nbytes, st)]: what was read *)
Definition fread (nbytes : Z) (st : stream) : pw (list Z * stream) :=
  o ← next_io;
  let some n :=
    match st_rest st with
    | [] => mret ([], set_st_eof st)
    | l => let d := take n l in mret (d, advance st d)
    end in
  match o with
  | IoErr _ => mret ([], set_st_error st)
  | IoOk => some (Z.to_nat nbytes)
  | IoSome n => some (Nat.min (S n) (Z.to_nat nbytes))
  end.

(** [fgetc(st)] *)
Definition fgetc (st : stream) : pw (option Z * stream) :=
  o ← next_io;
  match o with
  | IoErr _ => mret (None, set_st_error st)
  | _ =>
      match st_rest st with
      | [] => mret (None, set_st_eof st)
      | c :: _ => mret (Some c, advance st [c])
      end
  end.

(** [fwrite(buffer, 1, nbytes, out)]: how much was written *)
Definition fwrite (d : list Z) : pw nat :=
  o ← next_io;
  mret (match o with IoErr _ => O | IoOk => length d | IoSome n => Nat.min (S n) (length d) end).

(** [fclose] of a stream that was written: what reaches the file *)
Definition fclose_w (d : list Z) : pw (list Z) :=
  o ← next_close;
  mret (match o with IoOk => d | IoErr _ => [] | IoSome n => take n d end).

Definition rename_to_tmp : pw Z :=
  o ← next_dir;
  match o with
  | IoErr _ => mret (-1)
  | _ =>
      c ← get passwd_file;
      match c with
      | None => _ ← set_errno ENOENT; mret (-1)
      | Some c => _ ← set_files None (Some c); mret OK
      end
  end.

Definition rename_back : pw Z :=
  o ← next_dir;
  match o with
  | IoErr _ => mret (-1)
  | _ =>
      c ← get tmp_file;
      match c with
      | None => _ ← set_errno ENOENT; mret (-1)
      | Some c => _ ← set_files (Some c) None; mret OK
      end
  end.

Definition unlink_passwd : pw unit :=
  o ← next_dir;
  match o with
  | IoErr _ => mret ()
  | _ => t ← get tmp_file; set_files None t
  end.

Definition unlink_tmp : pw unit :=
  o ← next_dir;
  match o with
  | IoErr _ => mret ()
  | _ => p ← get passwd_file; set_files p None
  end.

Section passwd.
Context `{PwConfig} `{Tea}.

(** ** The lock *)

(** A semaphore that is taken is not given back while the caller waits. *)
Fixpoint sem_wait_loop (fuel : nat) : pw unit :=
  match fuel with
  | O => no_fuel
  | S fuel =>
      o ← next_io;
      match o with
      | IoErr _ => sem_wait_loop fuel
      | _ => taken ← get sem_taken; if taken : bool then no_fuel else set_sem true
      end
  end.

Definition passwd_lock : pw Z :=
  o ← (if CONFIG_FS_NAMED_SEMAPHORES then next_io else mret IoOk);
  match o with
  | IoErr e => mret (- e)
  | _ =>
      n ← get (fun s => length (io_script s));
      _ ← sem_wait_loop (S n);
      mret OK
  end.

Definition passwd_unlock : pw unit := set_sem false.

(** ** Finding a user *)

Record passwd_s := mkPasswd { pw_offset : Z; pw_encrypted : list Z }.

(** The characters before the delimiter and those behind it; [None] when the string ends first. *)
Fixpoint passwd_field (l : list Z) : option (list Z * list Z) :=
  match l with
  | [] => None
  | c :: l =>
      if c =? 0 then None
      else if c =? colon then Some ([], l)
      else '(n, r) ← passwd_field l; Some (c :: n, r)
  end.

Fixpoint find_loop (fuel : nat) (username : list Z) (st : stream) (offset : Z) :
    pw (Z * option passwd_s) :=
  match fuel with
  | O => no_fuel
  | S fuel =>
      '(l, st) ← fgets CONFIG_FSUTILS_PASSWD_IOBUFFER_SIZE st;
      match l with
      | None => mret (- ENOENT, None)
      | Some l =>
          match passwd_field l with
          | None => find_loop fuel username st offset
          | Some (name, r) =>
              if bool_decide (username = name) then
                match passwd_field r with
                | None => mret (- PW_EINVAL, None)
                | Some (encrypted, _) =>
                    if MAX_ENCRYPTED <=? zlen encrypted then mret (- E2BIG, None)
                    else mret (OK, Some (mkPasswd offset encrypted))
                end
              else find_loop fuel username st (st_pos st)
          end
      end
  end.

Definition passwd_find (username : list Z) : pw (Z * option passwd_s) :=
  ok ← malloc_ok;
  if negb ok then mret (- PW_ENOMEM, None)
  else
    st ← fopen_r passwd_file;
    match st with
    | None => e ← get errno; mret (- e, None)
    | Some st => find_loop (S (length (st_rest st))) username st 0
    end.

(** ** Adding a record *)

(** [fprintf(stream, "%s:%s:0:0:/\n", username, encrypted)] *)
Definition record_text (username encrypted : list Z) : list Z :=
  username ++ [colon] ++ encrypted ++ [58; 48; 58; 48; 58; 47; 10].

Definition passwd_append (username password : list Z) : pw Z :=
  '(ret, encrypted) ← lift (passwd_encrypt password);
  if ret <? 0 then mret ret
  else
    o ← next_io;
    match o with
    | IoErr e => mret e
    | _ =>
        c ← get passwd_file;
        t ← get tmp_file;
        let c := default [] c in
        o ← next_io;
        let '(ret, d) := match o with IoErr e => (- e, []) | _ => (OK, record_text username encrypted) end in
        d ← fclose_w d;
        _ ← set_files (Some (c ++ d)) t;
        mret ret
    end.

(** ** Removing a record *)

(** A value to return from [passwd_copyfile], or what was read and whether it was the end. *)
Fixpoint read_loop (fuel : nat) (ins : stream) (gulpsize : Z) (got : list Z) :
    pw ((Z + list Z * bool) * stream) :=
  match fuel with
  | O => no_fuel
  | S fuel =>
      '(d, ins) ← fread (gulpsize - zlen got) ins;
      match d with
      | [] =>
          if st_error ins then
            e ← get errno;
            if negb (e =? EINTR) then mret (inl (- e), ins)
            else read_loop fuel ins gulpsize got
          else if bool_decide (got = []) then mret (inl OK, ins)
          else mret (inr (got, true), ins)
      | _ =>
          let got := got ++ d in
          if zlen got <? gulpsize then read_loop fuel ins gulpsize got
          else mret (inr (got, false), ins)
      end
  end.

(** [out] is what was written to the stream so far. *)
Fixpoint write_loop (fuel : nat) (d out : list Z) : pw (Z * list Z) :=
  match fuel with
  | O => no_fuel
  | S fuel =>
      n ← fwrite d;
      if (n =? 0)%nat then
        e ← get errno;
        if negb (e =? EINTR) then mret (- e, out) else write_loop fuel d out
      else
        let out := out ++ take n d in
        let d := drop n d in
        if bool_decide (d = []) then mret (OK, out) else write_loop fuel d out
  end.

Fixpoint copyfile_loop (fuel : nat) (copysize ncopied : Z) (eof : bool) (ins : stream) (out : list Z) :
    pw (Z * stream * list Z) :=
  if (ncopied <? copysize) && negb eof then
    match fuel with
    | O => no_fuel
    | S fuel =>
        let gulpsize := Z.min (copysize - ncopied) CONFIG_FSUTILS_PASSWD_IOBUFFER_SIZE in
        n ← get (fun s => length (io_script s));
        '(r, ins) ← read_loop (S (n + length (st_rest ins))) ins gulpsize [];
        match r with
        | inl ret => mret (ret, ins, out)
        | inr (d, eof) =>
            n ← get (fun s => length (io_script s));
            '(ret, out) ← write_loop (S (n + length d)) d out;
            if ret <? 0 then mret (ret, ins, out)
            else copyfile_loop fuel copysize (ncopied + zlen d) eof ins out
        end
    end
  else mret (OK, ins, out).

Definition passwd_copyfile (ins : stream) (out : list Z) (copysize : Z) : pw (Z * stream * list Z) :=
  copyfile_loop (S (length (st_rest ins))) copysize 0 false ins out.

(** The loop that discards a line. *)
Fixpoint discard_loop (fuel : nat) (ins : stream) : pw (Z * stream) :=
  match fuel with
  | O => no_fuel
  | S fuel =>
      '(ch, ins) ← fgetc ins;
      match ch with
      | None => if st_eof ins then mret (OK, ins) else e ← get errno; mret (- e, ins)
      | Some c => if c =? newline then mret (OK, ins) else discard_loop fuel ins
      end
  end.

(** [errout_with_tmpfile] *)
Definition delete_done (ret : Z) : pw Z :=
  if ret <? 0 then _ ← unlink_passwd; _ ← rename_back; mret ret
  else _ ← unlink_tmp; mret ret.

(** [fclose(outstream)] *)
Definition close_passwd (out : list Z) : pw unit :=
  d ← fclose_w out; t ← get tmp_file; set_files (Some d) t.

Definition passwd_delete (offset : Z) : pw Z :=
  ok ← malloc_ok;
  if negb ok then mret (- PW_ENOMEM)
  else
    ret ← rename_to_tmp;
    if ret <? 0 then e ← get errno; mret (- e)
    else
      ins ← fopen_r tmp_file;
      match ins with
      | None => e ← get errno; delete_done (- e)
      | Some ins =>
          o ← next_io;
          match o with
          | IoErr e => delete_done (- e)
          | _ =>
              t ← get tmp_file;
              _ ← set_files (Some []) t;
              '(ret, ins, out) ← passwd_copyfile ins [] offset;
              if ret <? 0 then _ ← close_passwd out; delete_done ret
              else
                '(ret, ins) ← discard_loop (S (length (st_rest ins))) ins;
                if ret <? 0 then delete_done ret
                else
                  '(ret, ins, out) ← passwd_copyfile ins out SIZE_MAX;
                  _ ← close_passwd out;
                  delete_done ret
          end
      end.

(** ** The interface *)

(** Run between lock and unlock. *)
Definition with_lock (m : pw Z) : pw Z :=
  ret ← passwd_lock;
  if ret <? 0 then mret ret
  else ret ← m; _ ← passwd_unlock; mret ret.

Definition passwd_adduser (username password : list Z) : pw Z :=
  with_lock
    ('(ret, _) ← passwd_find username;
     if 0 <=? ret then mret (- EEXIST)
     else
       ret ← passwd_append username password;
       if ret <? 0 then mret ret else mret OK).

Definition passwd_deluser (username : list Z) : pw Z :=
  with_lock
    ('(ret, p) ← passwd_find username;
     match p with
     | Some p => if ret <? 0 then mret ret else passwd_delete (pw_offset p)
     | None => mret ret
     end).

Definition passwd_update (username password : list Z) : pw Z :=
  with_lock
    ('(ret, p) ← passwd_find username;
     match p with
     | Some p =>
         if ret <? 0 then mret ret
         else
           ret ← passwd_delete (pw_offset p);
           if ret <? 0 then mret ret else passwd_append username password
     | None => mret ret
     end).

Definition passwd_verify (username password : list Z) : pw Z :=
  with_lock
    ('(ret, p) ← passwd_find username;
     match p with
     | Some p =>
         if ret <? 0 then mret ret
         else
           '(ret, encrypted) ← lift (passwd_encrypt password);
           if ret <? 0 then mret ret
           else mret (if bool_decide (pw_encrypted p = encrypted) then 1 else 0)
     | None => mret ret
     end).
End passwd.
