(* ===== verification/PasswdEnc.v ===== *)
(** * PasswdEnc: what [passwd_encrypt] computes

    The encrypted blocks, read as one little-endian number, written in digits of six bits.  The
    buffer is large enough for passwords of up to 32 characters, and two passwords have the same
    encryption only when they are equal up to the spaces they are padded with. *)

From S2P Require Import Prelude Passwd.
#[local] Open Scope Z_scope.

(** What is relied on: the cipher maps pairs of words to pairs of words, and two of them never
    to the same. *)
Definition word (w : Z) : Prop := 0 <= w < 2 ^ 32.
Definition words (v : Z * Z) : Prop := word v.1 /\ word v.2.

Class TeaLaws `{Tea} := {
  tea_words k v : words v -> words (tea_encrypt k v);
  tea_injective k u v : words u -> words v -> tea_encrypt k u = tea_encrypt k v -> u = v;
}.

(** ** The tiny encryption algorithm

    32 rounds on two words; it satisfies the laws. *)

Definition tea_mix (a b sum v : Z) : Z :=
  Z.lxor (Z.lxor (u32 (Z.shiftl v 4 + a)) (u32 (v + sum))) (u32 (Z.shiftr v 5 + b)).

Definition tea_round (key : list Z) (sum : Z) (v : Z * Z) : Z * Z :=
  let k i := default 0 (key !! i) in
  let v0 := u32 (v.1 + tea_mix (k 0%nat) (k 1%nat) sum v.2) in
  let v1 := u32 (v.2 + tea_mix (k 2%nat) (k 3%nat) sum v0) in
  (v0, v1).

Fixpoint tea_rounds (n : nat) (key : list Z) (sum : Z) (v : Z * Z) : Z * Z :=
  match n with
  | O => v
  | S n => let sum := u32 (sum + 0x9e3779b9) in tea_rounds n key sum (tea_round key sum v)
  end.

Definition tea32 : Tea := fun key v => tea_rounds 32 key 0 v.

Lemma add_injective x y m : word x -> word y -> u32 (x + m) = u32 (y + m) -> x = y.
Proof.
  unfold word, u32. intros Hx Hy E.
  assert ((x - y) mod 2 ^ 32 = 0) as Hd.
  { replace (x - y) with ((x + m) - (y + m)) by lia. by rewrite Zminus_mod, E, Z.sub_diag. }
  apply Z.mod_divide in Hd; [|lia]. destruct Hd as [q Hq]. nia.
Qed.

Lemma tea_round_injective key sum u v : words u -> words v ->
  tea_round key sum u = tea_round key sum v -> u = v.
Proof.
  intros [Hu0 Hu1] [Hv0 Hv1]. destruct u as [u0 u1], v as [v0 v1]. unfold tea_round. simpl in *.
  intros [= E0 E1]. rewrite E0 in E1. apply add_injective in E1; [|done..]. subst u1.
  apply add_injective in E0; [|done..]. by subst.
Qed.

Lemma tea32_laws : @TeaLaws tea32.
Proof.
  constructor; intros k; unfold tea_encrypt, tea32.
  - generalize 32%nat 0. induction n as [|n IH]; intros sum v Hv; [done|]. apply IH.
    split; apply u32_range.
  - generalize 32%nat 0. induction n as [|n IH]; intros sum u v Hu Hv E; [done|].
    apply (tea_round_injective k (u32 (sum + 2654435769))); [done..|].
    apply (IH (u32 (sum + 2654435769))); [split; apply u32_range..|exact E].
Qed.

(** ** Numbers in digits of six bits *)

Definition digit (d : Z) : Prop := 0 <= d < 64.

Fixpoint number (ds : list Z) : Z :=
  match ds with [] => 0 | d :: ds => d + 64 * number ds end.

Lemma number_app a b : number (a ++ b) = number a + 64 ^ Z.of_nat (length a) * number b.
Proof.
  induction a as [|d a IH]; cbn [app number length]; [lia|].
  rewrite IH, Nat2Z.inj_succ, Z.pow_succ_r by lia. lia.
Qed.

Lemma number_injective a : forall b, length a = length b -> Forall digit a -> Forall digit b ->
  number a = number b -> a = b.
Proof.
  induction a as [|x a IH]; intros [|y b] Hl Ha Hb E; try done. inv_Forall. unfold digit in *.
  cbn [number] in E. assert (x = y) as -> by lia. f_equal. apply IH; [by injection Hl|done..|lia].
Qed.

Lemma base64_injective x y : digit x -> digit y -> passwd_base64 x = passwd_base64 y -> x = y.
Proof.
  intros Hx Hy E.
  pose proof (range_sweep (fun x => forallb (fun y => negb (passwd_base64 x =? passwd_base64 y) || (x =? y))
    (seqZ 0 64)) 64 ltac:(vm_compute; reflexivity) x Hx) as Hs. cbv beta in Hs.
  apply (range_sweep _ 64) with (z := y) in Hs; [|exact Hy]. cbv beta in Hs.
  rewrite E, Z.eqb_refl in Hs. by apply Z.eqb_eq.
Qed.

(** Characters that can stand in a field. *)
Definition plain (c : Z) : Prop := c <> 0 /\ c <> colon /\ c <> newline.

Lemma base64_plain d : digit d -> plain (passwd_base64 d).
Proof.
  intros Hd. pose proof (range_sweep (fun x => negb (passwd_base64 x =? 0) &&
    negb (passwd_base64 x =? colon) && negb (passwd_base64 x =? newline)) 64 ltac:(vm_compute; reflexivity) d Hd) as Hs.
  cbv beta in Hs. unfold plain. breflect. lia.
Qed.

(** ** The bits on their way to the buffer *)

(** The digits [ds] in the buffer and the [nbits] bits in [tmp] represent [v]. *)
Record bits (ds : list Z) (tmp nbits v : Z) : Prop := {
  bits_digits : Forall digit ds;
  bits_tmp : 0 <= nbits /\ 0 <= tmp < 2 ^ nbits;
  bits_value : v = number ds + 64 ^ Z.of_nat (length ds) * tmp }.

Notation chars ds := (passwd_base64 <$> ds).
Notation total ds nbits := (6 * Z.of_nat (length ds) + nbits).

Lemma store_fits ds c : (length ds <= 48)%nat -> store_char (chars ds) c = Done (chars ds ++ [c]).
Proof.
  intros Hl. unfold store_char, MAX_ENCRYPTED, zlen. rewrite length_fmap.
  by destruct (Z.ltb_spec (Z.of_nat (length ds)) (48 + 1)); [|lia].
Qed.

Lemma terminate_ok ds : (length ds <= 48)%nat -> terminate (chars ds) = Done (chars ds).
Proof.
  intros Hl. unfold terminate, MAX_ENCRYPTED, zlen. rewrite length_fmap.
  by destruct (Z.ltb_spec (Z.of_nat (length ds)) (48 + 1)); [|lia].
Qed.

Lemma bits_emit ds tmp nbits v : bits ds tmp nbits v -> 6 <= nbits ->
  bits (ds ++ [tmp mod 64]) (tmp / 64) (nbits - 6) v.
Proof.
  intros [Hd [Hn Ht] ->] H6. pose proof (Z.mod_pos_bound tmp 64 ltac:(lia)). constructor.
  - apply Forall_app_2; [done|]. apply Forall_singleton. done.
  - split; [lia|]. split; [apply Z.div_pos; lia|]. apply Z.div_lt_upper_bound; [lia|].
    change 64 with (2 ^ 6). rewrite <- Z.pow_add_r by lia. replace (6 + (nbits - 6)) with nbits by lia. lia.
  - rewrite number_app, length_app. cbn [number length]. rewrite Z.mul_0_r, Z.add_0_r.
    rewrite (Z.div_mod tmp 64) at 1 by lia.
    replace (Z.of_nat (length ds + 1)) with (Z.succ (Z.of_nat (length ds))) by lia.
    rewrite Z.pow_succ_r by lia. lia.
Qed.

Lemma put_groups_ok fuel : forall ds tmp nbits v, bits ds tmp nbits v -> total ds nbits <= 288 ->
  nbits <= Z.of_nat fuel ->
  exists ds' tmp' nbits', put_groups fuel (chars ds) tmp nbits = Done (chars ds', tmp', nbits') /\
    bits ds' tmp' nbits' v /\ total ds' nbits' = total ds nbits /\ nbits' < 6.
Proof.
  induction fuel as [|fuel IH]; intros ds tmp nbits v Hb Ht Hf; cbn [put_groups];
    (destruct (Z.leb_spec 6 nbits) as [H6|H6]; [|by exists ds, tmp, nbits]); [lia|].
  rewrite store_fits by lia. cbn [mbind run_bind].
  assert (passwd_base64 (u8 (Z.land tmp 63)) = passwd_base64 (tmp mod 64)) as ->.
  { change 63 with (2 ^ 6 - 1). rewrite land_ones_mod by lia. rewrite u8_small; [done|].
    pose proof (Z.mod_pos_bound tmp 64). unfold is_byte. change (2 ^ 6) with 64. lia. }
  rewrite Z.shiftr_div_pow2 by lia. change (2 ^ 6) with 64.
  replace (chars ds ++ [passwd_base64 (tmp mod 64)]) with (chars (ds ++ [tmp mod 64])) by (by rewrite fmap_app).
  destruct (IH (ds ++ [tmp mod 64]) (tmp / 64) (nbits - 6) v) as (ds' & tmp' & nbits' & E & Hb' & Ht' & Hn').
  - by apply bits_emit.
  - rewrite length_app. simpl. lia.
  - lia.
  - exists ds', tmp', nbits'. split; [done|]. split; [done|]. split; [|done].
    rewrite Ht', length_app. simpl. lia.
Qed.

(** Sixteen more bits. *)
Lemma bits_add ds tmp nbits v h : bits ds tmp nbits v -> nbits < 6 -> 0 <= h < 2 ^ 16 ->
  bits ds (Z.lor (u32 (Z.shiftl h nbits)) tmp) (nbits + 16) (v + 2 ^ total ds nbits * h).
Proof.
  intros [Hd [Hn Ht] ->] H6 Hh.
  assert (2 ^ nbits <= 2 ^ 5) by (apply Z.pow_le_mono_r; lia).
  assert (0 <= h * 2 ^ nbits < 2 ^ 16 * 2 ^ nbits) by nia.
  assert (Z.lor (u32 (Z.shiftl h nbits)) tmp = h * 2 ^ nbits + tmp) as ->.
  { rewrite u32_small by (rewrite Z.shiftl_mul_pow2 by lia; lia). apply lor_add; [lia|done]. }
  constructor; [done| |].
  - split; [lia|]. rewrite Z.pow_add_r by lia. nia.
  - rewrite Z.pow_add_r, Z.pow_mul_r by lia. change (2 ^ 6) with 64. nia.
Qed.

Fixpoint halves_number (hs : list Z) : Z :=
  match hs with [] => 0 | h :: hs => h + 2 ^ 16 * halves_number hs end.

Lemma put_halves_ok hs : forall ds tmp nbits v, bits ds tmp nbits v -> nbits < 6 ->
  Forall (fun h => 0 <= h < 2 ^ 16) hs -> total ds nbits + 16 * Z.of_nat (length hs) <= 288 ->
  exists ds' tmp' nbits', put_halves hs (chars ds) tmp nbits = Done (chars ds', tmp', nbits') /\
    bits ds' tmp' nbits' (v + 2 ^ total ds nbits * halves_number hs) /\
    total ds' nbits' = total ds nbits + 16 * Z.of_nat (length hs) /\ nbits' < 6.
Proof.
  induction hs as [|h hs IH]; intros ds tmp nbits v Hb H6 Hh Ht; cbn [put_halves halves_number].
  { exists ds, tmp, nbits. simpl. rewrite Z.mul_0_r, Z.add_0_r. split; [done|]. split; [done|lia]. }
  inv_Forall. pose proof (bits_tmp _ _ _ _ Hb) as [Hn _]. cbn [length] in Ht.
  destruct (put_groups_ok (Z.to_nat (nbits + 16)) ds _ (nbits + 16) _ (bits_add _ _ _ _ h Hb H6 ltac:(done)))
    as (ds1 & tmp1 & nbits1 & E & Hb1 & Ht1 & Hn1); [lia|lia|].
  rewrite E. cbn [mbind run_bind].
  destruct (IH ds1 tmp1 nbits1 _ Hb1 Hn1 ltac:(done)) as (ds2 & tmp2 & nbits2 & E2 & Hb2 & Ht2 & Hn2); [lia|].
  exists ds2, tmp2, nbits2. split; [done|]. split; [|cbn [length]; lia].
  eapply eq_ind; [exact Hb2|].
  rewrite Ht1, Z.add_assoc, (Z.pow_add_r 2 _ 16) by lia. lia.
Qed.

(** ** Blocks *)

Fixpoint blocks (fuel : nat) (src : list Z) : list (list Z) :=
  match src, fuel with
  | [], _ | _, O => []
  | _, S fuel => block_of src :: blocks fuel (drop 8 src)
  end.

Definition pair_number (v : Z * Z) : Z := v.1 + 2 ^ 32 * v.2.

Fixpoint pairs_number (vs : list (Z * Z)) : Z :=
  match vs with [] => 0 | v :: vs => pair_number v + 2 ^ 64 * pairs_number vs end.

Lemma pair_range v : words v -> 0 <= pair_number v < 2 ^ 64.
Proof. unfold words, word, pair_number. intros [H0 H1]. lia. Qed.

Lemma pairs_injective us : forall vs, length us = length vs -> Forall words us -> Forall words vs ->
  pairs_number us = pairs_number vs -> us = vs.
Proof.
  induction us as [|u us IH]; intros [|v vs] Hl Hu Hv E; try done. inv_Forall. cbn [pairs_number] in E.
  pose proof (pair_range u ltac:(done)). pose proof (pair_range v ltac:(done)).
  assert (pair_number u = pair_number v /\ pairs_number us = pairs_number vs) as [E1 E2] by lia.
  f_equal; [|by apply IH; [injection Hl| | |]].
  destruct u as [u0 u1], v as [v0 v1]. unfold pair_number, words, word in *. simpl in *. f_equal; lia.
Qed.

Lemma block_halves_number v : words v -> halves_number (block_halves v) = pair_number v /\
  Forall (fun h => 0 <= h < 2 ^ 16) (block_halves v).
Proof.
  destruct v as [a b]. unfold words, word, block_halves, word_halves, pair_number. simpl.
  intros [Ha Hb]. rewrite !Z.shiftr_div_pow2 by lia.
  pose proof (Z.div_mod a (2 ^ 16) ltac:(lia)). pose proof (Z.div_mod b (2 ^ 16) ltac:(lia)).
  pose proof (Z.mod_pos_bound a (2 ^ 16) ltac:(lia)). pose proof (Z.mod_pos_bound b (2 ^ 16) ltac:(lia)).
  assert (0 <= a / 2 ^ 16 < 2 ^ 16 /\ 0 <= b / 2 ^ 16 < 2 ^ 16) as [? ?]
    by (split; (split; [apply Z.div_pos|apply Z.div_lt_upper_bound]; lia)).
  split; [lia|]. repeat constructor; lia.
Qed.

Lemma length_block src : length (block_of src) = 8%nat.
Proof. unfold block_of. rewrite length_app, length_replicate, length_take. lia. Qed.

Lemma block_bytes src : Forall is_byte src -> Forall is_byte (block_of src).
Proof.
  intros Hs. unfold block_of. apply Forall_app_2; [by apply Forall_take|].
  apply Forall_replicate. unfold is_byte, space. lia.
Qed.

Lemma block_words_ok b : length b = 8%nat -> Forall is_byte b -> words (block_words b).
Proof.
  intros Hl Hb. pose proof (le_val_range (take 4 b) (Forall_take _ _ _ Hb)) as H1.
  pose proof (le_val_range (drop 4 b) (Forall_drop _ _ _ Hb)) as H2.
  unfold zlen in *. rewrite length_take, Hl in H1. rewrite length_drop, Hl in H2.
  unfold words, word, block_words. simpl in *. lia.
Qed.

Lemma block_words_injective a b : length a = 8%nat -> length b = 8%nat -> Forall is_byte a ->
  Forall is_byte b -> block_words a = block_words b -> a = b.
Proof.
  intros La Lb Ha Hb [= E1 E2]. rewrite <- (take_drop 4 a), <- (take_drop 4 b).
  rewrite <- (le_bytes_val (take 4 a)), <- (le_bytes_val (drop 4 a)), <- (le_bytes_val (take 4 b)),
    <- (le_bytes_val (drop 4 b)) by auto using Forall_take, Forall_drop.
  rewrite E1, E2, !length_take, !length_drop, La, Lb. done.
Qed.

Section encrypted.
Context `{PwConfig} `{Tea} `{!TeaLaws}.

Definition cipher (b : list Z) : Z * Z := tea_encrypt g_tea_key (block_words b).

Lemma encrypt_loop_ok fuel : forall src ds tmp nbits v, Forall is_byte src ->
  bits ds tmp nbits v -> nbits < 6 -> (length src <= fuel)%nat ->
  total ds nbits + 64 * Z.of_nat (length (blocks fuel src)) <= 288 ->
  exists ds' tmp' nbits', encrypt_loop fuel src (chars ds) tmp nbits = Done (chars ds', tmp', nbits') /\
    bits ds' tmp' nbits' (v + 2 ^ total ds nbits * pairs_number (cipher <$> blocks fuel src)) /\
    total ds' nbits' = total ds nbits + 64 * Z.of_nat (length (blocks fuel src)) /\ nbits' < 6.
Proof.
  induction fuel as [|fuel IH]; intros src ds tmp nbits v Hs Hb H6 Hf Ht; (destruct src as [|c src];
    [exists ds, tmp, nbits; simpl; rewrite Z.mul_0_r, Z.add_0_r; split; [done|]; split; [done|lia]|]);
    [simpl in Hf; lia|].
  cbn [encrypt_loop blocks length] in *. set (b := block_of (c :: src)) in *.
  assert (words (cipher b)) as Hw by (apply tea_words, block_words_ok; [apply length_block|by apply block_bytes]).
  destruct (block_halves_number _ Hw) as [Hn Hh]. pose proof (bits_tmp _ _ _ _ Hb) as [Hn0 _].
  destruct (put_halves_ok (block_halves (cipher b)) ds tmp nbits v Hb H6 Hh)
    as (ds1 & tmp1 & nbits1 & E & Hb1 & Ht1 & Hn1); [cbn [length block_halves word_halves app]; lia|].
  cbn [length block_halves word_halves app] in Ht1. fold (cipher b). rewrite E. cbn [mbind run_bind].
  pose proof (bits_tmp _ _ _ _ Hb1) as [Hn10 Ht10].
  assert (2 ^ nbits1 <= 2 ^ 5) by (apply Z.pow_le_mono_r; lia).
  rewrite terminate_ok by lia. cbn [mbind run_bind]. rewrite u8_small by (unfold is_byte; lia).
  destruct (IH (drop 8 (c :: src)) ds1 tmp1 nbits1 _ (Forall_drop _ _ _ Hs) Hb1 Hn1)
    as (ds2 & tmp2 & nbits2 & E2 & Hb2 & Ht2 & Hn2).
  - rewrite length_drop. simpl. lia.
  - lia.
  - exists ds2, tmp2, nbits2. split; [done|]. split; [|lia]. eapply eq_ind; [exact Hb2|].
    cbn [fmap list_fmap pairs_number]. rewrite Hn, Ht1, Z.mul_add_distr_l, Z.add_assoc.
    replace (16 * Z.of_nat 4) with 64 by lia. rewrite (Z.pow_add_r 2 _ 64) by lia. unfold fmap. lia.
Qed.

Lemma length_blocks fuel : forall src, (length src <= fuel)%nat ->
  8 * Z.of_nat (length (blocks fuel src)) - 8 < Z.of_nat (length src) <= 8 * Z.of_nat (length (blocks fuel src)).
Proof using Type.
  induction fuel as [|fuel IH]; intros [|c src] Hf; cbn [blocks length] in *; try lia.
  specialize (IH (drop 8 (c :: src))). rewrite length_drop in IH. cbn [length] in IH.
  specialize (IH ltac:(lia)). lia.
Qed.

(** The blocks of a password. *)
Definition pw_blocks (p : list Z) : list (list Z) := blocks (length p) p.

Lemma encrypt_ok p : Forall is_byte p -> (length p <= 32)%nat ->
  exists ds, passwd_encrypt p = Done (OK, chars ds) /\ Forall digit ds /\
    number ds = pairs_number (cipher <$> pw_blocks p) /\
    64 * Z.of_nat (length (pw_blocks p)) <= 6 * Z.of_nat (length ds) < 64 * Z.of_nat (length (pw_blocks p)) + 6.
Proof.
  intros Hp Hl. unfold passwd_encrypt, MAX_PASSWORD, MAX_ENCRYPTED. change (3 * 48 / 4) with 36.
  destruct (Z.ltb_spec 36 (zlen p)); [unfold zlen in *; lia|].
  pose proof (length_blocks (length p) p ltac:(lia)) as Hbl. fold (pw_blocks p) in Hbl.
  destruct (encrypt_loop_ok (length p) p [] 0 0 0 Hp) as (ds & tmp & nbits & E & Hb & Ht & Hn);
    [by constructor|lia|lia|simpl; fold (pw_blocks p); lia|].
  fold (pw_blocks p) in *. simpl in E, Ht, Hb. rewrite E. cbn [mbind run_bind].
  destruct Hb as [Hd [Hn0 Htmp] Hv]. assert (2 ^ nbits <= 2 ^ 5) by (apply Z.pow_le_mono_r; lia).
  destruct (Z.ltb_spec 0 nbits).
  - rewrite store_fits by lia. cbn [mbind run_bind].
    replace (chars ds ++ [passwd_base64 tmp]) with (chars (ds ++ [tmp])) by (by rewrite fmap_app).
    rewrite terminate_ok by (rewrite length_app; simpl; lia). cbn [mbind run_bind].
    exists (ds ++ [tmp]). split; [done|]. split; [apply Forall_app_2; [done|]; apply Forall_singleton; unfold digit; lia|].
    rewrite number_app, length_app. cbn [number length]. split; lia.
  - exists ds. assert (nbits = 0) as -> by lia. split; [done|]. split; [done|]. split; [|lia].
    change (2 ^ 0) with 1 in *. lia.
Qed.

(** The password with the spaces it is filled up with. *)
Definition padded (p : list Z) : list Z := p ++ replicate (Z.to_nat ((- zlen p) mod 8)) space.

Lemma blocks_padded fuel : forall src, (length src <= fuel)%nat -> mjoin (blocks fuel src) = padded src.
Proof using Type.
  induction fuel as [|fuel IH]; intros [|c src] Hf; try done; [simpl in Hf; lia|].
  cbn [blocks length] in *. change (mjoin (?b :: ?l)) with (b ++ mjoin l).
  set (s := c :: src) in *. rewrite IH by (unfold s; rewrite length_drop; simpl; lia).
  unfold block_of, padded, zlen. rewrite length_take, length_drop.
  destruct (Nat.le_gt_cases 8 (length s)) as [Hge|Hlt].
  - replace (8 - Nat.min 8 (length s))%nat with 0%nat by lia. cbn [replicate]. rewrite app_nil_r, (assoc_L (++)), take_drop.
    do 3 f_equal. replace (- Z.of_nat (length s)) with (- Z.of_nat (length s - 8) + (-1) * 8) by lia.
    by rewrite Z.mod_add.
  - replace (length s - 8)%nat with 0%nat by lia. rewrite drop_ge, take_ge by lia. cbn [app Z.of_nat Z.opp].
    rewrite Z.mod_0_l, app_nil_r by lia. cbn [replicate Z.to_nat]. do 2 f_equal.
    assert (length s <> 0%nat) by (unfold s; simpl; lia).
    rewrite <- (Z.mod_unique (- Z.of_nat (length s)) 8 (-1) (8 - Z.of_nat (length s))) by lia. lia.
Qed.

Lemma blocks_each fuel : forall src, Forall is_byte src ->
  Forall (fun b => length b = 8%nat /\ Forall is_byte b) (blocks fuel src).
Proof using Type.
  induction fuel as [|fuel IH]; intros [|c src] Hs; try constructor.
  - split; [apply length_block|by apply block_bytes].
  - apply IH. by apply Forall_drop.
Qed.

Lemma join_injective (a : list (list Z)) : forall b, Forall (fun x => length x = 8%nat) a ->
  Forall (fun x => length x = 8%nat) b -> mjoin a = mjoin b -> a = b.
Proof using Type.
  induction a as [|x a IH]; intros [|y b] Ha Hb E; [done| | |]; inv_Forall.
  - apply (f_equal length) in E. simpl in E. rewrite length_app in E. lia.
  - apply (f_equal length) in E. simpl in E. rewrite length_app in E. lia.
  - change (x ++ mjoin a = y ++ mjoin b) in E. apply app_inj_1 in E as [-> E]; [|lia]. f_equal. by apply IH.
Qed.

Lemma same_blocks p q : Forall is_byte p -> Forall is_byte q ->
  pw_blocks p = pw_blocks q <-> padded p = padded q.
Proof using Type.
  intros Hp Hq. unfold pw_blocks. rewrite <- (blocks_padded (length p) p), <- (blocks_padded (length q) q) by lia. split; [by intros ->|].
  apply join_injective; (eapply Forall_impl; [|by apply blocks_each]); by intros ? [].
Qed.

Lemma cipher_injective a b : length a = 8%nat -> length b = 8%nat -> Forall is_byte a ->
  Forall is_byte b -> cipher a = cipher b -> a = b.
Proof.
  intros La Lb Ha Hb E. apply block_words_injective; [done..|].
  eapply tea_injective; [by apply block_words_ok..|exact E].
Qed.

Lemma ciphers_injective a : forall b, Forall (fun x => length x = 8%nat /\ Forall is_byte x) a ->
  Forall (fun x => length x = 8%nat /\ Forall is_byte x) b -> cipher <$> a = cipher <$> b -> a = b.
Proof.
  induction a as [|x a IH]; intros [|y b] Ha Hb E; try done. apply Forall_cons_1 in Ha as [[? ?] Ha].
  apply Forall_cons_1 in Hb as [[? ?] Hb]. injection E as E1 E2. f_equal; [by apply cipher_injective|by apply IH].
Qed.

Lemma ciphers_words a : Forall (fun x => length x = 8%nat /\ Forall is_byte x) a -> Forall words (cipher <$> a).
Proof. intros Ha. apply Forall_fmap. eapply Forall_impl; [|exact Ha]. intros b [Hl Hb]. by apply tea_words, block_words_ok. Qed.

(** The encrypted password, where there is one. *)
Definition encrypted (p : list Z) : list Z :=
  match passwd_encrypt p with Done (_, e) => e | _ => [] end.

Lemma chars_injective a : forall b, Forall digit a -> Forall digit b -> chars a = chars b -> a = b.
Proof using Type.
  induction a as [|x a IH]; intros [|y b] Ha Hb E; try done. inv_Forall. injection E as E1 E2.
  f_equal; [by apply base64_injective|by apply IH].
Qed.

Lemma encrypted_ok p : Forall is_byte p -> (length p <= 32)%nat ->
  passwd_encrypt p = Done (OK, encrypted p) /\ Forall plain (encrypted p) /\ (length (encrypted p) <= 43)%nat.
Proof.
  intros Hp Hl. destruct (encrypt_ok p Hp Hl) as (ds & E & Hd & _ & Hlen). unfold encrypted. rewrite E.
  split; [done|]. pose proof (length_blocks (length p) p ltac:(lia)) as Hb. fold (pw_blocks p) in Hb. split.
  - apply Forall_fmap. eapply Forall_impl; [|exact Hd]. intros d. apply base64_plain.
  - rewrite length_fmap. lia.
Qed.

Lemma encrypted_same p q : Forall is_byte p -> Forall is_byte q -> (length p <= 32)%nat -> (length q <= 32)%nat ->
  encrypted p = encrypted q <-> padded p = padded q.
Proof.
  intros Hp Hq Lp Lq. rewrite <- same_blocks by done.
  destruct (encrypt_ok p Hp Lp) as (ds & E & Hd & Hn & Hlen).
  destruct (encrypt_ok q Hq Lq) as (es & E' & He & Hm & Hlen'). unfold encrypted. rewrite E, E'. split.
  - intros Hc. apply chars_injective in Hc; [|done..]. subst es.
    pose proof (blocks_each (length p) p Hp) as Hbp. pose proof (blocks_each (length q) q Hq) as Hbq.
    fold (pw_blocks p) in Hbp. fold (pw_blocks q) in Hbq.
    apply ciphers_injective; [done..|]. apply pairs_injective; [|by apply ciphers_words..|congruence].
    rewrite !length_fmap. lia.
  - intros Hb. rewrite Hb in Hn. rewrite Hb in Hlen. f_equal. apply number_injective; [lia|done..|congruence].
Qed.

(** ** Longer passwords

    Without the limit on the room: a loop that returns has stored all groups of six bits. *)

Definition stored (bits : Z) (r : run (list Z * Z * Z)) : Prop :=
  match r with
  | Done (dest, _, nbits) => 6 * zlen dest + nbits = bits /\ 0 <= nbits < 6 /\ zlen dest <= 49
  | OutOfBounds => True
  | OutOfFuel => False
  end.

Lemma put_groups_stored fuel : forall dest tmp nbits, zlen dest <= 49 -> 0 <= nbits <= Z.of_nat fuel ->
  stored (6 * zlen dest + nbits) (put_groups fuel dest tmp nbits).
Proof using Type.
  induction fuel as [|fuel IH]; intros dest tmp nbits Hd Hn; cbn [put_groups];
    (destruct (Z.leb_spec 6 nbits); [|simpl; lia]); [lia|].
  unfold store_char, MAX_ENCRYPTED. destruct (Z.ltb_spec (zlen dest) (48 + 1)); [|done]. cbn [mbind run_bind].
  set (c := passwd_base64 _). specialize (IH (dest ++ [c]) (Z.shiftr tmp 6) (nbits - 6)).
  rewrite zlen_app in IH. change (zlen [c]) with 1 in IH.
  replace (6 * zlen dest + nbits) with (6 * (zlen dest + 1) + (nbits - 6)) by lia. apply IH; lia.
Qed.

Lemma put_halves_stored hs : forall dest tmp nbits, zlen dest <= 49 -> 0 <= nbits < 6 ->
  stored (6 * zlen dest + nbits + 16 * Z.of_nat (length hs)) (put_halves hs dest tmp nbits).
Proof using Type.
  induction hs as [|h hs IH]; intros dest tmp nbits Hd Hn; cbn [put_halves]; [simpl; lia|].
  pose proof (put_groups_stored (Z.to_nat (nbits + 16)) dest (Z.lor (u32 (Z.shiftl h nbits)) tmp) (nbits + 16)) as Hg.
  destruct (put_groups _ _ _ _) as [[[d t] n]| |]; cbn [mbind run_bind]; [|done|apply Hg; lia].
  destruct Hg as (Ht & Hn' & Hd'); [lia|lia|]. specialize (IH d t n Hd' Hn').
  cbn [length]. by replace (6 * zlen dest + nbits + 16 * Z.of_nat (S (length hs)))
    with (6 * zlen d + n + 16 * Z.of_nat (length hs)) by lia.
Qed.

Lemma encrypt_loop_stored fuel : forall src dest r nbits, zlen dest <= 49 -> 0 <= nbits < 6 ->
  (length src <= fuel)%nat ->
  stored (6 * zlen dest + nbits + 64 * Z.of_nat (length (blocks fuel src))) (encrypt_loop fuel src dest r nbits).
Proof using Type.
  induction fuel as [|fuel IH]; intros [|c src] dest r nbits Hd Hn Hf; cbn [encrypt_loop blocks length] in *;
    try (simpl; lia).
  set (hs := block_halves _). pose proof (put_halves_stored hs dest r nbits Hd Hn) as Hg.
  change (16 * Z.of_nat (length hs)) with 64 in Hg.
  destruct (put_halves _ _ _ _) as [[[d t] n]| |]; cbn [mbind run_bind]; [|done|done].
  destruct Hg as (Ht & Hn' & Hd'). unfold terminate. destruct (zlen d <? MAX_ENCRYPTED + 1); [|done]. cbn [mbind run_bind].
  specialize (IH (drop 8 (c :: src)) d (u8 t) n Hd' Hn'). rewrite length_drop in IH. cbn [length] in IH.
  replace (6 * zlen dest + nbits + 64 * Z.of_nat (S (length (blocks fuel (drop 8 (c :: src))))))
    with (6 * zlen d + n + 64 * Z.of_nat (length (blocks fuel (drop 8 (c :: src))))) by lia. apply IH. lia.
Qed.

Lemma encrypt_overflow p : (32 < length p)%nat -> zlen p <= MAX_PASSWORD -> passwd_encrypt p = OutOfBounds.
Proof using Type.
  intros Hl Hm. unfold passwd_encrypt. destruct (Z.ltb_spec MAX_PASSWORD (zlen p)); [lia|].
  pose proof (encrypt_loop_stored (length p) p [] 0 0 ltac:(done) ltac:(done) ltac:(lia)) as Hs.
  pose proof (length_blocks (length p) p ltac:(lia)) as Hb. change (zlen []) with 0 in Hs.
  destruct (encrypt_loop _ _ _ _ _) as [[[d t] n]| |]; [simpl in Hs; lia|done|done].
Qed.
End encrypted.
