(* ===== verification/PasswdDb.v ===== *)
(** * PasswdDb: the password file as a list of records

    What the functions on the file do to its records, for every outcome of the calls of the
    library: [runs m s Q] says that [m] returns from [s] in a state and with a result in [Q]. *)

From S2P Require Import Prelude Passwd PasswdEnc.
#[local] Open Scope Z_scope.

Definition runs {A} (m : pw A) (s : os) (Q : A -> os -> Prop) : Prop :=
  exists a s', m s = Done (a, s') /\ Q a s'.

Lemma runs_ret {A} (a : A) s (Q : A -> os -> Prop) : Q a s -> runs (mret a) s Q.
Proof. intros. by exists a, s. Qed.

Lemma runs_bind {A B} (m : pw A) (k : A -> pw B) s P Q :
  runs m s P -> (forall a s', P a s' -> runs (k a) s' Q) -> runs (m ≫= k) s Q.
Proof.
  intros (a & s' & E & HP) Hk. destruct (Hk a s' HP) as (b & s'' & E' & HQ).
  exists b, s''. split; [|done]. unfold mbind, pw_bind. by rewrite E.
Qed.

Lemma runs_mono {A} (m : pw A) s (P Q : A -> os -> Prop) :
  runs m s P -> (forall a s', P a s' -> Q a s') -> runs m s Q.
Proof. intros (a & s' & E & HP) HPQ. exists a, s'. auto. Qed.

(** A step that used up some outcomes of the library and left the rest of the state. *)
Record quiet (s s' : os) : Prop := {
  quiet_passwd : passwd_file s' = passwd_file s;
  quiet_tmp : tmp_file s' = tmp_file s;
  quiet_close : close_script s' = close_script s;
  quiet_dir : dir_script s' = dir_script s;
  quiet_sem : sem_taken s' = sem_taken s;
  quiet_io : io_script s' `suffix_of` io_script s }.

Lemma quiet_refl s : quiet s s.
Proof. by constructor. Qed.

Lemma quiet_trans s1 s2 s3 : quiet s1 s2 -> quiet s2 s3 -> quiet s1 s3.
Proof. intros [] []. constructor; try congruence. by etrans. Qed.

Lemma quiet_nil s s' : quiet s s' -> io_script s = [] -> io_script s' = [].
Proof. intros Hq E. pose proof (quiet_io _ _ Hq) as Hs. rewrite E in Hs. by apply suffix_nil_inv in Hs. Qed.

#[export] Hint Resolve quiet_refl quiet_trans : nuttx.

(** Errors are positive and no call is interrupted. *)
Definition io_fine (o : io) : Prop := match o with IoErr e => 0 < e /\ e <> EINTR | _ => True end.
Definition fine (s : os) : Prop := Forall io_fine (io_script s).

Lemma fine_quiet s s' : fine s -> quiet s s' -> fine s'.
Proof.
  unfold fine. intros Hf Hq. destruct (quiet_io _ _ Hq) as [l Hl]. rewrite Hl in Hf.
  by apply Forall_app in Hf as [_ Hf].
Qed.

(** ** The calls of the library *)

Lemma next_io_runs s : runs next_io s (fun o s' => quiet s s' /\ (io_script s = [] -> o = IoOk) /\
  (fine s -> io_fine o) /\ forall e, o = IoErr e -> errno s' = e).
Proof.
  unfold runs, next_io. destruct (io_script s) as [|o l] eqn:E.
  - exists IoOk, s. split; [done|]. split; [apply quiet_refl|]. done.
  - do 2 eexists. split; [done|]. split; [constructor; try done; rewrite E; by exists [o]|].
    split; [done|]. split; [|by intros e ->]. unfold fine. rewrite E. by intros []%Forall_cons_1.
Qed.

Lemma get_runs {A} (f : os -> A) s : runs (get f) s (fun a s' => a = f s /\ s' = s).
Proof. by exists (f s), s. Qed.

(** ** Records *)

Section db.
Context `{PwConfig} `{Tea}.

Notation entry := (list Z * list Z)%type.

Definition file_text (l : list entry) : list Z := mjoin (uncurry record_text <$> l).

Record entry_ok (r : entry) : Prop := {
  ok_user : Forall plain r.1;
  ok_enc : Forall plain r.2;
  ok_short : (length r.2 < 48)%nat;
  ok_line : zlen (record_text r.1 r.2) < CONFIG_FSUTILS_PASSWD_IOBUFFER_SIZE }.

Lemma field_plain n r : Forall plain n -> passwd_field (n ++ colon :: r) = Some (n, r).
Proof using Type.
  induction 1 as [|c n (Hc0 & Hcc & _) _ IH]; [done|]. cbn [app passwd_field].
  destruct (Z.eqb_spec c 0), (Z.eqb_spec c colon); try done. by rewrite IH.
Qed.

Lemma take_line_plain n l r : Forall (fun c => c <> newline) l -> (length l < n)%nat ->
  take_line n (l ++ newline :: r) = l ++ [newline].
Proof using Type.
  intros Hl. revert n. induction Hl as [|c l Hc _ IH]; intros [|n] Hn; cbn [app take_line length] in *; try lia; [done|].
  destruct (Z.eqb_spec c newline); [done|]. f_equal. apply IH. lia.
Qed.

(** A record without its newline. *)
Definition record_line (u e : list Z) : list Z := u ++ [colon] ++ e ++ [58; 48; 58; 48; 58; 47].

Lemma record_line_text u e : record_text u e = record_line u e ++ [newline].
Proof using Type. unfold record_text, record_line. rewrite <- !(assoc_L (++)). done. Qed.

Lemma record_line_plain r : entry_ok r -> Forall (fun c => c <> newline) (record_line r.1 r.2).
Proof using Type.
  intros [Hu He _ _]. unfold record_line. repeat (apply Forall_app_2); try (by repeat constructor);
    (eapply Forall_impl; [|eassumption]); unfold plain; tauto.
Qed.

Lemma file_text_app a b : file_text (a ++ b) = file_text a ++ file_text b.
Proof using Type. unfold file_text. by rewrite fmap_app, join_app. Qed.

Lemma file_text_cons r l : file_text (r :: l) = record_text r.1 r.2 ++ file_text l.
Proof using Type. by destruct r. Qed.

(** ** Finding *)

Lemma fgets_record st r l s : entry_ok r -> st_rest st = file_text (r :: l) ->
  runs (fgets CONFIG_FSUTILS_PASSWD_IOBUFFER_SIZE st) s (fun x s' => quiet s s' /\
    ((io_script s <> [] /\ exists st', x = (None, st')) \/
     (x.1 = Some (record_text r.1 r.2) /\ st_rest x.2 = file_text l /\
      st_pos x.2 = st_pos st + zlen (record_text r.1 r.2)))).
Proof using Type.
  intros Hr Hst. unfold fgets. eapply runs_bind; [apply next_io_runs|]. intros o s1 (Hq & Hnil & _).
  destruct o as [|e|n]; [|apply runs_ret; split; [done|]; left; split; [|by eexists]; intros E; by specialize (Hnil E)|];
    rewrite Hst, file_text_cons, record_line_text, <- (assoc_L (++)); cbn [app];
    (destruct (record_line r.1 r.2 ++ newline :: file_text l) as [|c t] eqn:E;
      [by apply app_eq_nil in E as [_ E]|]); rewrite <- E;
    (rewrite take_line_plain; [|by apply record_line_plain|];
      [|pose proof (ok_line _ Hr) as Hl; rewrite record_line_text, zlen_app in Hl; unfold zlen in Hl; simpl in Hl; lia]);
    apply runs_ret; (split; [done|]); right; (split; [done|]); unfold advance; simpl; (split; [|done]);
    rewrite Hst, file_text_cons, record_line_text; by rewrite drop_app_length.
Qed.

(** What [passwd_find] may answer. *)
Definition found (u : list Z) (l : list entry) (off : Z) (r : Z * option passwd_s) : Prop :=
  exists pre e post, l = pre ++ (u, e) :: post /\ u ∉ pre.*1 /\
    r = (OK, Some (mkPasswd (off + zlen (file_text pre)) e)).

Lemma found_later u l off x r : u <> x.1 ->
  found u l (off + zlen (record_text x.1 x.2)) r -> found u (x :: l) off r.
Proof using Type.
  intros Hne (pre & e & post & -> & Hpre & ->). exists (x :: pre), e, post. split; [done|].
  split; [by apply not_elem_of_cons|]. rewrite file_text_cons, zlen_app, Z.add_assoc. done.
Qed.

Lemma find_loop_runs u fuel : forall l st s, Forall entry_ok l -> st_rest st = file_text l ->
  (length l < fuel)%nat ->
  runs (find_loop fuel u st (st_pos st)) s (fun r s' => quiet s s' /\
    (found u l (st_pos st) r \/ (r = (- ENOENT, None) /\ (io_script s = [] -> u ∉ l.*1)))).
Proof using Type.
  induction fuel as [|fuel IH]; intros l st s Hl Hst Hf; [lia|]. cbn [find_loop].
  destruct l as [|x l].
  - eapply runs_bind; [unfold fgets; eapply runs_bind; [apply next_io_runs|]|].
    + intros o s1 (Hq & _). rewrite Hst. instantiate (1 := fun y s' => quiet s s' /\ y.1 = None).
      destruct o; by apply runs_ret.
    + intros [y st'] s1 [Hq Hy]. simpl in Hy. subst y. apply runs_ret. split; [done|]. right.
      split; [done|]. intros _. apply not_elem_of_nil.
  - apply Forall_cons_1 in Hl as [Hx Hl]. eapply runs_bind; [by apply fgets_record|].
    intros [y st'] s1 [Hq [[Hn (st2 & [= -> ->])]|(Hy & Hr & Hp)]].
    + apply runs_ret. split; [done|]. right. done.
    + simpl in Hy, Hr, Hp. subst y. rewrite record_line_text. unfold record_line. rewrite <- !(assoc_L (++)).
      cbn [app]. rewrite field_plain by apply Hx. case_bool_decide as Hu.
      * rewrite (field_plain x.2) by apply Hx. unfold MAX_ENCRYPTED.
        destruct (Z.leb_spec 48 (zlen x.2)) as [Hbig|_]; [pose proof (ok_short _ Hx); unfold zlen in Hbig; lia|].
        apply runs_ret. split; [done|]. left. exists [], x.2, l. subst u. destruct x. simpl.
        split; [done|]. split; [apply not_elem_of_nil|]. by rewrite Z.add_0_r.
      * eapply runs_mono; [apply (IH l st' s1); [done..|simpl in Hf; lia]|].
        intros r s2 [Hq2 Hres]. split; [by eapply quiet_trans|]. destruct Hres as [Hfd|[-> Hno]].
        -- left. rewrite Hp in Hfd. by apply found_later.
        -- right. split; [done|]. intros E. apply not_elem_of_cons. split; [done|]. apply Hno.
           by eapply quiet_nil.
Qed.

Lemma length_file_text l : (length l <= length (file_text l))%nat.
Proof using Type.
  induction l as [|x l IH]; [done|]. rewrite file_text_cons, length_app. unfold record_text.
  rewrite !length_app. simpl. lia.
Qed.

(** The file holds the records [l]; no file is an empty one. *)
Definition holds (s : os) (l : list entry) : Prop :=
  passwd_file s = Some (file_text l) \/ (passwd_file s = None /\ l = []).

Lemma holds_quiet s s' l : holds s l -> quiet s s' -> holds s' l.
Proof using Type. unfold holds. intros Hh Hq. by rewrite (quiet_passwd _ _ Hq). Qed.

Lemma malloc_runs s : runs malloc_ok s (fun ok s' => quiet s s' /\ (io_script s = [] -> ok = true)).
Proof using Type.
  unfold malloc_ok. eapply runs_bind; [apply next_io_runs|]. intros o s1 (Hq & Hn & _).
  apply runs_ret. split; [done|]. intros E. by rewrite (Hn E).
Qed.

Lemma set_errno_runs e s : runs (set_errno e) s (fun _ s' => quiet s s' /\ errno s' = e).
Proof using Type. do 2 eexists. split; [done|]. split; [by constructor|done]. Qed.

Lemma fopen_runs file s : (forall s s', quiet s s' -> file s' = file s) ->
  runs (fopen_r file) s (fun x s' => quiet s s' /\
    match x with
    | Some st => exists c, file s = Some c /\ st = mkStream 0 c false false
    | None => (io_script s = [] -> file s = None /\ errno s' = ENOENT) /\ (fine s -> 0 < errno s')
    end).
Proof using Type.
  intros Hfile. unfold fopen_r. eapply runs_bind; [apply next_io_runs|]. intros o s1 (Hq & Hn & Hf & He).
  assert (runs (c ← get file; match c with
    | None => _ ← set_errno ENOENT; mret None
    | Some c => mret (Some (mkStream 0 c false false)) end) s1 (fun x s' => quiet s s' /\
    match x with
    | Some st => exists c, file s = Some c /\ st = mkStream 0 c false false
    | None => (io_script s = [] -> file s = None /\ errno s' = ENOENT) /\ (fine s -> 0 < errno s')
    end)) as Hopen.
  { eapply runs_bind; [apply get_runs|]. intros c s2 [-> ->]. rewrite (Hfile s s1 Hq).
    destruct (file s) as [c|] eqn:E; [apply runs_ret; split; [done|by exists c]|].
    eapply runs_bind; [apply set_errno_runs|]. intros [] s2 [Hq2 E2]. apply runs_ret.
    split; [by eapply quiet_trans|]. rewrite E2. done. }
  destruct o as [|e|n]; [exact Hopen| |exact Hopen]. apply runs_ret. split; [done|]. split.
  - intros E. by specialize (Hn E).
  - intros Hfi. destruct (Hf Hfi). by rewrite (He e eq_refl).
Qed.

Lemma find_runs u l s : Forall entry_ok l -> holds s l -> fine s ->
  runs (passwd_find u) s (fun r s' => quiet s s' /\
    (found u l 0 r \/ (r.1 < 0 /\ r.2 = None /\ (io_script s = [] -> r.1 = - ENOENT /\ u ∉ l.*1)))).
Proof using Type.
  intros Hl Hh Hfi. unfold passwd_find. eapply runs_bind; [apply malloc_runs|]. intros ok s1 [Hq Hok].
  destruct ok; cbn [negb]; [|apply runs_ret; split; [done|]; right; split; [done|]; split; [done|];
    intros E; by specialize (Hok E)].
  eapply runs_bind; [apply fopen_runs; by apply quiet_passwd|]. intros [st|] s2 [Hq2 Hst].
  - destruct Hst as (c & Hc & ->).
    assert (c = file_text l) as -> by (rewrite (quiet_passwd _ _ Hq) in Hc; destruct Hh as [Hh|[Hh _]]; congruence).
    eapply runs_mono; [apply (find_loop_runs u _ l (mkStream 0 (file_text l) false false) s2); [done..|]|].
    { pose proof (length_file_text l). simpl. lia. }
    intros r s3 [Hq3 [Hfd|[-> Hno]]]; (split; [eauto using quiet_trans|]); [by left|right].
    split; [done|]. split; [done|]. intros E. split; [done|]. apply Hno. eauto using quiet_nil.
  - destruct Hst as [Hn Hpos]. eapply runs_bind; [apply get_runs|]. intros e s3 [-> ->]. apply runs_ret.
    split; [by eapply quiet_trans|]. right. pose proof (Hpos (fine_quiet _ _ Hfi Hq)). simpl.
    split; [lia|]. split; [done|]. intros E. destruct (Hn (quiet_nil _ _ Hq E)) as [Hnone ->]. split; [done|].
    rewrite (quiet_passwd _ _ Hq) in Hnone. destruct Hh as [Hh|[_ ->]]; [congruence|]. apply not_elem_of_nil.
Qed.

(** ** Copying *)

(** No error so far, and an end that was seen is the end. *)
Definition steady (st : stream) : Prop := st_error st = false /\ (st_eof st = true -> st_rest st = []).

Definition fread_result (ins : stream) (n : Z) (s : os) (x : list Z * stream) (s' : os) : Prop :=
  quiet s s' /\
  ((x.1 = [] /\ st_error x.2 = true /\ 0 < errno s' /\ errno s' <> EINTR /\ io_script s <> []) \/
   (x.1 = [] /\ st_error x.2 = false /\ steady x.2 /\ st_rest ins = [] /\ st_rest x.2 = []) \/
   (x.1 <> [] /\ zlen x.1 <= n /\ steady x.2 /\ st_rest ins = x.1 ++ st_rest x.2)).

Lemma advance_steady st d : steady st -> d <> [] -> st_rest st <> [] -> steady (advance st d).
Proof using Type. intros [He Hend] Hd Hr. split; [done|]. simpl. intros E. by specialize (Hend E). Qed.

Lemma fread_runs n ins s : 0 < n -> fine s -> steady ins -> runs (fread n ins) s (fread_result ins n s).
Proof using Type.
  intros Hn Hfi Hst. unfold fread. eapply runs_bind; [apply next_io_runs|]. intros o s1 (Hq & Hnil & Hf & He).
  assert (forall k, (0 < k)%nat -> Z.of_nat k <= n -> runs (match st_rest ins with
    | [] => mret ([], set_st_eof ins)
    | l => let d := take k l in mret (d, advance ins d) end) s1 (fread_result ins n s)) as Hsome.
  { intros k Hk Hkn. destruct (st_rest ins) as [|c t] eqn:E; apply runs_ret; (split; [done|]); right.
    - left. destruct Hst. by repeat split.
    - right. split; [destruct k; [lia|done]|]. split; [cbn [fst]; unfold zlen; rewrite length_take; lia|].
      split; [apply advance_steady; [done|destruct k; [lia|done]|by rewrite E]|].
      cbn [fst snd advance st_rest]. rewrite E, length_take. destruct (Nat.le_gt_cases k (length (c :: t))).
      + by rewrite Nat.min_l, take_drop by lia.
      + rewrite take_ge, drop_ge by lia. by rewrite app_nil_r. }
  destruct o as [|e|k]; [apply Hsome; lia| |apply Hsome; lia]. apply runs_ret. split; [done|]. left.
  destruct (Hf Hfi). rewrite (He e eq_refl). repeat (split; [done|]). intros E. by specialize (Hnil E).
Qed.

Definition read_result (ins : stream) (g : Z) (got : list Z) (s : os)
    (x : (Z + list Z * bool) * stream) (s' : os) : Prop :=
  quiet s s' /\
  match x.1 with
  | inl ret => (ret < 0 /\ io_script s <> []) \/
               (ret = OK /\ got = [] /\ st_rest ins = [] /\ st_rest x.2 = [] /\ steady x.2)
  | inr (d, eof) => d <> [] /\ zlen d <= g /\ steady x.2 /\ got ++ st_rest ins = d ++ st_rest x.2 /\
               (if eof : bool then st_rest x.2 = [] else zlen d = g)
  end.

Lemma read_loop_runs g fuel : forall ins got s, fine s -> steady ins -> zlen got < g ->
  (length (st_rest ins) < fuel)%nat -> runs (read_loop fuel ins g got) s (read_result ins g got s).
Proof using Type.
  induction fuel as [|fuel IH]; intros ins got s Hfi Hst Hg Hf; [lia|]. cbn [read_loop].
  eapply runs_bind; [apply fread_runs; [lia|done..]|]. intros [d ins1] s1 [Hq Hd]. simpl in Hd.
  destruct Hd as [(-> & He & Hpos & Hni & Hio)|[(-> & He & Hst1 & Hr & Hr1)|(Hd & Hlen & Hst1 & Hr)]].
  - rewrite He. eapply runs_bind; [apply get_runs|]. intros e s2 [-> ->].
    destruct (Z.eqb_spec (errno s1) EINTR) as [|_]; [done|]. cbn [negb]. apply runs_ret.
    split; [done|]. left. simpl. split; [lia|done].
  - rewrite He. case_bool_decide as Hgot; apply runs_ret; (split; [done|]); simpl.
    + right. done.
    + rewrite Hr, Hr1. split; [done|]. split; [lia|done].
  - destruct d as [|c d]; [done|]. set (d' := c :: d) in *. rewrite zlen_app.
    assert (length d' <> 0%nat) by (unfold d'; simpl; lia).
    destruct (Z.ltb_spec (zlen got + zlen d') g) as [Hlt|Hge].
    + eapply runs_mono; [apply (IH ins1 (got ++ d') s1); [by eapply fine_quiet|done|by rewrite zlen_app|]|].
      { rewrite Hr, length_app in Hf. lia. }
      intros [r ins2] s2 [Hq2 Hres]. split; [by eapply quiet_trans|]. cbn [fst snd] in *. destruct r as [ret|[d2 eof]].
      * destruct Hres as [[Hneg Hio]|(_ & Habs & _)]; [|by apply app_eq_nil in Habs as [_ Habs]].
        left. split; [done|]. intros E. apply Hio. by eapply quiet_nil.
      * destruct Hres as (Hd2 & Hl2 & Hst2 & Heq & Hend). repeat (split; [done|]).
        by rewrite Hr, (assoc_L (++)).
    + apply runs_ret. split; [done|]. cbn [fst snd]. rewrite zlen_app, Hr, (assoc_L (++)).
      split; [by intros [_ ?]%app_eq_nil|]. split; [lia|]. split; [done|]. split; [done|lia].
Qed.

Lemma write_loop_runs fuel : forall d out s, fine s -> d <> [] -> (length d < fuel)%nat ->
  runs (write_loop fuel d out) s (fun x s' => quiet s s' /\
    (x = (OK, out ++ d) \/ (x.1 < 0 /\ io_script s <> []))).
Proof using Type.
  induction fuel as [|fuel IH]; intros d out s Hfi Hd Hf; [lia|]. cbn [write_loop]. unfold fwrite.
  eapply runs_bind.
  { eapply runs_bind; [apply next_io_runs|]. intros o s1 (Hq & Hn & Hio & He). apply runs_ret.
    instantiate (1 := fun n s' => quiet s s' /\ (n <= length d)%nat /\
      (n = 0%nat -> io_script s <> [] /\ 0 < errno s' /\ errno s' <> EINTR)).
    assert (length d <> 0%nat) by (by destruct d). split; [done|].
    destruct o as [|e|n]; (split; [lia|]); intros E; try lia. destruct (Hio Hfi). rewrite (He e eq_refl).
    split; [|done]. intros Enil. by specialize (Hn Enil). }
  intros n s1 (Hq & Hn & Hz). destruct (Nat.eqb_spec n 0) as [->|Hnz].
  - destruct (Hz eq_refl) as (Hio & Hpos & Hni). eapply runs_bind; [apply get_runs|]. intros e s2 [-> ->].
    destruct (Z.eqb_spec (errno s1) EINTR); [done|]. cbn [negb]. apply runs_ret. split; [done|]. right.
    simpl. split; [lia|done].
  - case_bool_decide as Hdr.
    + apply runs_ret. split; [done|]. left. do 2 f_equal.
      rewrite <- (take_drop n d) at 2. by rewrite Hdr, app_nil_r.
    + eapply runs_mono; [apply (IH (drop n d) (out ++ take n d) s1); [by eapply fine_quiet|done|rewrite length_drop; lia]|].
      intros x s2 [Hq2 [->|[Hneg Hio]]]; (split; [by eapply quiet_trans|]).
      * left. by rewrite <- (assoc_L (++)), take_drop.
      * right. split; [done|]. intros E. apply Hio. by eapply quiet_nil.
Qed.

Hypothesis buffer : 0 < CONFIG_FSUTILS_PASSWD_IOBUFFER_SIZE.

Definition copy_result (ins : stream) (out : list Z) (c : Z) (s : os) (x : Z * stream * list Z) (s' : os) : Prop :=
  quiet s s' /\
  ((x.1.1 < 0 /\ io_script s <> []) \/
   (x.1.1 = OK /\ steady x.1.2 /\ x.2 = out ++ take (Z.to_nat c) (st_rest ins) /\
    st_rest x.1.2 = drop (Z.to_nat c) (st_rest ins))).

Lemma copy_loop_runs size fuel : forall n eof ins out s, fine s -> steady ins -> 0 <= n <= size ->
  (eof = true -> st_rest ins = []) -> (length (st_rest ins) < fuel)%nat ->
  runs (copyfile_loop fuel size n eof ins out) s (copy_result ins out (size - n) s).
Proof using buffer.
  induction fuel as [|fuel IH]; intros n eof ins out s Hfi Hst Hn Heof Hf; [lia|]. cbn [copyfile_loop].
  destruct (Z.ltb_spec n size) as [Hlt|Hge]; cbn [andb].
  2: { apply runs_ret. split; [apply quiet_refl|]. right. replace (size - n) with 0 by lia. simpl.
       by rewrite app_nil_r. }
  destruct eof; cbn [negb].
  { apply runs_ret. split; [apply quiet_refl|]. right. rewrite (Heof eq_refl), take_nil, drop_nil. simpl.
    rewrite app_nil_r, (Heof eq_refl). done. }
  set (g := Z.min (size - n) CONFIG_FSUTILS_PASSWD_IOBUFFER_SIZE). assert (0 < g <= size - n) as Hg by lia.
  eapply runs_bind; [apply get_runs|]. intros k s0 [-> ->].
  eapply runs_bind; [apply (read_loop_runs g); [done|done|exact (proj1 Hg)|lia]|].
  intros [r ins1] s1 [Hq Hr]. cbn [fst snd] in Hr. destruct r as [ret|[d eof]].
  { apply runs_ret. split; [done|]. destruct Hr as [Hneg|(-> & _ & Hr & Hr1 & Hst1)]; [by left|right].
    cbn [fst snd]. rewrite Hr, Hr1, take_nil, drop_nil, app_nil_r. done. }
  destruct Hr as (Hd & Hlen & Hst1 & Hr & Hend). cbn [app] in Hr.
  assert (length d <> 0%nat) as Hd0 by (by destruct d).
  eapply runs_bind; [apply get_runs|]. intros k s2 [-> ->].
  eapply runs_bind; [apply write_loop_runs; [by eapply fine_quiet|done|lia]|].
  intros [ret out1] s3 [Hq3 [[= -> ->]|[Hneg Hio]]]; cbn [fst] in *.
  2: { destruct (Z.ltb_spec ret 0); [|lia]. apply runs_ret. split; [by eapply quiet_trans|]. left.
       split; [done|]. intros E. apply Hio. by eapply quiet_nil. }
  change (OK <? 0) with false. cbv iota. pose proof (zlen_nonneg d).
  eapply runs_mono; [apply (IH (n + zlen d) eof ins1 (out ++ d) s3)|].
  - eauto using fine_quiet, quiet_trans.
  - done.
  - lia.
  - intros ->. done.
  - rewrite Hr, length_app in Hf. lia.
  - intros [[ret' ins2] out2] s4 [Hq4 Hres]. split; [eauto using quiet_trans|]. cbn [fst snd] in *.
    destruct Hres as [[Hneg Hio]|(-> & Hst2 & -> & Hr2)]; [left|right].
    + split; [done|]. intros E. apply Hio. eauto using quiet_nil, quiet_trans.
    + split; [done|]. split; [done|].
      assert (Z.to_nat (size - n) = length d + Z.to_nat (size - (n + zlen d)))%nat as -> by (unfold zlen in *; lia).
      rewrite Hr2, Hr, <- (assoc_L (++)). by rewrite take_app_add, drop_app_add.
Qed.

Lemma copyfile_runs ins out c s : fine s -> steady ins -> 0 <= c ->
  runs (passwd_copyfile ins out c) s (copy_result ins out c s).
Proof using buffer.
  intros Hfi Hst Hc. unfold passwd_copyfile.
  eapply runs_mono; [apply (copy_loop_runs c); [done|done|lia|done|lia]|].
  intros x s'. by rewrite Z.sub_0_r.
Qed.

Lemma fgetc_runs c t ins s : fine s -> steady ins -> st_rest ins = c :: t ->
  runs (fgetc ins) s (fun x s' => quiet s s' /\
    ((x.1 = None /\ st_eof x.2 = false /\ 0 < errno s' /\ io_script s <> []) \/
     (x.1 = Some c /\ steady x.2 /\ st_rest x.2 = t))).
Proof using Type.
  intros Hfi Hst Hr. assert (st_eof ins = false) as Heof.
  { destruct Hst as [_ Hst]. destruct (st_eof ins); [|done]. by rewrite Hr in Hst; specialize (Hst eq_refl). }
  unfold fgetc. eapply runs_bind; [apply next_io_runs|]. intros o s1 (Hq & Hn & Hio & He). rewrite Hr.
  assert (steady (advance ins [c])) by (apply advance_steady; [done|done|by rewrite Hr]).
  destruct o as [|e|k]; apply runs_ret; (split; [done|]); [right| left |right];
    try (split; [done|]; split; [done|]; simpl; by rewrite Hr).
  destruct (Hio Hfi). rewrite (He e eq_refl). repeat (split; [done|]). intros E. by specialize (Hn E).
Qed.

Lemma discard_runs line r fuel : forall ins s, Forall (fun c => c <> newline) line -> fine s -> steady ins ->
  st_rest ins = line ++ newline :: r -> (length line < fuel)%nat ->
  runs (discard_loop fuel ins) s (fun x s' => quiet s s' /\
    ((x.1 < 0 /\ io_script s <> []) \/ (x.1 = OK /\ steady x.2 /\ st_rest x.2 = r))).
Proof using Type.
  revert fuel. induction line as [|c line IH]; intros fuel ins s Hl Hfi Hst Hr Hf;
    (destruct fuel as [|fuel]; [simpl in Hf; lia|]); cbn [discard_loop];
    (eapply runs_bind; [by eapply fgetc_runs|]);
    intros [ch ins1] s1 [Hq [(Hch & Heof & Hpos & Hio)|(Hch & Hst1 & Hr1)]]; cbn [fst snd] in *; rewrite Hch;
    try (rewrite Heof; eapply runs_bind; [apply get_runs|]; intros e s2 [-> ->]; apply runs_ret;
         split; [done|]; left; simpl; split; [lia|done]).
  - rewrite Z.eqb_refl. apply runs_ret. split; [done|]. right. done.
  - inv_Forall. destruct (Z.eqb_spec c newline); [done|].
    eapply runs_mono; [apply (IH fuel ins1 s1); [done|by eapply fine_quiet|done|done|simpl in Hf; lia]|].
    intros x s2 [Hq2 Hres]. split; [by eapply quiet_trans|]. destruct Hres as [[Hneg Hio]|Hres]; [left|by right].
    split; [done|]. intros E. apply Hio. by eapply quiet_nil.
Qed.

(** ** Removing a record *)

(** A step that may change the files. *)
Record later (s s' : os) : Prop := {
  later_close : close_script s' = close_script s;
  later_dir : dir_script s' = dir_script s;
  later_sem : sem_taken s' = sem_taken s;
  later_io : io_script s' `suffix_of` io_script s }.

Lemma quiet_later s s' : quiet s s' -> later s s'.
Proof using Type. by intros []. Qed.

Lemma later_trans s1 s2 s3 : later s1 s2 -> later s2 s3 -> later s1 s3.
Proof using Type. intros [] []. constructor; try congruence. by etrans. Qed.

Lemma later_nil s s' : later s s' -> io_script s = [] -> io_script s' = [].
Proof using Type. intros Hq E. pose proof (later_io _ _ Hq) as Hs. rewrite E in Hs. by apply suffix_nil_inv in Hs. Qed.

Lemma fine_later s s' : fine s -> later s s' -> fine s'.
Proof using Type.
  unfold fine. intros Hf Hq. destruct (later_io _ _ Hq) as [l Hl]. rewrite Hl in Hf.
  by apply Forall_app in Hf as [_ Hf].
Qed.

Lemma set_files_runs pf t s : runs (set_files pf t) s (fun _ s' => later s s' /\ passwd_file s' = pf /\ tmp_file s' = t).
Proof using Type. do 2 eexists. split; [done|]. split; [by constructor|done]. Qed.

Lemma next_dir_runs s : dir_script s = [] -> runs next_dir s (fun o s' => o = IoOk /\ s' = s).
Proof using Type. intros E. unfold runs, next_dir. rewrite E. by do 2 eexists. Qed.

Lemma fclose_runs d s : close_script s = [] -> runs (fclose_w d) s (fun x s' => x = d /\ s' = s).
Proof using Type. intros E. unfold runs, fclose_w, mbind, pw_bind, next_close. rewrite E. by do 2 eexists. Qed.

Lemma delete_done_runs ret c s : dir_script s = [] -> tmp_file s = Some c ->
  runs (delete_done ret) s (fun x s' => later s s' /\ x = ret /\
    passwd_file s' = if ret <? 0 then Some c else passwd_file s).
Proof using Type.
  intros Hdir Htmp. unfold delete_done. destruct (ret <? 0).
  - unfold unlink_passwd, rename_back. eapply runs_bind.
    + eapply runs_bind; [by apply next_dir_runs|]. intros o s1 [-> ->].
      eapply runs_bind; [apply get_runs|]. intros t s1 [-> ->]. rewrite Htmp. apply set_files_runs.
    + intros [] s1 (Hl & _ & Ht).
      eapply (runs_bind _ _ _ (fun _ s2 => later s1 s2 /\ passwd_file s2 = Some c)).
      * eapply runs_bind; [apply next_dir_runs; by rewrite (later_dir _ _ Hl)|]. intros o s2 [-> ->].
        eapply runs_bind; [apply get_runs|]. intros c' s2 [-> ->]. rewrite Ht.
        eapply runs_bind; [apply set_files_runs|]. intros [] s2 (Hl2 & Hp2 & _). by apply runs_ret.
      * intros z s2 [Hl2 Hp]. apply runs_ret. split; [by eapply later_trans|]. done.
  - unfold unlink_tmp. eapply runs_bind.
    + eapply runs_bind; [by apply next_dir_runs|]. intros o s1 [-> ->].
      eapply runs_bind; [apply get_runs|]. intros t s1 [-> ->]. apply set_files_runs.
    + intros [] s1 (Hl & Hp & _). apply runs_ret. done.
Qed.

Lemma close_passwd_runs out s : close_script s = [] ->
  runs (close_passwd out) s (fun _ s' => later s s' /\ passwd_file s' = Some out /\ tmp_file s' = tmp_file s).
Proof using Type.
  intros Hc. unfold close_passwd. eapply runs_bind; [by apply fclose_runs|]. intros d s1 [-> ->].
  eapply runs_bind; [apply get_runs|]. intros t s1 [-> ->]. apply set_files_runs.
Qed.

Lemma rename_runs c s : dir_script s = [] -> passwd_file s = Some c ->
  runs rename_to_tmp s (fun ret s' => later s s' /\ ret = OK /\ tmp_file s' = Some c).
Proof using Type.
  intros Hd Hp. unfold rename_to_tmp. eapply runs_bind; [by apply next_dir_runs|]. intros o s1 [-> ->].
  eapply runs_bind; [apply get_runs|]. intros c' s1 [-> ->]. rewrite Hp.
  eapply runs_bind; [apply set_files_runs|]. intros [] s1 (Hl & _ & Ht). by apply runs_ret.
Qed.

(** The line of [c] at the offset is gone, or an error has left the file as it was. *)
Definition delete_result (a b c : list Z) (s : os) (ret : Z) (s' : os) : Prop :=
  later s s' /\ ((ret = OK /\ passwd_file s' = Some (a ++ b)) \/
                (ret < 0 /\ passwd_file s' = Some c /\ io_script s <> [])).

Lemma restore_runs a b c s t ret : later s t -> dir_script s = [] -> tmp_file t = Some c -> ret < 0 ->
  io_script s <> [] -> runs (delete_done ret) t (delete_result a b c s).
Proof using Type.
  intros Hl Hd Ht Hr Hio. eapply runs_mono; [apply delete_done_runs; [by rewrite (later_dir _ _ Hl)|done]|].
  intros x s' (Hl2 & -> & Hp). split; [by eapply later_trans|]. right.
  destruct (Z.ltb_spec ret 0); [done|lia].
Qed.

(** The part of [passwd_delete] with both streams open. *)
Lemma delete_open_runs a line b c s t : c = a ++ line ++ newline :: b ->
  Forall (fun x => x <> newline) line -> zlen c <= SIZE_MAX -> fine s -> close_script s = [] -> dir_script s = [] ->
  later s t -> tmp_file t = Some c ->
  runs ('(ret, ins, out) ← passwd_copyfile (mkStream 0 c false false) [] (zlen a);
        if ret <? 0 then _ ← close_passwd out; delete_done ret
        else
          '(ret, ins) ← discard_loop (S (length (st_rest ins))) ins;
          if ret <? 0 then delete_done ret
          else
            '(ret, ins, out) ← passwd_copyfile ins out SIZE_MAX;
            _ ← close_passwd out;
            delete_done ret) t (delete_result a b c s).
Proof using buffer.
  intros Hc Hline Hsize Hfi Hcl Hd Hl Ht. pose proof (zlen_nonneg a).
  eapply runs_bind; [apply copyfile_runs; [by eapply fine_later|done|done]|].
  intros [[ret ins] out] s1 [Hq1 Hres]. cbn [fst snd] in Hres.
  pose proof (later_trans _ _ _ Hl (quiet_later _ _ Hq1)) as Hl1. pose proof (quiet_tmp _ _ Hq1) as Ht1. rewrite Ht in Ht1.
  destruct Hres as [[Hneg Hio]|(-> & Hst & -> & Hr)].
  { destruct (Z.ltb_spec ret 0); [|lia].
    eapply runs_bind; [apply close_passwd_runs; by rewrite (later_close _ _ Hl1)|].
    intros [] s2 (Hl2 & _ & Ht2). apply restore_runs; try done; [by eapply later_trans|congruence|].
    intros E. apply Hio. by eapply later_nil. }
  change (OK <? 0) with false. cbv iota. cbn [st_rest app] in *.
  unfold zlen in Hr |- *. rewrite Nat2Z.id in *. rewrite Hc, drop_app_length in Hr. rewrite Hc, take_app_length.
  eapply runs_bind; [apply (discard_runs line b); [done|by eapply fine_later|done|done|rewrite Hr, length_app; simpl; lia]|].
  intros [ret ins2] s2 [Hq2 Hres]. cbn [fst snd] in Hres.
  pose proof (later_trans _ _ _ Hl1 (quiet_later _ _ Hq2)) as Hl2. pose proof (quiet_tmp _ _ Hq2) as Ht2. rewrite Ht1 in Ht2.
  destruct Hres as [[Hneg Hio]|(-> & Hst2 & Hr2)].
  { destruct (Z.ltb_spec ret 0); [|lia]. apply restore_runs; try done; [congruence|].
    intros E. apply Hio. by eapply later_nil. }
  change (OK <? 0) with false. cbv iota.
  eapply runs_bind; [apply copyfile_runs; [by eapply fine_later|done|done]|].
  intros [[ret ins3] out3] s3 [Hq3 Hres]. cbn [fst snd] in Hres.
  pose proof (later_trans _ _ _ Hl2 (quiet_later _ _ Hq3)) as Hl3. pose proof (quiet_tmp _ _ Hq3) as Ht3. rewrite Ht2 in Ht3.
  eapply runs_bind; [apply close_passwd_runs; by rewrite (later_close _ _ Hl3)|].
  intros [] s4 (Hl4 & Hp4 & Ht4). rewrite Ht3 in Ht4. pose proof (later_trans _ _ _ Hl3 Hl4) as Hl34.
  destruct Hres as [[Hneg Hio]|(-> & _ & -> & _)].
  { apply restore_runs; try done; [congruence|]. intros E. apply Hio. by eapply later_nil. }
  eapply runs_mono; [apply (delete_done_runs OK c); [by rewrite (later_dir _ _ Hl34)|congruence]|].
  intros x s5 (Hl5 & -> & Hp5). split; [by eapply later_trans|]. left. split; [done|].
  change (OK <? 0) with false in Hp5. cbv iota in Hp5. rewrite Hp5, Hp4, Hr2. f_equal.
  rewrite take_ge; [done|]. rewrite Hc in Hsize. unfold zlen in Hsize. rewrite !length_app in Hsize. simpl in Hsize. lia.
Qed.

Lemma delete_runs a line b c s : c = a ++ line ++ newline :: b ->
  Forall (fun x => x <> newline) line -> zlen c <= SIZE_MAX -> fine s -> close_script s = [] -> dir_script s = [] ->
  passwd_file s = Some c -> runs (passwd_delete (zlen a)) s (delete_result a b c s).
Proof using buffer.
  intros Hc Hline Hsize Hfi Hcl Hd Hp. unfold passwd_delete.
  eapply runs_bind; [apply malloc_runs|]. intros ok s1 [Hq1 Hok]. destruct ok; cbn [negb].
  2: { apply runs_ret. split; [by apply quiet_later|]. right. split; [done|]. split; [by rewrite (quiet_passwd _ _ Hq1)|].
       intros E. by specialize (Hok E). }
  eapply runs_bind; [apply (rename_runs c); [by rewrite (quiet_dir _ _ Hq1)|by rewrite (quiet_passwd _ _ Hq1)]|].
  intros ret s2 (Hl2 & -> & Ht2). change (OK <? 0) with false. cbv iota.
  pose proof (later_trans _ _ _ (quiet_later _ _ Hq1) Hl2) as Hl12. pose proof (fine_later _ _ Hfi Hl12) as Hfi2.
  eapply runs_bind; [apply fopen_runs; by apply quiet_tmp|]. intros [ins|] s3 [Hq3 Hin];
    pose proof (later_trans _ _ _ Hl12 (quiet_later _ _ Hq3)) as Hl3; pose proof (quiet_tmp _ _ Hq3) as Ht3;
    rewrite Ht2 in *.
  2: { destruct Hin as [Hnil Hpos]. eapply runs_bind; [apply get_runs|]. intros e s4 [-> ->].
       specialize (Hpos Hfi2). apply restore_runs; try done; [lia|]. intros E.
       by destruct (Hnil (later_nil _ _ Hl12 E)). }
  destruct Hin as (c' & [= <-] & ->). eapply runs_bind; [apply next_io_runs|]. intros o s4 (Hq4 & Hn & Hio & He).
  pose proof (later_trans _ _ _ Hl3 (quiet_later _ _ Hq4)) as Hl4. pose proof (quiet_tmp _ _ Hq4) as Ht4. rewrite Ht3 in Ht4.
  destruct o as [|e|k].
  2: { destruct (Hio (fine_later _ _ Hfi Hl3)). apply restore_runs; try done; [lia|]. intros E.
       by specialize (Hn (later_nil _ _ Hl3 E)). }
  all: eapply runs_bind; [apply get_runs|]; intros t s5 [-> ->]; rewrite Ht4;
    eapply runs_bind; [apply set_files_runs|]; intros [] s6 (Hl6 & _ & Ht6);
    eapply delete_open_runs; try done; by eapply later_trans.
Qed.

(** ** Adding a record *)

Lemma append_runs u p e l s : passwd_encrypt p = Done (OK, e) -> holds s l ->
  io_script s = [] -> close_script s = [] ->
  runs (passwd_append u p) s (fun ret s' => later s s' /\ ret = OK /\ holds s' (l ++ [(u, e)])).
Proof using Type.
  intros Hp Hh Hio Hcl. unfold passwd_append. rewrite Hp.
  eapply (runs_bind _ _ _ (fun x s1 => x = (OK, e) /\ s1 = s)); [by do 2 eexists|].
  intros x s1 [-> ->]. change (OK <? 0) with false. cbv iota.
  eapply runs_bind; [apply next_io_runs|]. intros o s1 (Hq & Hn & _). rewrite (Hn Hio).
  eapply runs_bind; [apply get_runs|]. intros c s2 [-> ->]. eapply runs_bind; [apply get_runs|]. intros t s2 [-> ->].
  eapply runs_bind; [apply next_io_runs|]. intros o2 s2 (Hq2 & Hn2 & _). rewrite (Hn2 (quiet_nil _ _ Hq Hio)).
  eapply runs_bind; [apply fclose_runs; by rewrite (quiet_close _ _ Hq2), (quiet_close _ _ Hq)|]. intros d s3 [-> ->].
  eapply runs_bind; [apply set_files_runs|]. intros [] s3 (Hl3 & Hp3 & _). apply runs_ret.
  split; [eauto using later_trans, quiet_later|]. split; [done|]. left. rewrite Hp3, (quiet_passwd _ _ Hq), file_text_app.
  unfold file_text at 2. cbn [fmap list_fmap uncurry mjoin list_join]. rewrite app_nil_r. destruct Hh as [->|[-> ->]]; done.
Qed.

(** ** The lock *)

Definition unlocked (s : os) : os :=
  mkOs (passwd_file s) (tmp_file s) (io_script s) (close_script s) (dir_script s) (errno s) false.

(** The state behind [passwd_lock]. *)
Record locks (s t : os) : Prop := {
  locks_passwd : passwd_file t = passwd_file s; locks_tmp : tmp_file t = tmp_file s;
  locks_close : close_script t = close_script s; locks_dir : dir_script t = dir_script s;
  locks_io : io_script t `suffix_of` io_script s }.

Lemma sem_wait_runs fuel : forall s, sem_taken s = false -> (length (io_script s) < fuel)%nat ->
  runs (sem_wait_loop fuel) s (fun _ t => locks s t).
Proof using Type.
  induction fuel as [|fuel IH]; intros s Hs Hf; [lia|]. cbn [sem_wait_loop].
  destruct (io_script s) as [|o l] eqn:E.
  - eapply runs_bind; [apply next_io_runs|]. intros o s1 (Hq & Hn & _). rewrite (Hn E).
    eapply runs_bind; [apply get_runs|]. intros b s2 [-> ->]. rewrite (quiet_sem _ _ Hq), Hs.
    do 2 eexists. split; [done|]. destruct Hq. by constructor.
  - assert (runs next_io s (fun x t => x = o /\ quiet s t /\ io_script t = l)) as Hnext.
    { unfold runs, next_io. rewrite E. do 2 eexists. split; [done|]. split; [done|]. split; [|done].
      constructor; try done. rewrite E. by exists [o]. }
    eapply runs_bind; [exact Hnext|]. intros x s1 (-> & Hq & Hl). destruct o as [|e|k].
    2: { eapply runs_mono; [apply (IH s1); [by rewrite (quiet_sem _ _ Hq)|rewrite Hl; simpl in Hf; lia]|].
         intros _ t []. destruct Hq. constructor; try congruence. by etrans. }
    all: eapply runs_bind; [apply get_runs|]; intros b s2 [-> ->]; rewrite (quiet_sem _ _ Hq), Hs;
      do 2 eexists; (split; [done|]); destruct Hq; by constructor.
Qed.

Lemma with_lock_runs m s (P : Z -> os -> Prop) : sem_taken s = false -> fine s ->
  (forall t, locks s t -> runs m t (fun ret t' => P ret (unlocked t'))) ->
  (forall ret s', ret < 0 -> quiet s s' -> io_script s <> [] -> P ret s') ->
  runs (with_lock m) s P.
Proof using Type.
  intros Hs Hfi Hm Hfail. unfold with_lock, passwd_lock.
  assert (forall s1, quiet s s1 -> runs (ret ← (n ← get (fun s => length (io_script s));
      _ ← sem_wait_loop (S n); mret OK);
    if ret <? 0 then mret ret else ret ← m; _ ← passwd_unlock; mret ret) s1 P) as Hgo.
  { intros s1 Hq. eapply (runs_bind _ _ _ (fun ret t => ret = OK /\ locks s t)).
    - eapply runs_bind; [apply get_runs|]. intros n s2 [-> ->].
      eapply runs_bind; [apply sem_wait_runs; [by rewrite (quiet_sem _ _ Hq)|lia]|].
      intros [] t []. apply runs_ret. split; [done|]. destruct Hq. constructor; try congruence. by etrans.
    - intros ret t [-> Ht]. change (OK <? 0) with false. cbv iota. eapply runs_bind; [by apply Hm|].
      intros ret t' HP. eapply (runs_bind _ _ _ (fun _ t2 => t2 = unlocked t')).
      + by do 2 eexists.
      + intros [] t2 ->. by apply runs_ret. }
  destruct CONFIG_FS_NAMED_SEMAPHORES; [|by apply (Hgo s (quiet_refl s))].
  destruct (next_io_runs s) as (o & s1 & E & Hq & Hn & Hio & _).
  unfold mbind at 1, pw_bind at 1. unfold runs. unfold mbind at 1, pw_bind at 1. rewrite E.
  destruct o as [|e|k]; [by apply (Hgo s1)| |by apply (Hgo s1)].
  destruct (Hio Hfi). unfold mret at 1, pw_ret at 1. destruct (Z.ltb_spec (- e) 0); [|lia].
  do 2 eexists. split; [done|]. apply Hfail; [done|done|]. intros En. by specialize (Hn En).
Qed.
End db.
