(* ===== verification/PasswdMap.v ===== *)
(** * PasswdMap: the password file as a map from users to passwords

    The abstract database, and that each operation on the file does to it what it should: for
    all operations when no call fails, and for the removal of a user whatever fails. *)

From S2P Require Import Prelude Passwd PasswdEnc PasswdDb.
#[local] Open Scope Z_scope.

(** ** The abstract database *)

Inductive pw_op :=
| PwAdd (u p : list Z) | PwDel (u : list Z) | PwUpdate (u p : list Z) | PwVerify (u p : list Z).

Notation database := (gmap (list Z) (list Z)).

(** A password matches when it is the stored one up to the spaces both are filled up with. *)
Definition spec_op (m : database) (o : pw_op) : Z * database :=
  match o with
  | PwAdd u p => match m !! u with Some _ => (- EEXIST, m) | None => (OK, <[u := p]> m) end
  | PwDel u => match m !! u with Some _ => (OK, delete u m) | None => (- ENOENT, m) end
  | PwUpdate u p => match m !! u with Some _ => (OK, <[u := p]> m) | None => (- ENOENT, m) end
  | PwVerify u p =>
      match m !! u with
      | Some q => (if bool_decide (padded p = padded q) then 1 else 0, m)
      | None => (- ENOENT, m)
      end
  end.

Fixpoint spec_ops (m : database) (os : list pw_op) : list Z * database :=
  match os with
  | [] => ([], m)
  | o :: os => let '(r, m) := spec_op m o in let '(rs, m) := spec_ops m os in (r :: rs, m)
  end.

Section map.
Context `{PwConfig} `{Tea} `{!TeaLaws}.

Definition run_pw (o : pw_op) : pw Z :=
  match o with
  | PwAdd u p => passwd_adduser u p
  | PwDel u => passwd_deluser u
  | PwUpdate u p => passwd_update u p
  | PwVerify u p => passwd_verify u p
  end.

Fixpoint run_ops (os : list pw_op) : pw (list Z) :=
  match os with
  | [] => mret []
  | o :: os => r ← run_pw o; rs ← run_ops os; mret (r :: rs)
  end.

(** Names without delimiters whose record fits the buffer; passwords of at most 32 bytes. *)
Definition user_ok (u : list Z) : Prop :=
  Forall plain u /\ zlen u + 51 < CONFIG_FSUTILS_PASSWD_IOBUFFER_SIZE.
Definition password_ok (p : list Z) : Prop := Forall is_byte p /\ (length p <= 32)%nat.

Definition op_ok (o : pw_op) : Prop :=
  match o with
  | PwDel u => user_ok u
  | PwAdd u p | PwUpdate u p | PwVerify u p => user_ok u /\ password_ok p
  end.

Definition enc_entry (x : list Z * list Z) : list Z * list Z := (x.1, encrypted x.2).

(** The file holds [m], in at most [n] records. *)
Definition represents (n : nat) (s : os) (m : database) : Prop :=
  exists l, NoDup l.*1 /\ list_to_map l = m /\ (length l <= n)%nat /\
    Forall (fun x => user_ok x.1 /\ password_ok x.2) l /\ holds s (enc_entry <$> l).

(** Every call succeeds, and nobody holds the lock. *)
Record ready (s : os) : Prop := {
  ready_sem : sem_taken s = false;
  ready_close : close_script s = []; ready_dir : dir_script s = [] }.

(** ** From records to the map *)

Lemma enc_entry_ok x : user_ok x.1 -> password_ok x.2 -> entry_ok (enc_entry x).
Proof.
  intros [Hu Hl] [Hp Hpl]. destruct (encrypted_ok x.2 Hp Hpl) as (_ & He & Hlen).
  constructor; simpl; [done|done|lia|]. unfold record_text, zlen in *. rewrite !length_app. simpl. lia.
Qed.

Lemma entries_ok l : Forall (fun x => user_ok x.1 /\ password_ok x.2) l -> Forall entry_ok (enc_entry <$> l).
Proof. intros Hl. apply Forall_fmap. eapply Forall_impl; [|exact Hl]. intros x []. by apply enc_entry_ok. Qed.

Lemma enc_users l : (enc_entry <$> l).*1 = l.*1.
Proof using Type. rewrite <- list_fmap_compose. by apply list_fmap_ext. Qed.

Hypothesis buffer : 0 < CONFIG_FSUTILS_PASSWD_IOBUFFER_SIZE.

Lemma file_size l : Forall entry_ok l ->
  zlen (file_text l) <= Z.of_nat (length l) * CONFIG_FSUTILS_PASSWD_IOBUFFER_SIZE.
Proof using buffer.
  induction 1 as [|x l Hx _ IH]; [done|]. rewrite file_text_cons, zlen_app. cbn [length].
  pose proof (ok_line _ Hx). lia.
Qed.

(** The record that was found, and the file around it. *)
Definition around (u p : list Z) (pre post : list (list Z * list Z)) (m : database) (r : Z * option passwd_s) : Prop :=
  r = (OK, Some (mkPasswd (zlen (file_text (enc_entry <$> pre))) (encrypted p))) /\ m !! u = Some p /\
  file_text (enc_entry <$> pre ++ (u, p) :: post) =
    file_text (enc_entry <$> pre) ++ record_line u (encrypted p) ++ newline :: file_text (enc_entry <$> post).

Lemma found_around u l r : NoDup l.*1 -> found u (enc_entry <$> l) 0 r ->
  exists pre p post, l = pre ++ (u, p) :: post /\ around u p pre post (list_to_map l) r.
Proof using Type.
  intros Hnd (pre' & e & post' & Hl & _ & ->). apply fmap_app_inv in Hl as (pre & l2 & Epre & E2 & ->).
  symmetry in E2. apply fmap_cons_inv in E2 as ([u' p] & post & Hx & Epost & ->). injection Hx as <- ->. subst pre' post'.
  exists pre, p, post. split; [done|]. split; [done|]. split.
  - apply elem_of_list_to_map_1; [done|]. apply elem_of_app. right. apply elem_of_cons. by left.
  - rewrite fmap_app, file_text_app, fmap_cons, file_text_cons, record_line_text. cbn [enc_entry fst snd].
    by rewrite <- !(assoc_L (++)).
Qed.

(** Looking for a user in a file that holds [m]. *)
Lemma find_map n s m u : represents n s m -> fine s -> 
  runs (passwd_find u) s (fun r s' => quiet s s' /\
    ((exists l pre p post, NoDup l.*1 /\ list_to_map l = m /\ (length l <= n)%nat /\
        Forall (fun x => user_ok x.1 /\ password_ok x.2) l /\ l = pre ++ (u, p) :: post /\
        around u p pre post m r /\ holds s (enc_entry <$> l)) \/
     (r.1 < 0 /\ r.2 = None /\ (io_script s = [] -> r.1 = - ENOENT /\ m !! u = None)))).
Proof.
  intros (l & Hnd & Hm & Hn & Hl & Hh) Hfi.
  eapply runs_mono; [apply (find_runs u (enc_entry <$> l) s); [by apply entries_ok|done|done]|].
  intros r s' [Hq [Hfd|(Hneg & Hnone & Hno)]]; (split; [done|]).
  - left. destruct (found_around u l r Hnd Hfd) as (pre & p & post & E & Har). rewrite Hm in Har.
    by exists l, pre, p, post.
  - right. split; [done|]. split; [done|]. intros Eio. destruct (Hno Eio) as [-> Hu]. split; [done|].
    rewrite <- Hm. apply not_elem_of_list_to_map_1. by rewrite enc_users in Hu.
Qed.

(** The map without the record. *)
Lemma without_record pre (u p : list Z) post : NoDup (pre ++ (u, p) :: post).*1 ->
  NoDup (pre ++ post).*1 /\ u ∉ (pre ++ post).*1 /\
  list_to_map (M := database) (pre ++ post) = delete u (list_to_map (pre ++ (u, p) :: post)).
Proof using Type.
  intros Hnd. assert (Permutation (pre ++ (u, p) :: post) ((u, p) :: pre ++ post)) as Hp
    by (symmetry; apply Permutation_middle).
  pose proof Hnd as Hnd'. rewrite Hp in Hnd'. rewrite fmap_cons in Hnd'. pose proof (NoDup_cons_1_1 _ _ Hnd') as Hu. apply NoDup_cons_1_2 in Hnd' as Hnd2. cbn [fst] in Hu.
  split; [done|]. split; [done|].
  rewrite (list_to_map_proper _ _ Hnd Hp), list_to_map_cons, delete_insert_eq. symmetry.
  apply delete_id. by apply not_elem_of_list_to_map_1.
Qed.

Lemma represents_quiet n s s' m : represents n s m -> quiet s s' -> represents n s' m.
Proof using Type.
  intros (l & Hl1 & Hl2 & Hl3 & Hl4 & Hh) Hq. exists l. repeat (split; [done|]). by eapply holds_quiet.
Qed.

Lemma represents_file n s s' m : passwd_file s' = passwd_file s -> represents n s m -> represents n s' m.
Proof using Type.
  intros E (l & Hl1 & Hl2 & Hl3 & Hl4 & Hh). exists l. repeat (split; [done|]). unfold holds. by rewrite E.
Qed.

(** ** Removing a user *)

(** [u] is gone, or an error has left the database as it was. *)
Definition removed (n : nat) (m : database) (u : list Z) (s : os) (ret : Z) (s' : os) : Prop :=
  (ret = OK /\ represents n s' (delete u m) /\ m !! u <> None) \/
  (ret < 0 /\ represents n s' m /\ (io_script s = [] -> ret = - ENOENT /\ m !! u = None)).

Lemma remove_runs n s m u l pre p post r : fine s -> close_script s = [] -> dir_script s = [] ->
  Z.of_nat n * CONFIG_FSUTILS_PASSWD_IOBUFFER_SIZE <= SIZE_MAX ->
  NoDup l.*1 -> list_to_map l = m -> (length l <= n)%nat ->
  Forall (fun x => user_ok x.1 /\ password_ok x.2) l -> l = pre ++ (u, p) :: post ->
  around u p pre post m r -> holds s (enc_entry <$> l) ->
  runs (passwd_delete (zlen (file_text (enc_entry <$> pre)))) s (fun ret s' => later s s' /\
    ((ret = OK /\ holds s' (enc_entry <$> pre ++ post)) \/
     (ret < 0 /\ passwd_file s' = passwd_file s /\ io_script s <> []))).
Proof.
  intros Hfi Hcl Hdir Hsz Hnd Hm Hn Hl El (_ & _ & Htext) Hh.
  assert (passwd_file s = Some (file_text (enc_entry <$> l))) as Hp.
  { destruct Hh as [Hh|[_ Hh]]; [done|]. rewrite El, fmap_app in Hh. by apply app_eq_nil in Hh as [_ Hh]. }
  assert (entry_ok (enc_entry (u, p))) as Hrec.
  { rewrite El in Hl. apply Forall_app in Hl as [_ [[Hu Hpw] _]%Forall_cons_1]. by apply enc_entry_ok. }
  eapply runs_mono; [eapply (delete_runs buffer _ (record_line u (encrypted p)) (file_text (enc_entry <$> post)) _ s
    eq_refl (record_line_plain _ Hrec)); [|done..|by rewrite Hp, El, Htext]|].
  - rewrite <- Htext, <- El. pose proof (file_size _ (entries_ok l Hl)) as Hs. rewrite length_fmap in Hs. nia.
  - intros ret s' [Hlt [[-> Hf]|(Hneg & Hf & Hio)]]; (split; [done|]); [left|right].
    + split; [done|]. left. by rewrite Hf, fmap_app, file_text_app.
    + split; [done|]. split; [|done]. by rewrite Hf, Hp, El, Htext.
Qed.

(** Behind a call: the lock is free, and only outcomes of the library were used up. *)
Record settled (s s' : os) : Prop := {
  settled_ready : ready s -> ready s';
  settled_io : io_script s' `suffix_of` io_script s }.

Lemma settled_quiet s s' : quiet s s' -> settled s s'.
Proof using Type. intros []. constructor; [|done]. intros []. constructor; congruence. Qed.

Lemma settled_unlocked s t t' : locks s t -> later t t' -> settled s (unlocked t').
Proof using Type.
  intros [] []. constructor; [|simpl; by etrans]. intros []. constructor; simpl; congruence.
Qed.

Lemma locks_fine s t : fine s -> locks s t -> fine t.
Proof using Type.
  unfold fine. intros Hf Hk. destruct (locks_io _ _ Hk) as [l Hl]. rewrite Hl in Hf.
  by apply Forall_app in Hf as [_ Hf].
Qed.

Lemma locks_nil s t : locks s t -> io_script s = [] -> io_script t = [].
Proof using Type. intros Hk E. pose proof (locks_io _ _ Hk) as Hs. rewrite E in Hs. by apply suffix_nil_inv in Hs. Qed.

Lemma represents_unlocked n s m : represents n s m -> represents n (unlocked s) m.
Proof using Type. by apply represents_file. Qed.

Lemma represents_locks n s t m : locks s t -> represents n s m -> represents n t m.
Proof using Type. intros Hk. apply represents_file. by destruct Hk. Qed.

Lemma deluser_runs n s m u : ready s -> fine s -> represents n s m ->
  Z.of_nat n * CONFIG_FSUTILS_PASSWD_IOBUFFER_SIZE <= SIZE_MAX ->
  runs (passwd_deluser u) s (fun ret s' => settled s s' /\ removed n m u s ret s').
Proof.
  intros Hrd Hfi Hrep Hsz. apply with_lock_runs; [apply Hrd|done| |].
  2: { intros ret s' Hneg Hq Hio. split; [by apply settled_quiet|]. right. split; [done|].
       split; [by eapply represents_quiet|]. done. }
  intros t Hk. pose proof (represents_locks _ _ _ _ Hk Hrep) as Hrt. pose proof (locks_fine _ _ Hfi Hk) as Hft.
  eapply runs_bind; [by apply find_map|]. intros [ret p] s1 [Hq Hres]. cbn [fst snd] in Hres.
  destruct Hres as [(l & pre & q & post & Hnd & Hm & Hn & Hl & El & Har & Hh)|(Hneg & -> & Hno)].
  - pose proof Har as ([= -> ->] & Hmu & _). change (OK <? 0) with false. cbv iota. cbn [pw_offset].
    eapply runs_mono; [eapply (remove_runs n s1 m u l pre q post); try done|].
    + by eapply fine_quiet.
    + rewrite (quiet_close _ _ Hq), (locks_close _ _ Hk). apply Hrd.
    + rewrite (quiet_dir _ _ Hq), (locks_dir _ _ Hk). apply Hrd.
    + by eapply holds_quiet.
    + intros ret' s2 [Hl2 Hres]. split; [eapply settled_unlocked; eauto using later_trans, quiet_later|].
      destruct Hres as [[-> Hh2]|(Hneg & Hf & Hio)]; [left|right].
      * split; [done|]. split; [|congruence]. apply represents_unlocked. rewrite El in Hnd, Hn, Hl, Hm.
        destruct (without_record pre u q post Hnd) as (Hnd2 & _ & Hmap). exists (pre ++ post).
        split; [done|]. split; [by rewrite Hmap, Hm|]. split; [rewrite length_app in *; simpl in Hn; lia|].
        split; [|done]. apply Forall_app in Hl as [Hl1 [_ Hl2']%Forall_cons_1]. by apply Forall_app_2.
      * split; [done|]. split; [|intros E; destruct Hio; eauto using quiet_nil, locks_nil].
        apply represents_unlocked. eapply represents_file; [exact Hf|]. by eapply represents_quiet.
  - apply runs_ret. split; [eapply settled_unlocked; [done|by apply quiet_later]|]. right. split; [done|].
    split; [apply represents_unlocked; by eapply represents_quiet|]. intros E. apply Hno. by eapply locks_nil.
Qed.

(** ** Sessions without failures *)

Record idle (s : os) : Prop := { idle_ready : ready s; idle_io : io_script s = [] }.

Lemma idle_settled s s' : idle s -> settled s s' -> idle s'.
Proof using Type.
  intros [Hr Hio] [Hs Hsuf]. constructor; [by apply Hs|]. rewrite Hio in Hsuf. by apply suffix_nil_inv in Hsuf.
Qed.

Lemma idle_fine s : io_script s = [] -> fine s.
Proof using Type. unfold fine. intros ->. constructor. Qed.

Lemma append_map n s m u p : represents n s m -> m !! u = None -> user_ok u -> password_ok p ->
  io_script s = [] -> close_script s = [] ->
  runs (passwd_append u p) s (fun ret s' => later s s' /\ ret = OK /\ represents (S n) s' (<[u := p]> m)).
Proof.
  intros (l & Hnd & Hm & Hn & Hl & Hh) Hu Huok [Hp Hpl] Hio Hcl.
  destruct (encrypted_ok p Hp Hpl) as (Henc & _ & _).
  eapply runs_mono; [by eapply (append_runs u p (encrypted p))|]. intros ret s' (Hlt & -> & Hh2).
  split; [done|]. split; [done|]. rewrite <- Hm in Hu. apply not_elem_of_list_to_map_2 in Hu.
  exists (l ++ [(u, p)]). rewrite fmap_app. split.
  { assert (Permutation (l.*1 ++ [(u, p)].*1) (u :: l.*1)) as -> by (symmetry; apply Permutation_cons_append).
    by apply NoDup_cons_2. }
  split; [by rewrite list_to_map_snoc, Hm|]. split; [rewrite length_app; simpl; lia|].
  split; [apply Forall_app_2; [done|]; by apply Forall_singleton|]. by rewrite fmap_app.
Qed.

Lemma represents_more n s m : represents n s m -> represents (S n) s m.
Proof using Type. intros (l & Hl1 & Hl2 & Hl3 & Hl4 & Hh). exists l. repeat (split; [done || lia|]). done. Qed.

(** What an operation promises without failures. *)
Definition does (n : nat) (r : Z * database) (s : os) (ret : Z) (s' : os) : Prop :=
  later s s' /\ ret = r.1 /\ represents (S n) s' r.2.

Record calm (s : os) : Prop := {
  calm_io : io_script s = []; calm_close : close_script s = []; calm_dir : dir_script s = [] }.

Lemma calm_quiet s s' : calm s -> quiet s s' -> calm s'.
Proof using Type. intros [Hio Hc Hd] Hq. pose proof (quiet_nil _ _ Hq Hio). destruct Hq. constructor; congruence. Qed.

Lemma does_same n m r s s' : represents n s m -> quiet s s' -> does n (r, m) s r s'.
Proof using Type.
  intros Hr Hq. split; [by apply quiet_later|]. split; [done|]. apply represents_more. by eapply represents_quiet.
Qed.

Lemma locked_runs n s m body r : idle s -> represents n s m ->
  (forall t, calm t -> represents n t m -> runs body t (does n r t)) ->
  runs (with_lock body) s (fun ret s' => settled s s' /\ ret = r.1 /\ represents (S n) s' r.2).
Proof using Type.
  intros [Hrd Hio] Hrep Hb. apply with_lock_runs; [apply Hrd|by apply idle_fine| |by intros ret s' _ _ []].
  intros t Hk. eapply runs_mono; [apply Hb|].
  - constructor; [by eapply locks_nil|rewrite (locks_close _ _ Hk); apply Hrd|rewrite (locks_dir _ _ Hk); apply Hrd].
  - by eapply represents_locks.
  - intros ret t' (Hl & -> & Hr). split; [by eapply settled_unlocked|]. split; [done|]. by apply represents_unlocked.
Qed.

(** The record of a user, in a file that holds [m]. *)
Definition located (n : nat) (s : os) (m : database) (u q : list Z) (off : Z) : Prop :=
  m !! u = Some q /\ password_ok q /\
  runs (passwd_delete off) s (fun ret s' => later s s' /\ ret = OK /\ represents n s' (delete u m)).

Lemma find_calm n s m u : calm s -> represents n s m ->
  Z.of_nat n * CONFIG_FSUTILS_PASSWD_IOBUFFER_SIZE <= SIZE_MAX ->
  runs (passwd_find u) s (fun r s' => quiet s s' /\
    ((r = (- ENOENT, None) /\ m !! u = None) \/
     (exists q off, r = (OK, Some (mkPasswd off (encrypted q))) /\ located n s' m u q off))).
Proof.
  intros [Hio Hcl Hdir] Hrep Hsz. eapply runs_mono; [apply (find_map n s m u Hrep (idle_fine _ Hio))|].
  intros [ret p'] s1 [Hq Hres]. split; [done|]. cbn [fst snd] in Hres.
  destruct Hres as [(l & pre & q & post & Hnd & Hm & Hn & Hl & El & Har & Hh)|(_ & -> & Hno)].
  2: { left. by destruct (Hno Hio) as [-> ->]. }
  right. pose proof Har as ([= -> ->] & Hmu & _). exists q, (zlen (file_text (enc_entry <$> pre))).
  split; [done|]. split; [done|].
  assert (password_ok q) as Hpq by (rewrite El in Hl; by apply Forall_app in Hl as [_ [[_ ?] _]%Forall_cons_1]).
  split; [done|]. pose proof (quiet_nil _ _ Hq Hio) as Hio1.
  eapply runs_mono; [eapply (remove_runs n s1 m u l pre q post); try done|].
  - by apply idle_fine.
  - by rewrite (quiet_close _ _ Hq).
  - by rewrite (quiet_dir _ _ Hq).
  - by eapply holds_quiet.
  - intros ret s2 [Hl2 [[-> Hh2]|(_ & _ & Hbad)]]; [|done]. split; [done|]. split; [done|].
    rewrite El in Hnd, Hn, Hl, Hm. destruct (without_record pre u q post Hnd) as (Hnd2 & Hu2 & Hmap).
    rewrite Hm in Hmap. exists (pre ++ post). split; [done|]. split; [done|].
    split; [rewrite length_app in *; simpl in Hn; lia|].
    split; [|done]. apply Forall_app in Hl as [Hl1 [_ Hl3]%Forall_cons_1]. by apply Forall_app_2.
Qed.

Lemma op_runs n s m o : idle s -> represents n s m -> op_ok o ->
  Z.of_nat n * CONFIG_FSUTILS_PASSWD_IOBUFFER_SIZE <= SIZE_MAX ->
  runs (run_pw o) s (fun ret s' => settled s s' /\ ret = (spec_op m o).1 /\ represents (S n) s' (spec_op m o).2).
Proof.
  intros Hid Hrep Hok Hsz. destruct o as [u p|u|u p|u p]; cbn [run_pw spec_op op_ok] in *;
    (eapply locked_runs; [done..|]); intros t Ht Hrt;
    (eapply runs_bind; [by apply (find_calm n t m u)|]);
    intros x s1 [Hq [[-> Hmu]|(q & off & -> & Hmu & Hqok & Hdel)]]; pose proof (calm_quiet _ _ Ht Hq) as [Hio Hcl Hdir];
    rewrite Hmu; try (change (OK <? 0) with false); cbv iota; cbn [pw_offset pw_encrypted];
    try (apply runs_ret; by apply does_same).
  - destruct Hok as [Huok Hpok]. eapply runs_bind; [by apply (append_map n s1 m u p); [eapply represents_quiet|..]|].
    intros ret s2 (Hl2 & -> & Hr2). change (OK <? 0) with false. cbv iota. apply runs_ret.
    split; [eauto using later_trans, quiet_later|done].
  - eapply runs_mono; [exact Hdel|]. intros ret s2 (Hl2 & -> & Hr2).
    split; [eauto using later_trans, quiet_later|]. split; [done|]. by apply represents_more.
  - destruct Hok as [Huok Hpok]. eapply runs_bind; [exact Hdel|]. intros ret s2 (Hl2 & -> & Hr2).
    change (OK <? 0) with false. cbv iota.
    eapply runs_mono; [apply (append_map n s2 (delete u m) u p); try done|].
    + apply lookup_delete_eq.
    + by eapply later_nil.
    + by rewrite (later_close _ _ Hl2).
    + intros ret s3 (Hl3 & -> & Hr3). rewrite insert_delete_eq in Hr3.
      split; [eauto using later_trans, quiet_later|done].
  - destruct Hok as [_ [Hp Hpl]], Hqok as [Hq1 Hq2]. destruct (encrypted_ok p Hp Hpl) as (-> & _ & _).
    eapply (runs_bind _ _ _ (fun x s2 => x = (OK, encrypted p) /\ s2 = s1)); [by do 2 eexists|].
    intros x s2 [-> ->]. change (OK <? 0) with false. cbv iota.
    rewrite (bool_decide_ext (encrypted q = encrypted p) (padded p = padded q))
      by (rewrite encrypted_same by done; split; congruence).
    apply runs_ret. by apply does_same.
Qed.

Lemma ops_runs os : forall n s m, idle s -> represents n s m -> Forall op_ok os ->
  Z.of_nat (n + length os) * CONFIG_FSUTILS_PASSWD_IOBUFFER_SIZE <= SIZE_MAX ->
  runs (run_ops os) s (fun rets s' => idle s' /\ rets = (spec_ops m os).1 /\
    represents (n + length os) s' (spec_ops m os).2).
Proof.
  induction os as [|o os IH]; intros n s m Hid Hrep Hok Hsz; cbn [run_ops spec_ops length] in *.
  - apply runs_ret. rewrite Nat.add_0_r. done.
  - apply Forall_cons_1 in Hok as [Ho Hos]. eapply runs_bind; [apply (op_runs n s m o); [done..|nia]|].
    intros ret s1 (Hs & -> & Hr). pose proof (idle_settled _ _ Hid Hs) as Hid1.
    destruct (spec_op m o) as [r m1]. simpl in Hr |- *.
    eapply runs_bind; [apply (IH (S n) s1 m1); [done..|by replace (S n + length os)%nat with (n + S (length os))%nat by lia]|].
    intros rets s2 (Hid2 & -> & Hr2). apply runs_ret. destruct (spec_ops m1 os) as [rs m2]. simpl in *.
    rewrite <- plus_n_Sm. done.
Qed.
End map.
