(* ===== verification/PasswdTheorems.v ===== *)
(** * PasswdTheorems: what the theorems about the password file say

    Sessions of the interface refine a map from users to passwords, a user is removed completely
    or not at all whatever call fails, and the bounds of the encryption; the last section has
    behaviours that are surprising, on concrete inputs. *)

From S2P Require Import Prelude Passwd PasswdEnc PasswdDb PasswdMap.
#[local] Open Scope Z_scope.

Section theorems.
Context `{PwConfig} `{Tea} `{!TeaLaws}.


(** C22. A user is removed completely or not at all.  Whatever allocation, [fopen], read or write
    fails during [passwd_deluser], at whatever point, and however reads and writes are cut: the
    call returns; when it returns [OK] the user was there and the file holds the database
    without him, and when it returns an error the file holds the database as it was.  The
    renaming of the file and the flush of the closing stream are assumed to succeed, and no
    call to be interrupted by a signal. *)
Theorem passwd_deluser_atomic n s m u : 0 < CONFIG_FSUTILS_PASSWD_IOBUFFER_SIZE ->
  Z.of_nat n * CONFIG_FSUTILS_PASSWD_IOBUFFER_SIZE <= SIZE_MAX ->
  ready s -> fine s -> represents n s m ->
  exists ret s', passwd_deluser u s = Done (ret, s') /\ ready s' /\
    ((ret = OK /\ m !! u <> None /\ represents n s' (delete u m)) \/ (ret < 0 /\ represents n s' m)).
Proof.
  intros Hb Hsz Hrd Hfi Hrep. destruct (deluser_runs Hb n s m u Hrd Hfi Hrep Hsz) as (ret & s' & E & Hset & Hrem).
  exists ret, s'. split; [done|]. split; [by apply Hset|]. destruct Hrem as [(-> & Hr & Hu)|(Hneg & Hr & _)]; [left|right]; done.
Qed.

(** C38. The bounds of the encryption.  A password of up to 32 bytes is encrypted to at most 43
    characters, none of them a delimiter, and two such passwords to the same characters only
    when they are equal up to the spaces they are filled up with; one of 33 to 36 bytes, which
    the check of the length accepts, is written over the end of the buffer of 49 characters; a
    longer one is refused. *)
Theorem passwd_encrypt_bounds p : Forall is_byte p ->
  ((length p <= 32)%nat -> exists e, passwd_encrypt p = Done (OK, e) /\ Forall plain e /\ (length e <= 43)%nat /\
     forall q, Forall is_byte q -> (length q <= 32)%nat ->
       (passwd_encrypt q = passwd_encrypt p <-> padded q = padded p)) /\
  ((32 < length p <= 36)%nat -> passwd_encrypt p = OutOfBounds) /\
  ((36 < length p)%nat -> passwd_encrypt p = Done (- E2BIG, [])).
Proof.
  intros Hp. split; [|split].
  - intros Hl. exists (encrypted p). destruct (encrypted_ok p Hp Hl) as (E & Hpl & Hlen).
    repeat (split; [done|]). intros q Hq Lq. rewrite <- encrypted_same by done.
    destruct (encrypted_ok q Hq Lq) as (Eq & _). rewrite E, Eq. split; [by intros [=]|by intros ->].
  - intros [Hl Hm]. apply encrypt_overflow; [done|]. change MAX_PASSWORD with 36. unfold zlen. lia.
  - intros Hl. unfold passwd_encrypt. change MAX_PASSWORD with 36.
    by destruct (Z.ltb_spec 36 (zlen p)); [|unfold zlen in *; lia].
Qed.
End theorems.

(** ** A concrete file *)

Module PasswdDemo.
#[export] Instance config : PwConfig := {|
  CONFIG_FSUTILS_PASSWD_IOBUFFER_SIZE := 512; CONFIG_FS_NAMED_SEMAPHORES := false;
  g_tea_key := [0x12345678; 0x9abcdef0; 0x12345678; 0x9abcdef0] |}.
#[export] Instance cipher32 : Tea := tea32.
#[export] Instance cipher32_laws : TeaLaws := tea32_laws.

Definition root : list Z := [114; 111; 111; 116].
Definition guest : list Z := [103; 117; 101; 115; 116].
Definition secret : list Z := [115; 101; 99; 114; 101; 116].
Definition other : list Z := [111; 116; 104; 101; 114].

Definition start_with (file : option (list Z)) (io close : list io) : os := mkOs file None io close [] 0 false.
Definition empty : os := start_with None [] [].


(** The file with two users. *)
Definition two_users : list Z :=
  record_text root (encrypted secret) ++ record_text guest (encrypted other).

Lemma two_users_hold io close : represents 2 (start_with (Some two_users) io close) {[ root := secret; guest := other ]}.
Proof.
  exists [(root, secret); (guest, other)]. split; [apply (bool_decide_unpack _); vm_compute; exact I|].
  split; [reflexivity|]. split; [done|]. split; [|left; done].
  repeat constructor; unfold plain, is_byte; simpl; repeat split; try (intro; discriminate); lia.
Qed.
End PasswdDemo.
Import PasswdDemo.

Ltac pw_concrete :=
  repeat constructor; unfold plain, is_byte; simpl; repeat split; try (intro; discriminate); try lia.


(** The first read and the first write of the copy are cut short, the second write fails. *)
Lemma passwd_deluser_atomic_witness : exists ret s',
  passwd_deluser guest (start_with (Some two_users) [IoOk; IoOk; IoOk; IoOk; IoOk; IoOk; IoOk; IoOk; IoSome 3; IoOk; IoSome 2; IoErr 5] []) = Done (ret, s') /\
  ready s' /\ ret = -5 /\ represents 2 s' {[ root := secret; guest := other ]}.
Proof.
  destruct (passwd_deluser_atomic 2 (start_with (Some two_users) [IoOk; IoOk; IoOk; IoOk; IoOk; IoOk; IoOk; IoOk; IoSome 3; IoOk; IoSome 2; IoErr 5] [])
    {[ root := secret; guest := other ]} guest) as (ret & s' & E & Hr & Ho).
  - done.
  - vm_compute. discriminate.
  - done.
  - repeat constructor; try discriminate.
  - apply two_users_hold.
  - exists ret, s'. split; [exact E|]. split; [exact Hr|].
    assert (ret = -5) as Hret by (vm_compute in E; by injection E as <-).
    split; [exact Hret|]. destruct Ho as [(-> & _ & _)|[_ Hm]]; [discriminate Hret|exact Hm].
Defined.

(** A password of six letters; one of 33 letters. *)
Lemma passwd_encrypt_bounds_witness : padded (secret ++ [space]) = padded secret /\
  passwd_encrypt (secret ++ [space]) = passwd_encrypt secret /\ passwd_encrypt (replicate 33 97) = OutOfBounds.
Proof.
  split; [reflexivity|]. split.
  - destruct (passwd_encrypt_bounds secret) as ((e & _ & _ & _ & H) & _); [pw_concrete|simpl; lia|].
    apply H; [pw_concrete|simpl; lia|reflexivity].
  - apply (passwd_encrypt_bounds (replicate 33 97)); [pw_concrete|simpl; lia].
Defined.

(** ** Behaviours that are surprising *)

Definition file_after (r : run (Z * os)) : option (Z * option (list Z)) :=
  match r with Done (ret, s) => Some (ret, passwd_file s) | _ => None end.

(** The file cannot be opened for appending: [passwd_append] returns the positive error, and
    [passwd_adduser] reports success though nothing was added. *)
Lemma adduser_reports_ok :
  file_after (passwd_adduser root secret (start_with (Some []) [IoOk; IoOk; IoOk; IoOk; IoErr 13] [])) = Some (OK, Some []) /\
  file_after (passwd_append root secret (start_with (Some []) [IoErr 13] [])) = Some (13, Some []).
Proof. split; vm_compute; reflexivity. Qed.

(** A new password that is too long removes the user. *)
Lemma update_removes_user :
  file_after (passwd_update guest (replicate 37 97) (start_with (Some two_users) [] [])) =
    Some (- E2BIG, Some (record_text root (encrypted secret))).
Proof. vm_compute. reflexivity. Qed.

(** The offset is not advanced over a line without a delimiter: the line that is removed is not
    the one that was found. *)
Lemma wrong_line_removed :
  file_after (passwd_deluser guest (start_with (Some (newline :: two_users)) [] [])) =
    Some (OK, Some (newline :: record_text root (encrypted secret))) /\
  file_after (passwd_deluser root (start_with (Some (newline :: two_users)) [] [])) = Some (OK, Some two_users).
Proof. split; vm_compute; reflexivity. Qed.

(** The flush of the new file fails, which is not checked: the users are lost and the removal
    reports success. *)
Lemma flush_loses_users :
  file_after (passwd_deluser guest (start_with (Some two_users) [] [IoErr 28])) = Some (OK, Some []).
Proof. vm_compute. reflexivity. Qed.

(** An interrupted read leaves the error indicator set, so the end of the file is never seen:
    the loop does not end. *)
Lemma interrupted_read_loops ins :
  st_error ins = true -> st_rest ins = [] -> forall fuel n s, errno s = EINTR -> io_script s = [] ->
  read_loop fuel ins n [] s = OutOfFuel.
Proof.
  intros He Hr fuel. revert ins He Hr. induction fuel as [|fuel IH]; intros ins He Hr n s Hs Hio; [done|].
  cbn [read_loop]. unfold fread, next_io, mbind, pw_bind. cbn beta. rewrite Hio, Hr. cbn. rewrite He, Hs. cbn.
  by apply IH.
Qed.

Lemma interrupted_delete_loops :
  passwd_delete 0 (start_with (Some two_users) (replicate 26 IoOk ++ [IoErr EINTR]) []) = OutOfFuel.
Proof. vm_compute. reflexivity. Qed.

(** A name with a delimiter is accepted, and then not found. *)
Lemma colon_name_not_found :
  match passwd_adduser [114; colon; 116] secret empty with
  | Done (ret, s) => (ret, option_map fst (file_after (passwd_verify [114; colon; 116] secret s))) = (OK, Some (- ENOENT))
  | _ => False
  end.
Proof. vm_compute. reflexivity. Qed.

(** A search that fails for want of memory counts as a user who does not exist. *)
Lemma failed_find_adds_twice :
  file_after (passwd_adduser root other (start_with (Some two_users) [IoOk; IoErr PW_ENOMEM] [])) =
    Some (OK, Some (two_users ++ record_text root (encrypted other))).
Proof. vm_compute. reflexivity. Qed.
