(* ===== verification/IniFile.v ===== *)
(** * IniFile: the reader of INI files

    [src/fsutils/inifile/inifile.c].  The parser state has the stream (the file's contents and
    what is left of them), one character read ahead and the line buffer; pointers into the
    buffer are indices.  Accesses outside the buffer, through a NULL pointer or behind a string
    without terminator are the result [OutOfBounds] of [run].  The results of [malloc] and
    [strdup] are arguments, memory blocks and open files are counted.  Debug output is off. *)

From S2P Require Import Prelude CLib.
#[local] Open Scope Z_scope.

Definition INI_EOF : Z := -1.

Class IniConfig := { CONFIG_FSUTILS_INIFILE_MAXLINE : nat }.

(** ** The C library *)

Record ini_stream := mkIniStream { contents : list Z; unread : list Z }.

Definition getc (f : ini_stream) : Z * ini_stream :=
  match unread f with
  | [] => (INI_EOF, f)
  | c :: r => (c, mkIniStream (contents f) r)
  end.

Definition rewind (f : ini_stream) : ini_stream := mkIniStream (contents f) (contents f).

(** The string that starts at the head of a piece of memory. *)
Fixpoint string_at (l : list Z) : run (list Z) :=
  match l with
  | [] => OutOfBounds
  | c :: l => if c =? 0 then Done [] else s ← string_at l; Done (c :: s)
  end.

(** [strchr]: the index of [c] in it. *)
Fixpoint ini_strchr (l : list Z) (c : Z) : run (option nat) :=
  match l with
  | [] => OutOfBounds
  | x :: l =>
      if x =? c then Done (Some O)
      else if x =? 0 then Done None
      else i ← ini_strchr l c; Done (option_map S i)
  end.

Definition lower (c : Z) : Z := if (65 <=? c) && (c <=? 90) then c + 32 else c.

(** [strcasecmp(a, b) == 0] *)
Definition same_name (a b : list Z) : bool := bool_decide (lower <$> a = lower <$> b).

(** ** The parser *)

Record inifile_state_s := mkIni { instream : option ini_stream; nextch : Z; line : list Z }.

(** Pointers into the line buffer. *)
Record inifile_var_s := mkIniVar { variable : nat; value : nat }.

Section inifile.
Context `{IniConfig}.

(** [priv->nextch = getc(priv->instream)] *)
Definition read_ahead (priv : inifile_state_s) : run inifile_state_s :=
  match instream priv with
  | None => OutOfBounds
  | Some f => let '(c, f) := getc f in Done (mkIni (Some f) c (line priv))
  end.

(** [priv->line[i] = c] *)
Definition put_line (priv : inifile_state_s) (i : nat) (c : Z) : run inifile_state_s :=
  if (i <? length (line priv))%nat then Done (mkIni (instream priv) (nextch priv) (<[i := c]> (line priv)))
  else OutOfBounds.

(** [priv->line[i]] *)
Definition line_char (priv : inifile_state_s) (i : nat) : run Z :=
  match line priv !! i with Some c => Done c | None => OutOfBounds end.

Definition left_over (priv : inifile_state_s) : nat :=
  match instream priv with Some f => length (unread f) | None => O end.

Fixpoint next_line_loop (fuel : nat) (priv : inifile_state_s) : run inifile_state_s :=
  if negb (nextch priv =? 10) && negb (nextch priv =? INI_EOF) then
    match fuel with
    | O => OutOfFuel
    | S fuel => priv ← read_ahead priv; next_line_loop fuel priv
    end
  else Done priv.

Definition inifile_next_line (priv : inifile_state_s) : run (bool * inifile_state_s) :=
  priv ← next_line_loop (S (left_over priv)) priv;
  priv ← read_ahead priv;
  Done (negb (nextch priv =? INI_EOF), priv).

Fixpoint read_line_loop (fuel : nat) (priv : inifile_state_s) (nbytes : nat) : run (nat * inifile_state_s) :=
  if (nbytes <? CONFIG_FSUTILS_INIFILE_MAXLINE)%nat && negb (nextch priv =? INI_EOF) && negb (nextch priv =? 10) then
    match fuel with
    | O => OutOfFuel
    | S fuel =>
        '(nbytes, priv) ←
          (if negb (nextch priv =? 13) then
             if negb (nbytes =? 0)%nat || (negb (nextch priv =? 32) && negb (nextch priv =? 9)) then
               priv ← put_line priv nbytes (nextch priv); Done (S nbytes, priv)
             else Done (nbytes, priv)
           else Done (nbytes, priv));
        priv ← read_ahead priv;
        read_line_loop fuel priv nbytes
    end
  else Done (nbytes, priv).

Definition inifile_read_line (priv : inifile_state_s) : run (nat * inifile_state_s) :=
  '(nbytes, priv) ← read_line_loop (S (left_over priv)) priv 0;
  priv ← put_line priv nbytes 0;
  if negb (nextch priv =? INI_EOF) then
    '(_, priv) ← inifile_next_line priv;
    Done (nbytes, priv)
  else Done (nbytes, priv).

Fixpoint noncomment_loop (fuel : nat) (priv : inifile_state_s) : run (nat * inifile_state_s) :=
  match fuel with
  | O => OutOfFuel
  | S fuel =>
      '(nbytes, priv) ← inifile_read_line priv;
      c ← line_char priv 0;
      if (0 <? nbytes)%nat && (c =? 59) then noncomment_loop fuel priv else Done (nbytes, priv)
  end.

Definition inifile_read_noncomment_line (priv : inifile_state_s) : run (nat * inifile_state_s) :=
  noncomment_loop (S (S (left_over priv))) priv.

(** Whether the line in the buffer is the header of the section. *)
Definition section_matches (priv : inifile_state_s) (nbytes : nat) (section : list Z) : run (bool * inifile_state_s) :=
  if (3 <=? nbytes)%nat then
    c ← line_char priv 0;
    if c =? 91 then
      sectend ← ini_strchr (drop 1 (line priv)) 93;
      priv ← (match sectend with Some i => put_line priv (1 + i) 0 | None => Done priv end);
      name ← string_at (drop 1 (line priv));
      Done (same_name name section, priv)
    else Done (false, priv)
  else Done (false, priv).

Fixpoint seek_loop (fuel : nat) (priv : inifile_state_s) (section : list Z) : run (bool * inifile_state_s) :=
  match fuel with
  | O => OutOfFuel
  | S fuel =>
      '(nbytes, priv) ← inifile_read_noncomment_line priv;
      '(found, priv) ← section_matches priv nbytes section;
      if found : bool then Done (true, priv)
      else if negb (nextch priv =? INI_EOF) then seek_loop fuel priv section
      else Done (false, priv)
  end.

Definition inifile_seek_to_section (priv : inifile_state_s) (section : list Z) : run (bool * inifile_state_s) :=
  match instream priv with
  | None => OutOfBounds
  | Some f =>
      priv ← read_ahead (mkIni (Some (rewind f)) (nextch priv) (line priv));
      seek_loop (S (S (left_over priv))) priv section
  end.

Fixpoint read_variable_loop (fuel : nat) (priv : inifile_state_s) : run (option inifile_var_s * inifile_state_s) :=
  match fuel with
  | O => OutOfFuel
  | S fuel =>
      '(nbytes, priv) ← inifile_read_noncomment_line priv;
      c ← line_char priv 0;
      if (nbytes =? 0)%nat || (c =? 91) then Done (None, priv)
      else
        ptr ← ini_strchr (drop 1 (line priv)) 61;
        match ptr with
        | Some i =>
            priv ← put_line priv (1 + i) 0;
            Done (Some (mkIniVar 0 (1 + i + 1)), priv)
        | None => read_variable_loop fuel priv
        end
  end.

Definition inifile_read_variable (priv : inifile_state_s) : run (option inifile_var_s * inifile_state_s) :=
  read_variable_loop (S (S (left_over priv))) priv.

Fixpoint section_variable_loop (fuel : nat) (priv : inifile_state_s) (name : list Z) : run (option nat * inifile_state_s) :=
  match fuel with
  | O => OutOfFuel
  | S fuel =>
      '(varinfo, priv) ← inifile_read_variable priv;
      match varinfo with
      | None => Done (None, priv)
      | Some varinfo =>
          s ← string_at (drop (variable varinfo) (line priv));
          if same_name s name then Done (Some (value varinfo), priv)
          else section_variable_loop fuel priv name
      end
  end.

Definition inifile_find_section_variable (priv : inifile_state_s) (name : list Z) : run (option nat * inifile_state_s) :=
  section_variable_loop (S (S (left_over priv))) priv name.

Definition inifile_find_variable (priv : inifile_state_s) (section name : list Z) : run (option nat * inifile_state_s) :=
  match instream priv with
  | None => Done (None, priv)
  | Some _ =>
      '(found, priv) ← inifile_seek_to_section priv section;
      if found : bool then
        '(value, priv) ← inifile_find_section_variable priv name;
        match value with
        | Some i =>
            c ← line_char priv i;
            Done (if negb (c =? 0) then Some i else None, priv)
        | None => Done (None, priv)
        end
      else Done (None, priv)
  end.

(** ** The interface *)

(** Memory blocks and open files. *)
Record ini_world := mkIniWorld { blocks : Z; open_files : Z }.

(** [junk] is what the allocated block holds, [file] the contents of the named file. *)
Definition inifile_initialize (malloc_ok : bool) (junk : list Z) (file : option (list Z)) (w : ini_world) :
    run (option inifile_state_s * ini_world) :=
  if negb malloc_ok then Done (None, w)
  else
    let w := mkIniWorld (blocks w + 1) (open_files w) in
    match file with
    | Some text =>
        let w := mkIniWorld (blocks w) (open_files w + 1) in
        priv ← read_ahead (mkIni (Some (mkIniStream text text)) 0 junk);
        Done (Some priv, w)
    | None => Done (None, mkIniWorld (blocks w - 1) (open_files w))
    end.

Definition inifile_uninitialize (handle : option inifile_state_s) (w : ini_world) : ini_world :=
  match handle with
  | None => w
  | Some priv =>
      let w := match instream priv with
               | Some _ => mkIniWorld (blocks w) (open_files w - 1)
               | None => w
               end in
      mkIniWorld (blocks w - 1) (open_files w)
  end.

Definition inifile_read_string (strdup_ok : bool) (handle : option inifile_state_s) (section name : list Z)
    (defvalue : option (list Z)) (w : ini_world) : run (option (list Z) * option inifile_state_s * ini_world) :=
  match handle with
  | None => OutOfBounds
  | Some priv =>
      '(value, priv) ← inifile_find_variable priv section name;
      value ← (match value with
               | Some i => s ← string_at (drop i (line priv)); Done (Some s)
               | None => Done defvalue
               end);
      match value with
      | Some s => if strdup_ok then Done (Some s, Some priv, mkIniWorld (blocks w + 1) (open_files w))
                  else Done (None, Some priv, w)
      | None => Done (None, Some priv, w)
      end
  end.

Definition inifile_read_integer (handle : option inifile_state_s) (section name : list Z) (defvalue : Z) :
    run (Z * option inifile_state_s) :=
  match handle with
  | None => OutOfBounds
  | Some priv =>
      '(value, priv) ← inifile_find_variable priv section name;
      match value with
      | Some i => s ← string_at (drop i (line priv)); Done ((strtol s).1, Some priv)
      | None => Done (defvalue, Some priv)
      end
  end.

Definition inifile_free_string (v : option (list Z)) (w : ini_world) : ini_world :=
  match v with Some _ => mkIniWorld (blocks w - 1) (open_files w) | None => w end.
End inifile.
