(* ===== verification/IniSpec.v ===== *)
(** * IniSpec: what an INI file says, and that the reader finds it

    The reference: a file is a list of lines without comments; a section is looked up among its
    headers and a variable among the assignments that follow.  The lemmas say that each function
    of the reader computes its part of this on every file, in its buffer and to its end. *)

From S2P Require Import Prelude CLib IniFile.
#[local] Open Scope Z_scope.

(** ** The reference *)

(** The first line and what follows its newline. *)
Fixpoint first_line (l : list Z) : list Z :=
  match l with
  | [] => []
  | c :: l => if c =? 10 then [] else c :: first_line l
  end.

Fixpoint after_line (l : list Z) : list Z :=
  match l with
  | [] => []
  | c :: l => if c =? 10 then l else after_line l
  end.

Fixpoint text_lines (l : list Z) : list (list Z) :=
  match l with
  | [] => []
  | c :: l =>
      if c =? 10 then [] :: text_lines l
      else match text_lines l with [] => [[c]] | x :: xs => (c :: x) :: xs end
  end.

Fixpoint skip_blanks (l : list Z) : list Z :=
  match l with
  | c :: t => if (c =? 32) || (c =? 9) then skip_blanks t else l
  | [] => []
  end.

Fixpoint upto (c : Z) (l : list Z) : list Z :=
  match l with
  | [] => []
  | x :: l => if x =? c then [] else x :: upto c l
  end.

(** The characters before and behind the first [c]. *)
Fixpoint split_at (c : Z) (l : list Z) : option (list Z * list Z) :=
  match l with
  | [] => None
  | x :: l => if x =? c then Some ([], l) else '(a, b) ← split_at c l; Some (x :: a, b)
  end.

Section reference.
Context `{IniConfig}.

(** A line without carriage returns and leading blanks, cut to the buffer. *)
Definition clean (l : list Z) : list Z :=
  take CONFIG_FSUTILS_INIFILE_MAXLINE (skip_blanks (filter (fun c => c <> 13) l)).

Definition is_comment (x : list Z) : bool := match x with c :: _ => c =? 59 | [] => false end.

Definition content_lines (text : list Z) : list (list Z) :=
  filter (fun x => is_comment x = false) (clean <$> text_lines text).

(** The name in the header of a section. *)
Definition header (x : list Z) : option (list Z) :=
  match x with
  | c :: t => if (3 <=? length x)%nat && (c =? 91) then Some (upto 93 (upto 0 t)) else None
  | [] => None
  end.

(** The lines behind the header of the section. *)
Fixpoint find_section (ls : list (list Z)) (section : list Z) : option (list (list Z)) :=
  match ls with
  | [] => None
  | x :: ls =>
      if (match header x with Some n => same_name n section | None => false end) then Some ls
      else find_section ls section
  end.

(** The name and the value of an assignment. *)
Definition assignment (x : list Z) : option (list Z * list Z) :=
  match x with
  | c :: t => '(a, b) ← split_at 61 (upto 0 t); Some (upto 0 (c :: a), b)
  | [] => None
  end.

(** A section ends at an empty line and at the next header. *)
Fixpoint find_assignment (ls : list (list Z)) (name : list Z) : option (list Z) :=
  match ls with
  | [] | [] :: _ => None
  | ((c :: _) as x) :: ls =>
      if c =? 91 then None
      else match assignment x with
           | Some (n, v) => if same_name n name then Some v else find_assignment ls name
           | None => find_assignment ls name
           end
  end.

(** The value of a variable; an empty one counts as missing. *)
Definition ini_lookup (text section name : list Z) : option (list Z) :=
  ls ← find_section (content_lines text) section;
  v ← find_assignment ls name;
  if bool_decide (v = []) then None else Some v.

(** ** Lines *)

Lemma text_lines_step c l : text_lines (c :: l) = first_line (c :: l) :: text_lines (after_line (c :: l)).
Proof.
  revert c. induction l as [|d l IH]; intros c; cbn [text_lines first_line after_line]; destruct (c =? 10); try done.
  specialize (IH d). cbn [text_lines first_line after_line] in IH |- *. rewrite IH.
  by destruct (d =? 10).
Qed.

Lemma after_line_shorter c l : (length (after_line (c :: l)) <= length l)%nat.
Proof.
  revert c. induction l as [|d l IH]; intros c; cbn [after_line]; destruct (c =? 10); simpl; try lia.
  specialize (IH d). cbn [after_line] in IH. lia.
Qed.

(** The reader at [l], the rest of [text] with the character that was read ahead. *)
Record reads (text : list Z) (priv : inifile_state_s) (l : list Z) : Prop := {
  reads_stream : instream priv = Some (mkIniStream text (tail l));
  reads_next : nextch priv = match l with [] => INI_EOF | c :: _ => c end;
  reads_line : length (line priv) = S CONFIG_FSUTILS_INIFILE_MAXLINE;
  reads_bytes : Forall is_byte l }.

(** The line buffer holds [x] as a string of so many characters. *)
Definition buffered (priv : inifile_state_s) (x : list Z) : Prop := exists junk, line priv = x ++ 0 :: junk.

Lemma left_over_reads text priv l : reads text priv l -> left_over priv = length (tail l).
Proof. intros [Hs _ _ _]. unfold left_over. by rewrite Hs. Qed.

Lemma not_eof text priv c l : reads text priv (c :: l) -> (nextch priv =? INI_EOF) = false.
Proof.
  intros [_ Hn _ Hb]. rewrite Hn. apply Forall_cons_1 in Hb as [Hb _]. unfold is_byte in Hb. unfold INI_EOF. apply Z.eqb_neq. lia.
Qed.

Lemma at_eof text priv : reads text priv [] -> nextch priv = INI_EOF.
Proof. intros [_ Hn _ _]. done. Qed.

Lemma read_ahead_reads text priv l : reads text priv l ->
  exists priv', read_ahead priv = Done priv' /\ reads text priv' (tail l) /\ line priv' = line priv.
Proof.
  intros [Hs Hn Hl Hb]. unfold read_ahead, getc. rewrite Hs. cbn [unread contents].
  destruct l as [|c [|d l]]; cbn [tail]; eexists; (split; [reflexivity|]); (split; [|done]);
    constructor; try done; by inversion Hb.
Qed.

Lemma put_line_reads text priv l i c : reads text priv l -> (i <= CONFIG_FSUTILS_INIFILE_MAXLINE)%nat ->
  exists priv', put_line priv i c = Done priv' /\ reads text priv' l /\ line priv' = <[i := c]> (line priv) /\ nextch priv' = nextch priv.
Proof.
  intros [Hs Hn Hl Hb] Hi. unfold put_line. rewrite Hl, (proj2 (Nat.ltb_lt _ _)) by lia.
  eexists. split; [reflexivity|]. split; [|done]. constructor; try done. cbn [line]. by rewrite length_insert.
Qed.

(** What reading the rest [l] of a line adds to the characters [got] in the buffer. *)
Definition added (got l : list Z) : list Z :=
  let f := filter (fun c => c <> 13) (first_line l) in
  match got with [] => skip_blanks f | _ => f end.

Lemma added_step got c l : c <> 10 ->
  added got (c :: l) =
    if c =? 13 then added got l
    else if negb (length got =? 0)%nat || (negb (c =? 32) && negb (c =? 9)) then c :: added (got ++ [c]) l
    else added got l.
Proof using Type.
  intros Hc. unfold added. cbn [first_line]. rewrite (proj2 (Z.eqb_neq c 10) Hc), filter_cons.
  destruct (Z.eqb_spec c 13) as [->|H13]; [by rewrite decide_False by tauto|].
  rewrite decide_True by done. destruct got as [|g got]; [|done]. cbn [length Nat.eqb negb orb app skip_blanks].
  by destruct (c =? 32), (c =? 9).
Qed.

Lemma added_nothing got l : first_line l = [] -> (length got <= CONFIG_FSUTILS_INIFILE_MAXLINE)%nat ->
  take CONFIG_FSUTILS_INIFILE_MAXLINE (got ++ added got l) = got.
Proof using Type.
  intros Hl Hg. unfold added. rewrite Hl. by destruct got; cbn [skip_blanks filter]; rewrite ?app_nil_r, take_ge by (simpl in *; lia).
Qed.

(** One turn of the loop that reads a line. *)
Lemma read_char text priv c l got junk : reads text priv (c :: l) -> c <> 10 ->
  line priv = got ++ junk -> (length got < CONFIG_FSUTILS_INIFILE_MAXLINE)%nat ->
  exists got' priv' junk', (forall fuel, read_line_loop (S fuel) priv (length got) = read_line_loop fuel priv' (length got')) /\
    reads text priv' l /\ line priv' = got' ++ junk' /\ (length got' <= S (length got))%nat /\
    got ++ added got (c :: l) = got' ++ added got' l.
Proof using Type.
  intros Hr Hc Hl Hg. rewrite (added_step got c l Hc). pose proof (not_eof _ _ _ _ Hr) as He.
  assert (nextch priv = c) as En by apply Hr. cbn [read_line_loop]. rewrite (proj2 (Nat.ltb_lt _ _) Hg), He, En, (proj2 (Z.eqb_neq _ _) Hc).
  cbn [andb negb]. destruct (read_ahead_reads _ _ _ Hr) as (p1 & E1 & Hr1 & L1).
  destruct (c =? 13); cbn [negb]; [|destruct (_ || _)].
  - exists got, p1, junk. split; [|rewrite L1; auto with lia]. intros fuel. cbn [mbind run_bind]. by rewrite E1.
  - destruct (put_line_reads text priv (c :: l) (length got) c Hr ltac:(lia)) as (p2 & E2 & Hr2 & L2 & _).
    destruct (read_ahead_reads _ _ _ Hr2) as (p3 & E3 & Hr3 & L3).
    assert (exists d junk', junk = d :: junk') as (d & junk' & ->).
    { destruct junk as [|d junk']; [|by exists d, junk']. pose proof (reads_line _ _ _ Hr) as Hlen.
      rewrite Hl, app_nil_r in Hlen. lia. }
    exists (got ++ [c]), p3, junk'. split; [|split; [exact Hr3|]].
    + intros fuel. rewrite E2. cbn [mbind run_bind]. rewrite E3, length_app. cbn [mbind run_bind length]. by rewrite Nat.add_1_r.
    + rewrite L3, L2, Hl, insert_app_r_alt, Nat.sub_diag by lia. cbn. rewrite <- !(assoc_L (++)). cbn.
      split; [done|]. split; [rewrite length_app; simpl; lia|done].
  - exists got, p1, junk. split; [|rewrite L1; auto with lia]. intros fuel. cbn [mbind run_bind]. by rewrite E1.
Qed.

Lemma read_line_loop_reads text fuel : forall priv l got junk, reads text priv l -> line priv = got ++ junk ->
  (length got <= CONFIG_FSUTILS_INIFILE_MAXLINE)%nat -> (length l <= fuel)%nat ->
  exists got' priv' l' junk', read_line_loop fuel priv (length got) = Done (length got', priv') /\ reads text priv' l' /\
    after_line l' = after_line l /\ line priv' = got' ++ junk' /\
    got' = take CONFIG_FSUTILS_INIFILE_MAXLINE (got ++ added got l).
Proof using Type.
  induction fuel as [|fuel IH]; intros priv l got junk Hr Hl Hg Hf.
  - destruct l; [|simpl in Hf; lia]. exists got, priv, [], junk. cbn [read_line_loop].
    rewrite (at_eof _ _ Hr). cbn [negb Z.eqb INI_EOF]. rewrite andb_false_r. cbn [andb]. repeat (split; [done|]).
    symmetry. by apply added_nothing.
  - destruct (decide (length got < CONFIG_FSUTILS_INIFILE_MAXLINE)%nat) as [Hlt|Hge]; [|].
    2: { exists got, priv, l, junk. cbn [read_line_loop]. rewrite (proj2 (Nat.ltb_ge _ _)) by lia. cbn [andb].
         repeat (split; [done|]). rewrite take_app_le, take_ge by lia. done. }
    destruct l as [|c l].
    { exists got, priv, [], junk. cbn [read_line_loop]. rewrite (at_eof _ _ Hr). cbn [Z.eqb INI_EOF Pos.eqb negb]. rewrite andb_false_r.
      repeat (split; [done|]). symmetry. by apply added_nothing. }
    destruct (decide (c = 10)) as [->|Hc].
    { exists got, priv, (10 :: l), junk. cbn [read_line_loop]. rewrite (reads_next _ _ _ Hr). cbn [Z.eqb Pos.eqb negb]. rewrite !andb_false_r.
      repeat (split; [done|]). symmetry. by apply added_nothing. }
    destruct (read_char text priv c l got junk Hr Hc Hl Hlt) as (got1 & p1 & junk1 & E1 & Hr1 & Hl1 & Hg1 & Ea).
    destruct (IH p1 l got1 junk1 Hr1 Hl1) as (got' & p' & l' & junk' & E & Hr' & Hal & Hl' & Eg); [lia|simpl in Hf; lia|].
    exists got', p', l', junk'. rewrite E1, E, Ea. repeat (split; [done|]).
    split; [|done]. rewrite Hal. cbn [after_line]. by rewrite (proj2 (Z.eqb_neq _ _) Hc).
Qed.

Lemma next_line_loop_reads text fuel : forall priv l, reads text priv l -> (length l <= fuel)%nat ->
  exists priv' l', next_line_loop fuel priv = Done priv' /\ reads text priv' l' /\ tail l' = after_line l /\
    line priv' = line priv.
Proof using Type.
  induction fuel as [|fuel IH]; intros priv l Hr Hf.
  - destruct l; [|simpl in Hf; lia]. exists priv, []. cbn [next_line_loop]. rewrite (at_eof _ _ Hr). done.
  - destruct l as [|c l]; [exists priv, []; cbn [next_line_loop]; by rewrite (at_eof _ _ Hr)|].
    cbn [next_line_loop after_line]. rewrite (not_eof _ _ _ _ Hr), (reads_next _ _ _ Hr).
    destruct (c =? 10); cbn [negb andb]; [by exists priv, (c :: l)|].
    destruct (read_ahead_reads _ _ _ Hr) as (p1 & E1 & Hr1 & L1). rewrite E1. cbn [mbind run_bind].
    destruct (IH p1 l Hr1) as (p' & l' & E & Hr' & Ht & L'); [simpl in Hf; lia|]. exists p', l'. by rewrite L', L1.
Qed.

Lemma fuel_enough text priv l : reads text priv l -> (length l <= S (left_over priv))%nat.
Proof using Type. intros Hr. rewrite (left_over_reads _ _ _ Hr). destruct l; simpl; lia. Qed.

Lemma read_line_reads text priv l : reads text priv l ->
  exists priv', inifile_read_line priv = Done (length (clean (first_line l)), priv') /\
    reads text priv' (after_line l) /\ buffered priv' (clean (first_line l)).
Proof using Type.
  intros Hr. unfold inifile_read_line.
  destruct (read_line_loop_reads text (S (left_over priv)) priv l [] (line priv) Hr eq_refl) as (got & p1 & l1 & junk & E1 & Hr1 & Ha & L1 & Eg);
    [simpl; lia|by eapply fuel_enough|]. cbn [length] in E1. rewrite E1. cbn [mbind run_bind].
  change ([] ++ added [] l) with (added [] l) in Eg. change (got = clean (first_line l)) in Eg.
  assert (length got <= CONFIG_FSUTILS_INIFILE_MAXLINE)%nat as Hg by (rewrite Eg; unfold clean; rewrite length_take; lia).
  destruct (put_line_reads text p1 l1 (length got) 0 Hr1 Hg) as (p2 & E2 & Hr2 & L2 & _). rewrite E2. cbn [mbind run_bind].
  assert (buffered p2 got) as Hb.
  { destruct junk as [|d junk]; [pose proof (reads_line _ _ _ Hr1) as Hlen; rewrite L1, app_nil_r in Hlen; lia|].
    exists junk. by rewrite L2, L1, insert_app_r_alt, Nat.sub_diag by lia. }
  rewrite <- Eg, <- Ha. destruct l1 as [|c l1].
  - rewrite (at_eof _ _ Hr2). exists p2. done.
  - rewrite (not_eof _ _ _ _ Hr2). cbn [negb]. unfold inifile_next_line.
    destruct (next_line_loop_reads text (S (left_over p2)) p2 (c :: l1) Hr2) as (p3 & l3 & E3 & Hr3 & Ht & L3); [by eapply fuel_enough|].
    rewrite E3. cbn [mbind run_bind]. destruct (read_ahead_reads _ _ _ Hr3) as (p4 & E4 & Hr4 & L4). rewrite E4.
    cbn [mbind run_bind]. exists p4. split; [done|]. rewrite <- Ht. split; [done|]. unfold buffered. by rewrite L4, L3.
Qed.

(** ** Lines that are not comments *)

Lemma content_step c l : content_lines (c :: l) =
  let x := clean (first_line (c :: l)) in
  if is_comment x then content_lines (after_line (c :: l)) else x :: content_lines (after_line (c :: l)).
Proof using Type.
  unfold content_lines. rewrite text_lines_step. cbn [fmap list_fmap]. rewrite filter_cons.
  destruct (is_comment _); [by rewrite decide_False|by rewrite decide_True].
Qed.

Lemma first_char priv x : buffered priv x -> line_char priv 0 = Done (hd 0 x).
Proof using Type. intros [junk Hl]. unfold line_char. rewrite Hl. by destruct x. Qed.

Lemma comment_test x : (0 <? length x)%nat && (hd 0 x =? 59) = is_comment x.
Proof using Type. by destruct x. Qed.

(** The next line with contents, or the empty line that the end of the file gives. *)
Definition next_content (text l : list Z) (priv' : inifile_state_s) (x l' : list Z) : Prop :=
  reads text priv' l' /\ buffered priv' x /\ (length l' <= pred (length l))%nat /\
  (content_lines l = x :: content_lines l' \/ (x = [] /\ l' = [] /\ content_lines l = [])).

Lemma noncomment_loop_reads text fuel : forall priv l, reads text priv l -> (length l < fuel)%nat ->
  exists x l' priv', noncomment_loop fuel priv = Done (length x, priv') /\ next_content text l priv' x l'.
Proof using Type.
  induction fuel as [|fuel IH]; intros priv l Hr Hf; [lia|]. cbn [noncomment_loop].
  destruct (read_line_reads text priv l Hr) as (p1 & E1 & Hr1 & Hb). rewrite E1. cbn [mbind run_bind].
  rewrite (first_char _ _ Hb). cbn [mbind run_bind]. rewrite comment_test. destruct l as [|c l].
  - cbn [first_line after_line] in *. replace (clean []) with (@nil Z) in * by (unfold clean; cbn; by rewrite take_nil).
    cbn [is_comment]. exists [], [], p1. split; [done|]. repeat (split; [done|]). right. done.
  - pose proof (content_step c l) as Ec. pose proof (after_line_shorter c l) as Hs. cbv zeta in Ec. set (x := clean (first_line (c :: l))) in *.
    destruct (is_comment x); [|exists x, (after_line (c :: l)), p1; split; [done|]; split; [done|]; split; [done|]; split; [cbn [length pred] in *; lia|by left]].
    destruct (IH p1 (after_line (c :: l)) Hr1) as (y & l' & p' & E & Hr' & Hb' & Hlen & Hy); [cbn [length pred] in *; lia|].
    exists y, l', p'. split; [done|]. split; [done|]. split; [done|]. split; [cbn [length pred] in *; lia|]. by rewrite Ec.
Qed.

Lemma noncomment_reads text priv l : reads text priv l ->
  exists x l' priv', inifile_read_noncomment_line priv = Done (length x, priv') /\ next_content text l priv' x l'.
Proof using Type. intros Hr. eapply noncomment_loop_reads; [done|]. pose proof (fuel_enough _ _ _ Hr). lia. Qed.

(** ** Strings in the line buffer *)

Lemma string_at_buffer x junk : string_at (x ++ 0 :: junk) = Done (upto 0 x).
Proof using Type.
  induction x as [|c x IH]; [done|]. cbn [app string_at upto]. destruct (c =? 0); [done|]. by rewrite IH.
Qed.

Lemma strchr_buffer x junk c : c <> 0 -> ini_strchr (x ++ 0 :: junk) c =
  Done (match split_at c (upto 0 x) with Some (a, _) => Some (length a) | None => None end).
Proof using Type.
  intros Hc. induction x as [|d x IH]; cbn [app ini_strchr upto split_at].
  - rewrite (proj2 (Z.eqb_neq 0 c)) by done. done.
  - destruct (Z.eqb_spec d c) as [->|Hd].
    + rewrite (proj2 (Z.eqb_neq c 0)) by done. cbn [split_at]. by rewrite Z.eqb_refl.
    + destruct (d =? 0); [done|]. cbn [split_at]. rewrite (proj2 (Z.eqb_neq d c)), IH by done.
      cbn [mbind run_bind option_bind]. by destruct (split_at c (upto 0 x)) as [[a b]|].
Qed.

Lemma split_at_app c l a b : split_at c l = Some (a, b) -> l = a ++ c :: b /\ upto c l = a.
Proof using Type.
  revert a b. induction l as [|x l IH]; intros a b; cbn [split_at upto]; [done|].
  destruct (Z.eqb_spec x c) as [->|Hx]; [by intros [= <- <-]|].
  destruct (split_at c l) as [[a' b']|]; [|done]. intros [= <- <-]. destruct (IH a' b' eq_refl) as [-> ->]. done.
Qed.

Lemma split_at_none c l : split_at c l = None -> upto c l = l.
Proof using Type.
  induction l as [|x l IH]; cbn [split_at upto]; [done|]. destruct (x =? c); [done|].
  destruct (split_at c l) as [[]|]; [done|]. intros _. by rewrite IH.
Qed.

Lemma upto_prefix c l : exists r, l = upto c l ++ r /\ (r = [] \/ exists r', r = c :: r').
Proof using Type.
  induction l as [|x l (r & E & Hr)]; cbn [upto]; [by exists []; auto|].
  destruct (Z.eqb_spec x c) as [->|Hx]; [exists (c :: l); eauto|]. exists r. split; [by rewrite E at 1|done].
Qed.

Lemma upto_free c l : Forall (fun x => x <> c) (upto c l).
Proof using Type.
  induction l as [|x l IH]; cbn [upto]; [constructor|]. destruct (Z.eqb_spec x c); [constructor|by constructor].
Qed.

Lemma string_at_free a r junk : Forall (fun x => x <> 0) a -> r = [] \/ (exists r', r = 0 :: r') ->
  string_at (a ++ r ++ 0 :: junk) = Done a.
Proof using Type.
  intros Ha Hr. induction Ha as [|c a Hc _ IH]; [by destruct Hr as [->|[r' ->]]|].
  cbn [app string_at]. rewrite (proj2 (Z.eqb_neq c 0) Hc), IH. done.
Qed.

(** The strings in the buffer once the delimiter [d] is replaced by a NUL. *)
Lemma cut_buffer text priv l c t d a b : reads text priv l -> buffered priv (c :: t) ->
  split_at d (upto 0 t) = Some (a, b) ->
  exists priv', put_line priv (1 + length a) 0 = Done priv' /\ reads text priv' l /\
    string_at (drop 1 (line priv')) = Done a /\ string_at (line priv') = Done (upto 0 (c :: a)) /\
    string_at (drop (1 + length a + 1) (line priv')) = Done b /\ line_char priv' (1 + length a + 1) = Done (hd 0 b).
Proof using Type.
  intros Hr [junk Hl] Hs. destruct (split_at_app _ _ _ _ Hs) as [E _]. destruct (upto_prefix 0 t) as (r & Et & Hz).
  pose proof (upto_free 0 t) as Hf. rewrite E in Hf, Et. apply Forall_app in Hf as [Ha Hb]. apply Forall_cons_1 in Hb as [_ Hb].
  rewrite <- (assoc_L (++)) in Et. cbn [app] in Et. pose proof (reads_line _ _ _ Hr) as Hlen.
  rewrite Hl, Et in Hlen. cbn [length app] in Hlen. rewrite !length_app in Hlen. cbn [length] in Hlen.
  destruct (put_line_reads text priv l (1 + length a) 0 Hr ltac:(lia)) as (p' & Ep & Hr' & L' & _).
  assert (line p' = c :: a ++ 0 :: b ++ r ++ 0 :: junk) as L.
  { rewrite L', Hl, Et. replace ((c :: a ++ d :: b ++ r) ++ 0 :: junk) with ((c :: a) ++ d :: b ++ r ++ 0 :: junk)
      by (cbn [app]; rewrite <- (assoc_L (++)); cbn [app]; by rewrite <- (assoc_L (++))).
    rewrite insert_app_r_alt by (simpl; lia). by rewrite Nat.sub_diag. }
  assert (drop (1 + length a + 1) (line p') = b ++ r ++ 0 :: junk) as Ld.
  { rewrite L, Nat.add_1_r. cbn [Nat.add]. rewrite !skipn_cons, drop_app, drop_ge by lia. by replace (S (length a) - length a)%nat with 1%nat by lia. }
  exists p'. split; [done|]. split; [done|]. split; [|split; [|split]].
  - rewrite L. cbn [drop]. by apply (string_at_free a []); [|left].
  - rewrite L. exact (string_at_buffer (c :: a) (b ++ r ++ 0 :: junk)).
  - rewrite Ld. by apply string_at_free.
  - unfold line_char. replace (line p' !! (1 + length a + 1)%nat) with ((drop (1 + length a + 1) (line p')) !! 0%nat) by (by rewrite lookup_drop, Nat.add_0_r).
    rewrite Ld. destruct b; [|done]. by destruct Hz as [->|[r' ->]].
Qed.

Lemma section_matches_reads text priv l x section : reads text priv l -> buffered priv x ->
  exists priv', section_matches priv (length x) section =
      Done (match header x with Some n => same_name n section | None => false end, priv') /\ reads text priv' l.
Proof using Type.
  intros Hr Hb. unfold section_matches, header. destruct x as [|c t]; [by exists priv|].
  destruct (3 <=? _)%nat; cbn [andb]; [|by exists priv]. rewrite (first_char _ _ Hb). cbn [mbind run_bind hd].
  destruct (c =? 91); [|by exists priv]. pose proof Hb as [junk Hl]. rewrite Hl. change (drop 1 ((c :: t) ++ 0 :: junk)) with (t ++ 0 :: junk). rewrite strchr_buffer by done.
  cbn [mbind run_bind]. destruct (split_at 93 (upto 0 t)) as [[a b]|] eqn:Hs.
  - destruct (cut_buffer text priv l c t 93 a b Hr Hb Hs) as (p' & Ep & Hr' & Es & _).
    rewrite Ep. cbn [mbind run_bind]. rewrite Es. cbn [mbind run_bind]. destruct (split_at_app _ _ _ _ Hs) as [_ ->]. by exists p'.
  - cbn [mbind run_bind]. rewrite Hl. change (drop 1 ((c :: t) ++ 0 :: junk)) with (t ++ 0 :: junk). rewrite string_at_buffer. cbn [mbind run_bind]. rewrite (split_at_none _ _ Hs). by exists priv.
Qed.

(** ** Sections *)

Lemma seek_loop_reads text section fuel : forall priv l, reads text priv l -> (length l < fuel)%nat ->
  exists found l' priv', seek_loop fuel priv section = Done (found, priv') /\ reads text priv' l' /\
    find_section (content_lines l) section = (if found : bool then Some (content_lines l') else None).
Proof using Type.
  induction fuel as [|fuel IH]; intros priv l Hr Hf; [lia|]. cbn [seek_loop].
  destruct (noncomment_reads text priv l Hr) as (x & l1 & p1 & E1 & Hr1 & Hb1 & Hlen & Hc). rewrite E1. cbn [mbind run_bind].
  destruct (section_matches_reads text p1 l1 x section Hr1 Hb1) as (p2 & E2 & Hr2). rewrite E2. cbn [mbind run_bind].
  destruct Hc as [Hc|(-> & -> & Hc)]; rewrite Hc; cbn [find_section].
  - destruct (match header x with Some n => same_name n section | None => false end); [by exists true, l1, p2|].
    destruct l1 as [|c l1]; [rewrite (at_eof _ _ Hr2); by exists false, [], p2|].
    rewrite (not_eof _ _ _ _ Hr2). cbn [negb]. apply IH; [done|]. destruct l; simpl in *; lia.
  - cbn [header]. rewrite (at_eof _ _ Hr2). by exists false, [], p2.
Qed.

Lemma seek_reads text priv l section : reads text priv l -> Forall is_byte text ->
  exists found l' priv', inifile_seek_to_section priv section = Done (found, priv') /\ reads text priv' l' /\
    find_section (content_lines text) section = (if found : bool then Some (content_lines l') else None).
Proof using Type.
  intros Hr Ht. unfold inifile_seek_to_section. rewrite (reads_stream _ _ _ Hr). unfold rewind, read_ahead, getc. cbn [contents instream line unread].
  set (p := match text with [] => _ | _ => _ end). assert (exists p1, (let '(c, f) := p in Done (mkIni (Some f) c (line priv))) = Done p1 /\ reads text p1 text) as (p1 & E1 & Hr1).
  { subst p. destruct text as [|c t]; eexists; (split; [reflexivity|]); constructor; try done; apply Hr. }
  rewrite E1. cbn [mbind run_bind]. apply seek_loop_reads; [done|]. pose proof (fuel_enough _ _ _ Hr1). lia.
Qed.

(** ** Variables *)

(** The assignment in the buffer, at the pointers [v]. *)
Record assigns (priv : inifile_state_s) (v : inifile_var_s) (n w : list Z) : Prop := {
  assigns_name : string_at (drop (variable v) (line priv)) = Done n;
  assigns_value : string_at (drop (value v) (line priv)) = Done w;
  assigns_first : line_char priv (value v) = Done (hd 0 w);
  assigns_free : Forall (fun c => c <> 0) w }.

Definition variable_read (text l l' : list Z) (priv' : inifile_state_s) (v : option inifile_var_s) : Prop :=
  reads text priv' l' /\
  match v with
  | None => forall name, find_assignment (content_lines l) name = None
  | Some v => (length l' < length l)%nat /\ exists n w, assigns priv' v n w /\
      forall name, find_assignment (content_lines l) name =
        if same_name n name then Some w else find_assignment (content_lines l') name
  end.

Lemma read_variable_loop_reads text fuel : forall priv l, reads text priv l -> (length l < fuel)%nat ->
  exists v l' priv', read_variable_loop fuel priv = Done (v, priv') /\ variable_read text l l' priv' v.
Proof using Type.
  induction fuel as [|fuel IH]; intros priv l Hr Hf; [lia|]. cbn [read_variable_loop].
  destruct (noncomment_reads text priv l Hr) as (x & l1 & p1 & E1 & Hr1 & Hb1 & Hlen & Hc). rewrite E1. cbn [mbind run_bind].
  rewrite (first_char _ _ Hb1). cbn [mbind run_bind]. destruct x as [|c t].
  { exists None, l1, p1. split; [done|]. split; [done|]. intros name. by destruct Hc as [->|(_ & _ & ->)]. }
  destruct Hc as [Hc|[? _]]; [|done]. assert (l <> []) as Hne by (by intros ->). cbn [length Nat.eqb orb hd].
  destruct (c =? 91) eqn:E91.
  { exists None, l1, p1. split; [done|]. split; [done|]. intros name. rewrite Hc. cbn [find_assignment]. by rewrite E91. }
  pose proof Hb1 as [junk Hl]. rewrite Hl. change (drop 1 ((c :: t) ++ 0 :: junk)) with (t ++ 0 :: junk).
  rewrite strchr_buffer by done. cbn [mbind run_bind]. destruct (split_at 61 (upto 0 t)) as [[a b]|] eqn:Hs.
  - destruct (cut_buffer text p1 l1 c t 61 a b Hr1 Hb1 Hs) as (p2 & E2 & Hr2 & _ & En & Ev & Ef). rewrite E2. cbn [mbind run_bind].
    eexists (Some _), l1, p2. split; [reflexivity|]. split; [done|]. split; [destruct l; simpl in *; [done|lia]|].
    exists (upto 0 (c :: a)), b. split; [constructor; try done|].
    + pose proof (upto_free 0 t) as Hz. destruct (split_at_app _ _ _ _ Hs) as [E _]. rewrite E in Hz. apply Forall_app in Hz as [_ Hz]. by apply Forall_cons_1 in Hz as [_ Hz].
    + intros name. rewrite Hc. cbn [find_assignment]. rewrite E91. unfold assignment. rewrite Hs. done.
  - destruct (IH p1 l1 Hr1) as (v & l' & p' & E & Hr' & Hv); [destruct l; simpl in *; [done|lia]|].
    exists v, l', p'. split; [done|]. split; [done|].
    assert (forall name, find_assignment (content_lines l) name = find_assignment (content_lines l1) name) as Hsame.
    { intros name. rewrite Hc. cbn [find_assignment]. rewrite E91. unfold assignment. by rewrite Hs. }
    destruct v as [v|]; [|intros name; by rewrite Hsame]. destruct Hv as (Hlt & n & w & Ha & Hv).
    split; [destruct l; simpl in *; [done|lia]|]. exists n, w. split; [done|]. intros name. by rewrite Hsame.
Qed.

Lemma section_variable_reads text name fuel : forall priv l, reads text priv l -> (length l < fuel)%nat ->
  exists r l' priv', section_variable_loop fuel priv name = Done (r, priv') /\ reads text priv' l' /\
    match r with
    | None => find_assignment (content_lines l) name = None
    | Some i => exists w, find_assignment (content_lines l) name = Some w /\ string_at (drop i (line priv')) = Done w /\
        line_char priv' i = Done (hd 0 w) /\ Forall (fun c => c <> 0) w
    end.
Proof using Type.
  induction fuel as [|fuel IH]; intros priv l Hr Hf; [lia|]. cbn [section_variable_loop]. unfold inifile_read_variable.
  destruct (read_variable_loop_reads text (S (S (left_over priv))) priv l Hr) as (v & l1 & p1 & E1 & Hr1 & Hv); [pose proof (fuel_enough _ _ _ Hr); lia|].
  rewrite E1. cbn [mbind run_bind]. destruct v as [v|]; [|by exists None, l1, p1].
  destruct Hv as (Hlt & n & w & [Hn Hw Hc Hz] & Hv). rewrite Hn, Hv. cbn [mbind run_bind].
  destruct (same_name n name); [|apply IH; [done|lia]].
  exists (Some (value v)), l1, p1. split; [done|]. split; [done|]. by exists w.
Qed.

(** What a lookup in the reader's state finds is what the reference says. *)
Lemma find_variable_reads text priv l section name : reads text priv l -> Forall is_byte text ->
  exists r l' priv', inifile_find_variable priv section name = Done (r, priv') /\ reads text priv' l' /\
    match r with
    | None => ini_lookup text section name = None
    | Some i => exists w, ini_lookup text section name = Some w /\ string_at (drop i (line priv')) = Done w
    end.
Proof using Type.
  intros Hr Ht. unfold inifile_find_variable, ini_lookup. rewrite (reads_stream _ _ _ Hr).
  destruct (seek_reads text priv l section Hr Ht) as (found & l1 & p1 & E1 & Hr1 & ->). rewrite E1. cbn [mbind run_bind].
  destruct found; cbn [mbind option_bind]; [|by exists None, l1, p1]. unfold inifile_find_section_variable.
  destruct (section_variable_reads text name (S (S (left_over p1))) p1 l1 Hr1) as (r & l2 & p2 & E2 & Hr2 & Hv); [pose proof (fuel_enough _ _ _ Hr1); lia|].
  rewrite E2. cbn [mbind run_bind]. destruct r as [i|]; [|rewrite Hv; by exists None, l2, p2].
  destruct Hv as (w & -> & Hs & Hc & Hz). rewrite Hc. cbn [mbind run_bind option_bind]. destruct w as [|c w].
  - by exists None, l2, p2.
  - apply Forall_cons_1 in Hz as [Hz _]. cbn [hd]. rewrite (proj2 (Z.eqb_neq _ _) Hz). exists (Some i), l2, p2.
    split; [done|]. split; [done|]. by exists (c :: w).
Qed.
End reference.
