(* ===== verification/IniTheorems.v ===== *)
(** * IniTheorems: what the theorems about the reader of INI files say

    Sessions with the reader answer as the reference prescribes on every file and give back all
    memory; a document that is printed as an INI file is read back. *)

From stdpp Require Import strings.
From S2P Require Import Prelude CLib IniFile IniSpec.
#[local] Open Scope Z_scope.

(** ** Sessions *)

Inductive ini_op :=
| IniString (strdup_ok : bool) (section name : list Z) (defvalue : option (list Z))
| IniInteger (section name : list Z) (defvalue : Z).

Inductive ini_ret := RetString (s : option (list Z)) | RetInteger (z : Z).

(** The answers over a lookup function. *)
Definition ini_answer (lookup : list Z -> list Z -> option (list Z)) (o : ini_op) : ini_ret :=
  match o with
  | IniString ok section name d =>
      RetString (if ok then match lookup section name with Some v => Some v | None => d end else None)
  | IniInteger section name d =>
      RetInteger (match lookup section name with Some v => (strtol v).1 | None => d end)
  end.

Section sessions.
Context `{IniConfig}.

Definition run_ini_op (o : ini_op) (h : option inifile_state_s) (w : ini_world) :
    run (ini_ret * option inifile_state_s * ini_world) :=
  match o with
  | IniString ok section name d =>
      '(r, h, w) ← inifile_read_string ok h section name d w; Done (RetString r, h, w)
  | IniInteger section name d =>
      '(r, h) ← inifile_read_integer h section name d; Done (RetInteger r, h, w)
  end.

(** The caller frees a string once all later operations are done. *)
Definition free_ret (r : ini_ret) (w : ini_world) : ini_world :=
  match r with RetString s => inifile_free_string s w | RetInteger _ => w end.

Fixpoint run_ini_ops (os : list ini_op) (h : option inifile_state_s) (w : ini_world) :
    run (list ini_ret * option inifile_state_s * ini_world) :=
  match os with
  | [] => Done ([], h, w)
  | o :: os =>
      '(r, h, w) ← run_ini_op o h w;
      '(rs, h, w) ← run_ini_ops os h w;
      Done (r :: rs, h, free_ret r w)
  end.

(** Open the file, ask, close it; [None] when it cannot be opened. *)
Definition ini_session (malloc_ok : bool) (junk : list Z) (file : option (list Z)) (os : list ini_op) (w : ini_world) :
    run (option (list ini_ret) * ini_world) :=
  '(h, w) ← inifile_initialize malloc_ok junk file w;
  match h with
  | None => Done (None, w)
  | Some _ => '(rs, h, w) ← run_ini_ops os h w; Done (Some rs, inifile_uninitialize h w)
  end.

Lemma op_answers text o priv l w : reads text priv l -> Forall is_byte text ->
  exists priv' l' w', run_ini_op o (Some priv) w = Done (ini_answer (ini_lookup text) o, Some priv', w') /\
    reads text priv' l' /\ free_ret (ini_answer (ini_lookup text) o) w' = w /\ open_files w' = open_files w.
Proof using Type.
  intros Hr Ht. destruct w as [k n]. destruct o as [ok section name d|section name d]; cbn [run_ini_op ini_answer];
    unfold inifile_read_string, inifile_read_integer;
    destruct (find_variable_reads text priv l section name Hr Ht) as (r & l' & p' & E & Hr' & Hv); rewrite E; cbn [mbind run_bind].
  - assert (exists v, (match r with Some i => s ← string_at (drop i (line p')); Done (Some s) | None => Done d end) = Done v /\
      v = match ini_lookup text section name with Some x => Some x | None => d end) as (v & Ev & Hd).
    { destruct r as [i|]; [destruct Hv as (x & -> & ->); by eexists|rewrite Hv; by eexists]. }
    rewrite Ev, <- Hd. cbn [mbind run_bind]. destruct v as [s|], ok; eexists p', l', _; (split; [reflexivity|]); (split; [done|]);
      cbn; split; try done. f_equal. lia.
  - destruct r as [i|]; [destruct Hv as (x & -> & ->)|rewrite Hv]; eexists p', l', _; (split; [reflexivity|]); done.
Qed.

Lemma ops_answer text os : forall priv l w, reads text priv l -> Forall is_byte text ->
  exists priv' l', run_ini_ops os (Some priv) w = Done (ini_answer (ini_lookup text) <$> os, Some priv', w) /\ reads text priv' l'.
Proof using Type.
  induction os as [|o os IH]; intros priv l w Hr Ht; cbn [run_ini_ops]; [by exists priv, l|].
  destruct (op_answers text o priv l w Hr Ht) as (p1 & l1 & w1 & E1 & Hr1 & Hw & _). rewrite E1. cbn [mbind run_bind].
  destruct (IH p1 l1 w1 Hr1 Ht) as (p' & l' & E & Hr'). rewrite E. cbn [mbind run_bind]. rewrite Hw. by exists p', l'.
Qed.

Lemma session_answers text junk os w : Forall is_byte text -> length junk = S CONFIG_FSUTILS_INIFILE_MAXLINE ->
  ini_session true junk (Some text) os w = Done (Some (ini_answer (ini_lookup text) <$> os), w).
Proof using Type.
  intros Ht Hj. unfold ini_session, inifile_initialize. cbn [negb].
  assert (exists p, read_ahead (mkIni (Some (mkIniStream text text)) 0 junk) = Done p /\ reads text p text) as (p & E & Hr).
  { unfold read_ahead, getc. destruct text as [|c t]; eexists; (split; [reflexivity|]); constructor; done. }
  rewrite E. cbn [mbind run_bind blocks open_files].
  destruct (ops_answer text os p text (mkIniWorld (blocks w + 1) (open_files w + 1)) Hr Ht) as (p' & l' & E' & Hr').
  rewrite E'. cbn [mbind run_bind inifile_uninitialize]. rewrite (reads_stream _ _ _ Hr'). cbn. destruct w as [k n]. cbn. do 3 f_equal; lia.
Qed.
End sessions.

(** ** Documents *)

Record ini_doc_section := mkDocSection { doc_comment : list Z; doc_name : list Z; doc_vars : list (list Z * list Z) }.

Definition eol (crlf : bool) : list Z := if crlf then [13; 10] else [10].

Definition print_var (crlf : bool) (v : list Z * list Z) : list Z := v.1 ++ 61 :: v.2 ++ eol crlf.

(** A comment, the header, the assignments and an empty line. *)
Definition print_section (crlf : bool) (s : ini_doc_section) : list Z :=
  (59 :: doc_comment s) ++ eol crlf ++ (91 :: doc_name s ++ [93]) ++ eol crlf ++
  concat (print_var crlf <$> doc_vars s) ++ eol crlf.

Definition print_doc (crlf : bool) (d : list ini_doc_section) : list Z := concat (print_section crlf <$> d).

(** The first section of the name, the first variable in it. *)
Definition doc_lookup (d : list ini_doc_section) (section name : list Z) : option (list Z) :=
  '(_, s) ← list_find (fun s => same_name (doc_name s) section = true) d;
  '(_, v) ← list_find (fun v : list Z * list Z => same_name v.1 name = true) (doc_vars s);
  if bool_decide (v.2 = []) then None else Some v.2.

Definition printable (stops : list Z) (l : list Z) : Prop := Forall (fun c => is_byte c /\ c ∉ [0; 10; 13] ++ stops) l.

Section documents.
Context `{IniConfig}.

Record var_ok (v : list Z * list Z) : Prop := {
  var_name : printable [61] v.1; var_value : printable [] v.2;
  var_first : match v.1 with [] => False | c :: _ => c ∉ [32; 9; 59; 91] end;
  var_fits : (length v.1 + 1 + length v.2 <= CONFIG_FSUTILS_INIFILE_MAXLINE)%nat }.

Record section_ok (s : ini_doc_section) : Prop := {
  section_comment : printable [] (doc_comment s);
  section_name : printable [93] (doc_name s); section_named : doc_name s <> [];
  section_fits : (length (doc_name s) + 2 <= CONFIG_FSUTILS_INIFILE_MAXLINE)%nat;
  section_vars : Forall var_ok (doc_vars s) }.

Lemma printable_nil stops l : printable stops l -> printable [] l.
Proof using Type. apply Forall_impl. intros c [Hb Hc]. split; [done|]. intros Hin. apply Hc. apply elem_of_app in Hin as [Hin|Hin]; [apply elem_of_app; by left|inversion Hin]. Qed.

Lemma printable_one c : is_byte c -> c <> 0 -> c <> 10 -> c <> 13 -> printable [] [c].
Proof using Type. intros Hb H0 H10 H13. constructor; [|constructor]. split; [done|]. cbn. intros Hin. set_solver. Qed.

Lemma printable_app stops a b : printable stops a -> printable stops b -> printable stops (a ++ b).
Proof using Type. intros Ha Hb. by apply Forall_app. Qed.

Lemma printable_upto stops l c : c ∈ [0; 10; 13] ++ stops -> printable stops l -> upto c l = l.
Proof using Type.
  intros Hc Hl. induction Hl as [|x l [_ Hx] _ IH]; [done|]. cbn [upto]. destruct (Z.eqb_spec x c) as [->|_]; [done|by rewrite IH].
Qed.

Lemma printable_split stops l c b : c ∈ [0; 10; 13] ++ stops -> printable stops l -> split_at c (l ++ c :: b) = Some (l, b).
Proof using Type.
  intros Hc Hl. induction Hl as [|x l [_ Hx] _ IH]; cbn [app split_at]; [by rewrite Z.eqb_refl|].
  destruct (Z.eqb_spec x c) as [->|_]; [done|]. by rewrite IH.
Qed.

Lemma first_line_print x l : printable [] x -> forall crlf, first_line (x ++ eol crlf ++ l) = x ++ (if crlf then [13] else []) /\
  after_line (x ++ eol crlf ++ l) = l.
Proof using Type.
  intros Hx crlf. induction Hx as [|c x [_ Hc] _ [IH1 IH2]]; [by destruct crlf|]. cbn [app first_line after_line].
  rewrite (proj2 (Z.eqb_neq c 10)) by (intros ->; apply Hc; set_solver). by rewrite IH1, IH2.
Qed.

Lemma filter_printable x crlf : printable [] x -> filter (fun c => c <> 13) (x ++ (if crlf : bool then [13] else [])) = x.
Proof using Type.
  intros Hx. rewrite list.filter_app. replace (filter _ (if crlf then _ else _)) with (@nil Z) by (by destruct crlf). rewrite app_nil_r.
  induction Hx as [|c x [_ Hc] _ IH]; [done|]. rewrite filter_cons_True by (intros ->; apply Hc; set_solver). by rewrite IH.
Qed.

Lemma clean_printed x crlf : printable [] x -> (match x with [] => True | c :: _ => c ∉ [32; 9] end) ->
  (length x <= CONFIG_FSUTILS_INIFILE_MAXLINE)%nat -> clean (x ++ (if crlf : bool then [13] else [])) = x.
Proof using Type.
  intros Hx Hf Hl. unfold clean. rewrite filter_printable by done. destruct x as [|c x]; [cbn [skip_blanks]; by rewrite take_nil|].
  cbn [skip_blanks]. rewrite (proj2 (Z.eqb_neq c 32)), (proj2 (Z.eqb_neq c 9)) by (intros ->; apply Hf; set_solver).
  by apply take_ge.
Qed.

(** A printed line is the first line with contents, or a comment. *)
Lemma content_printed x crlf l : printable [] x -> (match x with [] => True | c :: _ => c ∉ [32; 9; 59] end) ->
  (length x <= CONFIG_FSUTILS_INIFILE_MAXLINE)%nat -> content_lines (x ++ eol crlf ++ l) = x :: content_lines l.
Proof using Type.
  intros Hx Hf Hl. destruct (first_line_print x l Hx crlf) as [E1 E2].
  assert (exists c t, x ++ eol crlf ++ l = c :: t) as (c & t & Ec) by (destruct x, crlf; cbn; eauto).
  rewrite Ec in E1, E2. rewrite Ec, content_step, E1, E2. cbv zeta.
  rewrite clean_printed; [|done|destruct x; [done|set_solver]|done].
  replace (is_comment x) with false; [done|]. destruct x as [|d x]; [done|]. cbn [is_comment].
  symmetry. apply Z.eqb_neq. intros ->. apply Hf. set_solver.
Qed.

Lemma content_comment x crlf l : printable [] x -> (0 < CONFIG_FSUTILS_INIFILE_MAXLINE)%nat ->
  content_lines ((59 :: x) ++ eol crlf ++ l) = content_lines l.
Proof using Type.
  intros Hx Hm. assert (printable [] (59 :: x)) as Hp by (apply (printable_app [] [59]); [by apply printable_one|done]).
  destruct (first_line_print (59 :: x) l Hp crlf) as [E1 E2]. cbn [app] in E1, E2 |- *. rewrite content_step, E1, E2. cbv zeta.
  unfold clean. change (59 :: x ++ ?y) with ((59 :: x) ++ y). rewrite filter_printable by done.
  destruct CONFIG_FSUTILS_INIFILE_MAXLINE; [lia|]. done.
Qed.

Definition var_line (v : list Z * list Z) : list Z := v.1 ++ 61 :: v.2.
Definition header_line (n : list Z) : list Z := 91 :: n ++ [93].

Lemma var_line_printable v : var_ok v -> printable [] (var_line v).
Proof using Type.
  intros [Hn Hv _ _]. apply printable_app; [by eapply printable_nil|].
  apply (printable_app [] [61]); [by apply printable_one|done].
Qed.

Lemma content_vars vs crlf l : Forall var_ok vs ->
  content_lines (concat (print_var crlf <$> vs) ++ l) = (var_line <$> vs) ++ content_lines l.
Proof using Type.
  induction 1 as [|v vs Hv _ IH]; [done|]. rewrite !fmap_cons. cbn [concat app]. rewrite <- IH, <- (assoc_L (++)).
  replace (print_var crlf v ++ concat (print_var crlf <$> vs) ++ l) with (var_line v ++ eol crlf ++ (concat (print_var crlf <$> vs) ++ l))
    by (unfold print_var, var_line; rewrite <- !(assoc_L (++)); cbn [app]; by rewrite <- !(assoc_L (++))).
  pose proof (var_first v Hv) as Hf. pose proof (var_fits v Hv) as Hl. apply content_printed; [by apply var_line_printable| |].
  - unfold var_line. destruct v.1; [done|]. cbn [app]. set_solver.
  - unfold var_line. rewrite length_app. cbn [length]. lia.
Qed.

Lemma content_section s crlf l : section_ok s ->
  content_lines (print_section crlf s ++ l) = header_line (doc_name s) :: (var_line <$> doc_vars s) ++ [] :: content_lines l.
Proof using Type.
  intros [Hc Hn Hne Hl Hv]. unfold print_section. rewrite <- !(assoc_L (++)).
  rewrite content_comment by (done || lia). rewrite content_printed.
  - rewrite content_vars by done. do 2 f_equal. by apply (content_printed [] crlf l); [constructor| |simpl; lia].
  - apply (printable_app [] [91]); [by apply printable_one|]. apply printable_app; [by eapply printable_nil|by apply printable_one].
  - set_solver.
  - cbn [length]. rewrite length_app. cbn [length]. lia.
Qed.

Lemma find_assignment_vars vs r name : Forall var_ok vs ->
  find_assignment ((var_line <$> vs) ++ [] :: r) name =
    '(_, v) ← list_find (fun v : list Z * list Z => same_name v.1 name = true) vs; Some v.2.
Proof using Type.
  induction 1 as [|v vs [Hn Hv Hf Hl] _ IH]; [done|]. rewrite fmap_cons. cbn [app list_find]. destruct v as [n w]. cbn [fst snd] in *.
  destruct n as [|c a]; [done|]. unfold var_line at 1. cbn [fst snd app find_assignment].
  rewrite (proj2 (Z.eqb_neq c 91)) by (intros ->; apply Hf; set_solver).
  apply Forall_cons_1 in Hn as Hn'. destruct Hn' as [_ Ha]. unfold assignment.
  rewrite (printable_upto [] (a ++ 61 :: w) 0); [|set_solver|apply printable_app; [by eapply printable_nil|apply (printable_app [] [61]); [by apply printable_one|done]]].
  rewrite (printable_split [61] a 61) by (done || set_solver). cbn [mbind option_bind].
  rewrite (printable_upto [61] (c :: a) 0) by (done || set_solver). destruct (same_name (c :: a) name) eqn:E.
  - by rewrite decide_True.
  - rewrite decide_False by done. rewrite IH. by destruct (list_find _ vs) as [[]|].
Qed.

Lemma find_section_vars vs r section : Forall var_ok vs -> find_section ((var_line <$> vs) ++ [] :: r) section = find_section r section.
Proof using Type.
  induction 1 as [|v vs [_ _ Hf _] _ IH]; [done|]. rewrite fmap_cons. cbn [app find_section]. destruct v as [[|c a] w]; [done|].
  unfold var_line at 1 2, header. cbn [fst snd app]. rewrite (proj2 (Z.eqb_neq c 91)) by (intros ->; apply Hf; set_solver).
  by rewrite andb_false_r.
Qed.

Lemma header_printed n : printable [93] n -> n <> [] -> header (header_line n) = Some n.
Proof using Type.
  intros Hn Hne. unfold header, header_line. rewrite (proj2 (Nat.leb_le _ _)).
  - cbn [andb Z.eqb Pos.eqb]. rewrite (printable_upto [] (n ++ [93]) 0); [|set_solver|apply printable_app; [by eapply printable_nil|by apply printable_one]].
    destruct (split_at_app 93 (n ++ [93]) n [] ltac:(apply (printable_split [93]); [set_solver|done])) as [_ ->]. done.
  - cbn [length]. rewrite length_app. cbn. destruct n; [done|]. cbn. lia.
Qed.

(** The reference reads back a printed document. *)
Lemma lookup_printed d crlf section name : Forall section_ok d ->
  ini_lookup (print_doc crlf d) section name = doc_lookup d section name.
Proof using Type.
  unfold ini_lookup, doc_lookup, print_doc. induction 1 as [|s d Hs _ IH]; [done|].
  rewrite fmap_cons. cbn [concat list_find]. rewrite content_section by done. cbn [find_section].
  rewrite header_printed by apply Hs. destruct (same_name (doc_name s) section) eqn:E.
  - rewrite decide_True by done. cbn [mbind option_bind]. rewrite find_assignment_vars by apply Hs. by destruct (list_find _ (doc_vars s)) as [[]|].
  - rewrite decide_False by done. rewrite find_section_vars by apply Hs. rewrite IH. by destruct (list_find _ d) as [[]|].
Qed.

Lemma printed_bytes d crlf : Forall section_ok d -> Forall is_byte (print_doc crlf d).
Proof using Type.
  assert (forall stops x, printable stops x -> Forall is_byte x) as Hb by (intros stops x; apply Forall_impl; by intros c []).
  assert (Forall is_byte (eol crlf)) as He by (destruct crlf; repeat constructor; lia).
  assert (forall v, var_ok v -> Forall is_byte (print_var crlf v)) as Hv.
  { intros v [Hn Hw _ _]. unfold print_var. apply Forall_app. split; [by eapply Hb|]. constructor; [by unfold is_byte|].
    apply Forall_app. split; [by eapply Hb|done]. }
  intros Hd. apply Forall_concat, Forall_fmap. eapply Forall_impl; [|exact Hd]. intros s [Hc Hn _ _ Hvs]. change (Forall is_byte (print_section crlf s)).
  unfold print_section. rewrite !Forall_app. split; [constructor; [by unfold is_byte|exact (Hb _ _ Hc)]|].
  split; [done|]. split; [constructor; [by unfold is_byte|]|split; [done|split; [|done]]].
  - apply Forall_app. split; [exact (Hb _ _ Hn)|by repeat constructor].
  - apply Forall_concat, Forall_fmap. eapply Forall_impl; [exact Hv|exact Hvs].
Qed.
End documents.

Section theorems.
Context `{IniConfig}.

(** C23. The reader answers as the reference prescribes.  On every file of bytes, opening it,
    any number of requests for strings and integers in any order, and closing it ends without an
    access outside the line buffer; each request is answered with the value that the reference
    finds in the lines of the file, whatever was asked before, or with the default; and when the
    caller frees the strings all memory and the file are given back.  A file that cannot be
    opened or memory that is missing leaves everything as it was. *)
Theorem ini_session_correct junk text os w : Forall is_byte text ->
  length junk = S CONFIG_FSUTILS_INIFILE_MAXLINE ->
  ini_session true junk (Some text) os w = Done (Some (ini_answer (ini_lookup text) <$> os), w) /\
  ini_session true junk None os w = Done (None, w) /\
  (forall file, ini_session false junk file os w = Done (None, w)).
Proof.
  intros Ht Hj. split; [by apply session_answers|]. split; [|done]. destruct w as [k n].
  unfold ini_session, inifile_initialize. cbn. do 3 f_equal. lia.
Qed.

(** C37. A printed document is read back.  When sections of variables, with a comment in front of
    each, are printed with either end of line, within the size of the line buffer and with no
    delimiters in the names, the reader answers every request with the value of the first
    variable of the name in the first section of the name, names compared without case, and
    with the default when there is none or it is empty. *)
Theorem ini_document_roundtrip junk crlf d os w : Forall section_ok d ->
  length junk = S CONFIG_FSUTILS_INIFILE_MAXLINE ->
  ini_session true junk (Some (print_doc crlf d)) os w = Done (Some (ini_answer (doc_lookup d) <$> os), w).
Proof.
  intros Hd Hj. rewrite session_answers by (done || by apply printed_bytes). do 3 f_equal. apply list_fmap_ext.
  intros i o _. destruct o; cbn [ini_answer]; by rewrite lookup_printed.
Qed.
End theorems.

(** ** A concrete file *)

Module IniDemo.
#[export] Instance config : IniConfig := {| CONFIG_FSUTILS_INIFILE_MAXLINE := 32 |}.
Definition garbage : list Z := replicate 33 165.
Definition nothing : ini_world := mkIniWorld 0 0.

Definition demo_doc : list ini_doc_section :=
  [mkDocSection (cstr " network") (cstr "net") [(cstr "ip", cstr "10.0.0.2"); (cstr "port", cstr "0x50")];
   mkDocSection [] (cstr "log") [(cstr "level", []); (cstr "file", cstr "/tmp/a=b")]].

Definition demo_ops : list ini_op :=
  [IniString true (cstr "NET") (cstr "Ip") None; IniInteger (cstr "net") (cstr "port") 1;
   IniString true (cstr "log") (cstr "level") (Some (cstr "info")); IniString true (cstr "log") (cstr "file") None;
   IniInteger (cstr "log") (cstr "port") 7; IniString false (cstr "net") (cstr "ip") None].

Definition demo_rets : list ini_ret :=
  [RetString (Some (cstr "10.0.0.2")); RetInteger 80; RetString (Some (cstr "info"));
   RetString (Some (cstr "/tmp/a=b")); RetInteger 7; RetString None].
End IniDemo.
Import IniDemo.

Ltac ini_concrete :=
  repeat (apply Forall_cons_2 || apply Forall_nil_2);
  repeat match goal with
  | |- section_ok _ => constructor
  | |- var_ok _ => constructor
  | |- printable _ _ => apply (bool_decide_unpack _); vm_compute; exact I
  | |- _ ∉ _ => apply (bool_decide_unpack _); vm_compute; exact I
  | |- Forall _ _ => repeat (apply Forall_cons_2 || apply Forall_nil_2)
  | |- _ <> _ => discriminate
  | |- match ?x with [] => _ | _ :: _ => _ end => let y := eval vm_compute in x in change x with y; cbv iota beta
  | |- (_ <= _)%nat => apply (bool_decide_unpack _); vm_compute; exact I
  end.

Lemma ini_session_correct_witness :
  ini_session true garbage (Some (print_doc true demo_doc)) demo_ops nothing = Done (Some demo_rets, nothing).
Proof.
  destruct (ini_session_correct garbage (print_doc true demo_doc) demo_ops nothing) as [E _].
  - apply (bool_decide_unpack _). vm_compute. exact I.
  - reflexivity.
  - exact E.
Defined.

Lemma ini_document_roundtrip_witness :
  ini_session true garbage (Some (print_doc false demo_doc)) demo_ops nothing = Done (Some demo_rets, nothing).
Proof.
  apply (ini_document_roundtrip garbage false demo_doc demo_ops nothing); [|reflexivity].
  ini_concrete.
Defined.

(** ** Behaviours that are surprising *)

(** The handle of a file that could not be opened is followed. *)
Lemma null_handle_followed :
  ('(h, w) ← inifile_initialize true garbage None nothing;
   inifile_read_string true h (cstr "net") (cstr "ip") None w) = OutOfBounds.
Proof. reflexivity. Qed.

(** Blanks around the equals sign belong to the name and the value. *)
Lemma blanks_belong_to_names : ini_lookup (cstr "[net]" ++ [10] ++ cstr "ip = 1") (cstr "net") (cstr "ip") = None /\
  ini_lookup (cstr "[net]" ++ [10] ++ cstr "ip = 1") (cstr "net") (cstr "ip ") = Some (cstr " 1").
Proof. split; vm_compute; reflexivity. Qed.

(** An empty line ends the section. *)
Lemma empty_line_ends_section :
  ini_lookup (cstr "[net]" ++ [10; 10] ++ cstr "ip=1") (cstr "net") (cstr "ip") = None.
Proof. vm_compute. reflexivity. Qed.

(** A section of a name that occurs twice is hidden. *)
Lemma second_section_hidden :
  ini_lookup (cstr "[net]" ++ [10; 10] ++ cstr "[net]" ++ [10] ++ cstr "ip=1") (cstr "net") (cstr "ip") = None.
Proof. vm_compute. reflexivity. Qed.

(** A line longer than the buffer is cut, and its value with it. *)
Lemma long_value_cut :
  ini_lookup (cstr "[net]" ++ [10] ++ cstr "x=" ++ replicate 40 55) (cstr "net") (cstr "x") = Some (replicate 30 55).
Proof. vm_compute. reflexivity. Qed.
