(* ===== verification/Readline.v ===== *)
(** * Readline: the interactive line editor

    [src/system/readline/*.c] with echo, command history and tab completion over the built-in
    programs, each of them an option.  The state has what [read] and [write] will do, what
    reached the terminal, the caller's buffer, the history and the mode of the terminal; an
    access outside an array is the result [OutOfBounds].  The names of the built-in programs
    come from the kernel: they are a parameter.  External matching is off. *)

From S2P Require Import Prelude.
#[local] Open Scope Z_scope.

Definition RL_EOF : Z := -1.
Definition ASCII_BS : Z := 8.
Definition ASCII_DEL : Z := 127.
Definition ASCII_ESC : Z := 27.
Definition ASCII_LBRACKET : Z := 91.

(** [VT100_CLEAREOL] with its terminator. *)
Definition g_erasetoeol : list Z := [27; 91; 75; 0].

Class RlConfig := {
  CONFIG_READLINE_ECHO : bool; CONFIG_READLINE_CMD_HISTORY : bool; CONFIG_READLINE_TABCOMPLETION : bool;
  RL_CMDHIST_LEN : nat; RL_CMDHIST_LINELEN : nat;
  CONFIG_READLINE_MAX_BUILTINS : nat; CONFIG_TASK_NAME_SIZE : nat;
  builtin_names : list (list Z);
}.

(** Outcomes of [read] of one character (none left: end of file) and of [write]. *)
Inductive rd := RdChar (c : Z) | RdIntr | RdFail.
Inductive wr := WrOk | WrIntr | WrZero | WrFail.

Record cmdhist_s := mkHist { h_buf : list (list Z); h_head : Z; h_offset : Z; h_len : Z }.

Record rl := mkRl {
  rl_in : list rd; rl_wr : list wr; rl_out : list Z; rl_outfd : Z;
  rl_buf : list Z; g_cmdhist : cmdhist_s; g_readline_prompt : option (list Z);
  rl_canon : option bool }.

Definition set_in (i : list rd) (s : rl) : rl :=
  mkRl i (rl_wr s) (rl_out s) (rl_outfd s) (rl_buf s) (g_cmdhist s) (g_readline_prompt s) (rl_canon s).
Definition set_out (w : list wr) (o : list Z) (s : rl) : rl :=
  mkRl (rl_in s) w o (rl_outfd s) (rl_buf s) (g_cmdhist s) (g_readline_prompt s) (rl_canon s).
Definition set_buf (b : list Z) (s : rl) : rl :=
  mkRl (rl_in s) (rl_wr s) (rl_out s) (rl_outfd s) b (g_cmdhist s) (g_readline_prompt s) (rl_canon s).
Definition set_hist (h : cmdhist_s) (s : rl) : rl :=
  mkRl (rl_in s) (rl_wr s) (rl_out s) (rl_outfd s) (rl_buf s) h (g_readline_prompt s) (rl_canon s).
Definition set_prompt (p : option (list Z)) (s : rl) : rl :=
  mkRl (rl_in s) (rl_wr s) (rl_out s) (rl_outfd s) (rl_buf s) (g_cmdhist s) p (rl_canon s).
Definition set_canon (c : option bool) (s : rl) : rl :=
  mkRl (rl_in s) (rl_wr s) (rl_out s) (rl_outfd s) (rl_buf s) (g_cmdhist s) (g_readline_prompt s) c.
Definition set_outfd (fd : Z) (s : rl) : rl :=
  mkRl (rl_in s) (rl_wr s) (rl_out s) fd (rl_buf s) (g_cmdhist s) (g_readline_prompt s) (rl_canon s).

(** ** The file descriptors *)

Fixpoint getc_loop (i : list rd) : Z * list rd :=
  match i with
  | [] => (RL_EOF, [])
  | RdChar c :: i => (c, i)
  | RdIntr :: i => getc_loop i
  | RdFail :: i => (RL_EOF, i)
  end.

Definition readline_getc (s : rl) : Z * rl :=
  let '(c, i) := getc_loop (rl_in s) in (c, set_in i s).

(** Whether the character was written. *)
Fixpoint putc_loop (w : list wr) : bool * list wr :=
  match w with
  | [] => (true, [])
  | WrOk :: w => (true, w)
  | WrIntr :: w | WrZero :: w => putc_loop w
  | WrFail :: w => (false, w)
  end.

Definition readline_putc (ch : Z) (s : rl) : rl :=
  if rl_outfd s <? 0 then s
  else let '(ok, w) := putc_loop (rl_wr s) in set_out w (rl_out s ++ if ok : bool then [ch] else []) s.

Definition readline_write (b : list Z) (s : rl) : rl :=
  if rl_outfd s <? 0 then s
  else match rl_wr s with
       | [] => set_out [] (rl_out s ++ b) s
       | WrOk :: w => set_out w (rl_out s ++ b) s
       | _ :: w => set_out w (rl_out s) s
       end.

Fixpoint put_string (l : list Z) (s : rl) : rl :=
  match l with [] => s | c :: l => put_string l (readline_putc c s) end.

(** ** Memory *)

(** [buf[i] = c] *)
Definition buf_put (i : nat) (c : Z) (s : rl) : run rl :=
  if (i <? length (rl_buf s))%nat then Done (set_buf (<[i := c]> (rl_buf s)) s) else OutOfBounds.

(** [strncmp(a, b, n) == 0] on memory that starts at [a] and [b] *)
Fixpoint strncmp_same (n : nat) (a b : list Z) : run bool :=
  match n with
  | O => Done true
  | S n =>
      match a, b with
      | x :: a, y :: b => if negb (x =? y) then Done false else if x =? 0 then Done true else strncmp_same n a b
      | _, _ => OutOfBounds
      end
  end.

(** The string that starts at the head of a piece of memory. *)
Fixpoint rl_string (l : list Z) : run (list Z) :=
  match l with
  | [] => OutOfBounds
  | c :: l => if c =? 0 then Done [] else s ← rl_string l; Done (c :: s)
  end.

(** [strlcpy(dst, src, size)] *)
Definition rl_strlcpy (dst src : list Z) (size : nat) : run (list Z) :=
  if (length dst <? size)%nat then OutOfBounds
  else
    let d := take (size - 1) src in
    Done (if (size =? 0)%nat then dst else d ++ 0 :: drop (S (length d)) dst).

Section readline.
Context `{RlConfig}.

(** ** Tab completion *)

Fixpoint count_loop (names : list (list Z)) (i : nat) (buf : list Z) (namelen : nat) (matches : list nat) : run (list nat) :=
  match names with
  | [] => Done matches
  | name :: names =>
      same ← strncmp_same namelen buf (name ++ [0]);
      if same : bool then
        if (length matches <? CONFIG_READLINE_MAX_BUILTINS)%nat then
          let matches := matches ++ [i] in
          if (CONFIG_READLINE_MAX_BUILTINS <=? length matches)%nat then Done matches
          else count_loop names (S i) buf namelen matches
        else OutOfBounds
      else count_loop names (S i) buf namelen matches
  end.

Definition count_builtin_matches (buf : list Z) (namelen : nat) : run (list nat) :=
  if (0 <? CONFIG_READLINE_MAX_BUILTINS)%nat then count_loop builtin_names 0 buf namelen [] else Done [].

Definition builtin_getname (i : nat) : run (list Z) :=
  match builtin_names !! i with Some n => Done n | None => OutOfBounds end.

(** The loop that copies the rest of the only match. *)
Fixpoint complete_loop (rest : list Z) (j : nat) (s : rl) : run rl :=
  match rest with
  | [] => Done s
  | c :: rest => s ← buf_put j c s; complete_loop rest (S j) (readline_putc c s)
  end.

(** The loop over a name that cuts what is not common and shows the name. *)
Fixpoint common_loop (name : list Z) (j : nat) (tmp : list Z) (s : rl) : run (list Z * rl) :=
  match name with
  | [] => Done (tmp, s)
  | c :: name =>
      match tmp !! j with
      | Some d => common_loop name (S j) (if negb (c =? d) then <[j := 0]> tmp else tmp) (readline_putc c s)
      | None => common_loop name (S j) tmp (readline_putc c s)
      end
  end.

Fixpoint show_matches (matches : list nat) (tmp : list Z) (s : rl) : run (list Z * rl) :=
  match matches with
  | [] => Done (tmp, s)
  | i :: matches =>
      name ← builtin_getname i;
      tmp ← (if (default 0 (tmp !! 0%nat) =? 0) then rl_strlcpy tmp name (S CONFIG_TASK_NAME_SIZE) else Done tmp);
      '(tmp, s) ← common_loop name 0 tmp (readline_putc 32 (readline_putc 32 s));
      show_matches matches tmp (readline_putc 10 s)
  end.

(** [for (i = 0; i < n; i++) RL_PUTC(vtbl, buf[i])] *)
Definition show_buf (n : nat) (s : rl) : run rl :=
  if (n <=? length (rl_buf s))%nat then Done (put_string (take n (rl_buf s)) s) else OutOfBounds.

Definition tab_completion (buflen : nat) (nch : nat) (s : rl) : run (nat * rl) :=
  if (1 <=? nch)%nat then
    matches ← count_builtin_matches (rl_buf s) nch;
    if (length matches =? 1)%nat then
      name ← builtin_getname (hd 0%nat matches);
      s ← complete_loop (drop nch name) nch s;
      Done ((if (nch <? length name)%nat then length name else nch), s)
    else if (1 <? length matches)%nat then
      let s := readline_putc 10 s in
      '(tmp, s) ← show_matches matches (replicate (S CONFIG_TASK_NAME_SIZE) 0) s;
      name ← rl_string tmp;
      b ← rl_strlcpy (rl_buf s) name buflen;
      let s := set_buf b s in
      let s := match g_readline_prompt s with Some p => put_string p s | None => s end in
      s ← show_buf (length name) s;
      Done ((if (nch <? length name)%nat then length name else nch), s)
    else Done (nch, s)
  else Done (nch, s).

Definition readline_prompt (prompt : option (list Z)) (s : rl) : option (list Z) * rl :=
  (g_readline_prompt s, set_prompt prompt s).

(** ** History *)

Definition echo_erase (s : rl) : rl :=
  if CONFIG_READLINE_ECHO then readline_write g_erasetoeol (readline_putc ASCII_BS s) else s.

Fixpoint clear_loop (nch : nat) (s : rl) : rl :=
  match nch with O => s | S nch => clear_loop nch (echo_erase s) end.

(** The offset after an arrow key. *)
Definition move_offset (ch : Z) (h : cmdhist_s) : Z :=
  if ch =? 65 then
    let offset := h_offset h - 1 in
    if h_len h <=? - offset then - (h_len h - 1) else offset
  else if ch =? 66 then
    let offset := h_offset h + 1 in
    if 1 <? offset then 1 else offset
  else h_offset h.

(** The loop that copies a line of the history, [row] being what is left of it. *)
Fixpoint recall_loop (row : list Z) (nch : nat) (s : rl) : run (nat * rl) :=
  match row with
  | [] => OutOfBounds
  | c :: row =>
      if c =? 0 then Done (nch, s)
      else s ← buf_put nch c s; recall_loop row (S nch) (readline_putc c s)
  end.

Definition hist_index (h : cmdhist_s) : Z :=
  let idx := h_head h + h_offset h in
  if idx <? 0 then idx + Z.of_nat RL_CMDHIST_LEN
  else if Z.of_nat RL_CMDHIST_LEN <=? idx then idx - Z.of_nat RL_CMDHIST_LEN
  else idx.

(** [g_cmdhist.buf[i]] *)
Definition hist_row (h : cmdhist_s) (i : Z) : run (list Z) :=
  if i <? 0 then OutOfBounds
  else match h_buf h !! Z.to_nat i with Some row => Done row | None => OutOfBounds end.

(** The last character of an escape sequence. *)
Definition history_key (ch : Z) (nch : nat) (s : rl) : run (nat * rl) :=
  let h := g_cmdhist s in
  if CONFIG_READLINE_CMD_HISTORY && (0 <? h_len h) then
    let h := mkHist (h_buf h) (h_head h) (move_offset ch h) (h_len h) in
    let s := clear_loop nch (set_hist h s) in
    if negb (h_offset h =? 1) then
      row ← hist_row h (hist_index h);
      '(nch, s) ← recall_loop row 0 s;
      s ← buf_put nch 0 s;
      Done (nch, s)
    else Done (0%nat, s)
  else Done (nch, s).

Definition save_history (nch : nat) (s : rl) : run rl :=
  if CONFIG_READLINE_CMD_HISTORY && (1 <=? nch)%nat then
    let h := g_cmdhist s in
    row ← hist_row h (h_head h);
    same ← strncmp_same (nch + 1) (rl_buf s) row;
    h ← (if negb same then
           let head := (h_head h + 1) mod Z.of_nat RL_CMDHIST_LEN in
           row ← hist_row h head;
           let d := take (Nat.min nch (RL_CMDHIST_LINELEN - 1)) (rl_buf s) in
           if (length d <? length row)%nat then
             Done (mkHist (<[Z.to_nat head := d ++ 0 :: drop (S (length d)) row]> (h_buf h)) head (h_offset h)
                     (if h_len h <? Z.of_nat RL_CMDHIST_LEN then h_len h + 1 else h_len h))
           else OutOfBounds
         else Done h);
    Done (set_hist (mkHist (h_buf h) (h_head h) 1 (h_len h)) s)
  else Done s.

(** ** The loop over characters *)

Definition rl_iscntrl (c : Z) : bool := (c <? 32) || (c =? 127).

(** A value to return, or the next values of [escape] and [nch]. *)
Definition readline_key (buflen : nat) (ch : Z) (escape : Z) (nch : nat) (s : rl) : run ((Z + Z * nat) * rl) :=
  if ch =? RL_EOF then
    if (0 <? nch)%nat then s ← buf_put nch 0 s; Done (inl (Z.of_nat nch), s)
    else Done (inl RL_EOF, s)
  else if negb (escape =? 0) then
    if negb (ch =? ASCII_LBRACKET) || (escape =? 2) then
      '(nch, s) ← history_key ch nch s; Done (inr (0, nch), s)
    else Done (inr (2, nch), s)
  else if (ch =? ASCII_BS) || (ch =? ASCII_DEL) then
    if (0 <? nch)%nat then Done (inr (escape, (nch - 1)%nat), echo_erase s)
    else Done (inr (escape, nch), s)
  else if ch =? ASCII_ESC then Done (inr (1, nch), s)
  else if ch =? 10 then
    s ← save_history nch s;
    s ← buf_put nch 10 s;
    s ← buf_put (nch + 1) 0 s;
    Done (inl (Z.of_nat (nch + 1)), s)
  else if negb (rl_iscntrl (Z.land ch 255)) then
    s ← buf_put nch ch s;
    let nch := (nch + 1)%nat in
    if (buflen <=? nch + 1)%nat then s ← buf_put nch 0 s; Done (inl (Z.of_nat nch), s)
    else Done (inr (escape, nch), s)
  else if CONFIG_READLINE_TABCOMPLETION && (ch =? 9) then
    '(nch, s) ← tab_completion buflen nch s; Done (inr (escape, nch), s)
  else Done (inr (escape, nch), s).

Fixpoint readline_loop (fuel buflen : nat) (escape : Z) (nch : nat) (s : rl) : run (Z * rl) :=
  match fuel with
  | O => OutOfFuel
  | S fuel =>
      let '(ch, s) := readline_getc s in
      '(r, s) ← readline_key buflen ch escape nch s;
      match r with
      | inl ret => Done (ret, s)
      | inr (escape, nch) => readline_loop fuel buflen escape nch s
      end
  end.

Definition readline_common (buflen : nat) (s : rl) : run (Z * rl) :=
  if (buflen <? 2)%nat then s ← buf_put 0 0 s; Done (0, s)
  else
    let s := if CONFIG_READLINE_ECHO then readline_write g_erasetoeol s else s in
    readline_loop (S (length (rl_in s))) buflen 0 0 s.

(** ** The interface *)

(** [buf] is what the caller's buffer holds; [rl_canon] is the ICANON flag of a terminal. *)
Definition readline_fd (buf : list Z) (buflen : nat) (outfd : Z) (s : rl) : run (Z * rl) :=
  let s := set_buf buf s in
  let cfg := default false (rl_canon s) in
  let s := if cfg then set_canon (Some false) s else s in
  let s := set_outfd outfd s in
  '(ret, s) ← readline_common buflen s;
  Done (ret, if cfg then set_canon (Some true) s else s).

Definition readline_stream := readline_fd.

(** The line that is returned; [block] is what [malloc] gave. *)
Definition readline (LINE_MAX : nat) (block : option (list Z)) (prompt : option (list Z)) (s : rl) :
    run (option (list Z) * rl) :=
  match block with
  | None => Done (None, s)
  | Some block =>
      let '(orig, s) := if CONFIG_READLINE_TABCOMPLETION then readline_prompt prompt s else (None, s) in
      '(ret, s) ← readline_fd block LINE_MAX 1 s;
      let line := if ret =? 0 then None else Some (rl_buf s) in
      Done (line, if CONFIG_READLINE_TABCOMPLETION then (readline_prompt orig s).2 else s)
  end.
End readline.
