(* ===== verification/ReadlineSpec.v ===== *)
(** * ReadlineSpec: the abstract line editor

    A line that is edited at its end, a history as a list with a position in it, and completion
    by the names that extend the line; and the lemmas that the code implements it on its buffer
    and its circular history. *)

From S2P Require Import Prelude Readline.
#[local] Open Scope Z_scope.

(** ** The abstract editor *)

(** The newest line first; position 0 is the line being entered. *)
Record ed_hist := mkEdHist { eh_lines : list (list Z); eh_pos : nat }.

Definition eh_top (h : ed_hist) : list Z := hd [] (eh_lines h).

Definition eh_recalled (h : ed_hist) : list Z :=
  match eh_pos h with O => [] | S k => nth k (eh_lines h) [] end.

(** What [a] and [b] have in common at their beginning. *)
Fixpoint common (a b : list Z) : list Z :=
  match a, b with
  | x :: a, y :: b => if x =? y then x :: common a b else []
  | _, _ => []
  end.

(** ... which is the longest beginning of both. *)
Lemma common_greatest a b : common a b `prefix_of` a /\ common a b `prefix_of` b /\
  forall c, c `prefix_of` a -> c `prefix_of` b -> c `prefix_of` common a b.
Proof.
  revert b. induction a as [|x a IH]; intros [|y b]; cbn [common]; try (by split; [apply prefix_nil|split; [apply prefix_nil|]]).
  destruct (Z.eqb_spec x y) as [->|Hne].
  - destruct (IH b) as (H1 & H2 & H3). split; [by apply prefix_cons|]. split; [by apply prefix_cons|].
    intros [|z c] Ha Hb; [apply prefix_nil|]. pose proof (prefix_cons_inv_1 _ _ _ _ Ha) as ->.
    apply prefix_cons, H3; by eapply prefix_cons_inv_2.
  - split; [apply prefix_nil|]. split; [apply prefix_nil|]. intros [|z c] Ha Hb; [done|].
    pose proof (prefix_cons_inv_1 _ _ _ _ Ha). pose proof (prefix_cons_inv_1 _ _ _ _ Hb). congruence.
Qed.

(** A name is not followed by a beginning of it. *)
Fixpoint names_ordered (ns : list (list Z)) : Prop :=
  match ns with
  | [] => True
  | n :: ns => Forall (fun m => m `prefix_of` n -> m = n) ns /\ names_ordered ns
  end.

Inductive ed_outcome := EdReturn (ret : Z) (line : list Z) | EdContinue (esc : Z) (line : list Z).

Section editor.
Context `{RlConfig}.

Definition eh_arrow (ch : Z) (h : ed_hist) : ed_hist :=
  mkEdHist (eh_lines h)
    (if ch =? 65 then Nat.min (S (eh_pos h)) (length (eh_lines h)) else if ch =? 66 then pred (eh_pos h) else eh_pos h).

(** A line is entered; only one that the newest line starts with can be left out. *)
Definition eh_enter (skip : bool) (line : list Z) (h : ed_hist) : ed_hist :=
  if negb CONFIG_READLINE_CMD_HISTORY || bool_decide (line = []) then h
  else
    mkEdHist (if skip && bool_decide (line `prefix_of` eh_top h) then eh_lines h
              else take RL_CMDHIST_LEN (take (RL_CMDHIST_LINELEN - 1) line :: eh_lines h)) 0.

(** The names that start with the line, up to the number that is kept. *)
Definition matching (line : list Z) : list (list Z) :=
  take CONFIG_READLINE_MAX_BUILTINS (filter (fun n => line `prefix_of` n) builtin_names).

(** A line is completed to the longest common beginning of the matching names. *)
Definition completed (line : list Z) : list Z :=
  match line, matching line with
  | [], _ | _, [] => line
  | _, n :: ns => foldl common n ns
  end.

Definition ed_key (skip : bool) (buflen : nat) (ch esc : Z) (line : list Z) (h : ed_hist) : ed_outcome * ed_hist :=
  if negb (esc =? 0) then
    if negb (ch =? ASCII_LBRACKET) || (esc =? 2) then
      if bool_decide (eh_lines h = []) then (EdContinue 0 line, h)
      else let h := eh_arrow ch h in (EdContinue 0 (eh_recalled h), h)
    else (EdContinue 2 line, h)
  else if (ch =? ASCII_BS) || (ch =? ASCII_DEL) then (EdContinue esc (removelast line), h)
  else if ch =? ASCII_ESC then (EdContinue 1 line, h)
  else if ch =? 10 then (EdReturn (zlen line + 1) (line ++ [10]), eh_enter skip line h)
  else if negb (rl_iscntrl ch) then
    if (buflen <=? length line + 2)%nat then (EdReturn (zlen line + 1) (line ++ [ch]), h)
    else (EdContinue esc (line ++ [ch]), h)
  else if CONFIG_READLINE_TABCOMPLETION && (ch =? 9) then (EdContinue esc (completed line), h)
  else (EdContinue esc line, h).

(** What was read ends: the characters so far are the line. *)
Definition ed_end (line : list Z) : Z := if bool_decide (line = []) then RL_EOF else zlen line.

Fixpoint edit (skip : bool) (buflen : nat) (esc : Z) (line : list Z) (h : ed_hist) (i : list rd) : Z * list Z * ed_hist * list rd :=
  match i with
  | [] => (ed_end line, line, h, [])
  | RdFail :: i => (ed_end line, line, h, i)
  | RdIntr :: i => edit skip buflen esc line h i
  | RdChar ch :: i =>
      match ed_key skip buflen ch esc line h with
      | (EdReturn ret line, h) => (ret, line, h, i)
      | (EdContinue esc line, h) => edit skip buflen esc line h i
      end
  end.

(** ** The relation between the two *)

Definition nonzero (l : list Z) : Prop := Forall (fun c => c <> 0) l.

(** A row of the history holds the string [t]. *)
Definition row_holds (row t : list Z) : Prop :=
  length row = RL_CMDHIST_LINELEN /\ nonzero t /\ exists junk, row = t ++ 0 :: junk.

(** The place of the [k]-th newest line. *)
Definition slot (h : cmdhist_s) (k : nat) : nat := Z.to_nat ((h_head h - Z.of_nat k) mod Z.of_nat RL_CMDHIST_LEN).

Record hist_ok (h : cmdhist_s) (e : ed_hist) : Prop := {
  ho_len : h_len h = Z.of_nat (length (eh_lines e));
  ho_cap : (length (eh_lines e) <= RL_CMDHIST_LEN)%nat;
  ho_rows : length (h_buf h) = RL_CMDHIST_LEN;
  ho_row_len : Forall (fun row => length row = RL_CMDHIST_LINELEN) (h_buf h);
  ho_head : 0 <= h_head h < Z.of_nat RL_CMDHIST_LEN;
  ho_pos : eh_lines e <> [] -> h_offset h = 1 - Z.of_nat (eh_pos e) /\ (eh_pos e <= length (eh_lines e))%nat;
  ho_lines : forall k, (k < Nat.max 1 (length (eh_lines e)))%nat ->
    exists row, h_buf h !! slot h k = Some row /\ row_holds row (nth k (eh_lines e) []) }.

(** Without the option there is no history. *)
Definition hist_sim (h : cmdhist_s) (e : ed_hist) : Prop :=
  if CONFIG_READLINE_CMD_HISTORY then hist_ok h e else eh_lines e = [].

(** The buffers are large enough: a line of the history and a name fit the caller's buffer with
    a character more, a name fits the buffer for the common part.  And no name is a beginning of an
    earlier one, as in an alphabetical order: the code does not cut the common part to such a name. *)
Record fits (buflen : nat) : Prop := {
  fits_buf : (2 <= buflen)%nat;
  fits_hist : CONFIG_READLINE_CMD_HISTORY = true ->
    (0 < RL_CMDHIST_LEN)%nat /\ (0 < RL_CMDHIST_LINELEN)%nat /\ (RL_CMDHIST_LINELEN + 1 <= buflen)%nat;
  fits_names : CONFIG_READLINE_TABCOMPLETION = true ->
    Forall (fun n => nonzero n /\ (length n <= CONFIG_TASK_NAME_SIZE)%nat /\ (length n + 2 <= buflen)%nat) builtin_names;
  fits_order : CONFIG_READLINE_TABCOMPLETION = true -> names_ordered builtin_names }.

(** The state while the line is edited. *)
Record editing (buflen : nat) (s : rl) (line : list Z) (h : ed_hist) : Prop := {
  ed_size : length (rl_buf s) = buflen;
  ed_room : (length line + 2 <= buflen)%nat;
  ed_nonzero : nonzero line;
  ed_mem : exists rest, rl_buf s = line ++ rest;
  ed_hist_sim : hist_sim (g_cmdhist s) h }.

(** What output leaves alone. *)
Record quiet_out (s s' : rl) : Prop := {
  qo_in : rl_in s' = rl_in s; qo_buf : rl_buf s' = rl_buf s; qo_hist : g_cmdhist s' = g_cmdhist s;
  qo_prompt : g_readline_prompt s' = g_readline_prompt s; qo_canon : rl_canon s' = rl_canon s }.

(** What an operation on buffer and history leaves alone. *)
Record quiet_in (s s' : rl) : Prop := {
  qi_in : rl_in s' = rl_in s; qi_prompt : g_readline_prompt s' = g_readline_prompt s; qi_canon : rl_canon s' = rl_canon s }.
End editor.
