(* ===== verification/ReadlineSim.v ===== *)
(** * ReadlineSim: the code implements the abstract editor

    Output leaves the editor's state alone; the history in its circular buffer is the list of the
    abstract editor; each key does what the abstract editor does. *)

From S2P Require Import Prelude Readline ReadlineSpec.
#[local] Open Scope Z_scope.

Section sim.
Context `{RlConfig}.

(** ** Output *)

Lemma quiet_out_refl s : quiet_out s s.
Proof using Type. by constructor. Qed.

Lemma quiet_out_trans s1 s2 s3 : quiet_out s1 s2 -> quiet_out s2 s3 -> quiet_out s1 s3.
Proof using Type. intros [] []. constructor; congruence. Qed.

Lemma quiet_in_trans s1 s2 s3 : quiet_in s1 s2 -> quiet_in s2 s3 -> quiet_in s1 s3.
Proof using Type. intros [] []. constructor; congruence. Qed.

Lemma quiet_out_in s s' : quiet_out s s' -> quiet_in s s'.
Proof using Type. intros []. by constructor. Qed.

Lemma putc_quiet c s : quiet_out s (readline_putc c s).
Proof using Type. unfold readline_putc. destruct (_ <? _); [apply quiet_out_refl|]. by destruct (putc_loop _). Qed.

Lemma write_quiet b s : quiet_out s (readline_write b s).
Proof using Type. unfold readline_write. destruct (_ <? _); [apply quiet_out_refl|]. by destruct (rl_wr s) as [|[] ?]. Qed.

Lemma put_string_quiet l s : quiet_out s (put_string l s).
Proof using Type.
  revert s. induction l as [|c l IH]; intros s; [apply quiet_out_refl|].
  eapply quiet_out_trans; [apply putc_quiet|apply IH].
Qed.

Lemma erase_quiet s : quiet_out s (echo_erase s).
Proof using Type.
  unfold echo_erase. destruct CONFIG_READLINE_ECHO; [|apply quiet_out_refl].
  eapply quiet_out_trans; [apply putc_quiet|apply write_quiet].
Qed.

Lemma clear_quiet n s : quiet_out s (clear_loop n s).
Proof using Type.
  revert s. induction n as [|n IH]; intros s; [apply quiet_out_refl|].
  eapply quiet_out_trans; [apply erase_quiet|apply IH].
Qed.

Lemma editing_quiet buflen s s' line h : editing buflen s line h -> quiet_out s s' -> editing buflen s' line h.
Proof using Type. intros [] [_ Q2 Q3 _ _]. constructor; rewrite ?Q2, ?Q3; done. Qed.

(** ** The line buffer *)

Lemma buf_put_at s i c : (i < length (rl_buf s))%nat -> buf_put i c s = Done (set_buf (<[i := c]> (rl_buf s)) s).
Proof using Type. intros Hi. unfold buf_put. by rewrite (proj2 (Nat.ltb_lt _ _) Hi). Qed.

Lemma insert_middle (pre rest : list Z) c d : <[length pre := c]> (pre ++ d :: rest) = pre ++ c :: rest.
Proof using Type. rewrite insert_app_r_alt, Nat.sub_diag by lia. done. Qed.

(** A character behind [pre]. *)
Lemma buf_put_end s pre rest c : rl_buf s = pre ++ rest -> rest <> [] ->
  exists s', buf_put (length pre) c s = Done s' /\ rl_buf s' = pre ++ c :: drop 1 rest /\ g_cmdhist s' = g_cmdhist s /\ quiet_in s s'.
Proof using Type.
  intros Hb Hne. destruct rest as [|d rest]; [done|]. rewrite buf_put_at by (rewrite Hb, length_app; simpl; lia).
  eexists. split; [reflexivity|]. rewrite Hb, insert_middle. done.
Qed.

(** A string behind [pre]. *)
Lemma complete_loop_runs t : forall s pre rest, rl_buf s = pre ++ rest -> (length t <= length rest)%nat ->
  exists s', complete_loop t (length pre) s = Done s' /\ rl_buf s' = pre ++ t ++ drop (length t) rest /\
    g_cmdhist s' = g_cmdhist s /\ quiet_in s s'.
Proof using Type.
  induction t as [|c t IH]; intros s pre rest Hb Hl; cbn [complete_loop]; [by exists s|].
  destruct rest as [|d rest]; [simpl in Hl; lia|].
  destruct (buf_put_end s pre (d :: rest) c Hb ltac:(done)) as (s1 & E1 & Hb1 & Hh1 & Hq1). rewrite E1. cbn [mbind run_bind].
  pose proof (putc_quiet c s1) as Hq. change (drop 1 (d :: rest)) with rest in Hb1.
  destruct (IH (readline_putc c s1) (pre ++ [c]) rest) as (s' & E & Hb' & Hh' & Hq').
  - rewrite (qo_buf _ _ Hq), Hb1, <- (assoc_L (++)). done.
  - simpl in Hl. lia.
  - rewrite length_app, Nat.add_1_r in E. exists s'. split; [done|]. split; [rewrite Hb', <- (assoc_L (++)); done|].
    split; [by rewrite Hh', (qo_hist _ _ Hq)|]. eapply quiet_in_trans; [done|]. eapply quiet_in_trans; [by apply quiet_out_in|done].
Qed.

Lemma recall_complete t junk : nonzero t -> forall n s,
  recall_loop (t ++ 0 :: junk) n s = (s ← complete_loop t n s; Done ((n + length t)%nat, s)).
Proof using Type.
  induction 1 as [|c t Hc _ IH]; intros n s; cbn [app recall_loop complete_loop]; [by rewrite Nat.add_0_r|].
  rewrite (proj2 (Z.eqb_neq c 0) Hc). destruct (buf_put n c s) as [s1| |]; cbn [mbind run_bind]; [|done|done].
  rewrite IH. by replace (S n + length t)%nat with (n + length (c :: t))%nat by (simpl; lia).
Qed.

(** ** Comparing strings *)

Lemma strncmp_prefix line rest name : nonzero line ->
  strncmp_same (length line) (line ++ rest) (name ++ [0]) = Done (bool_decide (line `prefix_of` name)).
Proof using Type.
  intros Hn. revert name. induction Hn as [|c line Hc _ IH]; intros name; cbn [length strncmp_same app].
  - by rewrite bool_decide_true by apply prefix_nil.
  - destruct name as [|d name]; cbn [app].
    + rewrite (proj2 (Z.eqb_neq c 0)) by done. cbn. rewrite bool_decide_false; [done|]. by apply prefix_nil_not.
    + destruct (Z.eqb_spec c d) as [->|Hd]; cbn [negb].
      * rewrite (proj2 (Z.eqb_neq d 0)), IH by done. f_equal. apply bool_decide_ext. split; [apply prefix_cons|apply prefix_cons_inv_2].
      * rewrite bool_decide_false; [done|]. intros Hp. by apply prefix_cons_inv_1 in Hp.
Qed.

(** Comparing the buffer with a row of the history reads both inside; equality makes the line
    the beginning of the row. *)
Lemma strncmp_row line rest t junk : nonzero line -> nonzero t -> rest <> [] ->
  exists b, strncmp_same (length line + 1) (line ++ rest) (t ++ 0 :: junk) = Done b /\ (b = true -> line `prefix_of` t).
Proof using Type.
  intros Hn Ht Hr. revert t Ht. induction Hn as [|c line Hc _ IH]; intros t Ht; cbn [length Nat.add app].
  - destruct rest as [|x rest]; [done|]. cbn [strncmp_same]. destruct t as [|y t]; cbn [app].
    + destruct (x =? 0); cbn; eexists; (split; [reflexivity|]); intros _; apply prefix_nil.
    + destruct (x =? y); cbn; [destruct (x =? 0)|]; eexists; (split; [reflexivity|]); intros _; apply prefix_nil.
  - cbn [strncmp_same]. destruct t as [|y t]; cbn [app].
    + rewrite (proj2 (Z.eqb_neq c 0)) by done. cbn [negb]. by exists false.
    + destruct (Z.eqb_spec c y) as [->|Hd]; cbn [negb]; [|by exists false]. rewrite (proj2 (Z.eqb_neq y 0)) by done.
      apply Forall_cons_1 in Ht as [_ Ht]. destruct (IH t Ht) as (b & E & Hb). exists b. split; [done|]. intros Hbt. by apply prefix_cons, Hb.
Qed.

(** ** The history *)

Lemma move_offset_arrow h e ch : hist_ok h e -> eh_lines e <> [] -> move_offset ch h = 1 - Z.of_nat (eh_pos (eh_arrow ch e)).
Proof using Type.
  intros Hok Hne. destruct (ho_pos _ _ Hok Hne) as [Ho Hp]. unfold move_offset, eh_arrow. rewrite (ho_len _ _ Hok), Ho. cbn [eh_pos].
  destruct (eh_lines e) as [|x l]; [done|]. cbn [length] in *. destruct (ch =? 65); [|destruct (ch =? 66); [|done]].
  - destruct (Z.leb_spec (Z.of_nat (S (length l))) (- (1 - Z.of_nat (eh_pos e) - 1))); lia.
  - destruct (Z.ltb_spec 1 (1 - Z.of_nat (eh_pos e) + 1)); lia.
Qed.

Lemma arrow_ok h e ch : hist_ok h e -> eh_lines e <> [] ->
  hist_ok (mkHist (h_buf h) (h_head h) (move_offset ch h) (h_len h)) (eh_arrow ch e).
Proof using Type.
  intros Hok Hne. pose proof (move_offset_arrow h e ch Hok Hne) as Hm. destruct (ho_pos _ _ Hok Hne) as [_ Hp].
  destruct Hok as [Hl Hc Hr Hrl Hh _ Hls]. constructor; cbn [eh_arrow eh_lines h_len h_buf h_head h_offset]; try done.
  intros _. split; [exact Hm|]. cbn [eh_arrow eh_pos]. destruct (ch =? 65); [lia|]. destruct (ch =? 66); lia.
Qed.

Lemma slot_index h e k : hist_ok h e -> (S k <= length (eh_lines e))%nat -> h_offset h = 1 - Z.of_nat (S k) ->
  hist_index h = Z.of_nat (slot h k).
Proof using Type.
  intros Hok Hk Ho. pose proof (ho_head _ _ Hok) as Hh. pose proof (ho_cap _ _ Hok) as Hc.
  unfold hist_index, slot. rewrite Ho. rewrite Z2Nat.id by (apply Z.mod_pos_bound; lia).
  replace (h_head h + (1 - Z.of_nat (S k))) with (h_head h - Z.of_nat k) by lia.
  destruct (Z.ltb_spec (h_head h - Z.of_nat k) 0).
  - rewrite <- (Z.mod_add _ 1), Z.mul_1_l, Z.mod_small by lia. done.
  - destruct (Z.leb_spec (Z.of_nat RL_CMDHIST_LEN) (h_head h - Z.of_nat k)); [lia|]. by rewrite Z.mod_small by lia.
Qed.

Lemma row_at h i row : h_buf h !! i = Some row -> hist_row h (Z.of_nat i) = Done row.
Proof using Type. intros Hi. unfold hist_row. destruct (Z.ltb_spec (Z.of_nat i) 0); [lia|]. by rewrite Nat2Z.id, Hi. Qed.

Definition after_arrow (ch : Z) (line : list Z) (h : ed_hist) : list Z * ed_hist :=
  if bool_decide (eh_lines h = []) then (line, h) else (eh_recalled (eh_arrow ch h), eh_arrow ch h).

(** The line of the history at the position is copied to the buffer. *)
Lemma recall_runs buflen s h e k : fits buflen -> CONFIG_READLINE_CMD_HISTORY = true -> hist_ok h e -> g_cmdhist s = h ->
  length (rl_buf s) = buflen -> eh_pos e = S k -> eh_lines e <> [] ->
  exists s', (row ← hist_row h (hist_index h); '(nch, s) ← recall_loop row 0 s; s ← buf_put nch 0 s; Done (nch, s)) =
      Done (length (eh_recalled e), s') /\ editing buflen s' (eh_recalled e) e /\ quiet_in s s'.
Proof using Type.
  intros Hf Hh Hok Hg Hlen Hk Hne. destruct (ho_pos _ _ Hok Hne) as [Ho Hp]. rewrite Hk in Ho, Hp.
  rewrite (slot_index h e k Hok Hp Ho). destruct (ho_lines _ _ Hok k ltac:(lia)) as (row & Hrow & Hrl & Hnz & junk & Ej).
  rewrite (row_at _ _ _ Hrow). cbn [mbind run_bind]. unfold eh_recalled. rewrite Hk. set (t := nth k (eh_lines e) []) in *.
  destruct (fits_hist _ Hf Hh) as (_ & _ & Hb). assert (length t + 1 <= RL_CMDHIST_LINELEN)%nat as Ht by (rewrite <- Hrl, Ej, length_app; simpl; lia).
  rewrite Ej, recall_complete by done. destruct (complete_loop_runs t s [] (rl_buf s) eq_refl ltac:(lia)) as (s1 & E1 & Hb1 & Hh1 & Hq1).
  cbn [length] in E1. rewrite E1. cbn [mbind run_bind Nat.add app] in *.
  destruct (buf_put_end s1 t (drop (length t) (rl_buf s)) 0 Hb1) as (s2 & E2 & Hb2 & Hh2 & Hq2).
  { intros En. apply (f_equal length) in En. rewrite length_drop in En. simpl in En. lia. }
  rewrite E2. cbn [mbind run_bind]. exists s2. split; [done|]. split; [|by eapply quiet_in_trans].
  constructor; [|lia|done|by eexists|].
  - rewrite Hb2, length_app. cbn [length]. rewrite !length_drop. lia.
  - unfold hist_sim. by rewrite Hh, Hh2, Hh1, Hg.
Qed.

Lemma history_key_runs buflen s line h ch : fits buflen -> editing buflen s line h ->
  exists s', history_key ch (length line) s = Done (length (after_arrow ch line h).1, s') /\
    editing buflen s' (after_arrow ch line h).1 (after_arrow ch line h).2 /\ quiet_in s s'.
Proof using Type.
  intros Hf He. pose proof (ed_hist_sim _ _ _ _ He) as Hs. unfold history_key, after_arrow, hist_sim in *.
  destruct CONFIG_READLINE_CMD_HISTORY eqn:Hh; [|rewrite bool_decide_true by done; by exists s].
  cbn [andb]. destruct (decide (eh_lines h = [])) as [E|Hne].
  { rewrite bool_decide_true by done. rewrite (ho_len _ _ Hs), E. cbn. by exists s. }
  rewrite bool_decide_false by done.
  replace (0 <? h_len (g_cmdhist s)) with true by (rewrite (ho_len _ _ Hs); destruct (eh_lines h); done).
  pose proof (arrow_ok _ _ ch Hs Hne) as Hok. set (h' := mkHist _ _ _ _) in *. cbn [fst snd].
  set (s0 := set_hist h' s). pose proof (clear_quiet (length line) s0) as Hq. set (s1 := clear_loop (length line) s0) in *.
  assert (quiet_in s s1) as Hqi by (eapply quiet_in_trans; [|by apply quiet_out_in]; done).
  assert (length (rl_buf s1) = buflen) as Hl1 by (rewrite (qo_buf _ _ Hq); apply He).
  assert (g_cmdhist s1 = h') as Hg1 by apply Hq.
  destruct (eh_pos (eh_arrow ch h)) as [|k] eqn:Hk.
  - pose proof (proj1 (ho_pos _ _ Hok Hne)) as Ho. rewrite Hk in Ho. replace (h_offset h' =? 1) with true by (symmetry; apply Z.eqb_eq; rewrite Ho; lia).
    cbn [negb]. unfold eh_recalled. rewrite Hk. exists s1. split; [done|]. split; [|done].
    constructor; [done|apply Hf|constructor|by eexists|]. unfold hist_sim. by rewrite Hh, Hg1.
  - pose proof (proj1 (ho_pos _ _ Hok Hne)) as Ho. rewrite Hk in Ho. replace (h_offset h' =? 1) with false by (symmetry; apply Z.eqb_neq; rewrite Ho; lia).
    cbn [negb]. destruct (recall_runs buflen s1 h' (eh_arrow ch h) k Hf Hh Hok Hg1 Hl1 Hk Hne) as (s' & E & He' & Hq').
    exists s'. split; [exact E|]. split; [done|]. by eapply quiet_in_trans.
Qed.

Lemma slot_lt h k : (0 < RL_CMDHIST_LEN)%nat -> (slot h k < RL_CMDHIST_LEN)%nat.
Proof using Type. intros HN. unfold slot. pose proof (Z.mod_pos_bound (h_head h - Z.of_nat k) (Z.of_nat RL_CMDHIST_LEN)). lia. Qed.

Lemma slot_zero h e : hist_ok h e -> Z.of_nat (slot h 0) = h_head h.
Proof using Type. intros Hok. pose proof (ho_head _ _ Hok). unfold slot. rewrite Z.sub_0_r, Z.mod_small by lia. lia. Qed.

(** The slots seen from the next head. *)
Lemma slot_next h h' k : (0 < RL_CMDHIST_LEN)%nat -> h_head h' = (h_head h + 1) mod Z.of_nat RL_CMDHIST_LEN -> slot h' (S k) = slot h k.
Proof using Type.
  intros HN Hh. unfold slot. rewrite Hh, Nat2Z.inj_succ, Zminus_mod_idemp_l. f_equal. f_equal. lia.
Qed.

Lemma slot_other h k : (0 < RL_CMDHIST_LEN)%nat -> 0 <= h_head h < Z.of_nat RL_CMDHIST_LEN -> (0 < k < RL_CMDHIST_LEN)%nat ->
  slot h k <> Z.to_nat (h_head h).
Proof using Type.
  intros HN Hh Hk. unfold slot. destruct (Z.ltb_spec (h_head h - Z.of_nat k) 0).
  - rewrite <- (Z.mod_add _ 1), Z.mul_1_l, Z.mod_small by lia. lia.
  - rewrite Z.mod_small by lia. lia.
Qed.

(** A line is stored behind the head. *)
Lemma push_ok h e t row : (0 < RL_CMDHIST_LEN)%nat -> hist_ok h e -> nonzero t -> (length t < RL_CMDHIST_LINELEN)%nat ->
  let head := (h_head h + 1) mod Z.of_nat RL_CMDHIST_LEN in h_buf h !! Z.to_nat head = Some row ->
  hist_ok (mkHist (<[Z.to_nat head := t ++ 0 :: drop (S (length t)) row]> (h_buf h)) head 1
             (if h_len h <? Z.of_nat RL_CMDHIST_LEN then h_len h + 1 else h_len h))
    (mkEdHist (take RL_CMDHIST_LEN (t :: eh_lines e)) 0).
Proof using Type.
  intros HN Hok Ht Hlt head Hrow. pose proof (ho_cap _ _ Hok) as Hc. assert (0 < Z.of_nat RL_CMDHIST_LEN) as HNz by lia.
  pose proof (Z.mod_pos_bound (h_head h + 1) _ HNz) as Hm.
  fold head in Hm. assert (length row = RL_CMDHIST_LINELEN) as Hrl by (by eapply (Forall_lookup_1 _ _ _ _ (ho_row_len _ _ Hok) Hrow)).
  assert (length (t ++ 0 :: drop (S (length t)) row) = RL_CMDHIST_LINELEN) as Hnl by (rewrite length_app; cbn [length]; rewrite length_drop; lia).
  constructor; cbn [h_len h_buf h_head h_offset eh_lines eh_pos].
  - rewrite length_take. cbn [length]. rewrite (ho_len _ _ Hok). destruct (Z.ltb_spec (Z.of_nat (length (eh_lines e))) (Z.of_nat RL_CMDHIST_LEN)); lia.
  - rewrite length_take. lia.
  - rewrite length_insert. apply Hok.
  - apply Forall_insert; [apply Hok|done].
  - done.
  - intros _. split; [lia|]. lia.
  - intros k Hk. rewrite length_take in Hk. cbn [length] in Hk. assert (k < RL_CMDHIST_LEN)%nat as HkN by lia.
    destruct k as [|k].
    + eexists. split.
      * unfold slot. cbn [h_head]. rewrite Z.sub_0_r, Z.mod_small by done. apply list_lookup_insert_eq. rewrite (ho_rows _ _ Hok). lia.
      * destruct RL_CMDHIST_LEN; [lia|]. cbn [take nth]. split; [done|]. split; [done|]. by eexists.
    + destruct (ho_lines _ _ Hok k ltac:(lia)) as (r & Hr & Hrh). exists r. split.
      * rewrite list_lookup_insert_ne by (apply not_eq_sym, slot_other; [done|done|lia]). rewrite (slot_next h) by done. done.
      * replace (nth (S k) (take RL_CMDHIST_LEN (t :: eh_lines e)) []) with (nth k (eh_lines e) []); [done|].
        destruct RL_CMDHIST_LEN as [|N']; [lia|]. cbn [take nth].
        rewrite !nth_lookup. f_equal. symmetry. apply lookup_take_lt. lia.
Qed.

Lemma save_history_runs buflen s line h : fits buflen -> editing buflen s line h ->
  exists skip s', save_history (length line) s = Done s' /\ rl_buf s' = rl_buf s /\
    hist_sim (g_cmdhist s') (eh_enter skip line h) /\ quiet_in s s'.
Proof using Type.
  intros Hf [Hsz Hroom Hnz [rest Hb] Hs]. unfold save_history, eh_enter, hist_sim in *.
  destruct CONFIG_READLINE_CMD_HISTORY eqn:Hh; cbn [andb negb orb]; [|by exists false, s].
  destruct (fits_hist _ Hf Hh) as (HN & HL & _). destruct (decide (line = [])) as [->|Hne].
  { rewrite bool_decide_true by done. by exists false, s. }
  rewrite bool_decide_false by done. rewrite (proj2 (Nat.leb_le 1 (length line))) by (destruct line; [done|simpl; lia]).
  destruct (ho_lines _ _ Hs 0%nat ltac:(lia)) as (row & Hrow & Hrl & Htz & junk & Ej).
  rewrite <- (slot_zero _ _ Hs), (row_at _ _ _ Hrow). cbn [mbind run_bind]. rewrite Ej, Hb.
  destruct (strncmp_row line rest (nth 0 (eh_lines h) []) junk Hnz Htz) as (b & E & Hp).
  { intros ->. rewrite app_nil_r in Hb. rewrite Hb in Hsz. lia. }
  rewrite E. cbn [mbind run_bind]. assert (eh_top h = nth 0 (eh_lines h) []) as Etop by (unfold eh_top; by destruct (eh_lines h)).
  destruct b; cbn [negb].
  - eexists true, _. split; [reflexivity|]. split; [done|]. split; [|done]. cbn [set_hist g_cmdhist mbind run_bind andb].
    rewrite Etop, bool_decide_true by by apply Hp. destruct Hs as [h1 h2 h3 h4 h5 _ h7].
    constructor; cbn [eh_lines eh_pos h_len h_buf h_head h_offset]; try done. intros _. split; [lia|lia].
  - rewrite (slot_zero _ _ Hs). set (head := (h_head (g_cmdhist s) + 1) mod Z.of_nat RL_CMDHIST_LEN).
    assert (0 < Z.of_nat RL_CMDHIST_LEN) as HNz by lia. pose proof (Z.mod_pos_bound (h_head (g_cmdhist s) + 1) _ HNz) as Hm. fold head in Hm.
    destruct (lookup_lt_is_Some_2 (h_buf (g_cmdhist s)) (Z.to_nat head)) as [row' Hrow']; [rewrite (ho_rows _ _ Hs); lia|].
    pose proof (row_at _ _ _ Hrow') as Er. rewrite Z2Nat.id in Er by lia. rewrite Er. cbn [mbind run_bind].
    replace (take (Nat.min (length line) (RL_CMDHIST_LINELEN - 1)) (line ++ rest)) with (take (RL_CMDHIST_LINELEN - 1) line)
      by (rewrite Nat.min_comm, <- take_take, take_app_length; done).
    assert (length row' = RL_CMDHIST_LINELEN) as Hrl' by (by eapply (Forall_lookup_1 _ _ _ _ (ho_row_len _ _ Hs) Hrow')).
    set (t := take (RL_CMDHIST_LINELEN - 1) line). assert (length t < RL_CMDHIST_LINELEN)%nat as Ht by (unfold t; rewrite length_take; lia).
    rewrite Hrl', (proj2 (Nat.ltb_lt _ _) Ht). cbn [mbind run_bind h_buf h_head h_len].
    eexists false, _. split; [reflexivity|]. split; [done|]. split; [|done].
    cbn [set_hist g_cmdhist andb]. apply push_ok; try done. by apply Forall_take.
Qed.
End sim.
