(* ===== verification/ReadlineTab.v ===== *)
(** * ReadlineTab: tab completion implements the abstract editor's *)

From S2P Require Import Prelude Readline ReadlineSpec ReadlineSim.
#[local] Open Scope Z_scope.

Section tab.
Context `{RlConfig}.

(** ** The names that match *)

Definition named (i : nat) (n : list Z) : Prop := builtin_names !! i = Some n.

Lemma count_loop_runs line rest : nonzero line -> forall names i matches, drop i builtin_names = names ->
  (length matches < CONFIG_READLINE_MAX_BUILTINS)%nat ->
  exists ms, count_loop names i (line ++ rest) (length line) matches = Done (matches ++ ms) /\
    Forall2 named ms (take (CONFIG_READLINE_MAX_BUILTINS - length matches) (filter (fun n => line `prefix_of` n) names)).
Proof using Type.
  intros Hn names. induction names as [|n names IH]; intros i matches Hd Hm; cbn [count_loop].
  - exists []. rewrite app_nil_r. split; [done|]. rewrite filter_nil, take_nil. constructor.
  - rewrite strncmp_prefix by done. cbn [mbind run_bind].
    assert (named i n) as Hi by (unfold named; rewrite <- (take_drop i builtin_names), Hd, lookup_app_r, length_take by (rewrite length_take; lia);
      assert (i < length builtin_names)%nat by (apply (f_equal length) in Hd; rewrite length_drop in Hd; simpl in Hd; lia);
      by replace (i - Nat.min i (length builtin_names))%nat with O by lia).
    assert (drop (S i) builtin_names = names) as Hd' by (rewrite <- Nat.add_1_r, <- drop_drop, Hd; done).
    rewrite filter_cons. destruct (decide (line `prefix_of` n)) as [Hp|Hp].
    + rewrite bool_decide_true, (proj2 (Nat.ltb_lt _ _) Hm), length_app by done. cbn [length].
      destruct (Nat.leb_spec CONFIG_READLINE_MAX_BUILTINS (length matches + 1)) as [Hle|Hlt].
      * exists [i]. split; [done|]. replace (CONFIG_READLINE_MAX_BUILTINS - length matches)%nat with 1%nat by lia. cbn [take]. by repeat constructor.
      * destruct (IH (S i) (matches ++ [i]) Hd') as (ms & E & Hms); [rewrite length_app; simpl; lia|]. exists (i :: ms).
        rewrite E, <- (assoc_L (++)). split; [done|]. rewrite length_app in Hms. cbn [length] in Hms.
        replace (CONFIG_READLINE_MAX_BUILTINS - length matches)%nat with (S (CONFIG_READLINE_MAX_BUILTINS - (length matches + 1))) by lia. by constructor.
    + rewrite bool_decide_false by done. by apply IH.
Qed.

Lemma count_runs line rest : nonzero line ->
  exists ms, count_builtin_matches (line ++ rest) (length line) = Done ms /\ Forall2 named ms (matching line).
Proof using Type.
  intros Hn. unfold count_builtin_matches, matching. destruct (Nat.ltb_spec 0 CONFIG_READLINE_MAX_BUILTINS) as [Hm|Hm].
  - destruct (count_loop_runs line rest Hn builtin_names 0 [] eq_refl Hm) as (ms & E & Hms). rewrite E. exists ms.
    split; [done|]. cbn [length] in Hms. by rewrite Nat.sub_0_r in Hms.
  - exists []. split; [done|]. replace CONFIG_READLINE_MAX_BUILTINS with O by lia. constructor.
Qed.

(** ** The common part *)

(** What the code leaves of [a] when it compares it with [b]: [a] up to its first difference from
    [b], and all of it when [b] ends before that. *)
Fixpoint meet (a b : list Z) : list Z :=
  match a, b with
  | [], _ => []
  | _, [] => a
  | x :: a, y :: b => if x =? y then x :: meet a b else []
  end.

Lemma common_keep name : forall j pre junk s, (length pre <= j)%nat ->
  exists junk' s', common_loop name j (pre ++ junk) s = Done (pre ++ junk', s') /\ length junk' = length junk /\ quiet_out s s'.
Proof using Type.
  induction name as [|c name IH]; intros j pre junk s Hj; cbn [common_loop].
  - exists junk, s. split; [done|]. split; [done|apply quiet_out_refl].
  - set (tmp := match (pre ++ junk) !! j with Some d => if negb (c =? d) then <[j := 0]> (pre ++ junk) else pre ++ junk | None => pre ++ junk end).
    assert (exists junk1, tmp = pre ++ junk1 /\ length junk1 = length junk) as (junk1 & E1 & L1).
    { unfold tmp. destruct ((pre ++ junk) !! j); [destruct (negb _)|]; [|by exists junk|by exists junk].
      exists (<[(j - length pre)%nat := 0]> junk). rewrite insert_app_r_alt, length_insert by done. done. }
    destruct (IH (S j) pre junk1 (readline_putc c s) ltac:(lia)) as (junk' & s' & E & L & Hq). rewrite <- E1 in E. exists junk', s'.
    split; [|split; [congruence|eapply quiet_out_trans; [apply putc_quiet|done]]].
    rewrite <- E. unfold tmp. by destruct ((pre ++ junk) !! j).
Qed.

Lemma lookup_mid (pre : list Z) x l : (pre ++ x :: l) !! length pre = Some x.
Proof using Type. by rewrite lookup_app_r, Nat.sub_diag by lia. Qed.

Lemma common_runs name : nonzero name -> forall t pre junk s,
  exists junk' s', common_loop name (length pre) (pre ++ t ++ 0 :: junk) s = Done (pre ++ meet t name ++ 0 :: junk', s') /\
    length (pre ++ meet t name ++ 0 :: junk') = length (pre ++ t ++ 0 :: junk) /\ quiet_out s s'.
Proof using Type.
  induction 1 as [|c name Hc _ IH]; intros t pre junk s; cbn [common_loop].
  { exists junk, s. replace (meet t []) with t by (by destruct t). split; [done|]. split; [done|apply quiet_out_refl]. }
  assert (forall x l s0, exists junk' s', common_loop name (S (length pre)) (pre ++ 0 :: l) (readline_putc c s0) = Done (pre ++ 0 :: junk', s') /\
    length (pre ++ 0 :: junk') = length (pre ++ x :: l) /\ quiet_out s0 s') as Hcut.
  { intros x l s0. destruct (common_keep name (S (length pre)) (pre ++ [0]) l (readline_putc c s0)) as (junk' & s' & E & L & Hq); [rewrite length_app; simpl; lia|].
    rewrite <- !(assoc_L (++)) in E. exists junk', s'. split; [done|]. rewrite !length_app. cbn [length]. split; [lia|].
    eapply quiet_out_trans; [apply putc_quiet|done]. }
  destruct t as [|x t]; cbn [app meet]; rewrite lookup_mid.
  - rewrite (proj2 (Z.eqb_neq c 0)) by done. cbn [negb]. rewrite insert_middle. apply Hcut.
  - rewrite (Z.eqb_sym x c). destruct (Z.eqb_spec c x) as [->|Hx]; cbn [negb].
    + destruct (IH t (pre ++ [x]) junk (readline_putc x s)) as (junk' & s' & E & L & Hq). rewrite length_app, Nat.add_1_r, <- !(assoc_L (++)) in E.
      rewrite <- !(assoc_L (++)) in L. exists junk', s'. split; [done|]. split; [done|]. eapply quiet_out_trans; [apply putc_quiet|done].
    + rewrite insert_middle. apply Hcut.
Qed.

Lemma meet_self l : meet l l = l.
Proof using Type. induction l as [|x l IH]; [done|]. cbn [meet]. by rewrite Z.eqb_refl, IH. Qed.

Lemma meet_prefix l a b : l `prefix_of` a -> l `prefix_of` b -> l `prefix_of` meet a b.
Proof using Type.
  intros [a' ->] [b' ->]. induction l as [|x l IH]; [apply prefix_nil|]. cbn [app meet]. rewrite Z.eqb_refl. by apply prefix_cons.
Qed.

Lemma meet_sub a b : meet a b `prefix_of` a.
Proof using Type.
  revert b. induction a as [|x a IH]; intros b; [by destruct b|]. destruct b as [|y b]; [done|]. cbn [meet].
  destruct (x =? y); [by apply prefix_cons|apply prefix_nil].
Qed.

Lemma folded_meet line ns : forall n, line `prefix_of` n -> Forall (fun n => line `prefix_of` n) ns ->
  line `prefix_of` foldl meet n ns /\ foldl meet n ns `prefix_of` n.
Proof using Type.
  induction ns as [|m ns IH]; intros n Hn Hns; [done|]. apply Forall_cons_1 in Hns as [Hm Hns]. cbn [foldl].
  destruct (IH (meet n m) (meet_prefix _ _ _ Hn Hm) Hns) as [H1 H2]. split; [done|]. etrans; [exact H2|apply meet_sub].
Qed.

(** Without names that are beginnings of earlier ones this is the common part. *)
Lemma meet_common a b : (b `prefix_of` a -> b = a) -> meet a b = common a b.
Proof using Type.
  revert b. induction a as [|x a IH]; intros b Hb; [by destruct b|]. destruct b as [|y b]; [by specialize (Hb (prefix_nil _))|].
  cbn [meet common]. destruct (Z.eqb_spec x y) as [->|]; [|done]. f_equal. apply IH. intros Hp.
  specialize (Hb (prefix_cons _ _ _ Hp)). by injection Hb.
Qed.

Lemma folded_common ns : forall n t, t `prefix_of` n -> Forall (fun m => m `prefix_of` n -> m = n) ns ->
  foldl meet t ns = foldl common t ns.
Proof using Type.
  induction ns as [|m ns IH]; intros n t Ht Hns; [done|]. apply Forall_cons_1 in Hns as [Hm Hns]. cbn [foldl].
  rewrite <- (meet_common t m).
  - apply (IH n); [|done]. etrans; [apply meet_sub|done].
  - intros Hp. apply prefix_length_eq; [done|]. rewrite (Hm (transitivity Hp Ht)). by apply prefix_length.
Qed.

Lemma ordered_filter (P : list Z -> Prop) `{!forall n, Decision (P n)} ns : names_ordered ns -> names_ordered (filter P ns).
Proof using Type.
  induction ns as [|n ns IH]; [done|]. intros [Hn Hns]. rewrite filter_cons. destruct (decide (P n)); [|by apply IH].
  split; [|by apply IH]. apply Forall_forall. intros m Hm. apply list_elem_of_In, list_elem_of_filter in Hm as [_ Hm].
  apply list_elem_of_In in Hm. by apply (proj1 (Forall_forall _ _) Hn).
Qed.

Lemma ordered_take k ns : names_ordered ns -> names_ordered (take k ns).
Proof using Type.
  revert k. induction ns as [|n ns IH]; intros [|k]; [done..|]. intros [Hn Hns]. split; [by apply Forall_take|by apply IH].
Qed.

Lemma matching_common buflen line n ns : fits buflen -> CONFIG_READLINE_TABCOMPLETION = true ->
  matching line = n :: ns -> foldl common n ns = foldl meet n ns.
Proof using Type.
  intros Hf Ht Em. assert (names_ordered (n :: ns)) as [Hn _] by (rewrite <- Em; by apply ordered_take, ordered_filter, (fits_order buflen)).
  symmetry. by apply (folded_common ns n).
Qed.

Definition name_ok (n : list Z) : Prop := nonzero n /\ (length n <= CONFIG_TASK_NAME_SIZE)%nat.

Lemma getname_runs i n : named i n -> builtin_getname i = Done n.
Proof using Type. unfold named, builtin_getname. by intros ->. Qed.

Lemma rl_string_runs t junk : nonzero t -> rl_string (t ++ 0 :: junk) = Done t.
Proof using Type.
  induction 1 as [|c t Hc _ IH]; [done|]. cbn [app rl_string]. rewrite (proj2 (Z.eqb_neq c 0) Hc), IH. done.
Qed.

Lemma strlcpy_fits dst src size : length dst = size -> (length src < size)%nat ->
  rl_strlcpy dst src size = Done (src ++ 0 :: drop (S (length src)) dst).
Proof using Type.
  intros Hl Hs. unfold rl_strlcpy. rewrite (proj2 (Nat.ltb_ge _ _)) by lia. rewrite (proj2 (Nat.eqb_neq size 0)), take_ge by lia. done.
Qed.

(** The loop over the matches, once the buffer holds the first name or what is left of it. *)
Lemma show_matches_runs line ms ns : line <> [] -> Forall2 named ms ns ->
  Forall (fun n => name_ok n /\ line `prefix_of` n) ns -> forall t junk s, line `prefix_of` t -> nonzero t ->
  exists junk' s', show_matches ms (t ++ 0 :: junk) s = Done (foldl meet t ns ++ 0 :: junk', s') /\
    length (foldl meet t ns ++ 0 :: junk') = length (t ++ 0 :: junk) /\ quiet_out s s'.
Proof using Type.
  intros Hne Hms. induction Hms as [|i n ms ns Hi _ IH]; intros Hns t junk s Hp Hz; cbn [show_matches foldl].
  { exists junk, s. split; [done|]. split; [done|apply quiet_out_refl]. }
  apply Forall_cons_1 in Hns as [[[Hnz _] Hnp] Hns]. rewrite (getname_runs i n Hi). cbn [mbind run_bind].
  replace (default 0 ((t ++ 0 :: junk) !! 0%nat) =? 0) with false.
  2: { destruct Hp as [r ->]. destruct line as [|c line]; [done|]. apply Forall_cons_1 in Hz as [Hz _]. symmetry. by apply Z.eqb_neq. }
  cbn [mbind run_bind]. destruct (common_runs n Hnz t [] junk (readline_putc 32 (readline_putc 32 s))) as (junk1 & s1 & E1 & L1 & Q1).
  cbn [length app] in E1, L1. rewrite E1. cbn [mbind run_bind].
  destruct (IH Hns (meet t n) junk1 (readline_putc 10 s1)) as (junk' & s' & E & L & Q).
  - by apply meet_prefix.
  - destruct (meet_sub t n) as [r Hr]. unfold nonzero in Hz. rewrite Hr in Hz. by apply Forall_app in Hz as [Hz _].
  - exists junk', s'. split; [done|]. split; [congruence|]. eapply quiet_out_trans; [|exact Q].
    eapply quiet_out_trans; [|apply putc_quiet]. eapply quiet_out_trans; [|exact Q1]. eapply quiet_out_trans; apply putc_quiet.
Qed.

Lemma show_all_runs line i ms n ns s : line <> [] -> Forall2 named (i :: ms) (n :: ns) ->
  Forall (fun n => name_ok n /\ line `prefix_of` n) (n :: ns) ->
  exists junk' s', show_matches (i :: ms) (replicate (S CONFIG_TASK_NAME_SIZE) 0) s = Done (foldl meet n ns ++ 0 :: junk', s') /\ quiet_out s s'.
Proof using Type.
  intros Hne Hms Hns. apply Forall2_cons_1 in Hms as [Hi Hms]. pose proof (Forall_cons_1 _ _ _ Hns) as [[[Hnz Hnl] Hnp] Hns'].
  assert (length (replicate (S CONFIG_TASK_NAME_SIZE) 0) = S CONFIG_TASK_NAME_SIZE) as Hzl by apply length_replicate.
  assert (default 0 (replicate (S CONFIG_TASK_NAME_SIZE) 0 !! 0%nat) =? 0 = true) as Hz0 by done.
  generalize dependent (replicate (S CONFIG_TASK_NAME_SIZE) 0). intros z Hzl Hz0.
  cbn [show_matches]. rewrite (getname_runs i n Hi). cbn [mbind run_bind]. rewrite Hz0, strlcpy_fits by lia. cbn [mbind run_bind].
  set (junk := drop (S (length n)) z).
  destruct (common_runs n Hnz n [] junk (readline_putc 32 (readline_putc 32 s))) as (junk1 & s1 & E1 & L1 & Q1).
  cbn [length app] in E1, L1. rewrite E1, meet_self. cbn [mbind run_bind].
  destruct (show_matches_runs line ms ns Hne Hms Hns' n junk1 (readline_putc 10 s1) Hnp Hnz) as (junk' & s' & E & _ & Q).
  exists junk', s'. split; [done|]. eapply quiet_out_trans; [|exact Q]. eapply quiet_out_trans; [|apply putc_quiet].
  eapply quiet_out_trans; [|exact Q1]. eapply quiet_out_trans; apply putc_quiet.
Qed.

(** ** Completion *)

Lemma matching_ok buflen line : fits buflen -> CONFIG_READLINE_TABCOMPLETION = true ->
  Forall (fun n => (name_ok n /\ line `prefix_of` n) /\ (length n + 2 <= buflen)%nat) (matching line).
Proof using Type.
  intros Hf Ht. unfold matching. apply Forall_take. apply Forall_forall. intros n Hn. apply list_elem_of_In, list_elem_of_filter in Hn as [Hp Hin]. apply list_elem_of_In in Hin.
  pose proof (proj1 (Forall_forall _ _) (fits_names _ Hf Ht) n Hin) as (Hz & Hl & Hb). done.
Qed.

Lemma longer_length (line t : list Z) : line `prefix_of` t -> (if (length line <? length t)%nat then length t else length line) = length t.
Proof using Type. intros Hp. apply prefix_length in Hp. destruct (Nat.ltb_spec (length line) (length t)); lia. Qed.

(** Several matches: the line becomes their common part. *)
Lemma tab_common_runs buflen s line h i ms n ns : fits buflen -> line <> [] -> editing buflen s line h ->
  Forall2 named (i :: ms) (n :: ns) ->
  Forall (fun n => (name_ok n /\ line `prefix_of` n) /\ (length n + 2 <= buflen)%nat) (n :: ns) ->
  exists s', ('(tmp, s) ← show_matches (i :: ms) (replicate (S CONFIG_TASK_NAME_SIZE) 0) (readline_putc 10 s);
      name ← rl_string tmp;
      b ← rl_strlcpy (rl_buf s) name buflen;
      let s := set_buf b s in
      let s := match g_readline_prompt s with Some p => put_string p s | None => s end in
      s ← show_buf (length name) s;
      Done ((if (length line <? length name)%nat then length name else length line), s)) =
    Done (length (foldl meet n ns), s') /\ editing buflen s' (foldl meet n ns) h /\ quiet_in s s'.
Proof using Type.
  intros Hf Hne [Hsz Hroom Hnz [rest Hb] Hs] Hms Hok. apply Forall_cons_1 in Hok as Hok'. destruct Hok' as [[[[Hz Hl] Hp] Hbl] _].
  assert (Forall (fun n => name_ok n /\ line `prefix_of` n) (n :: ns)) as Hall by (eapply Forall_impl; [|exact Hok]; by intros ? []).
  destruct (show_all_runs line i ms n ns (readline_putc 10 s) Hne Hms Hall) as (junk & s1 & E1 & Q1). rewrite E1. cbn [mbind run_bind].
  set (t := foldl meet n ns) in *. apply Forall_cons_1 in Hall as Hall'. destruct Hall' as [_ Hall'].
  destruct (folded_meet line ns n Hp ltac:(eapply Forall_impl; [|exact Hall']; by intros ? [])) as [Hlt [r Hr]]. fold t in Hlt, Hr.
  assert (nonzero t) as Htz by (unfold nonzero in *; rewrite Hr in Hz; by apply Forall_app in Hz as [Hz _]).
  assert (length t + 2 <= buflen)%nat as Htl by (rewrite Hr, length_app in Hbl; lia).
  rewrite rl_string_runs by done. cbn [mbind run_bind]. assert (quiet_out s s1) as Q by (eapply quiet_out_trans; [apply putc_quiet|done]).
  rewrite strlcpy_fits by (rewrite ?(qo_buf _ _ Q); lia). cbn [mbind run_bind].
  set (b := t ++ 0 :: drop (S (length t)) (rl_buf s1)). set (s2 := set_buf b s1).
  assert (exists s3, (match g_readline_prompt s2 with Some p => put_string p s2 | None => s2 end) = s3 /\ quiet_out s2 s3) as (s3 & -> & Q3)
    by (destruct (g_readline_prompt s2); eexists; (split; [reflexivity|]); [apply put_string_quiet|apply quiet_out_refl]).
  assert (length b = buflen) as Hbl2 by (unfold b; rewrite length_app; cbn [length]; rewrite length_drop, (qo_buf _ _ Q); lia).
  unfold show_buf. rewrite (qo_buf _ _ Q3). cbn [rl_buf s2 set_buf]. rewrite (proj2 (Nat.leb_le _ _)) by lia. cbn [mbind run_bind].
  rewrite longer_length by done. eexists. split; [reflexivity|]. pose proof (put_string_quiet (take (length t) b) s3) as Q4.
  pose proof (quiet_out_trans _ _ _ Q3 Q4) as Q5. split; [eapply editing_quiet; [|exact Q5]|].
  + constructor; [done|done|done|by eexists|]. cbn [s2 set_buf g_cmdhist]. by rewrite (qo_hist _ _ Q).
  + eapply quiet_in_trans; [apply quiet_out_in, Q|]. eapply quiet_in_trans; [|apply quiet_out_in, Q5]. done.
Qed.

Lemma tab_runs buflen s line h : fits buflen -> CONFIG_READLINE_TABCOMPLETION = true -> editing buflen s line h ->
  exists s', tab_completion buflen (length line) s = Done (length (completed line), s') /\ editing buflen s' (completed line) h /\ quiet_in s s'.
Proof using Type.
  intros Hf Ht He. destruct He as [Hsz Hroom Hnz [rest Hb] Hs]. unfold tab_completion.
  destruct line as [|c line0] eqn:El; [exists s; split; [done|]; split; [|done]; constructor; try done; by exists rest|]. rewrite <- El in *.
  rewrite (proj2 (Nat.leb_le 1 (length line))) by (rewrite El; simpl; lia). rewrite Hb.
  destruct (count_runs line rest Hnz) as (ms & E & Hms). rewrite E. cbn [mbind run_bind].
  pose proof (matching_ok buflen line Hf Ht) as Hok. pose proof (Forall2_length Hms) as Hlen.
  assert (completed line = match matching line with [] => line | n :: ns => foldl common n ns end) as -> by (rewrite El; unfold completed; by destruct (matching _)).
  destruct (matching line) as [|n ns] eqn:Em; [|rewrite (matching_common buflen line n ns Hf Ht Em)].
  { destruct ms; [|done]. cbn [length Nat.eqb Nat.ltb Nat.leb]. exists s. split; [done|]. split; [|done]. constructor; try done. by exists rest. }
  destruct ms as [|i ms]; [done|]. apply Forall_cons_1 in Hok as Hok'. destruct Hok' as [[[[Hz Hl] Hp] Hbl] Hns].
  destruct ns as [|n' ns].
  - destruct ms; [|done]. cbn [length Nat.eqb hd foldl]. apply Forall2_cons_1 in Hms as [Hi _]. rewrite (getname_runs i n Hi). cbn [mbind run_bind].
    destruct Hp as [r Hr]. assert (drop (length line) n = r) as -> by (by rewrite Hr, drop_app_length).
    destruct (complete_loop_runs r s line rest Hb) as (s' & E' & Hb' & Hh' & Hq').
    { rewrite Hr, length_app in Hbl. rewrite Hb, length_app in Hsz. lia. }
    rewrite E'. cbn [mbind run_bind]. rewrite longer_length by (by exists r). exists s'. split; [done|]. split; [|done].
    constructor; [|done|done| |by rewrite Hh'].
    + rewrite Hb', !length_app, length_drop. rewrite Hr, length_app in Hbl. rewrite Hb, length_app in Hsz. lia.
    + exists (drop (length r) rest). by rewrite Hb', Hr, <- (assoc_L (++)).
  - cbn [length] in Hlen. replace (length (i :: ms) =? 1)%nat with false by (symmetry; apply Nat.eqb_neq; simpl; lia).
    rewrite (proj2 (Nat.ltb_lt 1 (length (i :: ms)))) by (simpl; lia).
    by apply (tab_common_runs buflen s line h i ms n (n' :: ns)); [done|by rewrite El|constructor; try done; by exists rest|done|exact Hok].
Qed.
End tab.
