(* ===== verification/ReadlineTheorems.v ===== *)
(** * ReadlineTheorems: what the theorems about the line editor say

    Sessions of the line editor refine the abstract editor of ReadlineSpec.v; without history and
    completion it is the reader that scripts use. *)

From stdpp Require Import strings.
From S2P Require Import Prelude Readline ReadlineSpec ReadlineSim ReadlineTab.
From S2P Require Import NshParse.
#[local] Open Scope Z_scope.

Section theorems.
Context `{RlConfig}.

(** ** One key *)

(** The line [l] was returned. *)
Record returned (buflen : nat) (s : rl) (l : list Z) (h : ed_hist) : Prop := {
  ret_size : length (rl_buf s) = buflen;
  ret_mem : l <> [] -> exists junk, rl_buf s = l ++ 0 :: junk;
  ret_hist : hist_sim (g_cmdhist s) h }.

Lemma ed_key_skip skip1 skip2 buflen ch esc line h e l h' :
  ed_key skip1 buflen ch esc line h = (EdContinue e l, h') -> ed_key skip2 buflen ch esc line h = (EdContinue e l, h').
Proof using Type. unfold ed_key. by destruct (negb (esc =? 0)), (ch =? ASCII_BS), (ch =? ASCII_DEL), (ch =? ASCII_ESC), (ch =? 10). Qed.

(** A character and the terminator behind the line. *)
Lemma put_two buflen s line h c : editing buflen s line h ->
  exists s', (s ← buf_put (length line) c s; buf_put (length line + 1) 0 s) = Done s' /\
    g_cmdhist s' = g_cmdhist s /\ quiet_in s s' /\ length (rl_buf s') = buflen /\ exists junk, rl_buf s' = (line ++ [c]) ++ 0 :: junk.
Proof using Type.
  intros [Hsz Hroom Hnz [rest Hb] Hs]. assert (2 <= length rest)%nat as Hr by (rewrite Hb, length_app in Hsz; lia).
  destruct rest as [|x [|y rest]]; [simpl in Hr; lia|simpl in Hr; lia|].
  destruct (buf_put_end s line _ c Hb ltac:(done)) as (s1 & E1 & Hb1 & Hh1 & Hq1). rewrite E1. cbn [mbind run_bind].
  change (drop 1 (x :: y :: rest)) with (y :: rest) in Hb1. replace (line ++ c :: y :: rest) with ((line ++ [c]) ++ y :: rest) in Hb1 by (by rewrite <- (assoc_L (++))).
  destruct (buf_put_end s1 (line ++ [c]) _ 0 Hb1 ltac:(done)) as (s2 & E2 & Hb2 & Hh2 & Hq2). rewrite length_app in E2. cbn [length] in E2.
  exists s2. split; [done|]. split; [congruence|]. split; [by eapply quiet_in_trans|]. rewrite Hb2. split; [|by eexists].
  rewrite Hb, length_app in Hsz. rewrite !length_app. cbn [length] in *. rewrite length_drop. cbn [length]. lia.
Qed.

Definition key_result (buflen : nat) (s s' : rl) (o : ed_outcome * ed_hist) (r : Z + Z * nat) : Prop :=
  quiet_in s s' /\
  match o with
  | (EdReturn ret l, h) => r = inl ret /\ returned buflen s' l h
  | (EdContinue esc l, h) => r = inr (esc, length l) /\ editing buflen s' l h
  end.

Lemma newline_runs buflen s line h : fits buflen -> editing buflen s line h ->
  exists skip s', (s ← save_history (length line) s; s ← buf_put (length line) 10 s; s ← buf_put (length line + 1) 0 s;
      Done (inl (B := Z * nat) (Z.of_nat (length line + 1)), s)) = Done (inl (zlen line + 1), s') /\
    returned buflen s' (line ++ [10]) (eh_enter skip line h) /\ quiet_in s s'.
Proof using Type.
  intros Hf He. destruct (save_history_runs buflen s line h Hf He) as (skip & s1 & E1 & Hb1 & Hh1 & Q1). rewrite E1. cbn [mbind run_bind].
  assert (editing buflen s1 line (eh_enter skip line h)) as He1 by (destruct He; constructor; rewrite ?Hb1; done).
  destruct (put_two buflen s1 line _ 10 He1) as (s2 & E2 & Hh2 & Q2 & Hl2 & Hm2). exists skip, s2.
  destruct (buf_put (length line) 10 s1) as [s3| |]; cbn [mbind run_bind] in *; [|done|done]. rewrite E2. cbn [mbind run_bind].
  split; [by rewrite Nat2Z.inj_add|]. split; [constructor; [done|done|by rewrite Hh2]|by eapply quiet_in_trans].
Qed.

Lemma char_runs buflen s line h c : (32 <= c < 256) -> editing buflen s line h ->
  exists r s', (s ← buf_put (length line) c s;
      let nch := (length line + 1)%nat in
      if (buflen <=? nch + 1)%nat then s ← buf_put nch 0 s; Done (inl (Z.of_nat nch), s) else Done (inr (0, nch), s)) = Done (r, s') /\
    key_result buflen s s' (if (buflen <=? length line + 2)%nat then (EdReturn (zlen line + 1) (line ++ [c]), h) else (EdContinue 0 (line ++ [c]), h)) r.
Proof using Type.
  intros Hc He. pose proof He as [Hsz Hroom Hnz [rest Hb] Hs]. cbv zeta. replace (length line + 1 + 1)%nat with (length line + 2)%nat by lia.
  destruct (Nat.leb_spec buflen (length line + 2)) as [Hle|Hlt].
  - destruct (put_two buflen s line h c He) as (s2 & E2 & Hh2 & Q2 & Hl2 & Hm2).
    destruct (buf_put (length line) c s) as [s3| |]; cbn [mbind run_bind] in *; [|done|done]. rewrite E2. cbn [mbind run_bind].
    eexists _, s2. split; [reflexivity|]. split; [done|]. split; [unfold zlen; f_equal; lia|]. constructor; [done|done|by rewrite Hh2].
  - assert (rest <> []) as Hne by (intros ->; rewrite app_nil_r in Hb; rewrite Hb in Hsz; lia).
    destruct (buf_put_end s line rest c Hb Hne) as (s1 & E1 & Hb1 & Hh1 & Hq1). rewrite E1. cbn [mbind run_bind].
    eexists _, s1. split; [reflexivity|]. split; [done|]. rewrite length_app. split; [done|]. constructor.
    + destruct rest as [|d rest]; [done|]. rewrite <- Hsz, Hb1, Hb, !length_app. done.
    + rewrite length_app. simpl. lia.
    + apply Forall_app. split; [done|]. constructor; [lia|constructor].
    + exists (drop 1 rest). by rewrite Hb1, <- (assoc_L (++)).
    + by rewrite Hh1.
Qed.

Lemma iscntrl_byte ch : is_byte ch -> rl_iscntrl (Z.land ch 255) = rl_iscntrl ch /\ (rl_iscntrl ch = false -> 32 <= ch).
Proof using Type.
  intros Hb. unfold is_byte in Hb. change 255 with (Z.ones 8). rewrite Z.land_ones, Z.mod_small by lia. split; [done|].
  unfold rl_iscntrl. intros Hc. apply orb_false_iff in Hc as [Hc _]. apply Z.ltb_ge in Hc. lia.
Qed.

Lemma backspace_runs buflen s line h : editing buflen s line h ->
  exists s', (if (0 <? length line)%nat then Done (inr (A := Z) (0, (length line - 1)%nat), echo_erase s) else Done (inr (0, length line), s)) =
      Done (inr (0, length (removelast line)), s') /\ editing buflen s' (removelast line) h /\ quiet_in s s'.
Proof using Type.
  intros He. destruct (decide (line = [])) as [->|Hne]; [by exists s|]. rewrite (proj2 (Nat.ltb_lt _ _)) by (destruct line; [done|simpl; lia]).
  exists (echo_erase s). pose proof (erase_quiet s) as Q. destruct (exists_last Hne) as (l & c & ->). rewrite removelast_last.
  split; [rewrite length_app; cbn [length]; by rewrite Nat.add_sub|]. split; [|by apply quiet_out_in].
  eapply editing_quiet; [|exact Q]. destruct He as [Hsz Hroom Hnz [rest Hb] Hs]. rewrite length_app in Hroom. apply Forall_app in Hnz as [Hnz _].
  constructor; try done; [lia|]. exists (c :: rest). by rewrite Hb, <- (assoc_L (++)).
Qed.

Lemma key_runs buflen s line h ch esc : fits buflen -> editing buflen s line h -> is_byte ch ->
  exists skip r s', readline_key buflen ch esc (length line) s = Done (r, s') /\
    key_result buflen s s' (ed_key skip buflen ch esc line h) r.
Proof using Type.
  intros Hf He Hb. destruct (iscntrl_byte ch Hb) as [Ec Hp]. unfold readline_key, ed_key.
  replace (ch =? RL_EOF) with false by (symmetry; apply Z.eqb_neq; unfold is_byte, RL_EOF in *; lia). rewrite Ec.
  assert (forall e, key_result buflen s s (EdContinue e line, h) (inr (e, length line))) as Hstay by (split; [by constructor|done]).
  destruct (Z.eqb_spec esc 0) as [->|Hesc]; cbn [negb].
  2: { destruct (negb (ch =? ASCII_LBRACKET) || (esc =? 2)); [|exists false; by eauto].
       destruct (history_key_runs buflen s line h ch Hf He) as (s' & E & He' & Q). rewrite E. cbn [mbind run_bind].
       exists false. eexists _, s'. split; [reflexivity|]. unfold after_arrow in *. by destruct (bool_decide (eh_lines h = [])). }
  destruct ((ch =? ASCII_BS) || (ch =? ASCII_DEL)).
  { destruct (backspace_runs buflen s line h He) as (s' & E & He' & Q). exists false. by eexists _, s'. }
  destruct (ch =? ASCII_ESC); [exists false; by eauto|]. destruct (ch =? 10).
  { destruct (newline_runs buflen s line h Hf He) as (skip & s' & E & Hr & Q). exists skip. by eexists _, s'. }
  destruct (rl_iscntrl ch) eqn:Ei; cbn [negb].
  - destruct (CONFIG_READLINE_TABCOMPLETION) eqn:Et; cbn [andb]; [|exists false; by eauto].
    destruct (ch =? 9); [|exists false; by eauto]. destruct (tab_runs buflen s line h Hf Et He) as (s' & E & He' & Q).
    rewrite E. cbn [mbind run_bind]. exists false. by eexists _, s'.
  - destruct (char_runs buflen s line h ch) as (r & s' & E & Hk); [unfold is_byte in Hb; specialize (Hp eq_refl); lia|done|].
    exists false, r, s'. done.
Qed.

(** ** A line *)

Definition rd_ok (r : rd) : Prop := match r with RdChar c => is_byte c | _ => True end.

(** The result of a call that the abstract editor explains. *)
Definition explained (buflen : nat) (esc : Z) (line : list Z) (h : ed_hist) (s : rl) (ret : Z) (s' : rl) : Prop :=
  exists skip l h' rest, edit skip buflen esc line h (rl_in s) = (ret, l, h', rest) /\ rl_in s' = rest /\
    returned buflen s' l h' /\ g_readline_prompt s' = g_readline_prompt s /\ rl_canon s' = rl_canon s.

Lemma eof_runs buflen s line h esc : editing buflen s line h ->
  exists s', readline_key buflen RL_EOF esc (length line) s = Done (inl (ed_end line), s') /\ returned buflen s' line h /\ quiet_in s s'.
Proof using Type.
  intros [Hsz Hroom Hnz [rest Hb] Hs]. unfold readline_key, ed_end. rewrite Z.eqb_refl. destruct (decide (line = [])) as [->|Hne].
  { rewrite bool_decide_true by done. exists s. cbn. split; [done|]. split; [by constructor|by constructor]. }
  rewrite bool_decide_false by done. rewrite (proj2 (Nat.ltb_lt 0 (length line))) by (destruct line; [done|simpl; lia]).
  assert (rest <> []) as Hr by (intros ->; rewrite app_nil_r in Hb; rewrite Hb in Hsz; lia).
  destruct (buf_put_end s line rest 0 Hb Hr) as (s' & E & Hb' & Hh & Q). rewrite E. cbn [mbind run_bind]. exists s'.
  split; [done|]. split; [|done]. constructor; [|intros _; by eexists|by rewrite Hh].
  rewrite Hb', <- Hsz, Hb, !length_app. destruct rest; [done|]. cbn [length]. rewrite length_drop. cbn [length]. lia.
Qed.

Lemma editing_in buflen s line h i : editing buflen s line h -> editing buflen (set_in i s) line h.
Proof using Type. intros []. by constructor. Qed.

(** The rest of the input behind the character that was read, or behind the end. *)
Lemma getc_cases i : Forall rd_ok i ->
  (exists ch j, getc_loop i = (ch, j) /\ is_byte ch /\ Forall rd_ok j /\ (length j < length i)%nat /\
     forall skip buflen esc line h, edit skip buflen esc line h i = edit skip buflen esc line h (RdChar ch :: j)) \/
  (exists j, getc_loop i = (RL_EOF, j) /\ (length j <= length i)%nat /\
     forall skip buflen esc line h, edit skip buflen esc line h i = (ed_end line, line, h, j)).
Proof using Type.
  induction 1 as [|[c| |] i Hc Hi IH]; cbn [getc_loop].
  - right. by exists [].
  - left. exists c, i. repeat (split; [done|]). split; [simpl; lia|done].
  - destruct IH as [(ch & j & E & Hb & Hj & Hl & He)|(j & E & Hl & He)]; [left; exists ch, j|right; exists j]; repeat (split; [done || (simpl; lia)|]); done.
  - right. exists i. split; [done|]. split; [simpl; lia|done].
Qed.

Lemma loop_runs buflen : fits buflen -> forall fuel s line h esc, Forall rd_ok (rl_in s) -> editing buflen s line h ->
  (length (rl_in s) < fuel)%nat -> exists ret s', readline_loop fuel buflen esc (length line) s = Done (ret, s') /\
    explained buflen esc line h s ret s'.
Proof using Type.
  intros Hf fuel. induction fuel as [|fuel IH]; intros s line h esc Hi He Hlen; [lia|]. cbn [readline_loop]. unfold readline_getc, explained.
  destruct (getc_cases (rl_in s) Hi) as [(ch & j & E & Hb & Hj & Hl & Hed)|(j & E & Hl & Hed)]; rewrite E.
  - pose proof (editing_in buflen s line h j He) as He'. destruct (key_runs buflen (set_in j s) line h ch esc Hf He' Hb) as (skip & r & s1 & Er & Q & Hr).
    rewrite Er. cbn [mbind run_bind]. destruct (ed_key skip buflen ch esc line h) as [[ret l|esc' l] h'] eqn:Ek.
    + destruct Hr as [-> Hret]. exists ret, s1. split; [done|]. exists skip, l, h', j. rewrite Hed. cbn [edit]. rewrite Ek.
      split; [done|]. split; [by rewrite (qi_in _ _ Q)|]. split; [done|]. split; [by rewrite (qi_prompt _ _ Q)|by rewrite (qi_canon _ _ Q)].
    + destruct Hr as [-> He1]. pose proof (qi_in _ _ Q) as Qi. cbn [rl_in set_in] in Qi.
      destruct (IH s1 l h' esc') as (ret & s' & E' & skip' & l' & h2 & rest & Eed & Hrest & Hret & Hp & Hc); [by rewrite Qi|done|rewrite Qi; lia|].
      exists ret, s'. split; [done|]. exists skip', l', h2, rest. rewrite Hed. cbn [edit]. rewrite (ed_key_skip skip skip' _ _ _ _ _ _ _ _ Ek).
      rewrite Qi in Eed. split; [done|]. split; [done|]. split; [done|]. rewrite Hp, Hc. split; [by rewrite (qi_prompt _ _ Q)|by rewrite (qi_canon _ _ Q)].
  - destruct (eof_runs buflen (set_in j s) line h esc (editing_in buflen s line h j He)) as (s1 & Er & Hret & Q). rewrite Er. cbn [mbind run_bind].
    exists (ed_end line), s1. split; [done|]. exists false, line, h, j. rewrite Hed.
    split; [done|]. split; [by rewrite (qi_in _ _ Q)|]. split; [done|]. split; [by rewrite (qi_prompt _ _ Q)|by rewrite (qi_canon _ _ Q)].
Qed.

Lemma common_line_runs buflen s h : fits buflen -> Forall rd_ok (rl_in s) -> length (rl_buf s) = buflen -> hist_sim (g_cmdhist s) h ->
  exists ret s', readline_common buflen s = Done (ret, s') /\ explained buflen 0 [] h s ret s'.
Proof using Type.
  intros Hf Hi Hl Hh. unfold readline_common. destruct (Nat.ltb_spec buflen 2) as [Hb|_]; [pose proof (fits_buf _ Hf); lia|].
  assert (editing buflen s [] h) as He by (constructor; [done|apply Hf|constructor|by eexists|done]).
  assert (exists s1, (if CONFIG_READLINE_ECHO then readline_write g_erasetoeol s else s) = s1 /\ quiet_out s s1) as (s1 & -> & Q)
    by (destruct CONFIG_READLINE_ECHO; eexists; (split; [reflexivity|]); [apply write_quiet|apply quiet_out_refl]).
  pose proof (editing_quiet _ _ _ _ _ He Q) as He1. cbv zeta. rewrite (qo_in _ _ Q).
  destruct (loop_runs buflen Hf (S (length (rl_in s))) s1 [] h 0) as (ret & s' & E & skip & l & h' & rest & Ex); [by rewrite (qo_in _ _ Q)|done|rewrite (qo_in _ _ Q); lia|].
  exists ret, s'. split; [exact E|]. exists skip, l, h', rest. by rewrite (qo_in _ _ Q), (qo_prompt _ _ Q), (qo_canon _ _ Q) in Ex.
Qed.

Lemma fd_line_runs buflen s h buf outfd : fits buflen -> Forall rd_ok (rl_in s) -> length buf = buflen -> hist_sim (g_cmdhist s) h ->
  exists ret s', readline_fd buf buflen outfd s = Done (ret, s') /\ explained buflen 0 [] h s ret s'.
Proof using Type.
  intros Hf Hi Hl Hh. unfold readline_fd. cbn [rl_canon set_buf].
  set (cfg := default false (rl_canon s)). set (s1 := set_outfd outfd (if cfg then set_canon (Some false) (set_buf buf s) else set_buf buf s)).
  assert (rl_in s1 = rl_in s /\ rl_buf s1 = buf /\ g_cmdhist s1 = g_cmdhist s /\ g_readline_prompt s1 = g_readline_prompt s /\
    rl_canon s1 = if cfg then Some false else rl_canon s) as (Ei & Eb & Eh & Ep & Ec) by (unfold s1; by destruct cfg).
  destruct (common_line_runs buflen s1 h Hf) as (ret & s2 & E & skip & l & h' & rest & Eed & Er & [Hr1 Hr2 Hr3] & Hp & Hc);
    [by rewrite Ei|by rewrite Eb|by rewrite Eh|]. cbv zeta. rewrite E. cbn [mbind run_bind]. rewrite Ei in Eed. rewrite Ep in Hp. rewrite Ec in Hc.
  eexists ret, _. split; [reflexivity|]. exists skip, l, h', rest. split; [done|].
  assert (cfg = true -> rl_canon s = Some true) as Hcfg by (unfold cfg; by destruct (rl_canon s) as [[]|]).
  destruct cfg; (split; [done|]); (split; [by constructor|]); (split; [done|]); [by rewrite Hcfg|done].
Qed.

(** ** Sessions *)

Fixpoint edit_lines (skips : list bool) (buflen : nat) (h : ed_hist) (i : list rd) : list (Z * list Z) * ed_hist * list rd :=
  match skips with
  | [] => ([], h, i)
  | skip :: skips =>
      let '(ret, l, h, i) := edit skip buflen 0 [] h i in
      let '(rets, h, i) := edit_lines skips buflen h i in
      ((ret, l) :: rets, h, i)
  end.

(** One call for each buffer: the return values and the characters that were returned. *)
Fixpoint run_lines (buflen : nat) (outfd : Z) (bufs : list (list Z)) (s : rl) : run (list (Z * list Z) * rl) :=
  match bufs with
  | [] => Done ([], s)
  | buf :: bufs =>
      '(ret, s) ← readline_fd buf buflen outfd s;
      let l := take (Z.to_nat ret) (rl_buf s) in
      '(rets, s) ← run_lines buflen outfd bufs s;
      Done ((ret, l) :: rets, s)
  end.

Lemma edit_result skip buflen i : Forall rd_ok i -> forall esc line h ret l h' rest,
  edit skip buflen esc line h i = (ret, l, h', rest) -> Forall rd_ok rest /\ ((ret = RL_EOF /\ l = []) \/ (ret = zlen l /\ l <> [])).
Proof using Type.
  assert (forall l, (ed_end l = RL_EOF /\ l = []) \/ (ed_end l = zlen l /\ l <> [])) as Hend
    by (intros l; unfold ed_end; destruct (decide (l = [])); [rewrite bool_decide_true by done; by left|rewrite bool_decide_false by done; by right]).
  assert (forall (line : list Z) c, zlen (line ++ [c]) = zlen line + 1) as Hone by (intros; by rewrite zlen_app).
  induction 1 as [|[c| |] i Hc Hi IH]; intros esc line h ret l h' rest; cbn [edit].
  - intros [= <- <- <- <-]. split; [constructor|apply Hend].
  - destruct (ed_key skip buflen c esc line h) as [[r l1|e l1] h1] eqn:E; [|apply IH]. intros [= <- <- <- <-]. split; [done|]. right.
    unfold ed_key in E. repeat (case_match; simplify_eq); rewrite Hone; by (split; [|destruct line]).
  - apply IH.
  - intros [= <- <- <- <-]. split; [done|apply Hend].
Qed.

Lemma returned_take buflen s l h ret : returned buflen s l h -> (ret = RL_EOF /\ l = []) \/ (ret = zlen l /\ l <> []) -> take (Z.to_nat ret) (rl_buf s) = l.
Proof using Type.
  intros [_ Hm _] [[-> ->]|[-> Hne]]; [done|]. destruct (Hm Hne) as [junk ->]. unfold zlen. by rewrite Nat2Z.id, take_app_length.
Qed.

(** C10. The line editor refines the abstract editor.  Over any input, with interrupted and failing
    reads and writes, a session of calls on buffers with any contents returns the lines that the
    abstract editor produces: characters and backspaces edit the end of the line, the arrow keys
    recall the lines of the history, newest first, from the circular buffer, a tab completes the
    line to the longest common beginning of the names that extend it, and a full buffer or the end
    of the input ends the line.  Any other escape sequence replaces the line by the one at the
    current position of the history, which is the empty line before an arrow key was used
    ([left_arrow_clears]).  Every access stays inside the buffers, every call returns, and the
    terminal's mode is restored.  A line that is entered is kept, up to the length of a record,
    as the newest of the history, unless the newest line begins with it.  This is for buffers
    that hold a line of the history or a name and two characters more, and for names none of
    which is a beginning of an earlier one ([completion_overshoots]). *)
Theorem readline_session_refines buflen outfd bufs s h : fits buflen -> Forall rd_ok (rl_in s) ->
  hist_sim (g_cmdhist s) h -> Forall (fun b => length b = buflen) bufs ->
  exists skips s', length skips = length bufs /\
    run_lines buflen outfd bufs s = Done ((edit_lines skips buflen h (rl_in s)).1.1, s') /\
    hist_sim (g_cmdhist s') (edit_lines skips buflen h (rl_in s)).1.2 /\
    rl_in s' = (edit_lines skips buflen h (rl_in s)).2 /\ rl_canon s' = rl_canon s.
Proof.
  intros Hf Hi Hh Hb. revert s h Hi Hh. induction Hb as [|b bufs Hlen _ IH]; intros s h Hi Hh; [by exists [], s|].
  destruct (fd_line_runs buflen s h b outfd Hf Hi Hlen Hh) as (ret & s1 & E & skip & l & h1 & rest & Eed & Er & Hret & _ & Hc).
  destruct (edit_result skip buflen (rl_in s) Hi _ _ _ _ _ _ _ Eed) as [Hrest Hl].
  destruct (IH s1 h1) as (skips & s' & Hn & E' & Hh' & Hi' & Hc'); [by rewrite Er|apply Hret|].
  exists (skip :: skips), s'. cbn [length edit_lines run_lines]. rewrite E. cbn [mbind run_bind]. rewrite E', Eed. cbn [mbind run_bind].
  rewrite (returned_take _ _ _ _ _ Hret Hl). rewrite Er in *. destruct (edit_lines skips buflen h1 rest) as [[rets h2] j].
  split; [by rewrite Hn|]. split; [done|]. split; [done|]. split; [done|]. by rewrite Hc'.
Qed.

(** ** The reader of scripts *)

Lemma edit_script skip buflen : CONFIG_READLINE_CMD_HISTORY = false -> CONFIG_READLINE_TABCOMPLETION = false ->
  forall cs esc line n h, eh_lines h = [] ->
  exists k, NshParse.readline_loop buflen esc line n cs = ((edit skip buflen esc line h (RdChar <$> cs)).1.1.1, (edit skip buflen esc line h (RdChar <$> cs)).1.1.2, n + Z.of_nat k) /\
    (edit skip buflen esc line h (RdChar <$> cs)).2 = RdChar <$> drop k cs.
Proof using Type.
  intros Hhist Htab cs. induction cs as [|c cs IH]; intros esc line n h Hh.
  - exists 0%nat. rewrite Z.add_0_r. cbn [fmap list_fmap edit NshParse.readline_loop drop fst snd]. unfold ed_end. split; [|done].
    destruct line; [done|]. by rewrite bool_decide_false.
  - assert (forall esc line h, eh_lines h = [] -> exists k,
      NshParse.readline_loop buflen esc line (n + 1) cs = ((edit skip buflen esc line h (RdChar <$> cs)).1.1.1, (edit skip buflen esc line h (RdChar <$> cs)).1.1.2, n + Z.of_nat k) /\
      (edit skip buflen esc line h (RdChar <$> cs)).2 = RdChar <$> drop k (c :: cs)) as Hstep.
    { intros esc' line' h' Hh'. destruct (IH esc' line' (n + 1) h' Hh') as (k & E1 & E2). exists (S k). rewrite E1, E2. split; [f_equal; lia|done]. }
    rewrite fmap_cons. cbn [edit NshParse.readline_loop]. unfold ed_key. rewrite Htab. cbn [andb].
    destruct (Z.eqb_spec esc 0) as [->|Hesc]; cbn [negb].
    2: { unfold ASCII_LBRACKET. destruct (negb (c =? 91) || (esc =? 2)); [rewrite bool_decide_true by done|]; by apply Hstep. }
    unfold ASCII_BS, ASCII_DEL, ASCII_ESC. destruct ((c =? 8) || (c =? 127)).
    { replace (take (length line - 1) line) with (removelast line) by (by rewrite removelast_firstn_len, Nat.sub_1_r). by apply Hstep. }
    destruct (c =? 27); [by apply Hstep|]. destruct (c =? 10); [by exists 1%nat|]. change (NshParse.iscntrl c) with (rl_iscntrl c).
    destruct (rl_iscntrl c); cbn [negb]; [by apply Hstep|]. rewrite length_app. cbn [length]. replace (length line + 1 + 1)%nat with (length line + 2)%nat by lia.
    destruct (buflen <=? length line + 2)%nat; [|by apply Hstep]. exists 1%nat. split; [|done]. by rewrite zlen_app.
Qed.

(** Without history and completion the line editor is the reader that scripts use: on every
    input it returns the value and the line, and consumes the characters, of the model of
    [readline_common] that the shell's scripts are read with, and stores the line and its
    terminator in the caller's buffer. *)
Lemma readline_is_script_reader buflen s cs : CONFIG_READLINE_CMD_HISTORY = false -> CONFIG_READLINE_TABCOMPLETION = false ->
  (2 <= buflen)%nat -> Forall is_byte cs -> rl_in s = RdChar <$> cs -> length (rl_buf s) = buflen ->
  let '(ret, l, n) := NshParse.readline_common buflen cs in
  exists s', readline_common buflen s = Done (ret, s') /\ rl_in s' = RdChar <$> drop (Z.to_nat n) cs /\
    (l <> [] -> exists junk, rl_buf s' = l ++ 0 :: junk).
Proof.
  intros Hh Ht Hb Hcs Hi Hl. assert (fits buflen) as Hf by (constructor; [done|by rewrite Hh|by rewrite Ht|by rewrite Ht]).
  assert (hist_sim (g_cmdhist s) (mkEdHist [] 0)) as Hs by (unfold hist_sim; by rewrite Hh).
  destruct (common_line_runs buflen s (mkEdHist [] 0) Hf) as (ret & s' & E & skip & l & h' & rest & Eed & Er & Hret & _); [by rewrite Hi; apply Forall_fmap|done|done|].
  rewrite Hi in Eed. destruct (edit_script skip buflen Hh Ht cs 0 [] 0 (mkEdHist [] 0) eq_refl) as (k & E1 & E2). rewrite Eed in E1, E2. cbn [fst snd] in E1, E2.
  unfold NshParse.readline_common. rewrite (proj2 (Nat.ltb_ge _ _)) by done. rewrite E1. exists s'. split; [done|].
  rewrite Er, E2, Z.add_0_l, Nat2Z.id. split; [done|]. apply Hret.
Qed.
End theorems.

(** ** A concrete terminal *)

Module ReadlineDemo.
#[export] Instance rl_config : RlConfig := {|
  CONFIG_READLINE_ECHO := true; CONFIG_READLINE_CMD_HISTORY := true; CONFIG_READLINE_TABCOMPLETION := true;
  RL_CMDHIST_LEN := 2; RL_CMDHIST_LINELEN := 16; CONFIG_READLINE_MAX_BUILTINS := 8; CONFIG_TASK_NAME_SIZE := 12;
  builtin_names := [cstr "hello"; cstr "prog1"; cstr "prog12"; cstr "progx"] |}.

(** The same without history and completion. *)
Definition plain_config : RlConfig := {|
  CONFIG_READLINE_ECHO := true; CONFIG_READLINE_CMD_HISTORY := false; CONFIG_READLINE_TABCOMPLETION := false;
  RL_CMDHIST_LEN := 0; RL_CMDHIST_LINELEN := 0; CONFIG_READLINE_MAX_BUILTINS := 0; CONFIG_TASK_NAME_SIZE := 0;
  builtin_names := [] |}.

(** The same with two names in another order. *)
Definition unordered_config : RlConfig := {|
  CONFIG_READLINE_ECHO := true; CONFIG_READLINE_CMD_HISTORY := true; CONFIG_READLINE_TABCOMPLETION := true;
  RL_CMDHIST_LEN := 2; RL_CMDHIST_LINELEN := 16; CONFIG_READLINE_MAX_BUILTINS := 8; CONFIG_TASK_NAME_SIZE := 12;
  builtin_names := [cstr "hello"; cstr "prog12"; cstr "prog1"; cstr "progx"] |}.

Definition fresh_hist : cmdhist_s := mkHist (replicate 2 (replicate 16 0)) 0 0 0.
Definition terminal (i : list rd) (w : list wr) : rl := mkRl i w [] 1 [] fresh_hist None (Some true).
Definition keys (l : list Z) : list rd := RdChar <$> l.
Definition up : list rd := keys [27; 91; 65].
Definition enter : list rd := keys [10].
Definition memory (n : nat) : list Z := replicate n 165.

(** Two lines, the older of them recalled and extended, a name completed. *)
Definition demo_input : list rd :=
  keys (cstr "lsx") ++ [RdIntr] ++ keys [127] ++ enter ++ keys (cstr "ps") ++ enter ++
  up ++ up ++ keys (cstr " -l") ++ enter ++ keys (cstr "pr") ++ keys [9] ++ enter ++ keys (cstr "end").

Lemma fresh_ok : hist_sim fresh_hist (mkEdHist [] 0).
Proof.
  constructor; try done; [cbn; lia|by repeat constructor|]. intros k Hk. cbn in Hk. assert (k = 0%nat) as -> by lia.
  exists (replicate 16 0). split; [done|]. split; [done|]. split; [constructor|]. by exists (replicate 15 0).
Qed.
End ReadlineDemo.
Import ReadlineDemo.

Lemma readline_session_refines_witness : exists (skips : list bool) s',
  run_lines 24 1 (replicate 5 (memory 24)) (terminal demo_input [WrIntr; WrFail; WrZero]) =
    Done ([(3, cstr "ls" ++ [10]); (3, cstr "ps" ++ [10]); (6, cstr "ls -l" ++ [10]); (5, cstr "prog" ++ [10]); (3, cstr "end")], s') /\
  length skips = 5%nat /\ rl_canon s' = Some true.
Proof.
  destruct (readline_session_refines 24 1 (replicate 5 (memory 24)) (terminal demo_input [WrIntr; WrFail; WrZero]) (mkEdHist [] 0))
    as (skips & s' & Hn & E & _ & _ & Hc).
  - constructor; [lia|intros _; vm_compute; lia|intros _|intros _].
    + repeat constructor; try discriminate; vm_compute; lia.
    + repeat (split || apply Forall_cons_2 || apply Forall_nil_2); intros [r Hr]; vm_compute in Hr; discriminate Hr.
  - repeat constructor; vm_compute; discriminate.
  - exact fresh_ok.
  - by repeat constructor.
  - exists skips, s'. split; [|split; [exact Hn|exact Hc]]. revert E. generalize (edit_lines skips 24 (mkEdHist [] 0) (rl_in (terminal demo_input [WrIntr; WrFail; WrZero]))).1.1.
    intros rets E. rewrite E. vm_compute in E. injection E as E _. rewrite <- E. reflexivity.
Defined.

Lemma readline_is_script_reader_witness :
  NshParse.readline_common 24 (cstr "ls" ++ [9; 8; 10; 65]) = (2, cstr "l" ++ [10], 5) /\
  exists s', @readline_common plain_config 24 (set_buf (memory 24) (terminal (keys (cstr "ls" ++ [9; 8; 10; 65])) [])) = Done (2, s') /\
    rl_in s' = keys [65] /\ exists junk, rl_buf s' = cstr "l" ++ [10] ++ 0 :: junk.
Proof.
  split; [vm_compute; reflexivity|].
  pose proof (@readline_is_script_reader plain_config 24 (set_buf (memory 24) (terminal (keys (cstr "ls" ++ [9; 8; 10; 65])) []))
    (cstr "ls" ++ [9; 8; 10; 65]) eq_refl eq_refl ltac:(lia)) as Hr.
  destruct Hr as (s' & E & Hi & Hm); [repeat constructor; vm_compute; discriminate|reflexivity|reflexivity|].
  exists s'. split; [exact E|]. split; [exact Hi|]. destruct (Hm ltac:(discriminate)) as [junk Hj]. exists junk. exact Hj.
Defined.

(** ** Behaviours that are surprising *)

Definition lines_of (r : run (list (Z * list Z) * rl)) : option (list (list Z)) :=
  match r with Done (l, _) => Some l.*2 | _ => None end.

(** [readline] returns its block as it was when there is no line. *)
Lemma readline_returns_garbage :
  match readline 24 (Some (memory 24)) None (terminal [] []) with Done (r, _) => r = Some (memory 24) | _ => False end.
Proof. vm_compute. reflexivity. Qed.

(** The line that [readline] returns ends in the newline, and the prompt is not shown. *)
Lemma readline_keeps_newline :
  match readline 24 (Some (memory 24)) (Some (cstr "> ")) (terminal (keys (cstr "ls") ++ enter) []) with
  | Done (Some l, s) => take 4 l = cstr "ls" ++ [10; 0] /\ rl_out s = g_erasetoeol
  | _ => False
  end.
Proof. vm_compute. done. Qed.

(** A line that was entered in a larger buffer is recalled over the end of a smaller one. *)
Lemma recall_overflows :
  match readline_fd (memory 24) 24 1 (terminal (keys (cstr "a long line") ++ enter ++ up) []) with
  | Done (_, s) => readline_fd (memory 8) 8 1 s = OutOfBounds
  | _ => False
  end.
Proof. vm_compute. reflexivity. Qed.

(** The left arrow, which has no function, clears the line. *)
Lemma left_arrow_clears :
  lines_of (run_lines 24 1 (replicate 2 (memory 24)) (terminal (keys (cstr "ls") ++ enter ++ keys (cstr "rm a") ++ keys [27; 91; 68] ++ enter) [])) =
    Some [cstr "ls" ++ [10]; [10]].
Proof. vm_compute. reflexivity. Qed.

(** The comparison with the newest line reads the character behind the line, which a backspace
    left there: the line is not kept, and the arrow key recalls the one before. *)
Lemma shorter_line_not_kept :
  lines_of (run_lines 24 1 (replicate 3 (memory 24))
    (terminal (keys (cstr "lsx") ++ enter ++ keys (cstr "lsx") ++ keys [127] ++ enter ++ up ++ enter) [])) =
    Some [cstr "lsx" ++ [10]; cstr "ls" ++ [10]; cstr "lsx" ++ [10]].
Proof. vm_compute. reflexivity. Qed.

(** A name that is the beginning of an earlier one does not cut it: the line is completed to
    more than the names have in common. *)
Lemma completion_overshoots : @matching unordered_config (cstr "prog1") = [cstr "prog12"; cstr "prog1"] /\
  lines_of (@run_lines unordered_config 24 1 [memory 24] (terminal (keys (cstr "prog1") ++ keys [9] ++ enter) [])) = Some [cstr "prog12" ++ [10]].
Proof. split; vm_compute; reflexivity. Qed.

(** A name is completed over the end of the buffer. *)
Lemma completion_overflows : readline_fd (memory 5) 5 1 (terminal (keys (cstr "h") ++ keys [9] ++ enter) []) = OutOfBounds.
Proof. vm_compute. reflexivity. Qed.
